(* ===== verification/_CoqProject ===== *)
-Q . S2P
Prelude.v
GoNet.v
IpText.v
Config.v
Session.v
SessionFacts.v
AuthCache.v
Recovery.v
Gtpv2.v
GtpClient.v
GtpRun.v
Gtpu.v
Ipam.v
SessionMap.v
Lifecycle.v
LifecycleFacts.v
LifecycleProps.v
LifecycleOrder.v
Pgw.v
RecoveryRate.v
Crypto.v
Diameter.v
EapAka.v
AkaFacts.v
Netlink.v
Routing.v
UserPlane.v
DataPath.v
UserPlaneFacts.v
AccessSide.v
AccessFacts.v
StaClient.v
StaFacts.v
StaProvider.v
EapChain.v
Radius.v
RadiusFacts.v
RadiusReply.v
RadiusHandler.v
RadiusChain.v
DynAuth.v
Identity.v
PlaneRefines.v
ServicePlane.v
AccessRun.v
Logging.v
Program.v
ProgramFacts.v
Main.v
