(* ===== verification/Prelude.v ===== *)
(** * A trusted WLAN access gateway, verified

    VectorCore TWAG admits Wi-Fi subscribers to a mobile core.  An access point
    sends their EAP packets over RADIUS; the gateway authenticates them at a
    3GPP AAA server over Diameter, opens a session at the PGW over GTPv2-C,
    binds it to a GTP-U tunnel of the Linux kernel, routes the subscriber's
    traffic into the tunnel and serves the subscriber DHCP and ARP.

    This library models the whole program, component by component, with
    executable definitions, and proves what makes each part and their
    composition correct.  [Prelude.v] (this file) holds what the components
    share: record update, the [go] monad, byte strings, list lemmas.

    ** Conventions

    - Integers of Go are [Z]; where their width matters they are wrapped with
      [wrap w].  Bytes are [Z] between 0 and 255, packets [list Z]; strings are
      [string]s of octets.
    - [go A] is [option A].  [None] is a run-time panic, or a loop that would
      not end.  A theorem that says a function returns [Some] therefore says it
      neither panics nor diverges.  Errors are values: [result A E], or an
      [option] of an error where Go returns [error] alone.
    - Go pointers that are stored in several maps are positions in a heap
      ([Session.v]); a handler that reads a session gets a copy, as in Go.
    - The order in which Go iterates over a map is an argument; the theorems
      hold for every order.
    - Loops carry fuel only where recursion is not structural: the DHCP option
      and information element loops ([length] of the packet), the pool loops
      of [Ipam.v] (the size of the pool), the offending TEID loop.  For each of
      them a lemma shows that the fuel given is enough.

    ** Parts, files and sources (under [src/])

    - Configuration ([internal/config/config.go]): [Config.v], [Main.v].
    - Session registry, authentication cache, recovery tombstones
      ([internal/session/]): [Session.v], [AuthCache.v], [Recovery.v]; facts in
      [SessionFacts.v]; the registry as a map in [SessionMap.v].
    - Lifecycle service ([internal/lifecycle/service.go]): [Lifecycle.v], every
      handler in a state monad that asks an environment [Env] for the answers
      of the AAA provider, the PGW, routing, the user plane, the access side
      and the clock, and records each call in a trace.  [LifecycleFacts.v] has
      the weakest preconditions and the invariant, [LifecycleProps.v],
      [LifecycleOrder.v] and [RecoveryRate.v] the guarantees.
    - GTP-C ([internal/gtp/], [internal/pgw/]): codec in [Gtpv2.v], client in
      [GtpClient.v], whole exchanges in [GtpRun.v], the interface the service
      calls in [Pgw.v].
    - GTP-U forwarder ([internal/gtpu/forwarder.go]): [Gtpu.v].
    - Kernel: [Netlink.v] (the operations and their laws), access routes
      ([internal/routing/routing.go]) in [Routing.v], user plane
      ([internal/userplane/userplane.go]) in [UserPlane.v], the two on one set of
      tables in [DataPath.v], start, stop and echo in [UserPlaneFacts.v], the
      refinement in [PlaneRefines.v], the service on top of it in
      [ServicePlane.v].
    - AAA ([internal/diameter/], [internal/aaa/]): [Crypto.v], [Diameter.v],
      [EapAka.v], [AkaFacts.v], [StaClient.v], [StaFacts.v], [StaProvider.v];
      the service on top of them in [EapChain.v].
    - RADIUS ([internal/radius/]): [Radius.v], [RadiusFacts.v], [RadiusReply.v],
      [RadiusHandler.v], [DynAuth.v], [Identity.v]; the program from access
      point to PGW in [RadiusChain.v].
    - Access side ([internal/accessside/]): frames, DHCP policy, ARP and
      neighbours in [AccessSide.v] and [AccessFacts.v], sockets and readers in
      [AccessRun.v].
    - Address pool ([internal/ipam/ipam.go]): [Ipam.v], with [IpText.v].
    - Logging ([internal/logging/logging.go]): [Logging.v].
    - The program ([cmd/twag/main.go], [internal/access/]): [Program.v],
      [ProgramFacts.v], [Main.v].

    How they call each other: [Main.main] loads the configuration and the
    logger and calls [Program.run], which builds, starts and stops the
    components.  [Radius.handle] calls the service through the class
    [EAPService]; [RadiusChain.v] instantiates it with [Lifecycle.ExchangeEAP].
    The service asks its [Env]; [EapChain.with_aaa] puts the provider of
    [StaProvider.v] there, whose client is the class [StaClientOps], discharged
    by [StaClient.v].  The calls [EvAdd] and [EvRemove] of the service's trace
    are the calls whose effect in the kernel [PlaneRefines.v] describes;
    [ServicePlane.v] replays the trace against the kernel.

    ** What the theorems show

    - End to end: an Access-Accept means that the Diameter peer granted the EAP
      packet of that request and that an active session with an address stands
      behind it ([radius_accept_end_to_end]); the other components have the
      PGW session, route, tunnel and access binding of a session exactly while
      it is live, or because they refused to release them
      ([resources_exact]; the service does not ask twice:
      [refused_release_leaks]); the kernel holds exactly the contexts and
      routes of the sessions added and not removed
      ([user_plane_refines_table]), which are the live sessions of the registry
      ([tunnels_are_live_sessions]); what a failed start leaves, and that a
      shutdown in time gives back ([run_start_stop]).
    - Invariants and state machines: registry and cache indexes, the session
      state graph, one live session per subscriber (sessions of one IMSI with
      two MAC addresses are two subscribers to the code, unlike to the README:
      [two_macs_two_sessions]), leases, echo health.
    - Totality and error behaviour: service handlers return and release their
      locks; decoders accept exactly the well-formed packets; exactly which
      packets bring the RADIUS handler down; what each failed step undoes.
    - Codecs: GTPv2-C, GTP-U, Diameter, DHCP, RADIUS keys, addresses.
    - Equivalence with a reference: Milenage against 3GPP TS 35.206, a GTP-C
      transaction against the first matching answer in what it hears.

    ** What is assumed of code that is not under [src/]

    Each assumption is a class or a record, and each has an instance that
    shows it can hold: the kernel ([KernelTables]; and [KernelReliable] where the
    removal of a context or link that exists must not fail, in the theorems on
    the tables after [AddSession] and [RemoveSession] and on the netdev, while
    the service's own theorems hold for refused removals too), the RADIUS packet
    library ([RadiusLaws], instance in [RadiusHandler.v]), the environment of
    the service ([env_ok]: the PGW assigns addresses, the provider returns a
    result or an error, an iteration lists the map), packet sockets ([os_ok]),
    and AES as a permutation of blocks is computed, not assumed.  The YAML
    decoder, [log/slog], the Diameter peer and the clock are arguments.

    ** Interleaving

    The mutexes of the registry, the clients and the forwarder make their
    operations atomic, and their theorems quantify over arbitrary sequences of
    operations.  A GTP-C transaction and an STa request are modelled with
    whatever the other goroutines do between send and wake-up ([GtpRun.v],
    [StaFacts.v]).  Handlers of the lifecycle service run one after the other:
    the per-subscriber locks are modelled and shown to be released, but the
    interleaving of two handlers of different subscribers, or of a handler
    that takes no lock, is not.

    ** Not modelled

    Log lines of the components; the goroutines themselves, timers and
    tickers (a tick or a timeout is a step); socket options and addresses of
    listeners; the text of error messages where only their kind is tested; the
    JSON encoding of [log/slog]; signals (they end the serving phase of
    [Program.run]). *)
From Stdlib Require Export ZArith Lia Ascii.
From stdpp Require Export base gmap strings list fin_maps option pretty relations.

#[export] Set Default Goal Selector "!".

Declare Scope go_scope.
Delimit Scope go_scope with go.

(** * Record update

    [s <| f := v |>] is Go's assignment [s.f = v] on a struct value, and
    [s <| f ::= g |>] is [s.f = g(s.f)].  A record type opts in by an [Eta]
    instance that lists its projections; the update function of a field is
    found by instance search. *)
Class Eta (R : Type) := eta_expand : R -> R.

Class Upd {R T : Type} (proj : R -> T) := upd : (T -> T) -> R -> R.

Arguments upd {R T} proj {_} _ _.

Ltac build_upd proj :=
  lazymatch type of proj with
  | ?R -> ?T =>
    let e := constr:(_ : Eta R) in
    let b := eval hnf in e in
    let x := fresh "x" in
    let g := fresh "g" in
    constr:(fun (g : T -> T) (x : R) =>
      ltac:(let body := eval cbv beta in (b x) in
            let pat := eval pattern (proj x) in body in
            lazymatch pat with
            | ?h _ => let r := eval cbv beta in (h (g (proj x))) in exact r
            end))
  end.

#[global] Hint Extern 1 (Upd ?p) =>
  (let t := build_upd p in exact t) : typeclass_instances.

#[warnings="-postfix-notation-not-level-1"] Notation "s <| f ::= g |>" := (upd f g s)
  (at level 12, f at next level, left associativity) : go_scope.
#[warnings="-postfix-notation-not-level-1"] Notation "s <| f := v |>" := (upd f (fun _ => v) s)
  (at level 12, f at next level, left associativity) : go_scope.

Open Scope go_scope.

(** * Results

    A Go function returning [(T, error)] returns a [result T E]. *)
Inductive result (T E : Type) :=
| Ok (t : T)
| Err (e : E).
Arguments Ok {T E} t.
Arguments Err {T E} e.

Definition is_ok {T E} (r : result T E) : bool :=
  match r with Ok _ => true | Err _ => false end.

(** * Quoting

    [quote] is [strconv.Quote], the [%q] of a format: control characters are
    escaped; the octets of a multi-byte character are kept as they are. *)
Definition double_quote : Ascii.ascii := Ascii.ascii_of_N 34.

Definition hex_digit (n : N) : Ascii.ascii := Ascii.ascii_of_N (if (n <? 10)%N then 48 + n else 87 + n)%N.

Definition quote_char (c : Ascii.ascii) : string :=
  let n := Ascii.N_of_ascii c in
  let esc (d : N) := String.String (Ascii.ascii_of_N 92) (String.String (Ascii.ascii_of_N d) EmptyString) in
  match n with
  | 34 => esc 34 | 92 => esc 92
  | 7 => esc 97 | 8 => esc 98 | 9 => esc 116 | 10 => esc 110 | 11 => esc 118 | 12 => esc 102 | 13 => esc 114
  | _ =>
    if ((n <? 32) || (n =? 127))%N
    then String.app (esc 120) (String.String (hex_digit (n / 16)) (String.String (hex_digit (n mod 16)) EmptyString))
    else String.String c EmptyString
  end%N.

Fixpoint quote_chars (s : string) : string :=
  match s with
  | EmptyString => String.String double_quote EmptyString
  | String.String c s => String.app (quote_char c) (quote_chars s)
  end.

Definition quote (s : string) : string := String.String double_quote (quote_chars s).

(** * Partial operations

    [go A] is a computation that may hit a Go runtime panic (index or slice
    bounds out of range): [None] is the panic.  stdpp's option monad gives
    the sequencing notation. *)
Abbreviation go := option (only parsing).

Definition go_idx (b : list Z) (i : nat) : go Z := b !! i.

(** [b[lo:hi]]: panics unless [lo <= hi <= len(b)]. *)
Definition go_slice (b : list Z) (lo hi : nat) : go (list Z) :=
  if decide (lo <= hi /\ hi <= length b)%nat
  then Some (take (hi - lo) (drop lo b)) else None.

(** [b[lo:]] *)
Definition go_from (b : list Z) (lo : nat) : go (list Z) := go_slice b lo (length b).

(** * Bytes and machine words

    A byte, and every unsigned integer, is a [Z]; the width is written out
    where an operation wraps. *)
Definition byte_ok (b : Z) : Prop := (0 <= b < 256)%Z.

Definition bytes_ok (l : list Z) : Prop := Forall byte_ok l.

Definition u_ok (w z : Z) : Prop := (0 <= z < 2 ^ w)%Z.

Definition wrap (w z : Z) : Z := (z mod 2 ^ w)%Z.

(** [n] bytes of [z], most significant first: [binary.BigEndian.PutUint16],
    [PutUint32] and the three byte stores of [put24]. *)
Fixpoint be (n : nat) (z : Z) : list Z :=
  match n with
  | O => []
  | S k => (Z.shiftr z (8 * Z.of_nat k) mod 256)%Z :: be k z
  end.

(** [binary.BigEndian.Uint16] / [Uint32] *)
Definition be_dec (l : list Z) : Z := fold_left (fun a b => a * 256 + b)%Z l 0%Z.

(** The three byte big-endian read of [read24]. *)
Definition read24 (src : list Z) : Z :=
  Z.lor (Z.lor (Z.shiftl (nth 0 src 0%Z) 16) (Z.shiftl (nth 1 src 0%Z) 8)) (nth 2 src 0%Z).

(** Zero bytes: [make([]byte, n)]. *)
Definition zeros (n : nat) : list Z := repeat 0%Z n.

(** [copy(dst[at:], src)] for a [src] that fits. *)
Definition put_at (dst : list Z) (at_ : nat) (src : list Z) : list Z :=
  take at_ dst ++ src ++ drop (at_ + length src) dst.

(** * Strings

    A Go string is a byte string. *)
Definition bytes_of_string (s : string) : list Z :=
  map (fun c => Z.of_nat (Ascii.nat_of_ascii c)) (String.list_ascii_of_string s).

Definition string_of_bytes (b : list Z) : string :=
  String.string_of_list_ascii (map (fun z => Ascii.ascii_of_nat (Z.to_nat z)) b).

Definition nonempty (s : string) : bool := negb (String.eqb s EmptyString).

(** [x != nil] for a slice value. *)
Definition non_nil {A} (l : list A) : bool := match l with [] => false | _ => true end.

(** The variadic "first non-empty string" helper; the source declares it as
    [coalesceString] (lifecycle, radius), [coalesce] (aaa) and
    [firstNonEmpty] (gtp). *)
Fixpoint coalesce (values : list string) : string :=
  match values with
  | [] => EmptyString
  | v :: rest => if nonempty v then v else coalesce rest
  end.

(** Go's zero value test for [time.Time]; a time is a number of nanoseconds
    since the Unix epoch, the zero time is 1 January of year 1. *)
Abbreviation Time := Z (only parsing).
Definition zeroTime : Time := (-62135596800 * 1000000000)%Z.
Definition IsZero (t : Time) : bool := (t =? zeroTime)%Z.
Definition Second : Z := 1000000000%Z.
Definition Minute : Z := (60 * Second)%Z.

(** * Lemmas and automation *)
Create HintDb bytes discriminated.
Create HintDb go discriminated.

Lemma length_be n z : length (be n z) = n.
Proof. revert z; induction n; simpl; auto. Qed.

Lemma be_bytes_ok n z : bytes_ok (be n z).
Proof.
  induction n; simpl; constructor; auto.
  unfold byte_ok. apply Z.mod_pos_bound; lia.
Qed.

Lemma be_dec_app l b : be_dec (l ++ [b]) = (be_dec l * 256 + b)%Z.
Proof. unfold be_dec. by rewrite fold_left_app. Qed.

Lemma fold_be_shift l a :
  fold_left (fun a b => a * 256 + b)%Z l a = (a * 256 ^ Z.of_nat (length l) + be_dec l)%Z.
Proof.
  unfold be_dec. revert a. induction l as [|x l IH]; intros a; cbn [fold_left length].
  - rewrite Z.pow_0_r. lia.
  - rewrite IH, (IH (0 * 256 + x)%Z), Nat2Z.inj_succ, Z.pow_succ_r by lia. lia.
Qed.

Lemma be_dec_cons x l : be_dec (x :: l) = (x * 256 ^ Z.of_nat (length l) + be_dec l)%Z.
Proof.
  unfold be_dec at 1. cbn [fold_left]. rewrite Z.mul_0_l, Z.add_0_l. apply fold_be_shift.
Qed.

Lemma be_dec_be n z : be_dec (be n z) = (z mod 256 ^ Z.of_nat n)%Z.
Proof.
  induction n as [|n IH]; cbn [be].
  - cbn. by rewrite Z.mod_1_r.
  - rewrite be_dec_cons, length_be, IH, Z.shiftr_div_pow2 by lia.
    rewrite Nat2Z.inj_succ, Z.pow_succ_r by lia.
    replace (2 ^ (8 * Z.of_nat n))%Z with (256 ^ Z.of_nat n)%Z
      by (change 256%Z with (2 ^ 8)%Z; rewrite <- Z.pow_mul_r by lia; f_equal; lia).
    assert (0 < 256 ^ Z.of_nat n)%Z by (apply Z.pow_pos_nonneg; lia).
    rewrite (Z.mul_comm 256), Z.rem_mul_r by lia. lia.
Qed.

Lemma be_dec_bound l : bytes_ok l -> (0 <= be_dec l < 256 ^ Z.of_nat (length l))%Z.
Proof.
  induction 1 as [|x l Hx Hl IH]; [cbn; lia|].
  rewrite be_dec_cons. cbn [length]. rewrite Nat2Z.inj_succ, Z.pow_succ_r by lia.
  unfold byte_ok in Hx. nia.
Qed.

Lemma be_be_dec l : bytes_ok l -> be (length l) (be_dec l) = l.
Proof.
  assert (Hmod : forall n z, be n z = be n (z mod 256 ^ Z.of_nat n)%Z).
  { induction n as [|n IH]; intros z; [done|]. cbn [be].
    assert (0 < 256 ^ Z.of_nat n)%Z by (apply Z.pow_pos_nonneg; lia).
    assert (H2 : (2 ^ (8 * Z.of_nat n) = 256 ^ Z.of_nat n)%Z)
      by (change 256%Z with (2 ^ 8)%Z; rewrite <- Z.pow_mul_r by lia; f_equal; lia).
    rewrite !Z.shiftr_div_pow2, !H2 by lia.
    rewrite Nat2Z.inj_succ, Z.pow_succ_r by lia.
    rewrite (Z.mul_comm 256), (Z.rem_mul_r z) by lia. f_equal.
    - rewrite (Z.mul_comm (256 ^ _)), Z.div_add by lia.
      rewrite (Z.div_small (z mod _)) by (apply Z.mod_pos_bound; lia).
      rewrite Z.add_0_l, Z.mod_mod by lia. done.
    - rewrite IH, (IH (_ + _)%Z). f_equal.
      rewrite (Z.mul_comm (256 ^ _)), Z.mod_add by lia. by rewrite Z.mod_mod by lia. }
  induction 1 as [|x l Hx Hl IH]; [done|]. cbn [length be].
  assert (0 < 256 ^ Z.of_nat (length l))%Z by (apply Z.pow_pos_nonneg; lia).
  assert (H2 : (2 ^ (8 * Z.of_nat (length l)) = 256 ^ Z.of_nat (length l))%Z)
    by (change 256%Z with (2 ^ 8)%Z; rewrite <- Z.pow_mul_r by lia; f_equal; lia).
  pose proof (be_dec_bound l Hl) as Hb. rewrite be_dec_cons. f_equal.
  - rewrite Z.shiftr_div_pow2, H2 by lia.
    rewrite (Z.add_comm (_ * _)), Z.div_add by lia.
    rewrite (Z.div_small (be_dec l)) by lia. rewrite Z.add_0_l.
    apply Z.mod_small, Hx.
  - rewrite Hmod, (Z.add_comm (_ * _)), Z.mod_add by lia.
    rewrite Z.mod_small by lia. exact IH.
Qed.

Lemma read24_be_dec x y z r :
  byte_ok x -> byte_ok y -> byte_ok z -> read24 (x :: y :: z :: r) = be_dec [x; y; z].
Proof.
  unfold byte_ok, read24, be_dec. cbn [nth fold_left]. intros Hx Hy Hz.
  rewrite !Z.shiftl_mul_pow2 by lia.
  assert (Hxy : Z.land (x * 2 ^ 16) (y * 2 ^ 8) = 0%Z).
  { replace (x * 2 ^ 16)%Z with (Z.shiftl (x * 256) 8)
      by (rewrite Z.shiftl_mul_pow2 by lia; lia).
    rewrite <- (Z.shiftl_mul_pow2 y) by lia. rewrite <- Z.shiftl_land.
    replace (Z.land (x * 256) y) with 0%Z; [apply Z.shiftl_0_l|].
    rewrite <- (Z.mod_small y (2 ^ 8)) by lia. rewrite <- Z.land_ones by lia.
    rewrite (Z.land_comm y), Z.land_assoc, Z.land_ones by lia.
    change 256%Z with (2 ^ 8)%Z. by rewrite Z.mod_mul by lia. }
  rewrite <- (Z.lxor_lor _ _ Hxy), <- Z.add_nocarry_lxor by exact Hxy.
  assert (Hz' : Z.land (x * 2 ^ 16 + y * 2 ^ 8) z = 0%Z).
  { rewrite <- (Z.mod_small z (2 ^ 8)) by lia. rewrite <- Z.land_ones by lia.
    rewrite (Z.land_comm z), Z.land_assoc, Z.land_ones by lia.
    replace (x * 2 ^ 16 + y * 2 ^ 8)%Z with ((x * 256 + y) * 2 ^ 8)%Z by lia.
    by rewrite Z.mod_mul by lia. }
  rewrite <- (Z.lxor_lor _ _ Hz'), <- Z.add_nocarry_lxor by exact Hz'. lia.
Qed.

Lemma read24_be z r : (0 <= z < 2 ^ 24)%Z -> read24 (be 3 z ++ r) = z.
Proof.
  intros Hz. cbn [be app].
  rewrite read24_be_dec by (apply Z.mod_pos_bound; lia).
  change [_; _; _] with (be 3 z). rewrite be_dec_be. apply Z.mod_small. lia.
Qed.

Lemma go_slice_mid l1 l2 l3 :
  go_slice (l1 ++ l2 ++ l3) (length l1) (length l1 + length l2) = Some l2.
Proof.
  unfold go_slice. rewrite decide_True by (rewrite !length_app; lia).
  rewrite drop_app_length. replace (_ + _ - _)%nat with (length l2) by lia.
  by rewrite take_app_length.
Qed.

Lemma go_slice_Some b lo hi :
  (lo <= hi)%nat -> (hi <= length b)%nat -> go_slice b lo hi = Some (take (hi - lo) (drop lo b)).
Proof. intros. unfold go_slice. by rewrite decide_True. Qed.

Lemma go_slice_None b lo hi :
  ~ (lo <= hi /\ hi <= length b)%nat -> go_slice b lo hi = None.
Proof. intros. unfold go_slice. by rewrite decide_False. Qed.

Lemma go_from_Some b lo : (lo <= length b)%nat -> go_from b lo = Some (drop lo b).
Proof.
  intros. unfold go_from. rewrite go_slice_Some by lia.
  rewrite take_ge; [done|]. rewrite length_drop. lia.
Qed.

Lemma go_idx_Some b i : (i < length b)%nat -> go_idx b i = Some (nth i b 0%Z).
Proof.
  intros H. unfold go_idx. destruct (lookup_lt_is_Some_2 b i H) as [x Hx].
  rewrite Hx. f_equal. symmetry. by apply nth_lookup_Some.
Qed.

Lemma length_zeros n : length (zeros n) = n.
Proof. apply repeat_length. Qed.

Lemma zeros_ok n : bytes_ok (zeros n).
Proof. induction n; simpl; constructor; auto. unfold byte_ok; lia. Qed.

Lemma bytes_ok_app l1 l2 : bytes_ok (l1 ++ l2) <-> bytes_ok l1 /\ bytes_ok l2.
Proof. apply Forall_app. Qed.

Lemma bytes_ok_cons b l : bytes_ok (b :: l) <-> byte_ok b /\ bytes_ok l.
Proof. apply Forall_cons. Qed.

Lemma bytes_ok_take n l : bytes_ok l -> bytes_ok (take n l).
Proof. apply Forall_take. Qed.

Lemma bytes_ok_drop n l : bytes_ok l -> bytes_ok (drop n l).
Proof. apply Forall_drop. Qed.

Lemma length_put_at dst i src :
  (i + length src <= length dst)%nat -> length (put_at dst i src) = length dst.
Proof.
  intros. unfold put_at. rewrite !length_app, length_take, length_drop. lia.
Qed.

Lemma length_bytes_of_string s : length (bytes_of_string s) = String.length s.
Proof.
  unfold bytes_of_string. rewrite length_map.
  induction s; simpl; auto.
Qed.

Lemma bytes_of_string_ok s : bytes_ok (bytes_of_string s).
Proof.
  unfold bytes_of_string. induction s as [|c s IH]; simpl; constructor; auto.
  unfold byte_ok. pose proof (Ascii.nat_ascii_bounded c). lia.
Qed.

Lemma string_of_bytes_of_string s : string_of_bytes (bytes_of_string s) = s.
Proof.
  unfold string_of_bytes, bytes_of_string. rewrite map_map.
  rewrite (map_ext _ id).
  - by rewrite map_id, String.string_of_list_ascii_of_string.
  - intros c. by rewrite Nat2Z.id, Ascii.ascii_nat_embedding.
Qed.

Lemma bytes_of_string_of_bytes b : bytes_ok b -> bytes_of_string (string_of_bytes b) = b.
Proof.
  intros Hb. unfold string_of_bytes, bytes_of_string.
  rewrite String.list_ascii_of_string_of_list_ascii, map_map.
  induction Hb as [|x l Hx Hl IH]; [done|]. cbn [map]. rewrite IH. f_equal.
  unfold byte_ok in Hx. rewrite Ascii.nat_ascii_embedding by lia. lia.
Qed.

Lemma nonempty_spec s : nonempty s = true <-> s <> EmptyString.
Proof.
  unfold nonempty. rewrite negb_true_iff. by rewrite String.eqb_neq.
Qed.

Lemma nonempty_false s : nonempty s = false <-> s = EmptyString.
Proof.
  unfold nonempty. rewrite negb_false_iff. by rewrite String.eqb_eq.
Qed.

Lemma non_nil_spec {A} (l : list A) : non_nil l = true <-> l <> [].
Proof. by destruct l. Qed.

(** The helper picks a value of the list, the empty one only when all are. *)
Lemma coalesce_cases vs :
  (coalesce vs = EmptyString /\ Forall (fun v => v = EmptyString) vs) \/
  (coalesce vs <> EmptyString /\ coalesce vs ∈ vs).
Proof.
  induction vs as [|v vs IH]; cbn [coalesce]; [by left|].
  destruct (nonempty v) eqn:E.
  - right. split; [by apply nonempty_spec|by left].
  - apply nonempty_false in E. subst. destruct IH as [[? ?]|[? ?]]; [left|right]; split; auto.
    by right.
Qed.

#[export] Hint Resolve be_bytes_ok zeros_ok bytes_of_string_ok bytes_ok_take bytes_ok_drop : bytes.
Create Rewrite HintDb len.
#[export] Hint Rewrite length_be length_zeros length_bytes_of_string @length_app @length_map
  @length_take @length_drop : len.

(** [len]: length goals over concatenations of encoded fields. *)
Ltac len := autorewrite with len; cbn [length]; autorewrite with len; try lia.

(** Split a [match] or [if] whose scrutinee is in the goal or a hypothesis. *)
Ltac split_match :=
  match goal with
  | |- context [match ?x with _ => _ end] =>
      lazymatch x with context [match _ with _ => _ end] => fail | _ => destruct x eqn:? end
  | H : context [match ?x with _ => _ end] |- _ =>
      lazymatch x with context [match _ with _ => _ end] => fail | _ => destruct x eqn:? end
  end.

(** Turn boolean tests among the hypotheses into propositions. *)
Ltac bools :=
  repeat match goal with
  | H : (_ && _)%bool = true |- _ => apply andb_true_iff in H; destruct H
  | H : (_ || _)%bool = false |- _ => apply orb_false_iff in H; destruct H
  | H : negb _ = true |- _ => apply negb_true_iff in H
  | H : negb _ = false |- _ => apply negb_false_iff in H
  | H : nonempty _ = true |- _ => apply nonempty_spec in H
  | H : nonempty _ = false |- _ => apply nonempty_false in H
  | H : String.eqb _ _ = true |- _ => apply String.eqb_eq in H
  | H : String.eqb _ _ = false |- _ => apply String.eqb_neq in H
  | H : Z.eqb _ _ = true |- _ => apply Z.eqb_eq in H
  | H : Z.eqb _ _ = false |- _ => apply Z.eqb_neq in H
  | H : Z.ltb _ _ = true |- _ => apply Z.ltb_lt in H
  | H : Z.ltb _ _ = false |- _ => apply Z.ltb_ge in H
  | H : Z.leb _ _ = true |- _ => apply Z.leb_le in H
  | H : Z.leb _ _ = false |- _ => apply Z.leb_gt in H
  end.

(** The same with comparisons of [nat]. *)
Ltac nbools :=
  repeat (progress bools || match goal with
  | H : Nat.eqb _ _ = true |- _ => apply Nat.eqb_eq in H
  | H : Nat.eqb _ _ = false |- _ => apply Nat.eqb_neq in H
  | H : Nat.ltb _ _ = true |- _ => apply Nat.ltb_lt in H
  | H : Nat.ltb _ _ = false |- _ => apply Nat.ltb_ge in H
  | H : Nat.leb _ _ = true |- _ => apply Nat.leb_le in H
  | H : Nat.leb _ _ = false |- _ => apply Nat.leb_gt in H
  end).

Lemma list_ascii_app a b :
  String.list_ascii_of_string (a +:+ b) =
  (String.list_ascii_of_string a ++ String.list_ascii_of_string b)%list.
Proof.
  induction a as [|c a IH]; [done|].
  change (String c a +:+ b) with (String c (a +:+ b)).
  cbn [String.list_ascii_of_string app]. by rewrite IH.
Qed.

Lemma be_dec_be_small n z : (0 <= z < 256 ^ Z.of_nat n)%Z -> be_dec (be n z) = z.
Proof. intros H. rewrite be_dec_be. by apply Z.mod_small. Qed.

(** [go_slice] and [go_from] on a known prefix. *)
Lemma go_slice_app l1 l2 l3 lo hi :
  lo = length l1 -> hi = (length l1 + length l2)%nat ->
  go_slice (l1 ++ l2 ++ l3) lo hi = Some l2.
Proof. intros -> ->. apply go_slice_mid. Qed.

Lemma go_from_app l1 l2 lo : lo = length l1 -> go_from (l1 ++ l2) lo = Some l2.
Proof.
  intros ->. rewrite go_from_Some by (len). by rewrite drop_app_length.
Qed.
