(* ===== verification/GoNet.v ===== *)
(** What the program uses of Go's [strings] and [net] packages: ASCII case
    folding and trimming, MAC addresses ([net.ParseMAC],
    [HardwareAddr.String]), IP addresses ([net.IP], [net.ParseIP], [To4],
    [Equal], [String]) and IPv4/IPv6 networks ([net.ParseCIDR],
    [IPNet.Contains]), with the round trips the components rely on.

    A string is a byte string.  [ToLower], [EqualFold] and [TrimSpace] are
    given on ASCII characters; bytes outside ASCII are left alone, which is
    what Go does for every string whose characters are ASCII (the MAC
    addresses, digits and APN labels the program handles).

    A [net.IP] or [net.HardwareAddr] is its byte slice; [nil] and the empty
    slice are the same value (the program never builds an empty non-nil
    one). *)
From S2P Require Import Prelude.

Abbreviation IP := (list Z) (only parsing).
Abbreviation HardwareAddr := (list Z) (only parsing).

(** * strings *)
Definition lower (c : ascii) : ascii :=
  let n := nat_of_ascii c in
  if decide (65 <= n <= 90)%nat then ascii_of_nat (n + 32) else c.

Definition string_map (f : ascii -> ascii) (s : string) : string :=
  String.string_of_list_ascii (map f (String.list_ascii_of_string s)).

Definition ToLower (s : string) : string := string_map lower s.

Definition EqualFold (a b : string) : bool := String.eqb (ToLower a) (ToLower b).

Definition is_space (c : ascii) : bool :=
  let n := nat_of_ascii c in ((n =? 32) || (9 <=? n) && (n <=? 13))%nat%bool.

Fixpoint drop_space (l : list ascii) : list ascii :=
  match l with
  | c :: r => if is_space c then drop_space r else l
  | [] => []
  end.

Definition TrimSpace (s : string) : string :=
  String.string_of_list_ascii
    (rev (drop_space (rev (drop_space (String.list_ascii_of_string s))))).

(** [strings.Split(s, sep)] for a one byte separator. *)
Fixpoint split_ascii (sep : ascii) (l : list ascii) : list (list ascii) :=
  match l with
  | [] => [[]]
  | c :: r =>
    match split_ascii sep r with
    | p :: ps => if Ascii.eqb c sep then [] :: p :: ps else (c :: p) :: ps
    | [] => [[c]]
    end
  end.

Definition Split (s : string) (sep : ascii) : list string :=
  map String.string_of_list_ascii (split_ascii sep (String.list_ascii_of_string s)).

(** Position of the first byte equal to [c]: [strings.IndexByte]. *)
Fixpoint index_ascii (c : ascii) (l : list ascii) : option nat :=
  match l with
  | [] => None
  | x :: r => if Ascii.eqb x c then Some O else S <$> index_ascii c r
  end.

(** * Hexadecimal *)
Definition hexval (c : ascii) : option Z :=
  let n := Z.of_nat (nat_of_ascii c) in
  if decide (48 <= n <= 57)%Z then Some (n - 48)%Z
  else if decide (97 <= n <= 102)%Z then Some (n - 87)%Z
  else if decide (65 <= n <= 70)%Z then Some (n - 55)%Z
  else None.

Definition hexdigit (v : Z) : ascii :=
  ascii_of_nat (Z.to_nat (if decide (v < 10)%Z then v + 48 else v + 87)%Z).

Definition hexbyte (b : Z) : list ascii := [hexdigit (b / 16)%Z; hexdigit (b mod 16)%Z].

(** [%08x] of a 32-bit value, and [%x] of a byte string. *)
Definition hex_string (b : list Z) : string :=
  String.string_of_list_ascii (b ≫= hexbyte).

(** * MAC addresses *)
Definition colon : ascii := ":"%char.

(** [xtoi2(s, e)]: two hexadecimal digits, followed by [e] unless they end
    the string; gives the value and what follows the separator. *)
Definition xtoi2 (s : list ascii) (e : ascii) : option (Z * list ascii) :=
  match s with
  | a :: b :: rest =>
    hi ← hexval a; lo ← hexval b;
    match rest with
    | [] => Some (hi * 16 + lo, [])%Z
    | c :: r => if Ascii.eqb c e then Some (hi * 16 + lo, r)%Z else None
    end
  | _ => None
  end.

Fixpoint mac_pairs (sep : ascii) (n : nat) (s : list ascii) : option (list Z) :=
  match n with
  | O => Some []
  | S k => '(v, r) ← xtoi2 s sep; vs ← mac_pairs sep k r; Some (v :: vs)
  end.

(** Groups of four digits: [n] is half the number of bytes. *)
Fixpoint mac_dots (n : nat) (s : list ascii) : option (list Z) :=
  match n with
  | O => Some []
  | S k =>
    '(v, _) ← xtoi2 (take 2 s) "000"%char;
    '(w, r) ← xtoi2 (drop 2 s) "."%char;
    vs ← mac_dots k r; Some (v :: w :: vs)
  end.

Definition mac_size (n : nat) : bool := ((n =? 6) || (n =? 8) || (n =? 20))%nat.

Definition ParseMAC_ascii (s : list ascii) : option HardwareAddr :=
  let len := length s in
  if (len <? 14)%nat then None
  else if (Ascii.eqb (nth 2 s zero) ":" || Ascii.eqb (nth 2 s zero) "-")%bool then
    let n := ((len + 1) / 3)%nat in
    if (((len + 1) mod 3 =? 0)%nat && mac_size n)%bool then mac_pairs (nth 2 s zero) n s else None
  else if Ascii.eqb (nth 4 s zero) "." then
    let n := (2 * (len + 1) / 5)%nat in
    if (((len + 1) mod 5 =? 0)%nat && mac_size n)%bool then mac_dots (n / 2) s else None
  else None.

Definition ParseMAC (s : string) : option HardwareAddr :=
  ParseMAC_ascii (String.list_ascii_of_string s).

Fixpoint hw_ascii (hw : HardwareAddr) : list ascii :=
  match hw with
  | [] => []
  | [b] => hexbyte b
  | b :: r => hexbyte b ++ colon :: hw_ascii r
  end.

(** [HardwareAddr.String] *)
Definition HWString (hw : HardwareAddr) : string := String.string_of_list_ascii (hw_ascii hw).

(** * IP addresses *)
Definition v4InV6Prefix : list Z := [0; 0; 0; 0; 0; 0; 0; 0; 0; 0; 255; 255]%Z.

Definition To4 (ip : IP) : IP :=
  if (length ip =? 4)%nat then ip
  else if ((length ip =? 16)%nat && bool_decide (take 12 ip = v4InV6Prefix))%bool
       then drop 12 ip else [].

(** [net.IPv4(a, b, c, d)]: the 16-byte form. *)
Definition IPv4 (a b c d : Z) : IP := v4InV6Prefix ++ [a; b; c; d].

Definition IPv4zero : IP := IPv4 0 0 0 0.
Definition IPv4bcast : IP := IPv4 255 255 255 255.

Definition IPEqual (ip x : IP) : bool :=
  if (length ip =? length x)%nat then bool_decide (ip = x)
  else if ((length ip =? 4) && (length x =? 16))%nat%bool then
    bool_decide (take 12 x = v4InV6Prefix /\ ip = drop 12 x)
  else if ((length ip =? 16) && (length x =? 4))%nat%bool then
    bool_decide (take 12 ip = v4InV6Prefix /\ drop 12 ip = x)
  else false.

(** ** Printing *)
Definition v6group (ip : IP) (i : nat) : Z :=
  (256 * nth (2 * i) ip 0 + nth (2 * i + 1) ip 0)%Z.

(** Hexadecimal without leading zeros, at most four digits. *)
Definition hex16 (v : Z) : list ascii :=
  let ds := [v / 4096; v / 256 mod 16; v / 16 mod 16; v mod 16]%Z in
  map hexdigit
    (if decide (v < 16)%Z then drop 3 ds
     else if decide (v < 256)%Z then drop 2 ds
     else if decide (v < 4096)%Z then drop 1 ds else ds).

Fixpoint zero_run (ip : IP) (fuel j : nat) : nat :=
  match fuel with
  | O => j
  | S f => if ((j <? 8)%nat && (v6group ip j =? 0)%Z)%bool then zero_run ip f (S j) else j
  end.

(** The first longest run of at least two zero groups, as [start, end). *)
Definition best_run (ip : IP) : option (nat * nat) :=
  fold_left (fun best i =>
      let j := zero_run ip 8 i in
      let cur := match best with Some (s, e) => (e - s)%nat | None => O end in
      if ((2 <=? j - i) && (cur <? j - i))%nat%bool then Some (i, j) else best)
    (seq 0 8) None.

Fixpoint v6_groups (ip : IP) (run : option (nat * nat)) (fuel i : nat) : list ascii :=
  match fuel with
  | O => []
  | S f =>
    if (8 <=? i)%nat then []
    else match run with
    | Some (s, e) =>
      if (i =? s)%nat then
        colon :: colon ::
          (if (8 <=? e)%nat then [] else hex16 (v6group ip e) ++ v6_groups ip run f (S e))
      else (if (i =? 0)%nat then [] else [colon]) ++ hex16 (v6group ip i) ++ v6_groups ip run f (S i)
    | None =>
      (if (i =? 0)%nat then [] else [colon]) ++ hex16 (v6group ip i) ++ v6_groups ip run f (S i)
    end
  end.

Definition dotted (ip : IP) : string :=
  match ip with
  | [a; b; c; d] => (pretty a +:+ "." +:+ pretty b +:+ "." +:+ pretty c +:+ "." +:+ pretty d)%string
  | _ => EmptyString
  end.

(** [IP.String] *)
Definition IPString (ip : IP) : string :=
  match ip with
  | [] => "<nil>"%string
  | _ =>
    if ((length ip =? 4) || (length ip =? 16))%nat%bool then
      match To4 ip with
      | [] => String.string_of_list_ascii (v6_groups ip (best_run ip) 9 0)
      | ip4 => dotted ip4
      end
    else ("?" +:+ hex_string ip)%string
  end.

(** The local helper [ipString] of most packages. *)
Definition ipString (ip : IP) : string :=
  match ip with [] => EmptyString | _ => IPString ip end.

(** ** Parsing *)
Definition digit (c : ascii) : option Z :=
  let n := Z.of_nat (nat_of_ascii c) in
  if decide (48 <= n <= 57)%Z then Some (n - 48)%Z else None.

(** A decimal octet: no leading zero, at most 255. *)
Definition octet (l : list ascii) : option Z :=
  match l with
  | [a] => digit a
  | [a; b] => x ← digit a; y ← digit b; if (x =? 0)%Z then None else Some (10 * x + y)%Z
  | [a; b; c] =>
    x ← digit a; y ← digit b; z ← digit c;
    let v := (100 * x + 10 * y + z)%Z in
    if ((x =? 0) || (255 <? v))%Z%bool then None else Some v
  | _ => None
  end.

Definition parse_v4 (l : list ascii) : option (list Z) :=
  match split_ascii "." l with
  | [a; b; c; d] =>
    w ← octet a; x ← octet b; y ← octet c; z ← octet d; Some [w; x; y; z]
  | _ => None
  end.

(** The leading hexadecimal digits of a group (value, digits read, rest). *)
Fixpoint hex_run (l : list ascii) (acc : Z) (n : nat) : Z * nat * list ascii :=
  match l with
  | c :: r => match hexval c with
              | Some v => hex_run r (acc * 16 + v)%Z (S n)
              | None => (acc, n, l)
              end
  | [] => (acc, n, [])
  end.

(** The loop of [netip.parseIPv6]: [done] are the bytes read so far, [ell]
    the position of the [::]. *)
Fixpoint v6_loop (fuel : nat) (s : list ascii) (done : list Z) (ell : option nat)
  : option (list Z * option nat * list ascii) :=
  match fuel with
  | O => Some (done, ell, s)
  | S f =>
    if (16 <=? length done)%nat then Some (done, ell, s) else
    let '(acc, n, r) := hex_run s 0 0 in
    if ((n =? 0) || (4 <? n))%nat%bool then None else
    match r with
    | [] => Some (done ++ [acc / 256; acc mod 256]%Z, ell, [])
    | c :: r' =>
      if Ascii.eqb c "." then
        if (match ell with None => negb (length done =? 12)%nat | _ => false end
            || (16 <? length done + 4)%nat)%bool then None
        else v4 ← parse_v4 s; Some (done ++ v4, ell, [])
      else if Ascii.eqb c colon then
        let done' := done ++ [acc / 256; acc mod 256]%Z in
        match r' with
        | [] => None
        | c' :: r'' =>
          if Ascii.eqb c' colon then
            match ell with
            | Some _ => None
            | None =>
              match r'' with
              | [] => Some (done', Some (length done'), [])
              | _ => v6_loop f r'' done' (Some (length done'))
              end
            end
          else v6_loop f r' done' ell
        end
      else None
    end
  end.

Definition v6_finish (st : list Z * option nat * list ascii) : option (list Z) :=
  let '(done, ell, rest) := st in
  match rest with
  | _ :: _ => None
  | [] =>
    match ell with
    | Some e => if (16 <=? length done)%nat then None
                else Some (take e done ++ zeros (16 - length done) ++ drop e done)
    | None => if (length done =? 16)%nat then Some done else None
    end
  end.

Definition parse_v6 (l : list ascii) : option (list Z) :=
  match l with
  | ":"%char :: ":"%char :: [] => Some (zeros 16)
  | ":"%char :: ":"%char :: r => st ← v6_loop 9 r [] (Some O); v6_finish st
  | _ => st ← v6_loop 9 l [] None; v6_finish st
  end.

(** The first of the characters [.], [:] and [%] picks the syntax. *)
Fixpoint ip_kind (l : list ascii) : ascii :=
  match l with
  | [] => zero
  | c :: r => if (Ascii.eqb c "." || Ascii.eqb c colon || Ascii.eqb c "%")%bool then c else ip_kind r
  end.

(** [net.ParseIP]: the 16-byte form, [nil] when invalid.  An address with a
    zone is not valid for [ParseIP]. *)
Definition ParseIP (s : string) : IP :=
  let l := String.list_ascii_of_string s in
  if existsb (Ascii.eqb "%") l then []
  else if Ascii.eqb (ip_kind l) "." then
    match parse_v4 l with Some b => v4InV6Prefix ++ b | None => [] end
  else if Ascii.eqb (ip_kind l) colon then default [] (parse_v6 l)
  else [].

(** * Networks *)
Record IPNet := mkIPNet { net_ip : IP; net_mask : list Z }.

(** [net.CIDRMask(ones, 8 * n)] *)
Fixpoint CIDRMask (ones : Z) (n : nat) : list Z :=
  match n with
  | O => []
  | S k => (if decide (8 <= ones)%Z then 255
            else if decide (ones <= 0)%Z then 0
            else 256 - 2 ^ (8 - ones))%Z :: CIDRMask (ones - 8) k
  end.

Definition mask_bytes (ip mask : list Z) : list Z := zip_with Z.land ip mask.

Fixpoint dtoi (l : list ascii) (acc : Z) : option Z :=
  match l with
  | [] => Some acc
  | c :: r => d ← digit c;
              let v := (acc * 10 + d)%Z in
              if decide (16777215 <= v)%Z then None else dtoi r v
  end.

(** [net.ParseCIDR], the network only. *)
Definition ParseCIDR (s : string) : option IPNet :=
  let l := String.list_ascii_of_string s in
  i ← index_ascii "/" l;
  let addr := take i l in
  let mask := drop (S i) l in
  n ← (match mask with [] => None | _ => dtoi mask 0%Z end);
  if existsb (Ascii.eqb "%") addr then None
  else if Ascii.eqb (ip_kind addr) "." then
    b ← parse_v4 addr;
    if decide (n <= 32)%Z then Some (mkIPNet (mask_bytes b (CIDRMask n 4)) (CIDRMask n 4)) else None
  else if Ascii.eqb (ip_kind addr) colon then
    b ← parse_v6 addr;
    if decide (n <= 128)%Z then Some (mkIPNet (mask_bytes b (CIDRMask n 16)) (CIDRMask n 16)) else None
  else None.

(** [IPNet.Contains] *)
Definition Contains (n : IPNet) (ip : IP) : bool :=
  let nn := match To4 (net_ip n) with [] => net_ip n | x => x end in
  let m := if ((length (net_mask n) =? 16) && (length nn =? 4))%nat%bool
           then drop 12 (net_mask n) else net_mask n in
  let ip' := match To4 ip with [] => ip | x => x end in
  ((length ip' =? length nn)%nat && (length m =? length nn)%nat && negb (length nn =? 0)%nat
   && bool_decide (mask_bytes nn m = mask_bytes ip' m))%bool.

(** * Addresses with a port *)

(** [net.UDPAddr] *)
Record UDPAddr := mkAddr { a_IP : IP; a_Port : Z }.

(** Position of the last byte equal to [c]. *)
Definition last_index_ascii (c : ascii) (l : list ascii) : option nat :=
  (fun i => length l - 1 - i)%nat <$> index_ascii c (rev l).

Definition has_ascii (c : ascii) (l : list ascii) : bool :=
  match index_ascii c l with Some _ => true | None => false end.

(** [net.SplitHostPort]: host and port, or the reason of the failure. *)
Definition SplitHostPort (hostport : string) : result (string * string) string :=
  let l := String.list_ascii_of_string hostport in
  let fail why := Err ("address " +:+ hostport +:+ ": " +:+ why) in
  match last_index_ascii ":"%char l with
  | None => fail "missing port in address"
  | Some i =>
    let finish host j k :=
      if has_ascii "["%char (drop j l) then fail "unexpected '[' in address"
      else if has_ascii "]"%char (drop k l) then fail "unexpected ']' in address"
      else Ok (String.string_of_list_ascii host, String.string_of_list_ascii (drop (i + 1) l)) in
    if has_ascii "["%char (take 1 l) then
      match index_ascii "]"%char l with
      | None => fail "missing ']' in address"
      | Some e =>
        if (e + 1 =? length l)%nat then fail "missing port in address"
        else if (e + 1 =? i)%nat then finish (drop 1 (take e l)) 1%nat (e + 1)%nat
        else if has_ascii ":"%char (take 1 (drop (e + 1) l))
             then fail "too many colons in address" else fail "missing port in address"
      end
    else if has_ascii ":"%char (take i l) then fail "too many colons in address"
    else finish (take i l) 0%nat 0%nat
  end.

(** * Lemmas *)
Lemma string_ascii_eq l : String.list_ascii_of_string (String.string_of_list_ascii l) = l.
Proof. apply String.list_ascii_of_string_of_list_ascii. Qed.

(** A statement about all characters is decided by computing it. *)
Lemma ascii_forall (P : ascii -> bool) :
  forallb (fun n => P (ascii_of_nat n)) (seq 0 256) = true -> forall c, P c = true.
Proof.
  rewrite forallb_forall. intros H c. rewrite <- (ascii_nat_embedding c).
  apply H, in_seq. pose proof (nat_ascii_bounded c). lia.
Qed.

Lemma lower_idem c : lower (lower c) = lower c.
Proof.
  apply Ascii.eqb_eq. revert c. apply (ascii_forall (fun c => Ascii.eqb (lower (lower c)) (lower c))).
  vm_compute. reflexivity.
Qed.

Lemma hexval_lower c : hexval (lower c) = hexval c.
Proof.
  assert (H : bool_decide (hexval (lower c) = hexval c) = true); [|by apply bool_decide_eq_true in H].
  revert c. apply (ascii_forall (fun c => bool_decide (hexval (lower c) = hexval c))).
  vm_compute. reflexivity.
Qed.

Lemma eqb_lower_sep sep c :
  sep ∈ [":"; "-"; "."; "000"]%char -> Ascii.eqb (lower c) sep = Ascii.eqb c sep.
Proof.
  intros Hs. apply eqb_true_iff.
  assert (Hall : forall s, s ∈ [":"; "-"; "."; "000"]%char ->
            forallb (fun n => Bool.eqb (Ascii.eqb (lower (ascii_of_nat n)) s)
                                      (Ascii.eqb (ascii_of_nat n) s)) (seq 0 256) = true).
  { intros s H. repeat (apply elem_of_cons in H as [->|H]; [vm_compute; reflexivity|]).
    by apply elem_of_nil in H. }
  revert c. apply (ascii_forall (fun c => Bool.eqb (Ascii.eqb (lower c) sep) (Ascii.eqb c sep))).
  by apply Hall.
Qed.

Lemma ToLower_idem s : ToLower (ToLower s) = ToLower s.
Proof.
  unfold ToLower, string_map. rewrite string_ascii_eq, map_map. f_equal.
  apply map_ext, lower_idem.
Qed.

Lemma EqualFold_ToLower a b : EqualFold a b = true <-> ToLower a = ToLower b.
Proof. unfold EqualFold. by rewrite String.eqb_eq. Qed.

Lemma EqualFold_refl a : EqualFold a a = true.
Proof. by apply EqualFold_ToLower. Qed.

Lemma nibble_cases v : (0 <= v < 16)%Z -> v ∈ (Z.of_nat <$> seq 0 16).
Proof.
  intros. apply list_elem_of_fmap. exists (Z.to_nat v). split; [lia|].
  apply elem_of_seq. lia.
Qed.

Lemma hexdigit_spec v :
  (0 <= v < 16)%Z -> hexval (hexdigit v) = Some v /\ lower (hexdigit v) = hexdigit v
    /\ Ascii.eqb (hexdigit v) ":" = false.
Proof.
  intros H%nibble_cases. cbn in H.
  repeat (apply elem_of_cons in H as [->|H]; [vm_compute; auto|]). by apply elem_of_nil in H.
Qed.

Lemma byte_nibbles b : byte_ok b -> (0 <= b / 16 < 16)%Z /\ (0 <= b mod 16 < 16)%Z.
Proof.
  unfold byte_ok. intros. split; [|apply Z.mod_pos_bound; lia].
  split; [apply Z.div_pos; lia | apply Z.div_lt_upper_bound; lia].
Qed.

Lemma xtoi2_hexbyte b r :
  byte_ok b -> xtoi2 (hexbyte b ++ colon :: r) colon = Some (b, r)
            /\ xtoi2 (hexbyte b) colon = Some (b, []).
Proof.
  intros [H1 H2]%byte_nibbles. unfold xtoi2, hexbyte. cbn [app].
  apply hexdigit_spec in H1 as (-> & _ & _), H2 as (-> & _ & _). cbn [mbind option_bind].
  replace (Ascii.eqb colon colon) with true by done.
  assert (b / 16 * 16 + b mod 16 = b)%Z as -> by (rewrite (Z.div_mod b 16) at 3; lia). done.
Qed.

Lemma length_hw_ascii b hw : length (hw_ascii (b :: hw)) = (3 * length hw + 2)%nat.
Proof.
  revert b. induction hw as [|c hw IH]; intros b; [done|].
  cbn [hw_ascii] in *. rewrite length_app. cbn [length]. rewrite IH. cbn. lia.
Qed.

Lemma mac_pairs_hw hw : bytes_ok hw -> mac_pairs colon (length hw) (hw_ascii hw) = Some hw.
Proof.
  induction 1 as [|b hw Hb Hhw IH]; [done|]. cbn [length mac_pairs].
  destruct hw as [|c hw].
  - cbn [hw_ascii length mac_pairs]. by rewrite (proj2 (xtoi2_hexbyte b [] Hb)).
  - change (hw_ascii (b :: c :: hw)) with (hexbyte b ++ colon :: hw_ascii (c :: hw)).
    rewrite (proj1 (xtoi2_hexbyte b _ Hb)). cbn [mbind option_bind].
    rewrite IH. done.
Qed.

(** [net.ParseMAC] reads back what [HardwareAddr.String] prints. *)
Lemma ParseMAC_HWString hw :
  mac_size (length hw) = true -> bytes_ok hw -> ParseMAC (HWString hw) = Some hw.
Proof.
  intros Hn Hb. unfold ParseMAC, HWString. rewrite string_ascii_eq. unfold ParseMAC_ascii.
  destruct hw as [|b [|c hw]]; [done|done|].
  assert (nth 2 (hw_ascii (b :: c :: hw)) zero = colon) as Hsep by done.
  rewrite Hsep. replace (Ascii.eqb colon ":" || Ascii.eqb colon "-")%bool with true by done.
  rewrite length_hw_ascii.
  replace (3 * length (c :: hw) + 2 + 1)%nat with (length (b :: c :: hw) * 3)%nat by (cbn; lia).
  rewrite Nat.div_mul, Nat.Div0.mod_mul, Hn by lia.
  replace (_ <? 14)%nat with false.
  - rewrite Nat.eqb_refl. cbn [andb]. by apply mac_pairs_hw.
  - symmetry. apply Nat.ltb_ge. unfold mac_size in Hn. cbn [length] in *.
    apply orb_true_iff in Hn as [Hn|Hn]; [apply orb_true_iff in Hn as [Hn|Hn]|];
      apply Nat.eqb_eq in Hn; lia.
Qed.

Lemma ToLower_HWString hw : bytes_ok hw -> ToLower (HWString hw) = HWString hw.
Proof.
  unfold ToLower, HWString, string_map. rewrite string_ascii_eq. intros Hb. f_equal.
  assert (Hx : forall b, byte_ok b -> map lower (hexbyte b) = hexbyte b).
  { intros b [H1 H2]%byte_nibbles. unfold hexbyte. cbn [map].
    by rewrite (proj1 (proj2 (hexdigit_spec _ H1))), (proj1 (proj2 (hexdigit_spec _ H2))). }
  induction Hb as [|b hw Hb Hhw IH]; [done|]. destruct hw as [|c hw]; [by apply Hx|].
  change (hw_ascii (b :: c :: hw)) with (hexbyte b ++ colon :: hw_ascii (c :: hw)).
  rewrite map_app, Hx by done. cbn [map]. by rewrite IH.
Qed.

Lemma xtoi2_lower s e :
  e ∈ [":"; "-"; "."; "000"]%char ->
  xtoi2 (map lower s) e = (fun '(v, r) => (v, map lower r)) <$> xtoi2 s e.
Proof.
  intros He. destruct s as [|a [|b [|c r]]]; cbn [map xtoi2]; try done.
  all: rewrite !hexval_lower; destruct (hexval a); cbn; [|done];
    destruct (hexval b); cbn; try done.
  rewrite eqb_lower_sep by done. by case_match.
Qed.

Lemma mac_pairs_lower e n s :
  e ∈ [":"; "-"; "."; "000"]%char -> mac_pairs e n (map lower s) = mac_pairs e n s.
Proof.
  intros He. revert s. induction n as [|n IH]; intros s; [done|]. cbn [mac_pairs].
  rewrite xtoi2_lower by done. destruct (xtoi2 s e) as [[v r]|]; cbn; [|done]. by rewrite IH.
Qed.

Lemma mac_dots_lower n s : mac_dots n (map lower s) = mac_dots n s.
Proof.
  revert s. induction n as [|n IH]; intros s; [done|]. cbn [mac_dots].
  rewrite <- fmap_take, <- fmap_drop, !xtoi2_lower by set_solver.
  destruct (xtoi2 (take 2 s) _) as [[v r]|]; cbn [fmap option_fmap option_map mbind option_bind];
    [|done].
  destruct (xtoi2 (drop 2 s) _) as [[w r']|]; cbn; [|done]. by rewrite IH.
Qed.

Lemma nth_map_lower i s : nth i (map lower s) zero = lower (nth i s zero).
Proof. change zero with (lower zero) at 1. apply map_nth. Qed.

(** Parsing ignores case. *)
Lemma ParseMAC_ToLower s : ParseMAC (ToLower s) = ParseMAC s.
Proof.
  unfold ParseMAC, ToLower, string_map. rewrite string_ascii_eq.
  generalize (String.list_ascii_of_string s) as l. intros l. unfold ParseMAC_ascii.
  rewrite length_map, !nth_map_lower, !(eqb_lower_sep ":"), !(eqb_lower_sep "-"),
    !(eqb_lower_sep ".") by set_solver.
  destruct (_ <? _)%nat; [done|].
  destruct (Ascii.eqb (nth 2 l zero) ":") eqn:E1; [|destruct (Ascii.eqb (nth 2 l zero) "-") eqn:E2].
  - apply Ascii.eqb_eq in E1. rewrite E1. cbn [orb].
    change (lower ":") with ":"%char. by rewrite mac_pairs_lower by set_solver.
  - apply Ascii.eqb_eq in E2. rewrite E2. cbn [orb].
    change (lower "-") with "-"%char. by rewrite mac_pairs_lower by set_solver.
  - cbn [orb]. by rewrite mac_dots_lower.
Qed.

Lemma hexval_range c v : hexval c = Some v -> (0 <= v < 16)%Z.
Proof. unfold hexval. repeat case_decide; intros [= <-]; lia. Qed.

Lemma xtoi2_byte s e v r : xtoi2 s e = Some (v, r) -> byte_ok v.
Proof.
  destruct s as [|a [|b s]]; cbn [xtoi2]; try done.
  destruct (hexval a) as [x|] eqn:Ha; cbn; [|done].
  destruct (hexval b) as [y|] eqn:Hb; cbn; [|done].
  apply hexval_range in Ha, Hb. unfold byte_ok.
  repeat case_match; intros [= <- <-]; lia.
Qed.

Lemma mac_pairs_ok e n s hw :
  mac_pairs e n s = Some hw -> length hw = n /\ bytes_ok hw.
Proof.
  revert s hw. induction n as [|n IH]; intros s hw; cbn [mac_pairs].
  - intros [= <-]. by split; [|constructor].
  - destruct (xtoi2 s e) as [[v r]|] eqn:E; cbn; [|done].
    destruct (mac_pairs e n r) as [vs|] eqn:E'; cbn; [|done]. intros [= <-].
    destruct (IH _ _ E') as [<- ?]. split; [done|]. constructor; [by eapply xtoi2_byte|done].
Qed.

Lemma mac_dots_ok n s hw : mac_dots n s = Some hw -> length hw = (2 * n)%nat /\ bytes_ok hw.
Proof.
  revert s hw. induction n as [|n IH]; intros s hw; cbn [mac_dots].
  - intros [= <-]. by split; [|constructor].
  - destruct (xtoi2 (take 2 s) _) as [[v r]|] eqn:E; cbn [mbind option_bind]; [|done].
    destruct (xtoi2 (drop 2 s) _) as [[w r']|] eqn:E2; cbn [mbind option_bind]; [|done].
    destruct (mac_dots n r') as [vs|] eqn:E'; cbn; [|done]. intros [= <-].
    destruct (IH _ _ E') as [Hl ?]. split; [cbn; lia|].
    repeat constructor; eauto; eapply xtoi2_byte; eassumption.
Qed.

Lemma ParseMAC_ok s hw : ParseMAC s = Some hw -> mac_size (length hw) = true /\ bytes_ok hw.
Proof.
  unfold ParseMAC, ParseMAC_ascii. generalize (String.list_ascii_of_string s). intros l.
  destruct (length l <? 14)%nat; [done|].
  destruct (_ || _)%bool; [|destruct (Ascii.eqb _ _); [|done]].
  all: destruct ((_ =? 0)%nat && mac_size _)%bool eqn:Hs; [|done];
    apply andb_true_iff in Hs as [_ Hs].
  - intros H%mac_pairs_ok. destruct H as [-> ?]. done.
  - intros H%mac_dots_ok. destruct H as [-> ?]. split; [|done].
    unfold mac_size in Hs. apply orb_true_iff in Hs as [Hs|Hs];
      [apply orb_true_iff in Hs as [Hs|Hs]|]; apply Nat.eqb_eq in Hs; rewrite Hs; done.
Qed.

Lemma IPEqual_refl ip : IPEqual ip ip = true.
Proof. unfold IPEqual. rewrite Nat.eqb_refl. by apply bool_decide_eq_true. Qed.

Lemma To4_length ip : To4 ip <> [] -> length (To4 ip) = 4%nat.
Proof.
  unfold To4. destruct (length ip =? 4)%nat eqn:E; [by apply Nat.eqb_eq in E|].
  destruct (length ip =? 16)%nat eqn:E2; cbn [andb]; [|done].
  case_match; [|done]. apply Nat.eqb_eq in E2. rewrite length_drop. lia.
Qed.

Lemma To4_v4 ip : length ip = 4%nat -> To4 ip = ip.
Proof. unfold To4. by intros ->. Qed.

Lemma To4_IPv4 a b c d : To4 (IPv4 a b c d) = [a; b; c; d].
Proof. done. Qed.

Lemma To4_ok ip : bytes_ok ip -> bytes_ok (To4 ip).
Proof.
  intros H. unfold To4. case_match; [done|]. case_match; [by apply bytes_ok_drop|constructor].
Qed.

#[export] Hint Resolve To4_ok IPEqual_refl : bytes.

(** ** Parsed addresses are byte strings *)
Lemma digit_range c v : digit c = Some v -> (0 <= v <= 9)%Z.
Proof. unfold digit. case_decide; [|done]. intros [= <-]. lia. Qed.

Lemma octet_ok l v : octet l = Some v -> byte_ok v.
Proof.
  unfold byte_ok. destruct l as [|a [|b [|c [|]]]]; cbn [octet]; try done.
  - intros H%digit_range. lia.
  - destruct (digit a) eqn:Ha; [|done]. destruct (digit b) eqn:Hb; [|done]. cbn.
    apply digit_range in Ha, Hb. case_match; [done|]. intros [= <-]. lia.
  - destruct (digit a) eqn:Ha; [|done]. destruct (digit b) eqn:Hb; [|done].
    destruct (digit c) eqn:Hc; [|done]. cbn. apply digit_range in Ha, Hb, Hc.
    case_match eqn:E; [done|]. intros [= <-]. bools. lia.
Qed.

Lemma parse_v4_ok l b : parse_v4 l = Some b -> length b = 4%nat /\ bytes_ok b.
Proof.
  unfold parse_v4. destruct (split_ascii _ _) as [|x1 [|x2 [|x3 [|x4 [|]]]]]; try done.
  destruct (octet x1) eqn:H1; [|done]. destruct (octet x2) eqn:H2; [|done].
  destruct (octet x3) eqn:H3; [|done]. destruct (octet x4) eqn:H4; [|done]. intros [= <-].
  split; [done|]. repeat constructor; eapply octet_ok; eassumption.
Qed.

Lemma hex_run_bound l acc n v k r :
  hex_run l acc n = (v, k, r) -> (0 <= acc < 16 ^ Z.of_nat n)%Z -> (0 <= v < 16 ^ Z.of_nat k)%Z.
Proof.
  revert acc n. induction l as [|c l IH]; intros acc n; cbn [hex_run]; [by intros [= <- <- _]|].
  destruct (hexval c) as [d|] eqn:Hd; [|by intros [= <- <- _]].
  intros H Ha. apply (IH _ _ H). apply hexval_range in Hd.
  rewrite Nat2Z.inj_succ, Z.pow_succ_r by lia. lia.
Qed.

Lemma v6_loop_ok fuel s done_ ell b e r :
  v6_loop fuel s done_ ell = Some (b, e, r) -> bytes_ok done_ -> bytes_ok b.
Proof.
  revert s done_ ell. induction fuel as [|fuel IH]; intros s done_ ell; cbn [v6_loop]; [by intros [= <- _ _]|].
  destruct (16 <=? _)%nat; [by intros [= <- _ _]|].
  destruct (hex_run s 0 0) as [[acc n] rest] eqn:Hr. destruct ((n =? 0) || (4 <? n))%nat%bool eqn:Hn; [done|].
  intros H Hd.
  assert (Ha : (0 <= acc < 65536)%Z).
  { apply hex_run_bound in Hr; [|cbn; lia]. apply orb_false_iff in Hn as [_ Hn%Nat.ltb_ge].
    assert (16 ^ Z.of_nat n <= 16 ^ 4)%Z by (apply Z.pow_le_mono_r; lia). lia. }
  assert (Hg : bytes_ok (done_ ++ [acc / 256; acc mod 256]%Z)).
  { apply bytes_ok_app. split; [done|]. repeat constructor; unfold byte_ok.
    - apply Z.div_pos; lia.
    - apply Z.div_lt_upper_bound; lia.
    - apply Z.mod_pos_bound; lia.
    - apply Z.mod_pos_bound; lia. }
  destruct rest as [|c rest]; [by injection H as <- _ _|].
  destruct (Ascii.eqb c "."%char).
  - case_match; [done|]. destruct (parse_v4 s) as [v4|] eqn:H4; [|done]. injection H as <- _ _.
    apply bytes_ok_app. split; [done|]. by eapply parse_v4_ok.
  - destruct (Ascii.eqb c colon); [|done]. destruct rest as [|c' r']; [done|].
    destruct (Ascii.eqb c' colon); [|by apply IH in H]. destruct ell; [done|].
    destruct r'; [by injection H as <- _ _|by apply IH in H].
Qed.

Lemma v6_finish_ok d e r b : v6_finish (d, e, r) = Some b -> bytes_ok d -> bytes_ok b.
Proof.
  unfold v6_finish. intros H Hd. destruct r; [|done]. destruct e as [e|]; case_match; try done.
  all: injection H as <-; rewrite ?bytes_ok_app; eauto with bytes.
Qed.

Lemma parse_v6_ok l b : parse_v6 l = Some b -> bytes_ok b.
Proof.
  assert (G : forall s ell, (st ← v6_loop 9 s [] ell; v6_finish st) = Some b -> bytes_ok b).
  { intros s ell. destruct (v6_loop 9 s [] ell) as [[[d e] r]|] eqn:H; [|done]. cbn.
    intros Hf. eapply v6_finish_ok; [exact Hf|]. eapply v6_loop_ok; [exact H|]. constructor. }
  unfold parse_v6. intros H. repeat (case_match; try by eapply G); try by eapply G.
  injection H as <-. apply zeros_ok.
Qed.

Lemma ParseIP_ok s : bytes_ok (ParseIP s).
Proof.
  unfold ParseIP. destruct (existsb _ _); [constructor|]. destruct (Ascii.eqb _ "."%char).
  - destruct (parse_v4 _) as [b|] eqn:H; [|constructor]. apply bytes_ok_app. split.
    + unfold v4InV6Prefix. repeat constructor; unfold byte_ok; lia.
    + by eapply parse_v4_ok.
  - destruct (Ascii.eqb _ colon); [|constructor]. destruct (parse_v6 _) as [b|] eqn:H'; [|constructor]. by eapply parse_v6_ok.
Qed.
#[export] Hint Resolve ParseIP_ok : bytes.
