(* ===== verification/IpText.v ===== *)
(** The text of an IPv4 address reads back as the address
    ([net.IP.String], [net.ParseIP]). *)
From S2P Require Import Prelude.
From S2P Require Import GoNet.
Open Scope Z_scope.

(** The characters that pick the syntax of an address. *)
Definition plain (c : ascii) : bool := negb (Ascii.eqb c "." || Ascii.eqb c colon || Ascii.eqb c "%").

Definition octet_text (b : Z) : list ascii := String.list_ascii_of_string (pretty b).

Lemma octet_text_ok b : byte_ok b -> octet (octet_text b) = Some b /\ forallb plain (octet_text b) = true.
Proof.
  intros Hb. unfold byte_ok in Hb.
  assert (A : forallb (fun n => let b := Z.of_nat n in
            (match octet (octet_text b) with Some v => v =? b | None => false end && forallb plain (octet_text b))%bool)
            (seq 0 256) = true) by (vm_compute; reflexivity).
  rewrite forallb_forall in A. specialize (A (Z.to_nat b)). rewrite in_seq, Z2Nat.id in A by lia.
  specialize (A ltac:(lia)). apply andb_true_iff in A as [A1 A2]. split; [|exact A2].
  destruct (octet _); [|done]. apply Z.eqb_eq in A1. congruence.
Qed.

Lemma plain_dot l : forallb plain l = true -> forallb (fun c => negb (Ascii.eqb c ".")) l = true.
Proof.
  rewrite !forallb_forall. intros A c Hc. specialize (A c Hc). unfold plain in A.
  by destruct (Ascii.eqb c ".").
Qed.

Lemma split_ascii_ne sep l : split_ascii sep l <> [].
Proof. destruct l as [|c l]; cbn; [done|]. destruct (split_ascii sep l); [done|]. by destruct (Ascii.eqb c sep). Qed.

Lemma split_ascii_app sep l r :
  forallb (fun c => negb (Ascii.eqb c sep)) l = true -> split_ascii sep (l ++ sep :: r) = l :: split_ascii sep r.
Proof.
  induction l as [|c l IH]; cbn [forallb app split_ascii]; intros A.
  { rewrite Ascii.eqb_refl. pose proof (split_ascii_ne sep r). by destruct (split_ascii sep r). }
  bools. rewrite IH by done. by case_match.
Qed.

Lemma split_ascii_whole sep l : forallb (fun c => negb (Ascii.eqb c sep)) l = true -> split_ascii sep l = [l].
Proof.
  induction l as [|c l IH]; cbn [forallb split_ascii]; intros A; [done|].
  bools. rewrite IH by done. by case_match.
Qed.

Lemma ip_kind_dot l r : forallb plain l = true -> ip_kind (l ++ "."%char :: r) = "."%char.
Proof.
  induction l as [|c l IH]; cbn [forallb app ip_kind]; intros A; [done|]. bools. rewrite IH by done.
  match goal with H : plain c = true |- _ => unfold plain in H; apply negb_true_iff in H; by rewrite H end.
Qed.

Lemma plain_no_zone l : forallb plain l = true -> existsb (Ascii.eqb "%") l = false.
Proof.
  induction l as [|c l IH]; cbn [forallb existsb]; intros A; [done|]. bools. rewrite IH, orb_false_r by done.
  match goal with H : plain c = true |- _ => unfold plain in H; apply negb_true_iff in H end.
  bools. by rewrite Ascii.eqb_sym.
Qed.

Lemma ParseIP_dotted a b c d :
  bytes_ok [a; b; c; d] -> ParseIP (dotted [a; b; c; d]) = IPv4 a b c d.
Proof.
  unfold bytes_ok. rewrite !Forall_cons. intros (Ha & Hb & Hc & Hd & _).
  destruct (octet_text_ok a Ha) as [Oa Pa], (octet_text_ok b Hb) as [Ob Pb], (octet_text_ok c Hc) as [Oc Pc],
    (octet_text_ok d Hd) as [Od Pd].
  assert (T : String.list_ascii_of_string (dotted [a; b; c; d]) =
    (octet_text a ++ "."%char :: octet_text b ++ "."%char :: octet_text c ++ "."%char :: octet_text d)%list).
  { unfold dotted. rewrite !list_ascii_app. done. }
  unfold ParseIP. rewrite T, ip_kind_dot by done. repeat (rewrite existsb_app; cbn [existsb]).
  rewrite !plain_no_zone by done.
  change ("%" =? ".")%char with false. change ("." =? ".")%char with true. cbn [orb].
  unfold parse_v4. rewrite !split_ascii_app, split_ascii_whole by by apply plain_dot.
  rewrite Oa, Ob, Oc, Od. done.
Qed.

Lemma ParseIP_IPString ip : length ip = 4%nat -> bytes_ok ip -> To4 (ParseIP (IPString ip)) = ip.
Proof.
  intros L B. destruct ip as [|a [|b [|c [|d [|]]]]]; try done.
  unfold IPString. cbn [length Nat.eqb orb]. rewrite (To4_v4 [a; b; c; d]) by done.
  rewrite ParseIP_dotted by done. apply To4_IPv4.
Qed.
