(* ===== verification/Config.v ===== *)
(** The configuration: [internal/config/config.go].  The records follow the
    YAML structures; [Default], [ApplyDefaults] and [Validate] are the code's.
    The flags that [UnmarshalYAML] sets ([gt_legacyEchoSet] and its like) are
    fields of the record; [Load] and [UnmarshalYAML] are in [Main.v]. *)
From S2P Require Import Prelude.
From S2P Require Import GoNet.
Open Scope string_scope.
Open Scope Z_scope.

(** * Structures *)
Record TWAGConfig := mkTWAGConfig {
  tw_Name : string; tw_Realm : string
}.
#[global] Instance TWAGConfig_eta : Eta TWAGConfig := fun x =>
  mkTWAGConfig (tw_Name x) (tw_Realm x).

Record LoggingConfig := mkLoggingConfig {
  lg_Level : string; lg_File : string
}.
#[global] Instance LoggingConfig_eta : Eta LoggingConfig := fun x =>
  mkLoggingConfig (lg_Level x) (lg_File x).

Record DHCPConfig := mkDHCPConfig {
  dh_Enabled : bool; dh_RequireAuthorizedSession : bool; dh_RecoverFromAuthCache : bool;
  dh_LeaseTimeSeconds : Z; dh_RenewalTimeSeconds : Z; dh_RebindingTimeSeconds : Z;
  dh_Interface : string; dh_Mode : string; dh_Netmask : string; dh_Router : string;
  dh_ServerIdentifier : string; dh_DNS : list string; dh_StaleRequestAction : string
}.
#[global] Instance DHCPConfig_eta : Eta DHCPConfig := fun x =>
  mkDHCPConfig (dh_Enabled x) (dh_RequireAuthorizedSession x) (dh_RecoverFromAuthCache x)
  (dh_LeaseTimeSeconds x) (dh_RenewalTimeSeconds x) (dh_RebindingTimeSeconds x) (dh_Interface x)
  (dh_Mode x) (dh_Netmask x) (dh_Router x) (dh_ServerIdentifier x) (dh_DNS x)
  (dh_StaleRequestAction x).

Record ARPProxyConfig := mkARPProxyConfig {
  ap_Enabled : bool; ap_Interface : string; ap_GatewayIP : string;
  ap_RequireAuthorizedSession : bool
}.
#[global] Instance ARPProxyConfig_eta : Eta ARPProxyConfig := fun x =>
  mkARPProxyConfig (ap_Enabled x) (ap_Interface x) (ap_GatewayIP x)
  (ap_RequireAuthorizedSession x).

Record ForwardingConfig := mkForwardingConfig {
  fw_Enabled : bool; fw_Interface : string; fw_RequireAuthorizedSession : bool;
  fw_VirtualGatewayIP : string
}.
#[global] Instance ForwardingConfig_eta : Eta ForwardingConfig := fun x =>
  mkForwardingConfig (fw_Enabled x) (fw_Interface x) (fw_RequireAuthorizedSession x)
  (fw_VirtualGatewayIP x).

Record AccessConfig := mkAccessConfig {
  ac_Interface : string; ac_GatewayIP : string; ac_Netmask : string; ac_DNS : list string;
  ac_DHCP : DHCPConfig; ac_ARPProxy : ARPProxyConfig; ac_Forwarding : ForwardingConfig
}.
#[global] Instance AccessConfig_eta : Eta AccessConfig := fun x =>
  mkAccessConfig (ac_Interface x) (ac_GatewayIP x) (ac_Netmask x) (ac_DNS x) (ac_DHCP x)
  (ac_ARPProxy x) (ac_Forwarding x).

Record RadiusAuthCacheConfig := mkRadiusAuthCacheConfig {
  rac_Enabled : bool; rac_DefaultTTLSeconds : Z; rac_MaxTTLSeconds : Z
}.
#[global] Instance RadiusAuthCacheConfig_eta : Eta RadiusAuthCacheConfig := fun x =>
  mkRadiusAuthCacheConfig (rac_Enabled x) (rac_DefaultTTLSeconds x) (rac_MaxTTLSeconds x).

Record RadiusAccessAcceptConfig := mkRadiusAccessAcceptConfig {
  raa_SessionTimeoutSeconds : Z; raa_TerminationAction : string; raa_IdleTimeoutSeconds : Z
}.
#[global] Instance RadiusAccessAcceptConfig_eta : Eta RadiusAccessAcceptConfig := fun x =>
  mkRadiusAccessAcceptConfig (raa_SessionTimeoutSeconds x) (raa_TerminationAction x)
  (raa_IdleTimeoutSeconds x).

Record RadiusAccountingConfig := mkRadiusAccountingConfig {
  rat_Enabled : bool; rat_ListenAddr : string; rat_Secret : string; rat_ClearSessionOnStop : bool;
  rat_ClearAuthCacheOnStop : bool; rat_InterimUpdateLiveness : bool;
  rat_AccountingOffAction : string; rat_StartWithoutSessionAction : string;
  rat_StartWithoutAuthAction : string
}.
#[global] Instance RadiusAccountingConfig_eta : Eta RadiusAccountingConfig := fun x =>
  mkRadiusAccountingConfig (rat_Enabled x) (rat_ListenAddr x) (rat_Secret x)
  (rat_ClearSessionOnStop x) (rat_ClearAuthCacheOnStop x) (rat_InterimUpdateLiveness x)
  (rat_AccountingOffAction x) (rat_StartWithoutSessionAction x) (rat_StartWithoutAuthAction x).

Record DynamicAuthorizationConfig := mkDynamicAuthorizationConfig {
  da_DefaultPort : Z; da_Secret : string; da_PreferDiscoveredNAS : bool
}.
#[global] Instance DynamicAuthorizationConfig_eta : Eta DynamicAuthorizationConfig := fun x =>
  mkDynamicAuthorizationConfig (da_DefaultPort x) (da_Secret x) (da_PreferDiscoveredNAS x).

Record RadiusConfig := mkRadiusConfig {
  rd_Enabled : bool; rd_ListenAddr : string; rd_Secret : string; rd_VLANID : Z;
  rd_AllowedSourceSubnets : list string; rd_AuthCache : RadiusAuthCacheConfig;
  rd_AccessAccept : RadiusAccessAcceptConfig; rd_Accounting : RadiusAccountingConfig;
  rd_DynamicAuthorization : DynamicAuthorizationConfig
}.
#[global] Instance RadiusConfig_eta : Eta RadiusConfig := fun x =>
  mkRadiusConfig (rd_Enabled x) (rd_ListenAddr x) (rd_Secret x) (rd_VLANID x)
  (rd_AllowedSourceSubnets x) (rd_AuthCache x) (rd_AccessAccept x) (rd_Accounting x)
  (rd_DynamicAuthorization x).

Record STaConfig := mkSTaConfig {
  sta_OriginHost : string; sta_OriginRealm : string; sta_DestinationRealm : string;
  sta_DestinationHost : string; sta_PeerAddr : string; sta_VendorID : Z; sta_AuthApplicationID : Z
}.
#[global] Instance STaConfig_eta : Eta STaConfig := fun x =>
  mkSTaConfig (sta_OriginHost x) (sta_OriginRealm x) (sta_DestinationRealm x)
  (sta_DestinationHost x) (sta_PeerAddr x) (sta_VendorID x) (sta_AuthApplicationID x).

Record AAAConfig := mkAAAConfig {
  aaa_STa : STaConfig
}.
#[global] Instance AAAConfig_eta : Eta AAAConfig := fun x =>
  mkAAAConfig (aaa_STa x).

Record SubscriberConfig := mkSubscriberConfig {
  sub_DefaultAPN : string; sub_DefaultRealm : string
}.
#[global] Instance SubscriberConfig_eta : Eta SubscriberConfig := fun x =>
  mkSubscriberConfig (sub_DefaultAPN x) (sub_DefaultRealm x).

Record IPAMConfig := mkIPAMConfig {
  im_Pool : string; im_Gateway : string; im_DNS : list string
}.
#[global] Instance IPAMConfig_eta : Eta IPAMConfig := fun x =>
  mkIPAMConfig (im_Pool x) (im_Gateway x) (im_DNS x).

Record GTPEchoConfig := mkGTPEchoConfig {
  ec_Enabled : bool; ec_IntervalSeconds : Z; ec_TimeoutSeconds : Z; ec_MaxFailures : Z;
  ec_StartupProbe : bool
}.
#[global] Instance GTPEchoConfig_eta : Eta GTPEchoConfig := fun x =>
  mkGTPEchoConfig (ec_Enabled x) (ec_IntervalSeconds x) (ec_TimeoutSeconds x) (ec_MaxFailures x)
  (ec_StartupProbe x).

Record GTPUserEchoConfig := mkGTPUserEchoConfig {
  ue_Enabled : bool; ue_Mode : string; ue_IntervalSeconds : Z; ue_TimeoutSeconds : Z;
  ue_MaxFailures : Z; ue_StartupProbe : bool; ue_RequireKernelSupport : bool
}.
#[global] Instance GTPUserEchoConfig_eta : Eta GTPUserEchoConfig := fun x =>
  mkGTPUserEchoConfig (ue_Enabled x) (ue_Mode x) (ue_IntervalSeconds x) (ue_TimeoutSeconds x)
  (ue_MaxFailures x) (ue_StartupProbe x) (ue_RequireKernelSupport x).

Record GTPConfig := mkGTPConfig {
  gt_LocalGTPCIP : string; gt_LocalGTPUIP : string; gt_RemotePGWGTPCIP : string;
  gt_RemotePGWGTPUIP : string; gt_APN : string; gt_ChargingCharacteristics : string;
  gt_KernelInterface : string; gt_Echo : GTPEchoConfig; gt_ControlEcho : GTPEchoConfig;
  gt_UserEcho : GTPUserEchoConfig; gt_legacyEchoSet : bool; gt_controlEchoSet : bool;
  gt_userEchoSet : bool
}.
#[global] Instance GTPConfig_eta : Eta GTPConfig := fun x =>
  mkGTPConfig (gt_LocalGTPCIP x) (gt_LocalGTPUIP x) (gt_RemotePGWGTPCIP x) (gt_RemotePGWGTPUIP x)
  (gt_APN x) (gt_ChargingCharacteristics x) (gt_KernelInterface x) (gt_Echo x) (gt_ControlEcho x)
  (gt_UserEcho x) (gt_legacyEchoSet x) (gt_controlEchoSet x) (gt_userEchoSet x).

Record AccountingStartRecoveryConfig := mkAccountingStartRecoveryConfig {
  asr_Enabled : bool; asr_CooldownSeconds : Z; asr_MaxAttemptsPerMinute : Z
}.
#[global] Instance AccountingStartRecoveryConfig_eta : Eta AccountingStartRecoveryConfig := fun x =>
  mkAccountingStartRecoveryConfig (asr_Enabled x) (asr_CooldownSeconds x)
  (asr_MaxAttemptsPerMinute x).

Record RadiusDisconnectConfig := mkRadiusDisconnectConfig {
  rdc_Enabled : bool; rdc_NASPort : Z; rdc_Secret : string; rdc_TimeoutSeconds : Z;
  rdc_Retries : Z; rdc_RequestType : string; rdc_WaitForAccountingStop : bool;
  rdc_AccountingStopTimeoutSeconds : Z; rdc_FallbackToRecoveryTombstone : bool
}.
#[global] Instance RadiusDisconnectConfig_eta : Eta RadiusDisconnectConfig := fun x =>
  mkRadiusDisconnectConfig (rdc_Enabled x) (rdc_NASPort x) (rdc_Secret x) (rdc_TimeoutSeconds x)
  (rdc_Retries x) (rdc_RequestType x) (rdc_WaitForAccountingStop x)
  (rdc_AccountingStopTimeoutSeconds x) (rdc_FallbackToRecoveryTombstone x).

Record RecoveryConfig := mkRecoveryConfig {
  rc_Enabled : bool; rc_ReasonGTPUError : bool; rc_RecoveryWindowSeconds : Z;
  rc_StaleClientGraceSeconds : Z; rc_CleanupOnDuplicateAttach : bool;
  rc_AllowSameMACReattach : bool; rc_RejectOldDHCPIP : bool; rc_DHCPStaleRequestAction : string;
  rc_RadiusDisconnect : RadiusDisconnectConfig;
  rc_AccountingStartRecovery : AccountingStartRecoveryConfig
}.
#[global] Instance RecoveryConfig_eta : Eta RecoveryConfig := fun x =>
  mkRecoveryConfig (rc_Enabled x) (rc_ReasonGTPUError x) (rc_RecoveryWindowSeconds x)
  (rc_StaleClientGraceSeconds x) (rc_CleanupOnDuplicateAttach x) (rc_AllowSameMACReattach x)
  (rc_RejectOldDHCPIP x) (rc_DHCPStaleRequestAction x) (rc_RadiusDisconnect x)
  (rc_AccountingStartRecovery x).

Record PostActivationValidationConfig := mkPostActivationValidationConfig {
  pav_Enabled : bool; pav_FailAction : string; pav_FirstPacketTimeoutSeconds : Z
}.
#[global] Instance PostActivationValidationConfig_eta : Eta PostActivationValidationConfig := fun x =>
  mkPostActivationValidationConfig (pav_Enabled x) (pav_FailAction x)
  (pav_FirstPacketTimeoutSeconds x).

Record LifecycleConfig := mkLifecycleConfig {
  lc_DuplicateAttachPolicy : string; lc_DuplicateAttachCleanupTimeoutSeconds : Z;
  lc_SuppressDuplicateCreateSession : bool; lc_PerSubscriberLockTimeoutSeconds : Z;
  lc_PostActivationValidation : PostActivationValidationConfig
}.
#[global] Instance LifecycleConfig_eta : Eta LifecycleConfig := fun x =>
  mkLifecycleConfig (lc_DuplicateAttachPolicy x) (lc_DuplicateAttachCleanupTimeoutSeconds x)
  (lc_SuppressDuplicateCreateSession x) (lc_PerSubscriberLockTimeoutSeconds x)
  (lc_PostActivationValidation x).

Record RoutingConfig := mkRoutingConfig {
  ro_EnableIPForwarding : bool; ro_DisableRPFilter : bool; ro_PolicyRouting : bool;
  ro_PolicyTable : Z; ro_PolicyPriority : Z; ro_InstallRoutes : bool
}.
#[global] Instance RoutingConfig_eta : Eta RoutingConfig := fun x =>
  mkRoutingConfig (ro_EnableIPForwarding x) (ro_DisableRPFilter x) (ro_PolicyRouting x)
  (ro_PolicyTable x) (ro_PolicyPriority x) (ro_InstallRoutes x).

Record Config := mkConfig {
  cfg_TWAG : TWAGConfig; cfg_Logging : LoggingConfig; cfg_Access : AccessConfig;
  cfg_Radius : RadiusConfig; cfg_AAA : AAAConfig; cfg_Subscriber : SubscriberConfig;
  cfg_GTP : GTPConfig; cfg_Recovery : RecoveryConfig; cfg_Lifecycle : LifecycleConfig;
  cfg_Routing : RoutingConfig; cfg_IPAM : IPAMConfig; cfg_Warnings : list string
}.
#[global] Instance Config_eta : Eta Config := fun x =>
  mkConfig (cfg_TWAG x) (cfg_Logging x) (cfg_Access x) (cfg_Radius x) (cfg_AAA x)
  (cfg_Subscriber x) (cfg_GTP x) (cfg_Recovery x) (cfg_Lifecycle x) (cfg_Routing x) (cfg_IPAM x)
  (cfg_Warnings x).

Definition zeroTWAGConfig : TWAGConfig :=
  mkTWAGConfig "" "".

Definition zeroLoggingConfig : LoggingConfig :=
  mkLoggingConfig "" "".

Definition zeroDHCPConfig : DHCPConfig :=
  mkDHCPConfig false false false 0 0 0 "" "" "" "" "" [] "".

Definition zeroARPProxyConfig : ARPProxyConfig :=
  mkARPProxyConfig false "" "" false.

Definition zeroForwardingConfig : ForwardingConfig :=
  mkForwardingConfig false "" false "".

Definition zeroAccessConfig : AccessConfig :=
  mkAccessConfig "" "" "" [] zeroDHCPConfig zeroARPProxyConfig zeroForwardingConfig.

Definition zeroRadiusAuthCacheConfig : RadiusAuthCacheConfig :=
  mkRadiusAuthCacheConfig false 0 0.

Definition zeroRadiusAccessAcceptConfig : RadiusAccessAcceptConfig :=
  mkRadiusAccessAcceptConfig 0 "" 0.

Definition zeroRadiusAccountingConfig : RadiusAccountingConfig :=
  mkRadiusAccountingConfig false "" "" false false false "" "" "".

Definition zeroDynamicAuthorizationConfig : DynamicAuthorizationConfig :=
  mkDynamicAuthorizationConfig 0 "" false.

Definition zeroRadiusConfig : RadiusConfig :=
  mkRadiusConfig false "" "" 0 [] zeroRadiusAuthCacheConfig zeroRadiusAccessAcceptConfig
  zeroRadiusAccountingConfig zeroDynamicAuthorizationConfig.

Definition zeroSTaConfig : STaConfig :=
  mkSTaConfig "" "" "" "" "" 0 0.

Definition zeroAAAConfig : AAAConfig :=
  mkAAAConfig zeroSTaConfig.

Definition zeroSubscriberConfig : SubscriberConfig :=
  mkSubscriberConfig "" "".

Definition zeroIPAMConfig : IPAMConfig :=
  mkIPAMConfig "" "" [].

Definition zeroGTPEchoConfig : GTPEchoConfig :=
  mkGTPEchoConfig false 0 0 0 false.

Definition zeroGTPUserEchoConfig : GTPUserEchoConfig :=
  mkGTPUserEchoConfig false "" 0 0 0 false false.

Definition zeroGTPConfig : GTPConfig :=
  mkGTPConfig "" "" "" "" "" "" "" zeroGTPEchoConfig zeroGTPEchoConfig zeroGTPUserEchoConfig false
  false false.

Definition zeroAccountingStartRecoveryConfig : AccountingStartRecoveryConfig :=
  mkAccountingStartRecoveryConfig false 0 0.

Definition zeroRadiusDisconnectConfig : RadiusDisconnectConfig :=
  mkRadiusDisconnectConfig false 0 "" 0 0 "" false 0 false.

Definition zeroRecoveryConfig : RecoveryConfig :=
  mkRecoveryConfig false false 0 0 false false false "" zeroRadiusDisconnectConfig
  zeroAccountingStartRecoveryConfig.

Definition zeroPostActivationValidationConfig : PostActivationValidationConfig :=
  mkPostActivationValidationConfig false "" 0.

Definition zeroLifecycleConfig : LifecycleConfig :=
  mkLifecycleConfig "" 0 false 0 zeroPostActivationValidationConfig.

Definition zeroRoutingConfig : RoutingConfig :=
  mkRoutingConfig false false false 0 0 false.

Definition zeroConfig : Config :=
  mkConfig zeroTWAGConfig zeroLoggingConfig zeroAccessConfig zeroRadiusConfig zeroAAAConfig
  zeroSubscriberConfig zeroGTPConfig zeroRecoveryConfig zeroLifecycleConfig zeroRoutingConfig
  zeroIPAMConfig [].

Definition STaVendorID : Z := 10415.
Definition STaAuthApplicationID : Z := 16777250.
Definition MinGTPEchoIntervalSeconds : Z := 60.

(** * Default *)
Definition Default : Config := zeroConfig
  <| cfg_Logging := mkLoggingConfig "info" "/var/log/vectorcore/twag/twag.log" |>
  <| cfg_Access := zeroAccessConfig
       <| ac_Netmask := "255.255.255.0" |>
       <| ac_DHCP := zeroDHCPConfig <| dh_Mode := "proxy" |> <| dh_RequireAuthorizedSession := true |>
            <| dh_RecoverFromAuthCache := true |> <| dh_LeaseTimeSeconds := 600 |>
            <| dh_RenewalTimeSeconds := 300 |> <| dh_RebindingTimeSeconds := 525 |> |>
       <| ac_ARPProxy := zeroARPProxyConfig <| ap_RequireAuthorizedSession := true |> |>
       <| ac_Forwarding := zeroForwardingConfig <| fw_RequireAuthorizedSession := true |> |> |>
  <| cfg_Radius := zeroRadiusConfig
       <| rd_Enabled := true |>
       <| rd_AuthCache := mkRadiusAuthCacheConfig true 3600 86400 |>
       <| rd_AccessAccept := mkRadiusAccessAcceptConfig 3600 "radius_request" 0 |>
       <| rd_Accounting := zeroRadiusAccountingConfig
            <| rat_ListenAddr := "0.0.0.0:1813" |> <| rat_ClearSessionOnStop := true |>
            <| rat_InterimUpdateLiveness := true |> <| rat_AccountingOffAction := "mark_at_risk" |>
            <| rat_StartWithoutSessionAction := "recover_if_auth_valid" |>
            <| rat_StartWithoutAuthAction := "disconnect" |> |>
       <| rd_DynamicAuthorization := zeroDynamicAuthorizationConfig
            <| da_DefaultPort := 3799 |> <| da_PreferDiscoveredNAS := true |> |> |>
  <| cfg_AAA := mkAAAConfig (zeroSTaConfig
       <| sta_VendorID := STaVendorID |> <| sta_AuthApplicationID := STaAuthApplicationID |>) |>
  <| cfg_GTP := zeroGTPConfig
       <| gt_ChargingCharacteristics := "0800" |> <| gt_KernelInterface := "gtp0" |>
       <| gt_ControlEcho := mkGTPEchoConfig true MinGTPEchoIntervalSeconds 5 3 true |>
       <| gt_UserEcho := zeroGTPUserEchoConfig <| ue_Mode := "kernel_netlink" |>
            <| ue_IntervalSeconds := MinGTPEchoIntervalSeconds |> <| ue_TimeoutSeconds := 5 |>
            <| ue_MaxFailures := 3 |> |> |>
  <| cfg_Recovery := zeroRecoveryConfig
       <| rc_Enabled := true |> <| rc_ReasonGTPUError := true |> <| rc_RecoveryWindowSeconds := 60 |>
       <| rc_StaleClientGraceSeconds := 10 |> <| rc_CleanupOnDuplicateAttach := true |>
       <| rc_AllowSameMACReattach := true |> <| rc_RejectOldDHCPIP := true |>
       <| rc_DHCPStaleRequestAction := "nak" |>
       <| rc_RadiusDisconnect := zeroRadiusDisconnectConfig
            <| rdc_NASPort := 3799 |> <| rdc_TimeoutSeconds := 3 |> <| rdc_Retries := 2 |>
            <| rdc_RequestType := "disconnect" |> <| rdc_AccountingStopTimeoutSeconds := 10 |>
            <| rdc_FallbackToRecoveryTombstone := true |> |>
       <| rc_AccountingStartRecovery := mkAccountingStartRecoveryConfig true 10 3 |> |>
  <| cfg_Lifecycle := zeroLifecycleConfig
       <| lc_DuplicateAttachPolicy := "reuse_existing" |>
       <| lc_DuplicateAttachCleanupTimeoutSeconds := 5 |>
       <| lc_SuppressDuplicateCreateSession := true |> <| lc_PerSubscriberLockTimeoutSeconds := 10 |>
       <| lc_PostActivationValidation := mkPostActivationValidationConfig true "trigger_recovery" 0 |> |>
  <| cfg_Routing := zeroRoutingConfig <| ro_InstallRoutes := true |> |>.

(** * ApplyDefaults *)

(** [if x == zero { x = d }] *)
Definition or_str (d x : string) : string := if nonempty x then x else d.
Definition or_num (d x : Z) : Z := if x =? 0 then d else x.

Definition clamp_warning (path : string) (configured : Z) : string :=
  path +:+ ".interval_seconds configured below " +:+ pretty MinGTPEchoIntervalSeconds
  +:+ " seconds; clamping configured value " +:+ pretty configured +:+ " to "
  +:+ pretty MinGTPEchoIntervalSeconds +:+ " to avoid sending GTP Echo too frequently".

(** The interval rule the two normalisers share, with the warnings it adds. *)
Definition clamp_interval (path : string) (i : Z) (warnings : list string) : Z * list string :=
  if i =? 0 then (MinGTPEchoIntervalSeconds, warnings)
  else if ((0 <? i) && (i <? MinGTPEchoIntervalSeconds))%bool
  then (MinGTPEchoIntervalSeconds, (warnings ++ [clamp_warning path i])%list)
  else (i, warnings).

Definition normalizeGTPEchoConfig (cfg : GTPEchoConfig) (path : string) (warnings : list string)
  : GTPEchoConfig * list string :=
  let '(i, w) := clamp_interval path (ec_IntervalSeconds cfg) warnings in
  (cfg <| ec_IntervalSeconds := i |> <| ec_TimeoutSeconds ::= or_num 5 |>
       <| ec_MaxFailures ::= or_num 3 |>, w).

Definition normalizeGTPUserEchoConfig (cfg : GTPUserEchoConfig) (path : string)
    (warnings : list string) : GTPUserEchoConfig * list string :=
  let cfg := cfg <| ue_Mode ::= or_str "kernel_netlink" |> in
  let '(i, w) := clamp_interval path (ue_IntervalSeconds cfg) warnings in
  (cfg <| ue_IntervalSeconds := i |> <| ue_TimeoutSeconds ::= or_num 5 |>
       <| ue_MaxFailures ::= or_num 3 |>, w).

(** Each section is a function of its part of the configuration (and of what
    it reads of the others); [ApplyDefaults] runs them in the code's order. *)
Definition defaults_logging (l : LoggingConfig) : LoggingConfig :=
  l <| lg_Level ::= or_str "info" |> <| lg_File ::= or_str "/var/log/vectorcore/twag/twag.log" |>.

Definition defaults_access (stale : string) (a : AccessConfig) : AccessConfig :=
  let a := a <| ac_Netmask ::= or_str "255.255.255.0" |> in
  let d := ac_DHCP a
    <| dh_Mode ::= or_str "proxy" |>
    <| dh_RecoverFromAuthCache := true |>
    <| dh_Interface := ac_Interface a |> <| dh_Netmask := ac_Netmask a |>
    <| dh_Router := ac_GatewayIP a |> <| dh_ServerIdentifier := ac_GatewayIP a |>
    <| dh_DNS := ac_DNS a |>
    <| dh_StaleRequestAction := stale |>
    <| dh_LeaseTimeSeconds ::= or_num 600 |> <| dh_RenewalTimeSeconds ::= or_num 300 |>
    <| dh_RebindingTimeSeconds ::= or_num 525 |> in
  a <| ac_DHCP := d |>
    <| ac_ARPProxy ::= fun p => p <| ap_Interface := ac_Interface a |> <| ap_GatewayIP := ac_GatewayIP a |> |>
    <| ac_Forwarding ::= fun f => f <| fw_Interface := ac_Interface a |>
         <| fw_VirtualGatewayIP := ac_GatewayIP a |> |>.

Definition defaults_auth_cache (sessionTimeout : Z) (a : RadiusAuthCacheConfig) : RadiusAuthCacheConfig :=
  let a := a <| rac_Enabled := true |>
             <| rac_DefaultTTLSeconds ::= or_num sessionTimeout |>
             <| rac_DefaultTTLSeconds ::= or_num 3600 |>
             <| rac_MaxTTLSeconds ::= or_num 86400 |> in
  if rac_MaxTTLSeconds a <? rac_DefaultTTLSeconds a
  then a <| rac_DefaultTTLSeconds := rac_MaxTTLSeconds a |> else a.

Definition defaults_accounting (secret : string) (a : RadiusAccountingConfig) : RadiusAccountingConfig :=
  a <| rat_ListenAddr ::= or_str "0.0.0.0:1813" |> <| rat_Secret ::= or_str secret |>
    <| rat_ClearSessionOnStop := true |> <| rat_InterimUpdateLiveness := true |>
    <| rat_AccountingOffAction ::= or_str "mark_at_risk" |>
    <| rat_StartWithoutSessionAction ::= or_str "recover_if_auth_valid" |>
    <| rat_StartWithoutAuthAction ::= or_str "disconnect" |>.

Definition radius_warnings (r : RadiusConfig) : list string :=
  if non_nil (rd_AllowedSourceSubnets r) then []
  else ["RADIUS allowed_source_subnets is empty; accepting RADIUS from any source"].

Definition defaults_radius (r : RadiusConfig) : RadiusConfig :=
  let r := r <| rd_ListenAddr ::= or_str "0.0.0.0:1812" |> <| rd_VLANID ::= or_num 10 |> in
  let aa := rd_AccessAccept r <| raa_SessionTimeoutSeconds ::= or_num 3600 |> in
  let ca := defaults_auth_cache (raa_SessionTimeoutSeconds aa) (rd_AuthCache r) in
  let aa := aa <| raa_TerminationAction ::= or_str "radius_request" |> in
  r <| rd_AccessAccept := aa |> <| rd_AuthCache := ca |>
    <| rd_Accounting ::= defaults_accounting (rd_Secret r) |>
    <| rd_DynamicAuthorization ::= fun d =>
         d <| da_DefaultPort ::= or_num 3799 |> <| da_Secret ::= or_str (rd_Secret r) |>
           <| da_PreferDiscoveredNAS := true |> |>.

Definition defaults_gtp (g : GTPConfig) (warnings : list string) : GTPConfig * list string :=
  let g := g <| gt_ChargingCharacteristics ::= or_str "0800" |>
             <| gt_KernelInterface ::= or_str "gtp0" |> in
  let legacy := (gt_legacyEchoSet g && negb (gt_controlEchoSet g))%bool in
  let g := if legacy then g <| gt_ControlEcho := gt_Echo g |> else g in
  let path := if legacy then "gtp.echo" else "gtp.control_echo" in
  let '(ce, w) := normalizeGTPEchoConfig (gt_ControlEcho g) path warnings in
  let '(ue, w) := normalizeGTPUserEchoConfig (gt_UserEcho g) "gtp.user_echo" w in
  let w := if (ue_Enabled ue && (ue_IntervalSeconds ue <=? ue_TimeoutSeconds ue))%bool
           then (w ++ ["gtp.user_echo.timeout_seconds should be less than interval_seconds"])%list
           else w in
  (g <| gt_ControlEcho := ce |> <| gt_Echo := ce |> <| gt_UserEcho := ue |>, w).

Definition defaults_disconnect (accounting : bool) (d : RadiusDisconnectConfig) : RadiusDisconnectConfig :=
  let d := d <| rdc_NASPort ::= or_num 3799 |> <| rdc_TimeoutSeconds ::= or_num 3 |>
             <| rdc_Retries ::= or_num 2 |> <| rdc_RequestType ::= or_str "disconnect" |> in
  let d := if accounting then d <| rdc_WaitForAccountingStop := true |> else d in
  d <| rdc_AccountingStopTimeoutSeconds ::= or_num 10 |> <| rdc_FallbackToRecoveryTombstone := true |>.

Definition defaults_recovery (accounting : bool) (r : RecoveryConfig) : RecoveryConfig :=
  let r := r
    <| rc_RecoveryWindowSeconds ::= or_num 60 |> <| rc_StaleClientGraceSeconds ::= or_num 10 |>
    <| rc_DHCPStaleRequestAction ::= or_str "nak" |> in
  let r := if rc_RejectOldDHCPIP r then r <| rc_DHCPStaleRequestAction := "nak" |> else r in
  r <| rc_RadiusDisconnect ::= defaults_disconnect accounting |>
    <| rc_AccountingStartRecovery ::= fun s =>
         s <| asr_Enabled := true |> <| asr_CooldownSeconds ::= or_num 10 |>
           <| asr_MaxAttemptsPerMinute ::= or_num 3 |> |>.

Definition defaults_lifecycle (l : LifecycleConfig) : LifecycleConfig :=
  l <| lc_DuplicateAttachPolicy ::= or_str "reuse_existing" |>
    <| lc_DuplicateAttachCleanupTimeoutSeconds ::= or_num 5 |>
    <| lc_PerSubscriberLockTimeoutSeconds ::= or_num 10 |>
    <| lc_PostActivationValidation ::= fun p =>
         p <| pav_Enabled := true |> <| pav_FailAction ::= or_str "trigger_recovery" |> |>.

Definition defaults_routing (r : RoutingConfig) : RoutingConfig :=
  let r := r <| ro_InstallRoutes := true |> in
  if ro_PolicyRouting r
  then r <| ro_PolicyTable ::= or_num 200 |> <| ro_PolicyPriority ::= or_num 10000 |> else r.

Definition defaults_sta (s : STaConfig) : STaConfig :=
  s <| sta_VendorID := STaVendorID |> <| sta_AuthApplicationID := STaAuthApplicationID |>.

Definition ApplyDefaults (c : Config) : Config :=
  let access := defaults_access (rc_DHCPStaleRequestAction (cfg_Recovery c)) (cfg_Access c) in
  let radius := defaults_radius (cfg_Radius c) in
  let '(gtp, warnings) := defaults_gtp (cfg_GTP c) (radius_warnings (cfg_Radius c)) in
  let recovery := defaults_recovery (rat_Enabled (rd_Accounting radius)) (cfg_Recovery c) in
  let access := access <| ac_DHCP ::= fun d =>
                  d <| dh_StaleRequestAction := rc_DHCPStaleRequestAction recovery |> |> in
  c <| cfg_Logging ::= defaults_logging |> <| cfg_Access := access |> <| cfg_Radius := radius |>
    <| cfg_GTP := gtp |> <| cfg_Recovery := recovery |> <| cfg_Lifecycle ::= defaults_lifecycle |>
    <| cfg_Routing ::= defaults_routing |>
    <| cfg_AAA ::= fun a => a <| aaa_STa ::= defaults_sta |> |> <| cfg_Warnings := warnings |>.

(** * Validate *)

(** [if bad { errs = append(errs, msg) }] *)
Definition err_if (bad : bool) (msg : string) : list string := if bad then [msg] else [].

Definition one_of (x : string) (l : list string) : bool := List.existsb (String.eqb x) l.

Definition hex_ascii (c : ascii) : bool := match hexval c with Some _ => true | None => false end.

(** A string of four runes that are all hexadecimal digits is four bytes. *)
Definition validTwoOctetHex (s : string) : bool :=
  let l := String.list_ascii_of_string s in
  ((length l =? 4)%nat && forallb hex_ascii l)%bool.

Definition validateSTa (s : STaConfig) : list string :=
  (err_if (negb (nonempty (sta_OriginHost s))) "aaa.sta.origin_host is required when aaa.mode is sta"
   ++ err_if (negb (nonempty (sta_OriginRealm s))) "aaa.sta.origin_realm is required when aaa.mode is sta"
   ++ err_if (negb (nonempty (sta_DestinationRealm s)))
        "aaa.sta.destination_realm is required when aaa.mode is sta"
   ++ (if negb (nonempty (sta_PeerAddr s)) then ["aaa.sta.peer_addr is required when aaa.mode is sta"]
       else match SplitHostPort (sta_PeerAddr s) with
            | Ok _ => []
            | Err e => ["aaa.sta.peer_addr is invalid: " +:+ e]
            end))%list.

Definition validateRequiredIP (name value : string) : list string :=
  if negb (nonempty value) then [name +:+ " is required when pgw.mode is gtp"]
  else if non_nil (ParseIP value) then [] else [name +:+ " is invalid"].

Definition validateRequiredPlainIP (name value : string) : list string :=
  if negb (nonempty value) then [name +:+ " is required"]
  else if non_nil (ParseIP value) then [] else [name +:+ " is invalid"].

(** [for i, x := range l { if bad(x) { errs = append(errs, ...) } }] *)
Definition indexed_errs (bad : string -> bool) (pre post : string) (l : list string) : list string :=
  concat (imap (fun i x => err_if (bad x) (pre +:+ "[" +:+ pretty (Z.of_nat i) +:+ "]" +:+ post)) l).

Definition validate_access (a : AccessConfig) : list string :=
  (err_if (negb (nonempty (ac_Interface a))) "access.interface is required"
   ++ validateRequiredPlainIP "access.gateway_ip" (ac_GatewayIP a)
   ++ validateRequiredPlainIP "access.netmask" (ac_Netmask a)
   ++ indexed_errs (fun d => negb (non_nil (ParseIP d))) "access.dns" " is invalid" (ac_DNS a)
   ++ (if dh_Enabled (ac_DHCP a) then
         err_if (negb (nonempty (dh_Interface (ac_DHCP a)))) "access.dhcp interface defaulting failed"
         ++ err_if (negb (String.eqb (dh_Mode (ac_DHCP a)) "proxy")) "access.dhcp.mode must be proxy"
       else [])
   ++ (if ap_Enabled (ac_ARPProxy a) then
         err_if (negb (nonempty (ap_Interface (ac_ARPProxy a)))) "access.arp_proxy interface defaulting failed"
       else [])
   ++ (if fw_Enabled (ac_Forwarding a) then
         err_if (negb (nonempty (fw_Interface (ac_Forwarding a)))) "access.forwarding interface defaulting failed"
       else []))%list.

Definition validate_radius (r : RadiusConfig) : list string :=
  ((if rd_Enabled r then
      err_if (negb (nonempty (rd_Secret r))) "radius.secret is required when radius.enabled is true"
      ++ err_if (negb (nonempty (rd_ListenAddr r))) "radius.listen_addr is required when radius.enabled is true"
    else [])
   ++ err_if ((rd_VLANID r <? 1) || (4094 <? rd_VLANID r)) "radius.vlan_id must be between 1 and 4094"
   ++ err_if (raa_SessionTimeoutSeconds (rd_AccessAccept r) <=? 0)
        "radius.access_accept.session_timeout_seconds must be greater than 0"
   ++ err_if (negb (one_of (raa_TerminationAction (rd_AccessAccept r)) ["radius_request"; "default"]))
        "radius.access_accept.termination_action must be radius_request or default"
   ++ err_if (raa_IdleTimeoutSeconds (rd_AccessAccept r) <? 0)
        "radius.access_accept.idle_timeout_seconds must be greater than or equal to 0"
   ++ indexed_errs (fun d => match ParseCIDR d with Some _ => false | None => true end)
        "radius.allowed_source_subnets" " must be a valid CIDR" (rd_AllowedSourceSubnets r)
   ++ (if rat_Enabled (rd_Accounting r) then
         err_if (negb (nonempty (rat_ListenAddr (rd_Accounting r))))
           "radius.accounting.listen_addr is required when accounting.enabled is true"
         ++ err_if (negb (nonempty (rat_Secret (rd_Accounting r))))
              "radius.accounting.secret is required when accounting.enabled is true"
       else [])
   ++ err_if (negb (one_of (rat_AccountingOffAction (rd_Accounting r)) ["mark_at_risk"; "clear_sessions"; "ignore"]))
        "radius.accounting.accounting_off_action must be mark_at_risk, clear_sessions, or ignore"
   ++ err_if (negb (one_of (rat_StartWithoutSessionAction (rd_Accounting r))
                      ["recover_if_auth_valid"; "disconnect"; "ignore"]))
        "radius.accounting.start_without_session_action must be recover_if_auth_valid, disconnect, or ignore"
   ++ err_if (negb (one_of (rat_StartWithoutAuthAction (rd_Accounting r)) ["disconnect"; "ignore"; "log_only"]))
        "radius.accounting.start_without_auth_action must be disconnect, ignore, or log_only"
   ++ err_if ((da_DefaultPort (rd_DynamicAuthorization r) <? 0) || (65535 <? da_DefaultPort (rd_DynamicAuthorization r)))
        "radius.dynamic_authorization.default_port must be between 0 and 65535")%list.

Definition validate_gtp (g : GTPConfig) : list string :=
  (validateRequiredIP "gtp.local_gtpc_ip" (gt_LocalGTPCIP g)
   ++ validateRequiredIP "gtp.local_gtpu_ip" (gt_LocalGTPUIP g)
   ++ validateRequiredIP "gtp.remote_pgw_gtpc_ip" (gt_RemotePGWGTPCIP g)
   ++ validateRequiredIP "gtp.remote_pgw_gtpu_ip" (gt_RemotePGWGTPUIP g)
   ++ err_if (negb (validTwoOctetHex (gt_ChargingCharacteristics g)))
        "gtp.charging_characteristics must be exactly 4 hex characters"
   ++ err_if (negb (nonempty (gt_KernelInterface g))) "gtp.kernel_interface is required"
   ++ err_if (ec_IntervalSeconds (gt_ControlEcho g) <=? 0) "gtp.control_echo.interval_seconds must be greater than 0"
   ++ err_if (ec_TimeoutSeconds (gt_ControlEcho g) <=? 0) "gtp.control_echo.timeout_seconds must be greater than 0"
   ++ err_if (ec_MaxFailures (gt_ControlEcho g) <=? 0) "gtp.control_echo.max_failures must be greater than 0"
   ++ (if ue_Enabled (gt_UserEcho g) then
         err_if (negb (String.eqb (ue_Mode (gt_UserEcho g)) "kernel_netlink")) "gtp.user_echo.mode must be kernel_netlink"
         ++ err_if (ue_IntervalSeconds (gt_UserEcho g) <=? 0) "gtp.user_echo.interval_seconds must be greater than 0"
         ++ err_if (ue_TimeoutSeconds (gt_UserEcho g) <=? 0) "gtp.user_echo.timeout_seconds must be greater than 0"
         ++ err_if (ue_MaxFailures (gt_UserEcho g) <=? 0) "gtp.user_echo.max_failures must be greater than 0"
       else []))%list.

Definition validate_recovery (r : RecoveryConfig) : list string :=
  let d := rc_RadiusDisconnect r in
  (err_if (rc_RecoveryWindowSeconds r <=? 0) "session_recovery.recovery_window_seconds must be greater than 0"
   ++ err_if (rc_StaleClientGraceSeconds r <=? 0) "session_recovery.stale_client_grace_seconds must be greater than 0"
   ++ err_if (negb (one_of (rc_DHCPStaleRequestAction r) ["ignore"; "nak"]))
        "session_recovery.dhcp_stale_request_action must be ignore or nak"
   ++ (if rdc_Enabled d then
         err_if (negb (nonempty (rdc_Secret d))) "session_recovery.radius_disconnect.secret is required when enabled"
       else [])
   ++ err_if ((rdc_NASPort d <=? 0) || (65535 <? rdc_NASPort d))
        "session_recovery.radius_disconnect.nas_port must be between 1 and 65535"
   ++ err_if (rdc_AccountingStopTimeoutSeconds d <=? 0)
        "session_recovery.radius_disconnect.accounting_stop_timeout_seconds must be greater than 0"
   ++ err_if (rdc_TimeoutSeconds d <=? 0) "session_recovery.radius_disconnect.timeout_seconds must be greater than 0"
   ++ err_if (rdc_Retries d <? 0) "session_recovery.radius_disconnect.retries must be greater than or equal to 0"
   ++ err_if (negb (one_of (rdc_RequestType d) ["disconnect"; "coa"]))
        "session_recovery.radius_disconnect.request_type must be disconnect or coa"
   ++ err_if (asr_CooldownSeconds (rc_AccountingStartRecovery r) <=? 0)
        "session_recovery.accounting_start_recovery.cooldown_seconds must be greater than 0"
   ++ err_if (asr_MaxAttemptsPerMinute (rc_AccountingStartRecovery r) <=? 0)
        "session_recovery.accounting_start_recovery.max_attempts_per_minute must be greater than 0")%list.

Definition validate_lifecycle (l : LifecycleConfig) : list string :=
  let p := lc_PostActivationValidation l in
  (err_if (negb (one_of (lc_DuplicateAttachPolicy l) ["reuse_existing"; "replace_existing"]))
     "session_lifecycle.duplicate_attach_policy must be reuse_existing or replace_existing"
   ++ err_if (lc_DuplicateAttachCleanupTimeoutSeconds l <=? 0)
        "session_lifecycle.duplicate_attach_cleanup_timeout_seconds must be greater than 0"
   ++ err_if (lc_PerSubscriberLockTimeoutSeconds l <=? 0)
        "session_lifecycle.per_subscriber_lock_timeout_seconds must be greater than 0"
   ++ err_if (negb (one_of (pav_FailAction p) ["trigger_recovery"; "reject_access"; "log_only"]))
        "session_lifecycle.post_activation_validation.fail_action must be trigger_recovery, reject_access, or log_only"
   ++ err_if (pav_FirstPacketTimeoutSeconds p <? 0)
        "session_lifecycle.post_activation_validation.first_packet_timeout_seconds must be greater than or equal to 0")%list.

Definition validate_routing (r : RoutingConfig) : list string :=
  if ro_PolicyRouting r then
    (err_if (ro_PolicyTable r <=? 0) "routing.policy_table must be greater than 0 when routing.policy_routing is true"
     ++ err_if (ro_PolicyPriority r <=? 0)
          "routing.policy_priority must be greater than 0 when routing.policy_routing is true")%list
  else [].

(** The list [errs]; the configuration is valid when it is empty. *)
Definition Validate (c : Config) : list string :=
  (err_if (negb (nonempty (tw_Name (cfg_TWAG c)))) "twag.name is required"
   ++ err_if (negb (nonempty (tw_Realm (cfg_TWAG c)))) "twag.realm is required"
   ++ err_if (negb (one_of (lg_Level (cfg_Logging c)) ["debug"; "info"; "warn"; "warning"; "error"]))
        "logging.level must be one of debug, info, warn, error"
   ++ validate_access (cfg_Access c) ++ validate_radius (cfg_Radius c)
   ++ validateSTa (aaa_STa (cfg_AAA c)) ++ validate_gtp (cfg_GTP c)
   ++ validate_recovery (cfg_Recovery c) ++ validate_lifecycle (cfg_Lifecycle c)
   ++ validate_routing (cfg_Routing c))%list.

(** * Lemmas *)
Lemma or_str_idem d x : or_str d (or_str d x) = or_str d x.
Proof. unfold or_str. destruct (nonempty x) eqn:E; [by rewrite E|]. by destruct (nonempty d). Qed.

Lemma or_num_idem d x : or_num d (or_num d x) = or_num d x.
Proof. unfold or_num. destruct (x =? 0) eqn:E; [|by rewrite E]. by destruct (d =? 0). Qed.

Create Rewrite HintDb cfg.
#[export] Hint Rewrite or_str_idem or_num_idem : cfg.

Lemma clamp_idem p q i w w' :
  fst (clamp_interval p (fst (clamp_interval q i w)) w') = fst (clamp_interval q i w).
Proof.
  unfold clamp_interval at 2 3. destruct (i =? 0) eqn:E; [done|].
  destruct (_ && _)%bool eqn:E2; cbn [fst]; [done|]. unfold clamp_interval. by rewrite E, E2.
Qed.

(** Compute the record updates with sharing, keeping the two rules folded. *)
Ltac unfold_upd := cbv -[or_str or_num].

Lemma normalize_echo_idem p q c w w' :
  fst (normalizeGTPEchoConfig (fst (normalizeGTPEchoConfig c q w)) p w') =
  fst (normalizeGTPEchoConfig c q w).
Proof.
  pose proof (clamp_idem p q (ec_IntervalSeconds c) w w') as H. unfold normalizeGTPEchoConfig.
  destruct (clamp_interval q (ec_IntervalSeconds c) w) as [i w1]. cbn in *.
  destruct (clamp_interval p i w') as [i' w2]. cbn in *. subst i'. unfold_upd. by autorewrite with cfg.
Qed.

Lemma normalize_user_echo_idem p q c w w' :
  fst (normalizeGTPUserEchoConfig (fst (normalizeGTPUserEchoConfig c q w)) p w') =
  fst (normalizeGTPUserEchoConfig c q w).
Proof.
  pose proof (clamp_idem p q (ue_IntervalSeconds c) w w') as H. unfold normalizeGTPUserEchoConfig.
  cbn [ue_IntervalSeconds upd]. destruct (clamp_interval q (ue_IntervalSeconds c) w) as [i w1]. cbn in *.
  destruct (clamp_interval p i w') as [i' w2]. cbn in *. subst i'. unfold_upd. by autorewrite with cfg.
Qed.

Lemma defaults_logging_idem l : defaults_logging (defaults_logging l) = defaults_logging l.
Proof. unfold_upd. by autorewrite with cfg. Qed.

Lemma defaults_auth_cache_idem t a :
  defaults_auth_cache t (defaults_auth_cache t a) = defaults_auth_cache t a.
Proof.
  assert (Hnz : forall d x, d <> 0 -> or_num d x <> 0)
    by (intros d x Hd; unfold or_num; destruct (x =? 0) eqn:E; lia).
  assert (Hid : forall d x, x <> 0 -> or_num d x = x)
    by (intros d x Hx; unfold or_num; by rewrite (proj2 (Z.eqb_neq _ _) Hx)).
  destruct a as [en d mx]. unfold defaults_auth_cache, upd. cbn.
  set (M := or_num 86400 mx). set (D := or_num 3600 (or_num t d)).
  assert (HM : M <> 0) by (by apply Hnz). assert (HD : D <> 0) by (by apply Hnz).
  destruct (M <? D) eqn:E; cbn; rewrite (Hid t), (Hid 3600), (Hid 86400) by done;
    rewrite ?Z.ltb_irrefl, ?E; done.
Qed.

Lemma defaults_accounting_idem s a : defaults_accounting s (defaults_accounting s a) = defaults_accounting s a.
Proof. unfold_upd. by autorewrite with cfg. Qed.

Lemma defaults_radius_idem r : defaults_radius (defaults_radius r) = defaults_radius r.
Proof.
  cbv -[or_str or_num defaults_auth_cache defaults_accounting]. autorewrite with cfg.
  by rewrite defaults_auth_cache_idem, defaults_accounting_idem.
Qed.

Lemma defaults_access_idem s s' a : defaults_access s (defaults_access s' a) = defaults_access s a.
Proof. unfold_upd. by autorewrite with cfg. Qed.

Lemma defaults_access_stale s s' a :
  defaults_access s' a <| ac_DHCP ::= fun d => d <| dh_StaleRequestAction := s |> |> = defaults_access s a.
Proof. done. Qed.

Lemma defaults_gtp_idem g w w' :
  fst (defaults_gtp (fst (defaults_gtp g w)) w') = fst (defaults_gtp g w).
Proof.
  unfold defaults_gtp.
  set (g0 := g <| gt_ChargingCharacteristics ::= _ |> <| gt_KernelInterface ::= _ |>).
  set (lg := (gt_legacyEchoSet g0 && negb (gt_controlEchoSet g0))%bool).
  set (g1 := if lg then g0 <| gt_ControlEcho := gt_Echo g0 |> else g0).
  set (path := if lg then _ else _).
  pose proof (normalize_echo_idem path path (gt_ControlEcho g1) w w') as He.
  pose proof (normalize_user_echo_idem "gtp.user_echo" "gtp.user_echo" (gt_UserEcho g1)) as Hu.
  destruct (normalizeGTPEchoConfig (gt_ControlEcho g1) path w) as [ce w1] eqn:E1.
  specialize (Hu w1). destruct (normalizeGTPUserEchoConfig (gt_UserEcho g1) "gtp.user_echo" w1) as [ue w2] eqn:E2.
  cbn [fst] in *.
  assert (Hf : gt_legacyEchoSet g1 = gt_legacyEchoSet g0 /\ gt_controlEchoSet g1 = gt_controlEchoSet g0)
    by (unfold g1; by destruct lg). destruct Hf as [Hf1 Hf2].
  assert (Hs : g1 <| gt_ChargingCharacteristics ::= or_str "0800" |> <| gt_KernelInterface ::= or_str "gtp0" |> = g1).
  { unfold g1, g0. clearbody lg. destruct lg; unfold_upd; by autorewrite with cfg. }
  set (g2 := g1 <| gt_ControlEcho := ce |> <| gt_Echo := ce |> <| gt_UserEcho := ue |>).
  assert (Hs2 : g2 <| gt_ChargingCharacteristics ::= or_str "0800" |> <| gt_KernelInterface ::= or_str "gtp0" |> = g2).
  { unfold g2. transitivity (g1 <| gt_ChargingCharacteristics ::= or_str "0800" |> <| gt_KernelInterface ::= or_str "gtp0" |>
      <| gt_ControlEcho := ce |> <| gt_Echo := ce |> <| gt_UserEcho := ue |>); [done|by rewrite Hs]. }
  rewrite Hs2. assert (Hl : (gt_legacyEchoSet g2 && negb (gt_controlEchoSet g2))%bool = lg)
    by (unfold lg; rewrite <- Hf1, <- Hf2; done).
  rewrite Hl. assert (H3 : (if lg then g2 <| gt_ControlEcho := gt_Echo g2 |> else g2) = g2) by (by destruct lg).
  rewrite H3. fold path. change (gt_ControlEcho g2) with ce. change (gt_UserEcho g2) with ue.
  destruct (normalizeGTPEchoConfig ce path w') as [ce' w3]. cbn [fst] in He. subst ce'.
  specialize (Hu w3). destruct (normalizeGTPUserEchoConfig ue "gtp.user_echo" w3) as [ue' w4].
  cbn [fst] in Hu. subst ue'. done.
Qed.

Lemma defaults_disconnect_idem b d : defaults_disconnect b (defaults_disconnect b d) = defaults_disconnect b d.
Proof. destruct b; unfold_upd; by autorewrite with cfg. Qed.

Lemma defaults_recovery_idem b r : defaults_recovery b (defaults_recovery b r) = defaults_recovery b r.
Proof.
  destruct r as [r1 r2 r3 r4 r5 r6 [] r8 r9 r10]; cbv -[or_str or_num defaults_disconnect];
    autorewrite with cfg; by rewrite defaults_disconnect_idem.
Qed.

Lemma defaults_lifecycle_idem l : defaults_lifecycle (defaults_lifecycle l) = defaults_lifecycle l.
Proof. unfold_upd. by autorewrite with cfg. Qed.

Lemma defaults_routing_idem r : defaults_routing (defaults_routing r) = defaults_routing r.
Proof.
  destruct r as [r1 r2 [] r4 r5 r6]; unfold_upd; by autorewrite with cfg.
Qed.

(** The fields of [ApplyDefaults c]. *)
Lemma ApplyDefaults_eq c :
  ApplyDefaults c =
  mkConfig (cfg_TWAG c) (defaults_logging (cfg_Logging c))
    (defaults_access (rc_DHCPStaleRequestAction
       (defaults_recovery (rat_Enabled (rd_Accounting (cfg_Radius c))) (cfg_Recovery c))) (cfg_Access c))
    (defaults_radius (cfg_Radius c)) (mkAAAConfig (defaults_sta (aaa_STa (cfg_AAA c)))) (cfg_Subscriber c)
    (fst (defaults_gtp (cfg_GTP c) (radius_warnings (cfg_Radius c))))
    (defaults_recovery (rat_Enabled (rd_Accounting (cfg_Radius c))) (cfg_Recovery c))
    (defaults_lifecycle (cfg_Lifecycle c)) (defaults_routing (cfg_Routing c)) (cfg_IPAM c)
    (snd (defaults_gtp (cfg_GTP c) (radius_warnings (cfg_Radius c)))).
Proof.
  unfold ApplyDefaults. destruct (defaults_gtp _ _) as [g w]. done.
Qed.

(** * Properties *)

(** [ApplyDefaults] is idempotent: applied to its own result it changes
    no setting (only the list of warnings is recomputed). *)
Theorem apply_defaults_idempotent c :
  ApplyDefaults (ApplyDefaults c) <| cfg_Warnings := [] |> = ApplyDefaults c <| cfg_Warnings := [] |>.
Proof.
  rewrite (ApplyDefaults_eq (ApplyDefaults c)), (ApplyDefaults_eq c).
  cbn [cfg_TWAG cfg_Logging cfg_Access cfg_Radius cfg_AAA cfg_Subscriber cfg_GTP cfg_Recovery
       cfg_Lifecycle cfg_Routing cfg_IPAM].
  rewrite defaults_logging_idem, defaults_radius_idem, defaults_lifecycle_idem, defaults_routing_idem.
  change (rat_Enabled (rd_Accounting (defaults_radius (cfg_Radius c))))
    with (rat_Enabled (rd_Accounting (cfg_Radius c))).
  by rewrite defaults_recovery_idem, defaults_gtp_idem, defaults_access_idem.
Qed.

(** What an operator must supply on top of the defaults. *)
Record required (c : Config) : Prop := mkRequired {
  rq_name : tw_Name (cfg_TWAG c) <> ""; rq_realm : tw_Realm (cfg_TWAG c) <> "";
  rq_iface : ac_Interface (cfg_Access c) <> "";
  rq_gateway : ParseIP (ac_GatewayIP (cfg_Access c)) <> [];
  rq_secret : rd_Secret (cfg_Radius c) <> "";
  rq_sta : validateSTa (aaa_STa (cfg_AAA c)) = [];
  rq_gtpc : ParseIP (gt_LocalGTPCIP (cfg_GTP c)) <> [];
  rq_gtpu : ParseIP (gt_LocalGTPUIP (cfg_GTP c)) <> [];
  rq_pgwc : ParseIP (gt_RemotePGWGTPCIP (cfg_GTP c)) <> [];
  rq_pgwu : ParseIP (gt_RemotePGWGTPUIP (cfg_GTP c)) <> []
}.

(** A configuration that sets only those fields. *)
Definition with_required (name realm iface gw secret : string) (sta : STaConfig)
    (gtpc gtpu pgwc pgwu : string) : Config :=
  Default <| cfg_TWAG := mkTWAGConfig name realm |>
    <| cfg_Access ::= fun a => a <| ac_Interface := iface |> <| ac_GatewayIP := gw |> |>
    <| cfg_Radius ::= fun r => r <| rd_Secret := secret |> |>
    <| cfg_AAA := mkAAAConfig sta |>
    <| cfg_GTP ::= fun g => g <| gt_LocalGTPCIP := gtpc |> <| gt_LocalGTPUIP := gtpu |>
         <| gt_RemotePGWGTPCIP := pgwc |> <| gt_RemotePGWGTPUIP := pgwu |> |>.

Lemma parse_nonempty v : ParseIP v <> [] -> nonempty v = true /\ non_nil (ParseIP v) = true.
Proof.
  intros H. split; [|by apply non_nil_spec]. apply nonempty_spec. intros ->. by apply H.
Qed.

Lemma required_ip name v : ParseIP v <> [] -> validateRequiredIP name v = [] /\ validateRequiredPlainIP name v = [].
Proof.
  intros [H1 H2]%parse_nonempty. unfold validateRequiredIP, validateRequiredPlainIP. by rewrite H1, H2.
Qed.

Lemma required_str v msg : v <> "" -> err_if (negb (nonempty v)) msg = [].
Proof. intros H. by rewrite (proj2 (nonempty_spec v) H). Qed.

(** The built-in defaults are valid: a configuration that sets exactly the
    required fields (names, the access interface and gateway, the RADIUS
    secret, the STa peer and the four GTP addresses) passes [Validate] once
    [ApplyDefaults] has run, whatever the values are. *)
Theorem defaults_validate name realm iface gw secret sta gtpc gtpu pgwc pgwu
    (c := with_required name realm iface gw secret sta gtpc gtpu pgwc pgwu) :
  required c -> Validate (ApplyDefaults c) = [].
Proof.
  intros [Hn Hr Hi Hg Hs Hsta H1 H2 H3 H4]. cbn in Hn, Hr, Hi, Hg, Hs, Hsta, H1, H2, H3, H4.
  rewrite ApplyDefaults_eq. unfold Validate.
  cbn [cfg_TWAG cfg_Logging cfg_Access cfg_Radius cfg_AAA cfg_Subscriber cfg_GTP cfg_Recovery
       cfg_Lifecycle cfg_Routing cfg_IPAM].
  assert (Ea : validate_access (defaults_access (rc_DHCPStaleRequestAction
       (defaults_recovery (rat_Enabled (rd_Accounting (cfg_Radius c))) (cfg_Recovery c))) (cfg_Access c)) = []).
  { unfold validate_access. cbn -[validateRequiredPlainIP].
    rewrite (proj2 (required_ip _ _ Hg)). by rewrite (proj2 (nonempty_spec iface) Hi). }
  assert (Er : validate_radius (defaults_radius (cfg_Radius c)) = []).
  { unfold validate_radius. cbn. by rewrite !(proj2 (nonempty_spec secret) Hs). }
  assert (Es : validateSTa (aaa_STa (mkAAAConfig (defaults_sta (aaa_STa (cfg_AAA c))))) = []) by exact Hsta.
  assert (Eg : validate_gtp (fst (defaults_gtp (cfg_GTP c) (radius_warnings (cfg_Radius c)))) = []).
  { unfold validate_gtp. cbn -[validateRequiredIP].
    by rewrite (proj1 (required_ip _ _ H1)), (proj1 (required_ip _ _ H2)), (proj1 (required_ip _ _ H3)),
      (proj1 (required_ip _ _ H4)). }
  rewrite Ea, Er, Es, Eg. cbn.
  by rewrite (proj2 (nonempty_spec name) Hn), (proj2 (nonempty_spec realm) Hr).
Qed.

Lemma defaults_validate_witness :
  Validate (ApplyDefaults (with_required "twag-1" "epc.example" "eth1" "10.0.0.1" "s3cret"
    (zeroSTaConfig <| sta_OriginHost := "twag" |> <| sta_OriginRealm := "r" |>
       <| sta_DestinationRealm := "d" |> <| sta_PeerAddr := "[2001:db8::1]:3868" |>)
    "192.0.2.1" "192.0.2.1" "192.0.2.9" "192.0.2.9")) = [].
Proof. apply defaults_validate. by constructor; vm_compute. Defined.
