(* ===== verification/Session.v ===== *)
(** The session registry: [internal/session/session.go] (the records) and
    [internal/session/manager.go] (the [Manager] and its operations).

    The manager's maps hold pointers: several maps share one [*Session], and
    a write through one is seen through all.  The model keeps the pointed-to
    objects in stores ([heap], [aheap], [rheap], never shrunk, as the garbage
    collector is not observable) and the maps hold positions in them.
    [sync.RWMutex] makes every operation atomic, so an operation is one
    function on the manager.  [time.Now()] is an argument; so is the order in
    which Go iterates a map ([ord], any permutation of its entries). *)
From S2P Require Import Prelude.
From S2P Require Import GoNet.
Open Scope string_scope.

(** * Records (session.go) *)
Module State.
Inductive t :=
| Pending | AuthPending | Authorized | IPAllocated | PGWPending
| Active | Recovering | Terminating | Terminated | Failed.

#[global] Instance eq_dec : EqDecision t.
Proof. solve_decision. Defined.

Definition eqb (a b : t) : bool := bool_decide (a = b).
End State.

Inductive RecoveryState :=
| RecoveryNone | RecoveryRequired | RecoveryDisconnecting | RecoveryWaitingAccountingStop
| RecoveryWaitingReauth | RecoveryFallback | RecoveryCompleted | RecoveryExpired.

#[global] Instance RecoveryState_eq_dec : EqDecision RecoveryState.
Proof. solve_decision. Defined.

Record Session := mkSession {
  s_ID : string; s_IMSI : string; s_MSISDN : string; s_MACAddress : string;
  s_APN : string; s_Realm : string; s_Username : string; s_EAPIdentity : string;
  s_CallingStationID : string; s_CalledStationID : string; s_NASIP : string;
  s_NASIdentifier : string; s_AcctSessionID : string; s_AcctMultiSessionID : string;
  s_AccountingActive : bool; s_AccountingAtRisk : bool; s_LastAccountingAt : Time;
  s_AcctInputOctets : Z; s_AcctOutputOctets : Z; s_AcctInputPackets : Z;
  s_AcctOutputPackets : Z; s_AcctTerminateCause : string; s_RadiusState : string;
  s_RadiusClass : list Z; s_ConnectInfo : string; s_FramedMTU : Z;
  s_SubscriberIP : IP; s_GatewayIP : IP; s_AccessType : string; s_AccessInterface : string;
  s_PGWControlIP : IP; s_PGWUserIP : IP; s_GTPCTEID : Z; s_LocalGTPUTEID : Z;
  s_RemoteGTPUTEID : Z; s_GTPUErrorCount : Z; s_LastGTPUErrorAt : Time;
  s_LastGTPUErrorTEID : Z; s_Authenticated : bool; s_Authorized : bool;
  s_State : State.t; s_CreatedAt : Time; s_UpdatedAt : Time; s_ExpiresAt : Time;
  s_Reason : string
}.

#[global] Instance Session_eta : Eta Session := fun x => mkSession
  (s_ID x) (s_IMSI x) (s_MSISDN x) (s_MACAddress x) (s_APN x) (s_Realm x) (s_Username x)
  (s_EAPIdentity x) (s_CallingStationID x) (s_CalledStationID x) (s_NASIP x)
  (s_NASIdentifier x) (s_AcctSessionID x) (s_AcctMultiSessionID x) (s_AccountingActive x)
  (s_AccountingAtRisk x) (s_LastAccountingAt x) (s_AcctInputOctets x) (s_AcctOutputOctets x)
  (s_AcctInputPackets x) (s_AcctOutputPackets x) (s_AcctTerminateCause x) (s_RadiusState x)
  (s_RadiusClass x) (s_ConnectInfo x) (s_FramedMTU x) (s_SubscriberIP x) (s_GatewayIP x)
  (s_AccessType x) (s_AccessInterface x) (s_PGWControlIP x) (s_PGWUserIP x) (s_GTPCTEID x)
  (s_LocalGTPUTEID x) (s_RemoteGTPUTEID x) (s_GTPUErrorCount x) (s_LastGTPUErrorAt x)
  (s_LastGTPUErrorTEID x) (s_Authenticated x) (s_Authorized x) (s_State x) (s_CreatedAt x)
  (s_UpdatedAt x) (s_ExpiresAt x) (s_Reason x).

(** Go's zero [Session]. *)
Definition zeroSession : Session := mkSession
  "" "" "" "" "" "" "" "" "" "" "" "" "" "" false false zeroTime 0 0 0 0 "" "" [] "" 0
  [] [] "" "" [] [] 0 0 0 0 zeroTime 0 false false State.Pending zeroTime zeroTime zeroTime "".

Record AuthCacheEntry := mkAuthCacheEntry {
  e_MACAddress : string; e_IMSI : string; e_UserName : string; e_APN : string;
  e_MSISDN : string; e_NASIP : string; e_NASIdentifier : string; e_CalledStationID : string;
  e_CallingStationID : string; e_SSID : string; e_BSSID : string; e_AcctSessionID : string;
  e_SessionTimeoutSeconds : Z; e_AuthStartTime : Time; e_AuthExpiresAt : Time;
  e_LastSeenTime : Time; e_LastAccessAcceptSessionID : string;
  e_LastAccountingStopAt : Time; e_LastAccountingStopCause : string
}.

#[global] Instance AuthCacheEntry_eta : Eta AuthCacheEntry := fun x => mkAuthCacheEntry
  (e_MACAddress x) (e_IMSI x) (e_UserName x) (e_APN x) (e_MSISDN x) (e_NASIP x)
  (e_NASIdentifier x) (e_CalledStationID x) (e_CallingStationID x) (e_SSID x) (e_BSSID x)
  (e_AcctSessionID x) (e_SessionTimeoutSeconds x) (e_AuthStartTime x) (e_AuthExpiresAt x)
  (e_LastSeenTime x) (e_LastAccessAcceptSessionID x) (e_LastAccountingStopAt x)
  (e_LastAccountingStopCause x).

Definition zeroAuthCacheEntry : AuthCacheEntry := mkAuthCacheEntry
  "" "" "" "" "" "" "" "" "" "" "" "" 0 zeroTime zeroTime zeroTime "" zeroTime "".

Record AuthCacheUpdate := mkAuthCacheUpdate {
  u_MACAddress : string; u_IMSI : string; u_UserName : string; u_APN : string;
  u_MSISDN : string; u_NASIP : string; u_NASIdentifier : string; u_CalledStationID : string;
  u_CallingStationID : string; u_SSID : string; u_BSSID : string; u_AcctSessionID : string;
  u_SessionTimeoutSeconds : Z; u_AuthStartTime : Time; u_AuthExpiresAt : Time;
  u_LastSeenTime : Time; u_LastAccessAcceptSessionID : string;
  u_LastAccountingStopAt : Time; u_LastAccountingStopCause : string
}.

#[global] Instance AuthCacheUpdate_eta : Eta AuthCacheUpdate := fun x => mkAuthCacheUpdate
  (u_MACAddress x) (u_IMSI x) (u_UserName x) (u_APN x) (u_MSISDN x) (u_NASIP x)
  (u_NASIdentifier x) (u_CalledStationID x) (u_CallingStationID x) (u_SSID x) (u_BSSID x)
  (u_AcctSessionID x) (u_SessionTimeoutSeconds x) (u_AuthStartTime x) (u_AuthExpiresAt x)
  (u_LastSeenTime x) (u_LastAccessAcceptSessionID x) (u_LastAccountingStopAt x)
  (u_LastAccountingStopCause x).

Record RecoveryTombstone := mkRecoveryTombstone {
  t_MAC : HardwareAddr; t_IMSI : string; t_APN : string; t_OldSubscriberIP : IP;
  t_OldSessionID : string; t_OldRemoteTEID : Z; t_OldLocalTEID : Z;
  t_OriginalUsername : string; t_EAPIdentity : string; t_RadiusState : string;
  t_NASIP : string; t_NASIdentifier : string; t_AcctSessionID : string;
  t_CallingStationID : string; t_CalledStationID : string; t_Class : list Z;
  t_ConnectInfo : string; t_FramedMTU : Z; t_Reason : string; t_State : RecoveryState;
  t_CreatedAt : Time; t_ExpiresAt : Time; t_LastAction : string; t_LastError : string
}.

#[global] Instance RecoveryTombstone_eta : Eta RecoveryTombstone := fun x => mkRecoveryTombstone
  (t_MAC x) (t_IMSI x) (t_APN x) (t_OldSubscriberIP x) (t_OldSessionID x) (t_OldRemoteTEID x)
  (t_OldLocalTEID x) (t_OriginalUsername x) (t_EAPIdentity x) (t_RadiusState x) (t_NASIP x)
  (t_NASIdentifier x) (t_AcctSessionID x) (t_CallingStationID x) (t_CalledStationID x)
  (t_Class x) (t_ConnectInfo x) (t_FramedMTU x) (t_Reason x) (t_State x) (t_CreatedAt x)
  (t_ExpiresAt x) (t_LastAction x) (t_LastError x).

Definition zeroTombstone : RecoveryTombstone := mkRecoveryTombstone
  [] "" "" [] "" 0 0 "" "" "" "" "" "" "" "" [] "" 0 "" RecoveryNone zeroTime zeroTime "" "".

(** * The manager (manager.go) *)
Record CreateInput := mkCreateInput {
  ci_IMSI : string; ci_MSISDN : string; ci_MACAddress : string; ci_APN : string;
  ci_Realm : string; ci_Username : string; ci_EAPIdentity : string;
  ci_CallingStationID : string; ci_CalledStationID : string; ci_NASIP : string;
  ci_NASIdentifier : string; ci_AcctSessionID : string; ci_RadiusState : string;
  ci_RadiusClass : list Z; ci_ConnectInfo : string; ci_FramedMTU : Z;
  ci_AccessType : string; ci_AccessInterface : string; ci_GatewayIP : IP; ci_TTL : Z
}.

(** Pointers into the three stores. *)
Abbreviation ptr := nat (only parsing).

Record Manager := mkManager {
  heap : list Session; next : Z;
  byID : gmap string ptr; byIMSI : gmap string ptr; byMAC : gmap string ptr;
  byIP : gmap string ptr; byTEID : gmap Z ptr;
  aheap : list AuthCacheEntry;
  authByKey : gmap string ptr; authByMAC : gmap string ptr;
  authByIMSI : gmap string ptr; authByAcctNAS : gmap string ptr;
  rheap : list RecoveryTombstone;
  recoveryByMAC : gmap string ptr; recoveryByIMSI : gmap string ptr;
  recoveryByIP : gmap string ptr; recoveryByRemoteT : gmap Z ptr
}.

#[global] Instance Manager_eta : Eta Manager := fun x => mkManager
  (heap x) (next x) (byID x) (byIMSI x) (byMAC x) (byIP x) (byTEID x)
  (aheap x) (authByKey x) (authByMAC x) (authByIMSI x) (authByAcctNAS x)
  (rheap x) (recoveryByMAC x) (recoveryByIMSI x) (recoveryByIP x) (recoveryByRemoteT x).

Definition NewManager : Manager := mkManager [] 0 ∅ ∅ ∅ ∅ ∅ [] ∅ ∅ ∅ ∅ [] ∅ ∅ ∅ ∅.

Inductive sess_err :=
| ErrNotFound (id : string)
| ErrInvalidTransition (from to : State.t).

(** Dereference; every pointer the manager holds is allocated
    ([index_sound] in SessionFacts). *)
Definition deref (m : Manager) (l : ptr) : Session := default zeroSession (heap m !! l).

Definition write (l : ptr) (f : Session -> Session) (m : Manager) : Manager :=
  m <| heap ::= alter f l |>.

Definition insert_if {K} `{Countable K} (b : bool) (k : K) (l : ptr) (x : gmap K ptr) : gmap K ptr :=
  if b then <[k:=l]> x else x.

Definition delete_if {K} `{Countable K} (b : bool) (k : K) (x : gmap K ptr) : gmap K ptr :=
  if b then delete k x else x.

Definition indexLocked (l : ptr) (m : Manager) : Manager :=
  let s := deref m l in
  m <| byID ::= <[s_ID s := l]> |>
    <| byIMSI ::= insert_if (nonempty (s_IMSI s)) (s_IMSI s) l |>
    <| byMAC ::= insert_if (nonempty (s_MACAddress s)) (s_MACAddress s) l |>
    <| byIP ::= insert_if (non_nil (s_SubscriberIP s)) (IPString (s_SubscriberIP s)) l |>
    <| byTEID ::= insert_if (negb (s_GTPCTEID s =? 0)%Z) (s_GTPCTEID s) l |>.

Definition unindexLocked (l : ptr) (m : Manager) : Manager :=
  let s := deref m l in
  m <| byID ::= delete (s_ID s) |>
    <| byIMSI ::= delete (s_IMSI s) |>
    <| byMAC ::= delete (s_MACAddress s) |>
    <| byIP ::= delete_if (non_nil (s_SubscriberIP s)) (IPString (s_SubscriberIP s)) |>
    <| byTEID ::= delete_if (negb (s_GTPCTEID s =? 0)%Z) (s_GTPCTEID s) |>.

(** [fmt.Sprintf("twag-%d-%d", now.UnixNano(), m.next)] *)
Definition session_id (now : Time) (n : Z) : string :=
  "twag-" +:+ pretty now +:+ "-" +:+ pretty n.

Definition new_session (id : string) (i : CreateInput) (now : Time) : Session :=
  let s := zeroSession
    <| s_ID := id |> <| s_IMSI := ci_IMSI i |> <| s_MSISDN := ci_MSISDN i |>
    <| s_MACAddress := ci_MACAddress i |> <| s_APN := ci_APN i |> <| s_Realm := ci_Realm i |>
    <| s_Username := ci_Username i |> <| s_EAPIdentity := ci_EAPIdentity i |>
    <| s_CallingStationID := ci_CallingStationID i |>
    <| s_CalledStationID := ci_CalledStationID i |> <| s_NASIP := ci_NASIP i |>
    <| s_NASIdentifier := ci_NASIdentifier i |> <| s_AcctSessionID := ci_AcctSessionID i |>
    <| s_RadiusState := ci_RadiusState i |> <| s_RadiusClass := ci_RadiusClass i |>
    <| s_ConnectInfo := ci_ConnectInfo i |> <| s_FramedMTU := ci_FramedMTU i |>
    <| s_AccessType := ci_AccessType i |> <| s_AccessInterface := ci_AccessInterface i |>
    <| s_GatewayIP := ci_GatewayIP i |> <| s_State := State.Pending |>
    <| s_CreatedAt := now |> <| s_UpdatedAt := now |> in
  if (0 <? ci_TTL i)%Z then s <| s_ExpiresAt := (now + ci_TTL i)%Z |> else s.

Definition Create (m : Manager) (input : CreateInput) (now : Time) : Manager * Session :=
  let n := wrap 64 (next m + 1) in
  let s := new_session (session_id now n) input now in
  let l := length (heap m) in
  let m1 := m <| next := n |> <| heap ::= fun h => (h ++ [s])%list |> in
  (indexLocked l m1, s).

Definition validTransition (from to : State.t) : bool :=
  if State.eqb from to then true
  else if State.eqb to State.Failed then negb (State.eqb from State.Terminated)
  else match from with
  | State.Pending => State.eqb to State.AuthPending || State.eqb to State.Terminating
  | State.AuthPending => State.eqb to State.Authorized || State.eqb to State.Terminating
  | State.Authorized =>
    State.eqb to State.IPAllocated || State.eqb to State.PGWPending
    || State.eqb to State.Terminating
  | State.IPAllocated => State.eqb to State.PGWPending || State.eqb to State.Terminating
  | State.PGWPending => State.eqb to State.Active || State.eqb to State.Terminating
  | State.Active => State.eqb to State.Terminating || State.eqb to State.Recovering
  | State.Recovering => State.eqb to State.Terminating || State.eqb to State.Failed
  | State.Terminating => State.eqb to State.Terminated
  | State.Terminated | State.Failed => false
  end%bool.

(** The callback [fn] mutates the session and may touch the maps. *)
Definition update (m : Manager) (id : string) (fn : ptr -> Manager -> Manager) (now : Time)
  : Manager * result Session sess_err :=
  match byID m !! id with
  | None => (m, Err (ErrNotFound id))
  | Some l =>
    let m' := write l (fun s => s <| s_UpdatedAt := now |>) (fn l m) in
    (m', Ok (deref m' l))
  end.

Definition transition (m : Manager) (id : string) (nxt : State.t)
    (fn : ptr -> Manager -> Manager) (now : Time) : Manager * result Session sess_err :=
  match byID m !! id with
  | None => (m, Err (ErrNotFound id))
  | Some l =>
    if validTransition (s_State (deref m l)) nxt then
      let m' := write l (fun s => s <| s_State := nxt |> <| s_UpdatedAt := now |>) (fn l m) in
      (m', Ok (deref m' l))
    else (m, Err (ErrInvalidTransition (s_State (deref m l)) nxt))
  end.

Definition MarkAuthPending (m : Manager) (id : string) :=
  transition m id State.AuthPending (fun _ m => m).

Definition MarkAuthorized (m : Manager) (id : string) :=
  transition m id State.Authorized
    (fun l => write l (fun s => s <| s_Authenticated := true |> <| s_Authorized := true |>)).

Definition ApplyAuthResult (m : Manager) (id imsi msisdn apn reason : string) :=
  transition m id State.Authorized (fun l m =>
    indexLocked l
      (write l (fun s =>
         let s1 := if nonempty imsi then s <| s_IMSI := imsi |> else s in
         let s2 := if nonempty msisdn then s1 <| s_MSISDN := msisdn |> else s1 in
         let s3 := if nonempty apn then s2 <| s_APN := apn |> else s2 in
         s3 <| s_Reason := reason |> <| s_Authenticated := true |> <| s_Authorized := true |>)
       (unindexLocked l m))).

Definition SetSubscriberIP (m : Manager) (id : string) (ip : IP) :=
  transition m id State.IPAllocated (fun l m =>
    let s := deref m l in
    let m1 := m <| byIP ::= delete_if (non_nil (s_SubscriberIP s)) (IPString (s_SubscriberIP s)) |> in
    let m2 := write l (fun s => s <| s_SubscriberIP := ip |>) m1 in
    m2 <| byIP ::= <[IPString ip := l]> |>).

Definition UpdateSubscriberIP (m : Manager) (id : string) (ip : IP) :=
  update m id (fun l m =>
    let s := deref m l in
    let m1 := m <| byIP ::= delete_if (non_nil (s_SubscriberIP s)) (IPString (s_SubscriberIP s)) |> in
    let m2 := write l (fun s => s <| s_SubscriberIP := ip |>) m1 in
    m2 <| byIP ::= insert_if (non_nil ip) (IPString ip) l |>).

Definition MarkPGWPending (m : Manager) (id : string) :=
  transition m id State.PGWPending (fun _ m => m).

Definition MarkActive (m : Manager) (id : string) :=
  transition m id State.Active (fun _ m => m).

Definition MarkRecovering (m : Manager) (id reason : string) :=
  transition m id State.Recovering (fun l => write l (fun s => s <| s_Reason := reason |>)).

Definition MarkTerminating (m : Manager) (id : string) :=
  transition m id State.Terminating (fun _ m => m).

Definition MarkFailed (m : Manager) (id reason : string) :=
  transition m id State.Failed (fun l => write l (fun s => s <| s_Reason := reason |>)).

Definition set_teids (l : ptr) (gtpc : Z) (f : Session -> Session) (m : Manager) : Manager :=
  let s := deref m l in
  let m1 := m <| byTEID ::= delete_if (negb (s_GTPCTEID s =? 0)%Z) (s_GTPCTEID s) |> in
  let m2 := write l (fun s => f s <| s_GTPCTEID := gtpc |>) m1 in
  m2 <| byTEID ::= insert_if (negb (gtpc =? 0)%Z) gtpc l |>.

Definition BindTEIDs (m : Manager) (id : string) (gtpc localGTpu remoteGTpu : Z) :=
  update m id (fun l => set_teids l gtpc (fun s =>
    s <| s_LocalGTPUTEID := localGTpu |> <| s_RemoteGTPUTEID := remoteGTpu |>)).

Definition ApplyPGWResult (m : Manager) (id : string) (pgwControlIP pgwUserIP : IP)
    (gtpc localGTpu remoteGTpu : Z) :=
  update m id (fun l => set_teids l gtpc (fun s =>
    s <| s_PGWControlIP := pgwControlIP |> <| s_PGWUserIP := pgwUserIP |>
      <| s_LocalGTPUTEID := localGTpu |> <| s_RemoteGTPUTEID := remoteGTpu |>)).

Definition Delete (m : Manager) (id : string) (now : Time) : Manager * option Session :=
  match byID m !! id with
  | None => (m, None)
  | Some l =>
    if validTransition (s_State (deref m l)) State.Terminated then
      let m' := write l (fun s => s <| s_State := State.Terminated |> <| s_UpdatedAt := now |>)
                  (unindexLocked l m) in
      (m', Some (deref m' l))
    else (m, None)
  end.

Definition Get (m : Manager) (id : string) : option Session := deref m <$> byID m !! id.

Definition List_ (m : Manager) (ord : list (string * ptr)) : list Session :=
  map (fun '(_, l) => deref m l) ord.

Definition expire_one (now : Time) (st : Manager * list Session) (kv : string * ptr)
  : Manager * list Session :=
  let '(m, expired) := st in
  let '(id, l) := kv in
  let s := deref m l in
  if (IsZero (s_ExpiresAt s) || (now <? s_ExpiresAt s)%Z)%bool then (m, expired)
  else
    let m1 := unindexLocked l m <| byID ::= delete id |> in
    let m2 := write l (fun s => s <| s_State := State.Terminated |> <| s_UpdatedAt := now |>) m1 in
    (m2, (expired ++ [deref m2 l])%list).

Definition ExpireInactive (m : Manager) (ord : list (string * ptr)) (now : Time)
  : Manager * list Session := fold_left (expire_one now) ord (m, []).

Definition LookupByIMSI (m : Manager) (imsi : string) : option Session :=
  deref m <$> byIMSI m !! imsi.

Definition LookupByMAC (m : Manager) (mac : string) : option Session :=
  match byMAC m !! mac with
  | Some l => Some (deref m l)
  | None => match ParseMAC mac with
            | Some hw => deref m <$> byMAC m !! HWString hw
            | None => None
            end
  end.

Definition LookupByMACAddr (m : Manager) (mac : HardwareAddr) : option Session :=
  if non_nil mac then LookupByMAC m (HWString mac) else None.

Definition normalizeMAC (mac : string) : string :=
  match ParseMAC mac with
  | Some hw => ToLower (HWString hw)
  | None => ToLower mac
  end.

Definition macMatches (a b : string) : bool :=
  if (negb (nonempty a) || negb (nonempty b))%bool then false
  else String.eqb (normalizeMAC a) (normalizeMAC b).

Definition sameAPN (a b : string) : bool := EqualFold a b.

Definition subscriberMatches (s : Session) (imsi mac apn : string) : bool :=
  if (nonempty imsi && nonempty (s_IMSI s) && negb (String.eqb (s_IMSI s) imsi))%bool then false
  else if (nonempty mac && nonempty (s_MACAddress s)
           && negb (macMatches (s_MACAddress s) mac))%bool then false
  else if (nonempty apn && nonempty (s_APN s) && negb (sameAPN (s_APN s) apn))%bool then false
  else if (nonempty imsi && String.eqb (s_IMSI s) imsi)%bool then true
  else if (nonempty mac && macMatches (s_MACAddress s) mac)%bool then true
  else false.

Fixpoint findBySubscriber (m : Manager) (ord : list (string * ptr)) (imsi mac apn : string)
    (activeOnly : bool) : option Session :=
  match ord with
  | [] => None
  | (_, l) :: rest =>
    let s := deref m l in
    if (activeOnly && negb (State.eqb (s_State s) State.Active))%bool
    then findBySubscriber m rest imsi mac apn activeOnly
    else if negb (subscriberMatches s imsi mac apn)
    then findBySubscriber m rest imsi mac apn activeOnly
    else Some s
  end.

Definition FindActiveBySubscriber m ord imsi mac apn := findBySubscriber m ord imsi mac apn true.
Definition FindAnyBySubscriber m ord imsi mac apn := findBySubscriber m ord imsi mac apn false.

Definition FindByMAC (m : Manager) (ord : list (string * ptr)) (mac : string) : list Session :=
  List.filter (fun s => macMatches (s_MACAddress s) mac) (map (fun '(_, l) => deref m l) ord).

Definition FindByIMSIAPN (m : Manager) (ord : list (string * ptr)) (imsi apn : string)
  : list Session :=
  List.filter (fun s => (String.eqb (s_IMSI s) imsi && sameAPN (s_APN s) apn)%bool)
    (map (fun '(_, l) => deref m l) ord).

Definition LookupByIP (m : Manager) (ip : IP) : option Session :=
  deref m <$> byIP m !! IPString ip.

Definition acct_matches (acct nasIP nasIdentifier : string) (s : Session) : bool :=
  (String.eqb (s_AcctSessionID s) acct
   && negb (nonempty nasIP && nonempty (s_NASIP s) && negb (String.eqb (s_NASIP s) nasIP))
   && negb (nonempty nasIdentifier && nonempty (s_NASIdentifier s)
            && negb (String.eqb (s_NASIdentifier s) nasIdentifier)))%bool.

Definition LookupByAcctSession (m : Manager) (ord : list (string * ptr))
    (acct nasIP nasIdentifier : string) : option Session :=
  if nonempty acct
  then List.find (acct_matches acct nasIP nasIdentifier) (map (fun '(_, l) => deref m l) ord)
  else None.

Definition LookupByClass (m : Manager) (class : list Z) : option Session :=
  if non_nil class then Get m (string_of_bytes class) else None.

Definition LookupByTEID (m : Manager) (teid : Z) : option Session :=
  deref m <$> byTEID m !! teid.

Definition LookupByRemoteGTPUTEID (m : Manager) (ord : list (string * ptr)) (teid : Z)
  : option Session :=
  List.find (fun s => s_RemoteGTPUTEID s =? teid)%Z (map (fun '(_, l) => deref m l) ord).

Definition LookupByLocalGTPUTEID (m : Manager) (ord : list (string * ptr)) (teid : Z)
  : option Session :=
  List.find (fun s => s_LocalGTPUTEID s =? teid)%Z (map (fun '(_, l) => deref m l) ord).

(** [fmt.Sprintf("... TEID 0x%08x", teid)] *)
Definition teid_reason (teid : Z) : string :=
  "GTP-U Error Indication for TEID 0x" +:+ hex_string (be 4 teid).

Definition RecordGTPUError (m : Manager) (id : string) (teid : Z) (at_ : Time) :=
  update m id (fun l => write l (fun s =>
    s <| s_GTPUErrorCount ::= fun n => wrap 64 (n + 1) |> <| s_LastGTPUErrorAt := at_ |>
      <| s_LastGTPUErrorTEID := teid |> <| s_Reason := teid_reason teid |>)).

Record AccountingUpdate := mkAccountingUpdate {
  au_AcctSessionID : string; au_AcctMultiSessionID : string; au_Active : bool;
  au_AtRisk : bool; au_LastSeen : Time; au_InputOctets : Z; au_OutputOctets : Z;
  au_InputPackets : Z; au_OutputPackets : Z; au_TerminateCause : string
}.

Definition keep_str (new old : string) : string := if nonempty new then new else old.
Definition keep_num (new old : Z) : Z := if (new =? 0)%Z then old else new.
Definition keep_time (new old : Time) : Time := if IsZero new then old else new.

Definition apply_accounting (u : AccountingUpdate) (s : Session) : Session :=
  s <| s_AcctSessionID ::= keep_str (au_AcctSessionID u) |>
    <| s_AcctMultiSessionID ::= keep_str (au_AcctMultiSessionID u) |>
    <| s_AccountingActive := au_Active u |> <| s_AccountingAtRisk := au_AtRisk u |>
    <| s_LastAccountingAt ::= keep_time (au_LastSeen u) |>
    <| s_AcctInputOctets ::= keep_num (au_InputOctets u) |>
    <| s_AcctOutputOctets ::= keep_num (au_OutputOctets u) |>
    <| s_AcctInputPackets ::= keep_num (au_InputPackets u) |>
    <| s_AcctOutputPackets ::= keep_num (au_OutputPackets u) |>
    <| s_AcctTerminateCause ::= keep_str (au_TerminateCause u) |>.

Definition ApplyAccounting (m : Manager) (id : string) (u : AccountingUpdate) :=
  update m id (fun l => write l (apply_accounting u)).
