(* ===== verification/SessionFacts.v ===== *)
(** What the session registry guarantees: the five indexes agree with the
    sessions they point to, a session moves only along the state graph, and a
    session that reaches a data-path state has been authorised.  The
    operations are collected in one type [op] whose [exec] calls them, so a
    registry's history is a list of operations. *)
From S2P Require Import Prelude.
From S2P Require Import GoNet.
From S2P Require Import Session.
Open Scope string_scope.

(** * Keys: the five indexes seen as one *)
Inductive key := KID (k : string) | KIMSI (k : string) | KMAC (k : string)
| KIP (k : string) | KTEID (k : Z).

Definition look (m : Manager) (k : key) : option ptr :=
  match k with
  | KID k => byID m !! k | KIMSI k => byIMSI m !! k | KMAC k => byMAC m !! k
  | KIP k => byIP m !! k | KTEID k => byTEID m !! k
  end.

Definition has_key (s : Session) (k : key) : Prop :=
  match k with
  | KID k => s_ID s = k
  | KIMSI k => s_IMSI s = k /\ k <> ""
  | KMAC k => s_MACAddress s = k /\ k <> ""
  | KIP k => s_SubscriberIP s <> [] /\ IPString (s_SubscriberIP s) = k
  | KTEID k => s_GTPCTEID s = k /\ k <> 0%Z
  end.

(** Every index entry points to an allocated session that carries the key
    and is itself registered under its identifier. *)
Definition index_sound (m : Manager) : Prop :=
  forall k l, look m k = Some l ->
    exists s, heap m !! l = Some s /\ has_key s k /\ byID m !! s_ID s = Some l.

(** * Operations as data *)
Inductive op :=
| OCreate (i : CreateInput) | OMarkAuthPending (id : string) | OMarkAuthorized (id : string)
| OApplyAuthResult (id imsi msisdn apn reason : string)
| OSetSubscriberIP (id : string) (ip : IP) | OUpdateSubscriberIP (id : string) (ip : IP)
| OMarkPGWPending (id : string) | OMarkActive (id : string)
| OMarkRecovering (id reason : string) | OMarkTerminating (id : string)
| OMarkFailed (id reason : string)
| OBindTEIDs (id : string) (c l r : Z) | OApplyPGWResult (id : string) (ci ui : IP) (c l r : Z)
| ODelete (id : string) | OExpire (ord : list (string * ptr))
| ORecordGTPUError (id : string) (teid : Z) (at_ : Time)
| OApplyAccounting (id : string) (u : AccountingUpdate).

Definition exec (o : op) (now : Time) (m : Manager) : Manager :=
  match o with
  | OCreate i => fst (Create m i now)
  | OMarkAuthPending id => fst (MarkAuthPending m id now)
  | OMarkAuthorized id => fst (MarkAuthorized m id now)
  | OApplyAuthResult id a b c d => fst (ApplyAuthResult m id a b c d now)
  | OSetSubscriberIP id ip => fst (SetSubscriberIP m id ip now)
  | OUpdateSubscriberIP id ip => fst (UpdateSubscriberIP m id ip now)
  | OMarkPGWPending id => fst (MarkPGWPending m id now)
  | OMarkActive id => fst (MarkActive m id now)
  | OMarkRecovering id r => fst (MarkRecovering m id r now)
  | OMarkTerminating id => fst (MarkTerminating m id now)
  | OMarkFailed id r => fst (MarkFailed m id r now)
  | OBindTEIDs id c l r => fst (BindTEIDs m id c l r now)
  | OApplyPGWResult id ci ui c l r => fst (ApplyPGWResult m id ci ui c l r now)
  | ODelete id => fst (Delete m id now)
  | OExpire ord => fst (ExpireInactive m ord now)
  | ORecordGTPUError id t a => fst (RecordGTPUError m id t a now)
  | OApplyAccounting id u => fst (ApplyAccounting m id u now)
  end.

(** What the caller owes: fewer than [2^64] sessions are ever created, the
    address given to [SetSubscriberIP] is not nil ([ipam.Allocate] returns
    one), and the iteration order lists the map's entries. *)
Definition op_ok (o : op) (m : Manager) : Prop :=
  match o with
  | OCreate _ => (next m + 1 < 2 ^ 64)%Z
  | OSetSubscriberIP _ ip => ip <> []
  | OExpire ord => ord ≡ₚ map_to_list (byID m)
  | _ => True
  end.

Inductive reachable : Manager -> Prop :=
| reach_init : reachable NewManager
| reach_step m o now : reachable m -> op_ok o m -> reachable (exec o now m).

(** * The primitives *)
Lemma deref_Some m l s : heap m !! l = Some s -> deref m l = s.
Proof. intros H. unfold deref. by rewrite H. Qed.

Lemma look_insert_if {K} `{Countable K} (b : bool) (k k' : K) (l : ptr) (x : gmap K ptr) :
  insert_if b k l x !! k' = if decide (b = true /\ k = k') then Some l else x !! k'.
Proof.
  unfold insert_if. destruct b; case_decide as E; try tauto.
  - destruct E as [_ <-]. by simplify_map_eq.
  - rewrite lookup_insert_ne; [done|]. intros ->. tauto.
  - by destruct E.
Qed.

Lemma look_delete_if {K} `{Countable K} (b : bool) (k k' : K) (x : gmap K ptr) :
  delete_if b k x !! k' = if decide (b = true /\ k = k') then None else x !! k'.
Proof.
  unfold delete_if. destruct b; case_decide as E; try tauto.
  - destruct E as [_ <-]. by simplify_map_eq.
  - rewrite lookup_delete_ne; [done|]. intros ->. tauto.
  - by destruct E.
Qed.

Create Rewrite HintDb reg.
#[export] Hint Rewrite @look_insert_if @look_delete_if : reg.

(** [look] through [write], [indexLocked] and [unindexLocked]. *)
Lemma look_write l f m k : look (write l f m) k = look m k.
Proof. by destruct k. Qed.

Lemma heap_write l f m i :
  heap (write l f m) !! i = if decide (i = l) then f <$> heap m !! i else heap m !! i.
Proof.
  unfold write. cbn. case_decide; subst.
  - apply list_lookup_alter_eq.
  - apply list_lookup_alter_ne. congruence.
Qed.

Lemma look_index l m k :
  (has_key (deref m l) k /\ look (indexLocked l m) k = Some l) \/
  (~ has_key (deref m l) k /\ look (indexLocked l m) k = look m k).
Proof.
  destruct k; cbn; autorewrite with reg; try case_decide; bools;
    rewrite ?nonempty_spec, ?non_nil_spec, ?negb_true_iff, ?Z.eqb_neq in *.
  all: try (rewrite lookup_insert; case_decide); naive_solver.
Qed.

Lemma look_unindex l m k l' :
  look (unindexLocked l m) k = Some l' -> look m k = Some l' /\ ~ has_key (deref m l) k.
Proof.
  destruct k; cbn; autorewrite with reg; try case_decide; try done;
    rewrite ?lookup_delete_Some, ?non_nil_spec, ?negb_true_iff, ?Z.eqb_neq in *; naive_solver.
Qed.

Lemma byID_unindex l m k :
  byID (unindexLocked l m) !! k = if decide (s_ID (deref m l) = k) then None else byID m !! k.
Proof. cbn. rewrite lookup_delete. done. Qed.

(** * Index soundness is preserved *)

(** One object [l] changes; entries for other objects survive, and entries
    for [l] carry its new keys. *)
Lemma sound_change m m' l s' :
  index_sound m ->
  heap m' !! l = Some s' ->
  (forall i, i <> l -> heap m' !! i = heap m !! i) ->
  (forall k i, look m' k = Some i ->
     (i = l /\ has_key s' k /\ byID m' !! s_ID s' = Some l) \/ (i <> l /\ look m k = Some i)) ->
  (forall k i, i <> l -> byID m !! k = Some i -> byID m' !! k = Some i) ->
  index_sound m'.
Proof.
  intros Hs Hl Hheap Hlook Hlive k i Hk.
  destruct (Hlook k i Hk) as [(-> & ? & ?)|[Hne Hold]]; [by exists s'|].
  destruct (Hs k i Hold) as (s & H1 & H2 & H3). exists s. rewrite Hheap by done. auto.
Qed.

Lemma live_deref m id l :
  index_sound m -> byID m !! id = Some l ->
  heap m !! l = Some (deref m l) /\ s_ID (deref m l) = id.
Proof.
  intros Hs Hl. destruct (Hs (KID id) l Hl) as (s & H1 & H2 & _).
  by rewrite (deref_Some m l s).
Qed.

(** Entries pointing at the live object [l] carry its keys. *)
Lemma sound_at m k l : index_sound m -> look m k = Some l -> has_key (deref m l) k.
Proof. intros Hs Hk. destruct (Hs k l Hk) as (s & H1 & H2 & _). by rewrite (deref_Some m l s). Qed.

Lemma has_key_same s s' k :
  s_ID s' = s_ID s -> s_IMSI s' = s_IMSI s -> s_MACAddress s' = s_MACAddress s ->
  s_SubscriberIP s' = s_SubscriberIP s -> s_GTPCTEID s' = s_GTPCTEID s ->
  has_key s k -> has_key s' k.
Proof. intros H1 H2 H3 H4 H5. destruct k; cbn; congruence. Qed.

Lemma heap_write_eq l f m s : heap m !! l = Some s -> heap (write l f m) !! l = Some (f s).
Proof. intros H. rewrite heap_write, decide_True, H; done. Qed.

Lemma heap_write_ne l f m i : i <> l -> heap (write l f m) !! i = heap m !! i.
Proof. intros H. by rewrite heap_write, decide_False. Qed.

Lemma sound_write m l f id :
  index_sound m -> byID m !! id = Some l ->
  (forall s k, has_key s k -> has_key (f s) k) -> index_sound (write l f m).
Proof.
  intros Hs Hl Hf. destruct (live_deref m id l Hs Hl) as [Hd Hid].
  assert (Hid' : s_ID (f (deref m l)) = id) by exact (Hf (deref m l) (KID id) Hid).
  eapply (sound_change m _ l (f (deref m l))); auto using heap_write_eq, heap_write_ne.
  intros k i Hk. rewrite look_write in Hk. destruct (decide (i = l)) as [->|]; [left|by right].
  split; [done|]. split; [apply Hf; by apply sound_at|]. by rewrite Hid'.
Qed.

Lemma sound_remove m l id f :
  index_sound m -> byID m !! id = Some l -> index_sound (write l f (unindexLocked l m)).
Proof.
  intros Hs Hl. destruct (live_deref m id l Hs Hl) as [Hd Hid].
  eapply (sound_change m _ l (f (deref m l)) Hs).
  - by apply heap_write_eq.
  - intros i Hi. by rewrite heap_write_ne.
  - intros k i Hk. rewrite look_write in Hk. apply look_unindex in Hk as [Hk Hno].
    right. split; [|done]. intros ->. by apply Hno, sound_at.
  - intros k i Hi Hk. change (byID (write l f (unindexLocked l m))) with (byID (unindexLocked l m)).
    rewrite byID_unindex, decide_False; [done|]. intros E. congruence.
Qed.

Lemma deref_write l f m s : heap m !! l = Some s -> deref (write l f m) l = f s.
Proof. intros H. by apply deref_Some, heap_write_eq. Qed.

Lemma sound_reindex m l id f :
  index_sound m -> byID m !! id = Some l -> s_ID (f (deref m l)) = id ->
  index_sound (indexLocked l (write l f (unindexLocked l m))).
Proof.
  intros Hs Hl Hf. destruct (live_deref m id l Hs Hl) as [Hd Hid].
  set (m1 := write l f (unindexLocked l m)).
  assert (Hd1 : deref m1 l = f (deref m l)) by (apply deref_write; exact Hd).
  assert (HID : forall k, byID (indexLocked l m1) !! k =
                          if decide (id = k) then Some l else byID m !! k).
  { intros k. change (byID (indexLocked l m1)) with (<[s_ID (deref m1 l) := l]> (byID m1)).
    rewrite Hd1, Hf. destruct (decide (id = k)) as [<-|Hk]; [by simplify_map_eq|].
    rewrite lookup_insert_ne by done.
    change (byID m1) with (byID (unindexLocked l m)). rewrite byID_unindex, Hid.
    by rewrite decide_False. }
  eapply (sound_change m _ l (f (deref m l)) Hs).
  - by apply (heap_write_eq l f).
  - intros i Hi. by apply (heap_write_ne l f (unindexLocked l m)).
  - intros k i Hk. destruct (look_index l m1 k) as [[Hh Hi]|[Hh Hi]]; rewrite Hi in Hk.
    + left. injection Hk as <-. rewrite Hd1 in Hh. split_and!; auto.
      rewrite HID, Hf, decide_True; done.
    + right. unfold m1 in Hk. rewrite look_write in Hk. apply look_unindex in Hk as [Hk Hno].
      split; [|done]. intros ->. by apply Hno, sound_at.
  - intros k i Hi Hk. rewrite HID. case_decide; [congruence|done].
Qed.

(** A change of the subscriber address, and of the GTP-C TEID. *)
Lemma sound_rekey_ip m l id ip f b :
  index_sound m -> byID m !! id = Some l -> (b = true -> ip <> []) ->
  (forall s, f s = s <| s_SubscriberIP := ip |>) ->
  index_sound (write l f (m <| byIP ::= delete_if (non_nil (s_SubscriberIP (deref m l)))
                                   (IPString (s_SubscriberIP (deref m l))) |>)
               <| byIP ::= insert_if b (IPString ip) l |>).
Proof.
  intros Hs Hl Hip Hf. destruct (live_deref m id l Hs Hl) as [Hd Hid].
  eapply (sound_change m _ l (f (deref m l)) Hs).
  - cbn. by rewrite list_lookup_alter_eq, Hd.
  - intros i Hi. cbn. by apply list_lookup_alter_ne.
  - intros k i Hk. destruct (decide (i = l)) as [->|Hi]; [left|right]; (split; [done|]).
    + split; [|rewrite Hf; cbn; by rewrite Hid].
      rewrite Hf. pose proof (sound_at m k l Hs) as Hat.
      destruct k as [k|k|k|k|k]; try exact (Hat Hk).
      cbn in Hk |- *. autorewrite with reg in Hk.
      case_decide as E1; [destruct E1; auto|case_decide as E2; [done|]].
      destruct (Hat Hk) as [Hne Heq]. destruct E2. by rewrite non_nil_spec.
    + destruct k as [k|k|k|k|k]; try exact Hk.
      cbn in Hk |- *. autorewrite with reg in Hk. do 2 (case_decide; [congruence|]). done.
  - by intros k i Hi Hk.
Qed.

Lemma sound_rekey_teid m l id c f :
  index_sound m -> byID m !! id = Some l ->
  (forall s k, (forall t, k <> KTEID t) -> has_key s k -> has_key (f s) k) ->
  index_sound (set_teids l c f m).
Proof.
  intros Hs Hl Hf. destruct (live_deref m id l Hs Hl) as [Hd Hid].
  assert (Hid' : s_ID (f (deref m l)) = id) by (apply (Hf _ (KID id)); done).
  unfold set_teids.
  eapply (sound_change m _ l (f (deref m l) <| s_GTPCTEID := c |>) Hs).
  - cbn. by rewrite list_lookup_alter_eq, Hd.
  - intros i Hi. cbn. by apply list_lookup_alter_ne.
  - intros k i Hk. destruct (decide (i = l)) as [->|Hi]; [left|right]; (split; [done|]).
    + split; [|cbn; by rewrite Hid'].
      pose proof (sound_at m k l Hs) as Hat.
      destruct k as [k|k|k|k|k]; try (refine (Hf (deref m l) _ _ (Hat Hk)); by intros ?).
      cbn in Hk |- *. autorewrite with reg in Hk.
      case_decide as E1; [destruct E1; bools; split; congruence|case_decide as E2; [done|]].
      destruct (Hat Hk) as [Heq Hne]. destruct E2. rewrite negb_true_iff, Z.eqb_neq. split; congruence.
    + destruct k as [k|k|k|k|k]; try exact Hk.
      cbn in Hk |- *. autorewrite with reg in Hk. do 2 (case_decide; [congruence|]). done.
  - by intros k i Hi Hk.
Qed.

(** * How one operation changes the sessions *)

(** The state graph of the registry's comment-free [validTransition]. *)
Inductive edge : State.t -> State.t -> Prop :=
| e_auth : edge State.Pending State.AuthPending
| e_authorized : edge State.AuthPending State.Authorized
| e_ip : edge State.Authorized State.IPAllocated
| e_pgw : edge State.Authorized State.PGWPending
| e_ip_pgw : edge State.IPAllocated State.PGWPending
| e_active : edge State.PGWPending State.Active
| e_recover : edge State.Active State.Recovering
| e_term s : s <> State.Terminating -> s <> State.Terminated -> s <> State.Failed ->
    edge s State.Terminating
| e_done : edge State.Terminating State.Terminated
| e_fail s : s <> State.Terminated -> s <> State.Failed -> edge s State.Failed.

Lemma validTransition_edge a b : validTransition a b = true <-> a = b \/ edge a b.
Proof.
  split.
  - destruct a, b; cbn; try discriminate; intros _; try (by left); right; by constructor.
  - intros [<-|E]; [by destruct a|]. destruct E; try done; by destruct s.
Qed.

Definition authd (s : Session) : Prop := s_Authenticated s = true /\ s_Authorized s = true.

(** The states a session has only after a successful authorisation. *)
Definition past_auth (st : State.t) : bool :=
  match st with
  | State.Authorized | State.IPAllocated | State.PGWPending | State.Active | State.Recovering => true
  | _ => false
  end.

Definition flags_ok (s : Session) : Prop := past_auth (s_State s) = true -> authd s.

Definition keeps (g : Session -> Session) : Prop :=
  forall s, s_ID (g s) = s_ID s /\ s_State (g s) = s_State s /\ (authd s -> authd (g s)).

(** [s'] is [s] after one operation. *)
Definition moves (s s' : Session) : Prop :=
  s_ID s' = s_ID s /\ validTransition (s_State s) (s_State s') = true /\
  (authd s -> authd s') /\ (s_State s' = State.Authorized -> s_State s = State.Authorized \/ authd s').

Definition moved_by (R : Session -> Session -> Prop) (m m' : Manager) : Prop :=
  next m' = next m /\ Forall2 R (heap m) (heap m').

Abbreviation moved := (moved_by moves).

Definition acts (g : Session -> Session) (fn : ptr -> Manager -> Manager) : Prop :=
  forall l m, heap (fn l m) = alter g l (heap m) /\ next (fn l m) = next m.

Lemma vt_refl s : validTransition s s = true.
Proof. by destruct s. Qed.

Lemma moves_refl s : moves s s.
Proof. split_and!; auto using vt_refl. Qed.

Lemma moved_by_refl (R : Session -> Session -> Prop) m : (forall s, R s s) -> moved_by R m m.
Proof. intros HR. split; [done|]. induction (heap m); constructor; auto. Qed.

Lemma moved_refl m : moved m m.
Proof. apply moved_by_refl, moves_refl. Qed.

Lemma moved_alter (R : Session -> Session -> Prop) m m' l g :
  (forall s, R s s) -> next m' = next m -> heap m' = alter g l (heap m) ->
  (forall s, heap m !! l = Some s -> R s (g s)) -> moved_by R m m'.
Proof.
  intros Hr Hn Hh Hg. split; [done|]. rewrite Hh. apply Forall2_same_length_lookup_2.
  { by rewrite length_alter. }
  intros i s s' Hi Hi'. destruct (decide (i = l)) as [->|Hne].
  - rewrite list_lookup_alter_eq, Hi in Hi'. injection Hi' as <-. auto.
  - rewrite list_lookup_alter_ne, Hi in Hi' by done. injection Hi' as <-. auto.
Qed.

Lemma alter_compose_heap f g l (h : list Session) : alter f l (alter g l h) = alter (f ∘ g) l h.
Proof. apply list_alter_alter_eq. Qed.

Lemma keeps_moves g s : keeps g -> moves s (g s).
Proof.
  intros Hk. destruct (Hk s) as (H1 & H2 & H3).
  split_and!; [done| by rewrite H2, vt_refl | done |].
  rewrite H2. by left.
Qed.

Lemma update_moved m id g fn now :
  acts g fn -> keeps g -> moved m (fst (update m id fn now)).
Proof.
  intros Ha Hk. unfold update. destruct (byID m !! id) as [l|]; [|apply moved_refl].
  destruct (Ha l m) as [Hh Hn].
  eapply (moved_alter _ _ _ l (fun s => g s <| s_UpdatedAt := now |>)); [apply moves_refl|exact Hn|..].
  - cbn. by rewrite Hh, alter_compose_heap.
  - intros s _. apply (keeps_moves (fun s => g s <| s_UpdatedAt := now |>)). exact Hk.
Qed.

Lemma transition_moved m id nxt g fn now :
  acts g fn -> keeps g ->
  (nxt = State.Authorized -> forall s, authd (g s)) ->
  moved m (fst (transition m id nxt fn now)).
Proof.
  intros Ha Hk Hz. unfold transition. destruct (byID m !! id) as [l|]; [|apply moved_refl].
  destruct (validTransition _ _) eqn:Hv; [|apply moved_refl].
  destruct (Ha l m) as [Hh Hn].
  eapply (moved_alter _ _ _ l (fun s => g s <| s_State := nxt |> <| s_UpdatedAt := now |>));
    [apply moves_refl|exact Hn|..].
  - cbn. by rewrite Hh, alter_compose_heap.
  - intros s Hs. rewrite (deref_Some m l s Hs) in Hv. destruct (Hk s) as (H1 & H2 & H3).
    split_and!; [exact H1|exact Hv|exact H3|]. cbn. intros E. right. by apply Hz.
Qed.

Lemma acts_id : acts id (fun _ m => m).
Proof. intros l m. split; [symmetry; by apply list_alter_id|done]. Qed.

Lemma acts_write g : acts g (fun l => write l g).
Proof. by intros l m. Qed.



Definition plain (o : op) : bool := match o with OCreate _ | OExpire _ => false | _ => true end.

(** The update function of [ApplyAuthResult]. *)
Definition auth_fields (imsi msisdn apn reason : string) (s : Session) : Session :=
  let s1 := if nonempty imsi then s <| s_IMSI := imsi |> else s in
  let s2 := if nonempty msisdn then s1 <| s_MSISDN := msisdn |> else s1 in
  let s3 := if nonempty apn then s2 <| s_APN := apn |> else s2 in
  s3 <| s_Reason := reason |> <| s_Authenticated := true |> <| s_Authorized := true |>.

Lemma auth_fields_keeps a b c d : keeps (auth_fields a b c d).
Proof.
  intros s. unfold auth_fields. by destruct (nonempty a), (nonempty b), (nonempty c).
Qed.

(** A transition whose callback touches nothing, to a state other than [Authorized]. *)
Lemma mark_moved m id nxt now :
  nxt <> State.Authorized -> moved m (fst (transition m id nxt (fun _ m => m) now)).
Proof. intros Hn. by apply (transition_moved _ _ _ (fun s => s)); [apply acts_id|..]. Qed.

Lemma reason_moved m id nxt r now :
  nxt <> State.Authorized ->
  moved m (fst (transition m id nxt (fun l => write l (fun s => s <| s_Reason := r |>)) now)).
Proof. intros Hn. by apply (transition_moved _ _ _ (fun s => s <| s_Reason := r |>)). Qed.

Lemma exec_moved o now m : plain o = true -> moved m (exec o now m).
Proof.
  destruct o as [i|id|id|id a b c d|id ip|id ip|id|id|id r|id|id r|id c l r|id ci ui c l r|id|ord|id t a|id u];
    cbn [exec plain]; try discriminate; intros _.
  - by apply mark_moved.
  - by apply (transition_moved _ _ _
      (fun s => s <| s_Authenticated := true |> <| s_Authorized := true |>)).
  - apply (transition_moved _ _ _ (auth_fields a b c d)); [by intros l m'|apply auth_fields_keeps|].
    intros _ s. unfold auth_fields. by destruct (nonempty a), (nonempty b), (nonempty c).
  - by apply (transition_moved _ _ _ (fun s => s <| s_SubscriberIP := ip |>)).
  - by apply (update_moved _ _ (fun s => s <| s_SubscriberIP := ip |>)).
  - by apply mark_moved.
  - by apply mark_moved.
  - by apply reason_moved.
  - by apply mark_moved.
  - by apply reason_moved.
  - by eapply update_moved; [intros l' m'|intros s].
  - by eapply update_moved; [intros l' m'|intros s].
  - unfold Delete. destruct (byID m !! id) as [l|]; [|apply moved_refl].
    destruct (validTransition _ _) eqn:Hv; [|apply moved_refl].
    eapply (moved_alter _ _ _ l); [apply moves_refl|by cbn..|]. intros s Hs.
    rewrite (deref_Some m l s Hs) in Hv. split_and!; try done.
  - by eapply update_moved; [intros l' m'|intros s].
  - apply (update_moved _ _ (apply_accounting u)); [by intros l m'|by intros s].
Qed.

(** * Index soundness of every operation *)
Lemma update_sound m id fn now :
  index_sound m ->
  (forall l, byID m !! id = Some l -> index_sound (fn l m) /\ byID (fn l m) !! id = Some l) ->
  index_sound (fst (update m id fn now)).
Proof.
  intros Hs Hf. unfold update. destruct (byID m !! id) as [l|] eqn:Hl; [|done].
  destruct (Hf l eq_refl) as [H1 H2]. apply (sound_write _ l _ id H1 H2).
  intros s k. by apply has_key_same.
Qed.

Lemma transition_sound m id nxt fn now :
  index_sound m ->
  (forall l, byID m !! id = Some l -> index_sound (fn l m) /\ byID (fn l m) !! id = Some l) ->
  index_sound (fst (transition m id nxt fn now)).
Proof.
  intros Hs Hf. unfold transition. destruct (byID m !! id) as [l|] eqn:Hl; [|done].
  destruct (validTransition _ _); [|done].
  destruct (Hf l eq_refl) as [H1 H2]. apply (sound_write _ l _ id H1 H2).
  intros s k. by apply has_key_same.
Qed.

(** A callback that only writes fields outside the keys. *)
Lemma plain_write m id g l :
  index_sound m -> (forall s k, has_key s k -> has_key (g s) k) ->
  byID m !! id = Some l -> index_sound (write l g m) /\ byID (write l g m) !! id = Some l.
Proof. intros Hs Hg Hl. split; [by eapply sound_write|done]. Qed.

Lemma byID_index l m : byID (indexLocked l m) = <[s_ID (deref m l) := l]> (byID m).
Proof. reflexivity. Qed.

Ltac plain_callback :=
  let l := fresh "l" in let Hl := fresh "Hl" in intros l Hl;
  apply plain_write; [done|intros ??; by apply has_key_same|done].

Lemma auth_fields_sound m id l a b c d :
  index_sound m -> byID m !! id = Some l ->
  index_sound (indexLocked l (write l (auth_fields a b c d) (unindexLocked l m))) /\
  byID (indexLocked l (write l (auth_fields a b c d) (unindexLocked l m))) !! id = Some l.
Proof.
  intros Hs Hl. destruct (live_deref m id l Hs Hl) as [Hd Hid].
  assert (H1 : s_ID (auth_fields a b c d (deref m l)) = id)
    by (rewrite <- Hid; apply auth_fields_keeps).
  split; [by apply (sound_reindex m l id)|].
  generalize dependent (auth_fields a b c d). intros f Hf.
  rewrite byID_index, (deref_write l f _ (deref m l)) by exact Hd.
  rewrite Hf. apply lookup_insert_eq.
Qed.

(** ** Fresh identifiers *)
Definition dash : ascii := "-"%char.

Lemma last_dash_inj (a b x y : list ascii) :
  dash ∉ x -> dash ∉ y -> (a ++ dash :: x = b ++ dash :: y)%list -> x = y.
Proof.
  intros Hx Hy. revert b. induction a as [|c a IH]; intros [|d b]; cbn; intros E.
  - by injection E.
  - injection E as <- ->. destruct Hx. apply elem_of_app. right. by left.
  - injection E as -> <-. destruct Hy. apply elem_of_app. right. by left.
  - injection E as _ E. by apply (IH b).
Qed.

Definition no_dash (s : string) : Prop := dash ∉ String.list_ascii_of_string s.

Lemma pretty_N_char_no_dash x : pretty_N_char x <> dash.
Proof. unfold pretty_N_char. by repeat case_match. Qed.

Lemma pretty_N_go_no_dash x s : no_dash s -> no_dash (pretty_N_go x s).
Proof.
  revert s. induction (N.lt_wf_0 x) as [x _ IH]. intros s Hs.
  destruct (decide (x = 0)%N) as [->|Hx]; [by rewrite pretty_N_go_0|].
  rewrite pretty_N_go_step by lia. apply IH; [by apply N.div_lt; lia|].
  unfold no_dash. cbn. rewrite not_elem_of_cons. split; [|done].
  intros E. by apply (pretty_N_char_no_dash (x `mod` 10)%N).
Qed.

Lemma pretty_Z_no_dash z : (0 <= z)%Z -> no_dash (pretty z).
Proof.
  assert (HN : forall n, no_dash (pretty_N n)).
  { intros n. unfold pretty_N. case_decide.
    - unfold no_dash. cbn. by rewrite list_elem_of_singleton.
    - apply pretty_N_go_no_dash. unfold no_dash. cbn. apply not_elem_of_nil. }
  intros Hz. destruct z; [apply (HN 0%N)|apply (HN (Npos p))|lia].
Qed.

Lemma session_id_inj t t' n n' :
  (0 <= n)%Z -> (0 <= n')%Z -> session_id t n = session_id t' n' -> n = n'.
Proof.
  intros Hn Hn' E.
  change (("twag-" +:+ pretty t) +:+ ("-" +:+ pretty n) =
          ("twag-" +:+ pretty t') +:+ ("-" +:+ pretty n')) in E.
  apply (f_equal String.list_ascii_of_string) in E. rewrite !(list_ascii_app (_ +:+ _)) in E.
  apply last_dash_inj in E; [|by apply pretty_Z_no_dash..].
  apply (f_equal String.string_of_list_ascii) in E.
  rewrite !String.string_of_list_ascii_of_string in E. by apply (inj pretty) in E.
Qed.

Definition id_ok (m : Manager) (s : Session) : Prop :=
  exists t n, (1 <= n <= next m)%Z /\ s_ID s = session_id t n.

Definition ids_ok (m : Manager) : Prop :=
  (0 <= next m)%Z /\ forall i s, heap m !! i = Some s -> id_ok m s.

Lemma moved_ids R m m' :
  (forall s s', R s s' -> s_ID s' = s_ID s) -> moved_by R m m' -> ids_ok m -> ids_ok m'.
Proof.
  intros HR [Hn H2] [H0 Hi]. split; [lia|]. intros i s' Hs'.
  destruct (Forall2_lookup_r _ _ _ _ _ H2 Hs') as (s & Hs & Hm).
  destruct (Hi i s Hs) as (t & n & Hb & E). exists t, n. rewrite Hn. split; [done|].
  by rewrite (HR s s' Hm).
Qed.

Lemma moved_flags R m m' :
  (forall s s', R s s' -> flags_ok s -> flags_ok s') -> moved_by R m m' ->
  Forall flags_ok (heap m) -> Forall flags_ok (heap m').
Proof.
  intros HR [_ H2] Hf. rewrite Forall_lookup in Hf |- *. intros i s' Hs'.
  destruct (Forall2_lookup_r _ _ _ _ _ H2 Hs') as (s & Hs & Hm). eauto.
Qed.

Lemma moves_flags s s' : moves s s' -> flags_ok s -> flags_ok s'.
Proof.
  intros (_ & Hv & Hm & Hz) Hf Ha.
  destruct (s_State s') eqn:E'; try discriminate Ha.
  1: { destruct (Hz eq_refl) as [E|]; [|done]. apply Hm, Hf. by rewrite E. }
  all: destruct (s_State s) eqn:E; try discriminate Hv; apply Hm, Hf; by rewrite E.
Qed.

(** ** Expiry *)
Definition expires (s s' : Session) : Prop :=
  s' = s \/ (s_ID s' = s_ID s /\ s_State s' = State.Terminated).

Lemma expires_flags s s' : expires s s' -> flags_ok s -> flags_ok s'.
Proof. intros [->|[_ E]]; [done|]. unfold flags_ok. by rewrite E. Qed.

Lemma expires_trans s1 s2 s3 : expires s1 s2 -> expires s2 s3 -> expires s1 s3.
Proof. unfold expires. intros [->|[? ?]] [->|[? ?]]; auto; right; split; congruence. Qed.

Lemma moved_by_trans R m1 m2 m3 :
  (forall a b c, R a b -> R b c -> R a c) -> moved_by R m1 m2 -> moved_by R m2 m3 -> moved_by R m1 m3.
Proof.
  intros Ht [N1 F1] [N2 F2]. split; [congruence|].
  revert F2. generalize (heap m3). induction F1; intros l3 F2; inversion F2; constructor; eauto.
Qed.

Definition expired (now : Time) (s : Session) : bool :=
  negb (IsZero (s_ExpiresAt s) || (now <? s_ExpiresAt s)%Z)%bool.

Lemma live_unique m id1 id2 l :
  index_sound m -> byID m !! id1 = Some l -> byID m !! id2 = Some l -> id1 = id2.
Proof.
  intros Hs H1 H2. destruct (live_deref m id1 l Hs H1) as [_ <-].
  by destruct (live_deref m id2 l Hs H2) as [_ <-].
Qed.

Lemma unindex_delete_id m l id :
  s_ID (deref m l) = id -> unindexLocked l m <| byID ::= delete id |> = unindexLocked l m.
Proof.
  intros Hid.
  assert (Hdel : delete id (byID (unindexLocked l m)) = byID (unindexLocked l m)).
  { change (byID (unindexLocked l m)) with (delete (s_ID (deref m l)) (byID m)). rewrite Hid.
    apply delete_delete_eq. }
  unfold upd at 1. rewrite Hdel. by destruct (unindexLocked l m).
Qed.

(** [m'] is [m] after the expiry loop looked at the identifiers [ids]. *)
Definition expire_post (now : Time) (ids : list string) (m m' : Manager) : Prop :=
  index_sound m' /\ moved_by expires m m' /\
  (forall id l, byID m' !! id = Some l -> heap m' !! l = heap m !! l) /\
  forall id l, byID m' !! id = Some l <->
    byID m !! id = Some l /\ ~ (id ∈ ids /\ expired now (deref m l) = true).

(** One step of the loop on a live entry: the entry goes, the others stay. *)
Lemma expire_one_spec now m out id l :
  index_sound m -> byID m !! id = Some l ->
  expire_post now [id] m (fst (expire_one now (m, out) (id, l))).
Proof.
  intros Hs Hl. destruct (live_deref m id l Hs Hl) as [Hd Hid]. unfold expire_post.
  setoid_rewrite list_elem_of_singleton.
  unfold expire_one. destruct (_ || _)%bool eqn:Hx; cbn [fst].
  { split_and!; [done|apply moved_by_refl; by left|done|]. intros id' l'. split; [|tauto].
    intros H1. split; [done|]. intros [-> He]. unfold expired in He.
    assert (l' = l) as -> by congruence. by rewrite Hx in He. }
  rewrite unindex_delete_id by done. set (f := fun s : Session => s <| s_State := _ |> <| s_UpdatedAt := _ |>).
  assert (HID : forall id', byID (write l f (unindexLocked l m)) !! id' =
                            if decide (id = id') then None else byID m !! id').
  { intros id'. change (byID (write l f ?x)) with (byID x). by rewrite byID_unindex, Hid. }
  setoid_rewrite HID. split_and!.
  - by apply (sound_remove m l id).
  - eapply (moved_alter _ _ _ l f); [by left|by cbn..|]. intros s _. by right.
  - intros id' l' H1. apply (heap_write_ne l _ (unindexLocked l m)). intros ->.
    case_decide; [done|]. by destruct (live_unique m id id' l Hs).
  - intros id' l'. case_decide as Hne; [|naive_solver]. subst id'.
    split; [done|]. intros [H1 []]. split; [done|].
    assert (l' = l) as -> by congruence. unfold expired. by rewrite Hx.
Qed.

Lemma expire_post_trans now ids1 ids2 m m1 m2 :
  expire_post now ids1 m m1 -> expire_post now ids2 m1 m2 -> expire_post now (ids1 ++ ids2)%list m m2.
Proof.
  intros (S1 & M1 & H1 & K1) (S2 & M2 & H2 & K2).
  split_and!; [done|by eapply moved_by_trans; eauto using expires_trans| |].
  - intros id l Hl. rewrite (H2 id l Hl). apply (H1 id l). by apply K2.
  - intros id l. rewrite K2, K1, elem_of_app. split.
    + intros [[Hl N1] N2]. split; [done|]. intros [[Hi|Hi] He]; [auto|]. apply N2. split; [done|].
      unfold deref. rewrite (H1 id l); [done|]. by apply K1.
    + intros [Hl N]. assert (Hl1 : byID m1 !! id = Some l) by (apply K1; naive_solver).
      split; [naive_solver|]. intros [Hi He]. apply N. split; [by right|].
      unfold deref in He. by rewrite (H1 id l Hl1) in He.
Qed.

Lemma expire_fold now ord m out :
  index_sound m -> NoDup (ord.*1) -> (forall id l, (id, l) ∈ ord -> byID m !! id = Some l) ->
  expire_post now (ord.*1) m (fst (fold_left (expire_one now) ord (m, out))).
Proof.
  revert m out. induction ord as [|[id l] ord IH]; intros m out Hs Hnd Hall; cbn [fold_left fst].
  { split_and!; [done|apply moved_by_refl; by left|done|]. intros id l. cbn.
    rewrite elem_of_nil. tauto. }
  pose proof (expire_one_spec now m out id l Hs (Hall id l ltac:(by left))) as H1.
  destruct (expire_one now (m, out) (id, l)) as [m1 out1]. cbn [fst] in H1.
  cbn in Hnd. apply NoDup_cons in Hnd as [Hnin Hnd].
  change (((id, l) :: ord).*1) with ([id] ++ ord.*1)%list.
  apply (expire_post_trans now [id] (ord.*1) m m1); [done|].
  apply IH; [apply H1|done|]. intros id' l' Hin. apply H1.
  split; [apply Hall; by right|]. intros [->%list_elem_of_singleton _].
  apply Hnin. apply list_elem_of_fmap. by exists (id, l').
Qed.

Lemma ExpireInactive_post m ord now :
  index_sound m -> ord ≡ₚ map_to_list (byID m) ->
  expire_post now (ord.*1) m (fst (ExpireInactive m ord now)).
Proof.
  intros Hs Ho. apply expire_fold; [done| |].
  - rewrite Ho. apply NoDup_fst_map_to_list.
  - intros id l. rewrite Ho. apply elem_of_map_to_list.
Qed.

(** ** Creation *)
Lemma create_state m i now :
  heap (exec (OCreate i) now m) =
    (heap m ++ [new_session (session_id now (wrap 64 (next m + 1))) i now])%list /\
  next (exec (OCreate i) now m) = wrap 64 (next m + 1).
Proof. done. Qed.

Lemma new_session_keys id i now :
  s_ID (new_session id i now) = id /\ s_State (new_session id i now) = State.Pending /\
  s_SubscriberIP (new_session id i now) = [] /\ s_GTPCTEID (new_session id i now) = 0%Z.
Proof. unfold new_session. by case_match. Qed.

Lemma create_fresh m now :
  ids_ok m -> index_sound m -> (next m + 1 < 2 ^ 64)%Z ->
  byID m !! session_id now (wrap 64 (next m + 1)) = None.
Proof.
  intros [H0 Hi] Hs Hn. unfold wrap. rewrite Z.mod_small by lia.
  destruct (byID m !! _) as [l|] eqn:E; [|done].
  destruct (live_deref m _ l Hs E) as [Hd Hid].
  destruct (Hi l _ Hd) as (t & n & Hb & En). rewrite Hid in En.
  apply session_id_inj in En; lia.
Qed.

Lemma Create_sound m i now :
  ids_ok m -> index_sound m -> (next m + 1 < 2 ^ 64)%Z -> index_sound (fst (Create m i now)).
Proof.
  intros Hi Hs Hn. pose proof (create_fresh m now Hi Hs Hn) as Hf.
  unfold Create. cbn [fst]. set (id := session_id _ _) in *.
  set (s := new_session id i now). set (m1 := m <| next := _ |> <| heap ::= _ |>).
  assert (E1 : s_ID s = id) by apply new_session_keys.
  assert (Hl : heap m1 !! length (heap m) = Some s) by (cbn; by rewrite list_lookup_middle).
  assert (Hd : deref m1 (length (heap m)) = s) by (by apply deref_Some).
  assert (Hlook : forall k, look m1 k = look m k) by (by intros []).
  eapply (sound_change m (indexLocked (length (heap m)) m1) (length (heap m)) s Hs Hl).
  - intros j Hj. cbn. destruct (decide (j < length (heap m))%nat).
    + by rewrite lookup_app_l.
    + rewrite !lookup_ge_None_2; [done|lia|]. rewrite length_app; cbn; lia.
  - intros k j Hk. destruct (look_index (length (heap m)) m1 k) as [[Hh E]|[Hh E]]; rewrite E in Hk.
    + left. injection Hk as <-. rewrite Hd in Hh. split_and!; [done|done|].
      rewrite byID_index, Hd. by simplify_map_eq.
    + right. rewrite Hlook in Hk. split; [|done]. intros ->.
      destruct (Hs k _ Hk) as (s' & Hs' & _). apply lookup_lt_Some in Hs'. lia.
  - intros k j Hj Hk. rewrite byID_index, Hd, E1. rewrite lookup_insert_ne; [done|].
    intros <-. unfold m1 in *. congruence.
Qed.

Lemma create_ids m i now : ids_ok m -> (next m + 1 < 2 ^ 64)%Z -> ids_ok (fst (Create m i now)).
Proof.
  intros [H0 Hi] Hn. assert (En : wrap 64 (next m + 1) = (next m + 1)%Z)
    by (unfold wrap; apply Z.mod_small; lia).
  split; [cbn; lia|]. intros j s Hs. change (heap (fst (Create m i now))) with
    (heap m ++ [new_session (session_id now (wrap 64 (next m + 1))) i now])%list in Hs.
  unfold id_ok. change (next (fst (Create m i now))) with (wrap 64 (next m + 1)). rewrite En in Hs |- *.
  apply lookup_app_Some in Hs as [Hs|[_ Hs]].
  - destruct (Hi j s Hs) as (t & n & ? & ?). exists t, n. split; [lia|done].
  - apply list_lookup_singleton_Some in Hs as [_ <-]. exists now, (next m + 1)%Z.
    split; [lia|]. apply new_session_keys.
Qed.

(** A write that keeps every key but the TEID. *)
Lemma teid_only g :
  (forall s, s_ID (g s) = s_ID s /\ s_IMSI (g s) = s_IMSI s /\ s_MACAddress (g s) = s_MACAddress s /\
             s_SubscriberIP (g s) = s_SubscriberIP s) ->
  forall s k, (forall t, k <> KTEID t) -> has_key s k -> has_key (g s) k.
Proof.
  intros Hg s k Hk. destruct (Hg s) as (E1 & E2 & E3 & E4).
  destruct k as [k|k|k|k|k]; cbn; rewrite ?E1, ?E2, ?E3, ?E4; try done. by destruct (Hk k).
Qed.

(** ** All operations *)
Lemma exec_sound o now m :
  ids_ok m -> index_sound m -> op_ok o m -> index_sound (exec o now m).
Proof.
  intros Hi Hs Hok.
  destruct o as [i|id|id|id a b c d|id ip|id ip|id|id|id r|id|id r|id c l r|id ci ui c l r|id|ord|id t a|id u];
    cbn [exec op_ok] in *.
  - by apply Create_sound.
  - by apply transition_sound.
  - apply transition_sound; [done|plain_callback].
  - apply transition_sound; [done|]. intros l Hl. exact (auth_fields_sound m id l a b c d Hs Hl).
  - apply transition_sound; [done|]. intros l Hl. split; [|done].
    by apply (sound_rekey_ip m l id ip (fun s => s <| s_SubscriberIP := ip |>) true).
  - apply update_sound; [done|]. intros l Hl. split; [|done].
    apply (sound_rekey_ip m l id ip (fun s => s <| s_SubscriberIP := ip |>) (non_nil ip)); try done.
    by rewrite non_nil_spec.
  - by apply transition_sound.
  - by apply transition_sound.
  - apply transition_sound; [done|plain_callback].
  - by apply transition_sound.
  - apply transition_sound; [done|plain_callback].
  - apply update_sound; [done|]. intros l' Hl. split; [|done].
    apply (sound_rekey_teid m l' id); [done..|]. by apply teid_only.
  - apply update_sound; [done|]. intros l' Hl. split; [|done].
    apply (sound_rekey_teid m l' id); [done..|]. by apply teid_only.
  - unfold Delete. destruct (byID m !! id) as [l|] eqn:Hl; [|done].
    destruct (validTransition _ _); [|done]. by apply (sound_remove m l id).
  - by apply ExpireInactive_post.
  - apply update_sound; [done|plain_callback].
  - apply update_sound; [done|plain_callback].
Qed.

Lemma expires_id s s' : expires s s' -> s_ID s' = s_ID s.
Proof. by intros [->|[? _]]. Qed.

Lemma exec_ids o now m : ids_ok m -> index_sound m -> op_ok o m -> ids_ok (exec o now m).
Proof.
  intros Hi Hs Hok. destruct (plain o) eqn:Hp.
  { apply (moved_ids moves m); [|by apply exec_moved|done]. by intros s s' [? _]. }
  destruct o; try discriminate Hp; cbn [exec op_ok] in *.
  - by apply create_ids.
  - apply (moved_ids expires m); [apply expires_id| |done]. by apply ExpireInactive_post.
Qed.

Lemma exec_flags o now m :
  index_sound m -> op_ok o m -> Forall flags_ok (heap m) -> Forall flags_ok (heap (exec o now m)).
Proof.
  intros Hs Hok Hf. destruct (plain o) eqn:Hp.
  { apply (moved_flags moves m); [apply moves_flags|by apply exec_moved|done]. }
  destruct o; try discriminate Hp; cbn [exec op_ok] in *.
  - destruct (create_state m i now) as [Eh _]. cbn [exec] in Eh. rewrite Eh. apply Forall_app. split; [done|].
    apply Forall_singleton. destruct (new_session_keys (session_id now (wrap 64 (next m + 1))) i now)
      as (_ & E & _). unfold flags_ok. by rewrite E.
  - apply (moved_flags expires m); [apply expires_flags| |done]. by apply ExpireInactive_post.
Qed.

Lemma reachable_inv m : reachable m -> index_sound m /\ ids_ok m /\ Forall flags_ok (heap m).
Proof.
  induction 1 as [|m o now Hr (Hs & Hi & Hf) Hok].
  - split_and!; [by intros [] l; cbn|by split|constructor].
  - split_and!; [by apply exec_sound|by apply exec_ids|by apply exec_flags].
Qed.

Lemma reachable_sound m : reachable m -> index_sound m.
Proof. intros H. apply (reachable_inv m H). Qed.

Lemma look_Get m k l :
  index_sound m -> look m k = Some l -> has_key (deref m l) k /\ Get m (s_ID (deref m l)) = Some (deref m l).
Proof.
  intros Hs Hk. destruct (Hs k l Hk) as (s & H1 & H2 & H3). rewrite (deref_Some m l s) by done.
  split; [done|]. unfold Get. rewrite H3. cbn. by rewrite (deref_Some m l s).
Qed.

(** A history: operations with the instants at which they ran. *)
Definition run (ops : list (op * Time)) (m : Manager) : Manager :=
  fold_left (fun m '(o, now) => exec o now m) ops m.

Definition no_expiry (o : op) : bool := match o with OExpire _ => false | _ => true end.

Lemma run_snoc ops o now m : run (ops ++ [(o, now)])%list m = exec o now (run ops m).
Proof. unfold run. by rewrite fold_left_app. Qed.

Lemma exec_edge o now m l s :
  no_expiry o = true -> heap m !! l = Some s ->
  exists s', heap (exec o now m) !! l = Some s' /\ s_ID s' = s_ID s /\
    (s_State s = s_State s' \/ edge (s_State s) (s_State s')).
Proof.
  intros Hn Hl. destruct (plain o) eqn:Hp.
  - destruct (exec_moved o now m Hp) as [_ H2].
    destruct (Forall2_lookup_l _ _ _ _ _ H2 Hl) as (s' & Hs' & Hid & Hv & _).
    exists s'. rewrite <- validTransition_edge. done.
  - destruct o; try discriminate. exists s. split; [|auto].
    rewrite (proj1 (create_state m i now)), lookup_app_l; [done|].
    by apply lookup_lt_Some in Hl.
Qed.

Lemma edge_sink s : s = State.Terminated \/ s = State.Failed -> forall s', ~ edge s s'.
Proof. by intros [-> | ->] s' E; inversion E. Qed.

Lemma rtc_edge_sink s s' :
  s = State.Terminated \/ s = State.Failed -> rtc edge s s' -> s' = s.
Proof. intros Hs H. destruct H as [|s1 s2 s3 E _]; [done|]. by destruct (edge_sink s1 Hs s2). Qed.

Lemma deref_heap m m' l : heap m' !! l = heap m !! l -> deref m' l = deref m l.
Proof. unfold deref. by intros ->. Qed.

(** * Properties *)

(** A concrete history for the witnesses: one session taken to [Active]
    with an address and a TEID. *)
Definition demo_input : CreateInput := mkCreateInput
  "001010123456789" "" "02:00:00:00:00:01" "internet" "" "u" "" "" "" "" "" "acct-1" "" [] "" 0
  "radius" "wlan0" [] 5.

Definition demo_id : string := session_id 1000 1.

Definition demo_ops : list (op * Time) :=
  [(OCreate demo_input, 1000); (OMarkAuthPending demo_id, 1001);
   (OApplyAuthResult demo_id "001010123456789" "15551234" "internet" "ok", 1002);
   (OSetSubscriberIP demo_id [10; 0; 0; 2], 1003); (OMarkPGWPending demo_id, 1004);
   (OApplyPGWResult demo_id [192; 0; 2; 1] [192; 0; 2; 1] 17 256 512, 1005);
   (OMarkActive demo_id, 1006)]%Z.

Definition demo : Manager := run demo_ops NewManager.

Definition ops_ok (ops : list (op * Time)) : Prop :=
  forall i o now, ops !! i = Some (o, now) -> op_ok o (run (take i ops) NewManager).

Lemma reachable_run ops : ops_ok ops -> reachable (run ops NewManager).
Proof.
  induction ops as [|[o now] ops IH] using rev_ind; intros Hok; [constructor|].
  rewrite run_snoc. constructor.
  - apply IH. intros i o' now' Hi. specialize (Hok i o' now').
    rewrite take_app_le in Hok by (apply lookup_lt_Some in Hi; lia).
    apply Hok. rewrite lookup_app_l; [done|]. by apply lookup_lt_Some in Hi.
  - specialize (Hok (length ops) o now). rewrite take_app_length in Hok. apply Hok.
    by rewrite list_lookup_middle.
Qed.

Lemma demo_reachable : reachable demo.
Proof.
  apply reachable_run. intros i o now H.
  do 7 (destruct i as [|i]; [injection H as <- <-; by vm_compute|]). by destruct i.
Qed.

(** C16: in every reachable registry the five indexes are sound: an entry of
    [byID], [byIMSI], [byMAC], [byIP] or [byTEID] points to an allocated
    session which carries that key and is registered under its own
    identifier; no index ever dangles or points to a removed session. *)
Theorem registry_index_sound m : reachable m -> index_sound m.
Proof. intros H. apply (reachable_inv m H). Qed.

Lemma registry_index_sound_witness : index_sound demo.
Proof. apply (registry_index_sound demo). exact demo_reachable. Defined.

(** A lookup by IMSI, MAC, address or GTP-C TEID that finds a session
    finds a live one (the identifier retrieves the same session) whose field
    is the one asked for. *)
Theorem lookup_agrees m s :
  reachable m ->
  (forall imsi, LookupByIMSI m imsi = Some s -> s_IMSI s = imsi /\ Get m (s_ID s) = Some s) /\
  (forall mac, LookupByMAC m mac = Some s ->
     (s_MACAddress s = mac \/ exists hw, ParseMAC mac = Some hw /\ s_MACAddress s = HWString hw) /\
     Get m (s_ID s) = Some s) /\
  (forall ip, LookupByIP m ip = Some s ->
     IPString (s_SubscriberIP s) = IPString ip /\ Get m (s_ID s) = Some s) /\
  (forall teid, LookupByTEID m teid = Some s -> s_GTPCTEID s = teid /\ Get m (s_ID s) = Some s).
Proof.
  intros Hr%reachable_sound. split_and!.
  - intros imsi (l & Hl & ->)%fmap_Some. destruct (look_Get m (KIMSI imsi) l Hr Hl) as [[? _] ?]. auto.
  - intros mac. unfold LookupByMAC. destruct (byMAC m !! mac) as [l|] eqn:Hl.
    + intros [= <-]. destruct (look_Get m (KMAC mac) l Hr Hl) as [[? _] ?]. auto.
    + destruct (ParseMAC mac) as [hw|]; [|done]. intros (l & Hl' & ->)%fmap_Some.
      destruct (look_Get m (KMAC (HWString hw)) l Hr Hl') as [[? _] ?]. eauto.
  - intros ip (l & Hl & ->)%fmap_Some.
    destruct (look_Get m (KIP (IPString ip)) l Hr Hl) as [[_ ?] ?]. auto.
  - intros teid (l & Hl & ->)%fmap_Some. destruct (look_Get m (KTEID teid) l Hr Hl) as [[? _] ?]. auto.
Qed.

Lemma lookup_agrees_witness :
  exists s, LookupByTEID demo 17 = Some s /\ s_GTPCTEID s = 17%Z /\ Get demo (s_ID s) = Some s.
Proof.
  destruct (LookupByTEID demo 17) as [s|] eqn:E; [|exfalso; vm_compute in E; discriminate E].
  exists s. split; [reflexivity|]. apply (lookup_agrees demo s demo_reachable). exact E.
Defined.

(** No session is in a state past authorisation ([Authorized],
    [IPAllocated], [PGWPending], [Active] or [Recovering]) unless both its
    [Authenticated] and [Authorized] flags were set. *)
Theorem active_implies_authorised m l s :
  reachable m -> heap m !! l = Some s -> past_auth (s_State s) = true ->
  s_Authenticated s = true /\ s_Authorized s = true.
Proof.
  intros Hr Hl. destruct (reachable_inv m Hr) as (_ & _ & Hf).
  rewrite Forall_lookup in Hf. exact (Hf l s Hl).
Qed.

Lemma active_implies_authorised_witness :
  s_State (deref demo 0) = State.Active /\
  s_Authenticated (deref demo 0) = true /\ s_Authorized (deref demo 0) = true.
Proof.
  split; [by vm_compute|].
  apply (active_implies_authorised demo 0 (deref demo 0) demo_reachable); by vm_compute.
Defined.

(** C19: along any history without [ExpireInactive] a session keeps its
    identifier and its state follows the edges of the session state graph
    (the abstract specification [edge]); [Terminated] and [Failed] are final. *)
Theorem states_follow_graph m ops l s :
  Forall (fun o => no_expiry (fst o) = true) ops -> heap m !! l = Some s ->
  exists s', heap (run ops m) !! l = Some s' /\ s_ID s' = s_ID s /\
    rtc edge (s_State s) (s_State s') /\
    (s_State s = State.Terminated \/ s_State s = State.Failed -> s_State s' = s_State s).
Proof.
  intros Hops Hl.
  assert (H : exists s', heap (run ops m) !! l = Some s' /\ s_ID s' = s_ID s /\
                         rtc edge (s_State s) (s_State s')).
  { induction ops as [|[o now] ops IH] using rev_ind; [by exists s|].
    apply Forall_app in Hops as [Ho Hn]. apply Forall_cons_1 in Hn as [Hn _].
    destruct (IH Ho) as (s1 & H1 & H2 & H3).
    destruct (exec_edge o now _ l s1 Hn H1) as (s2 & H4 & H5 & H6).
    exists s2. rewrite run_snoc. split_and!; [done|congruence|].
    destruct H6 as [<-|H6]; [done|]. by eapply rtc_r. }
  destruct H as (s' & H1 & H2 & H3). exists s'. split_and!; auto. intros Hf.
  by apply rtc_edge_sink.
Qed.

Lemma states_follow_graph_witness :
  exists s', heap (run [(ODelete demo_id, 2000); (OMarkTerminating demo_id, 2001);
                        (ODelete demo_id, 2002)]%Z demo) !! 0%nat = Some s' /\
    s_ID s' = s_ID (deref demo 0) /\ rtc edge (s_State (deref demo 0)) (s_State s') /\
    (s_State (deref demo 0) = State.Terminated \/ s_State (deref demo 0) = State.Failed ->
     s_State s' = s_State (deref demo 0)).
Proof.
  apply (states_follow_graph demo _ 0 (deref demo 0)).
  - repeat constructor.
  - by vm_compute.
Defined.

(** [Create] returns a session in state [Pending] under an identifier no
    live session has; [Get] finds it and every other identifier still
    retrieves what it did. *)
Theorem create_get m i now :
  reachable m -> (next m + 1 < 2 ^ 64)%Z ->
  let m' := fst (Create m i now) in let s := snd (Create m i now) in
  Get m (s_ID s) = None /\ s_State s = State.Pending /\ Get m' (s_ID s) = Some s /\
  forall id, id <> s_ID s -> Get m' id = Get m id.
Proof.
  intros Hr Hn. destruct (reachable_inv m Hr) as (Hs & Hi & _).
  pose proof (create_fresh m now Hi Hs Hn) as Hf. unfold Create. cbn [fst snd].
  set (id := session_id _ _) in *. destruct (new_session_keys id i now) as (E1 & E2 & _).
  set (s := new_session id i now) in *. set (m1 := m <| next := _ |> <| heap ::= _ |>).
  assert (Hd : deref m1 (length (heap m)) = s)
    by (apply deref_Some; cbn; by rewrite list_lookup_middle).
  assert (HG : forall k, Get (indexLocked (length (heap m)) m1) k =
                         deref m1 <$> <[id := length (heap m)]> (byID m) !! k)
    by (intros k; unfold Get; by rewrite byID_index, Hd, E1).
  rewrite E1. split_and!; [unfold Get; by rewrite Hf|done| |].
  - rewrite HG, lookup_insert_eq. cbn [fmap option_fmap option_map]. by rewrite Hd.
  - intros id' Hne. rewrite HG, lookup_insert_ne by congruence. unfold Get.
    destruct (byID m !! id') as [l|] eqn:E; [|done]. cbn. f_equal. apply deref_heap. cbn.
    destruct (live_deref m id' l Hs E) as [Hl _]. rewrite lookup_app_l; [done|].
    by apply lookup_lt_Some in Hl.
Qed.

Lemma create_get_witness :
  Get demo (s_ID (snd (Create demo demo_input 5000))) = None /\
  s_State (snd (Create demo demo_input 5000)) = State.Pending /\
  Get (fst (Create demo demo_input 5000)) (s_ID (snd (Create demo demo_input 5000)))
    = Some (snd (Create demo demo_input 5000)) /\
  forall id, id <> s_ID (snd (Create demo demo_input 5000)) ->
    Get (fst (Create demo demo_input 5000)) id = Get demo id.
Proof. apply (create_get demo demo_input 5000); [exact demo_reachable|by vm_compute]. Defined.

(** [Delete] of a session in [Terminating] (or already [Terminated])
    removes it for good: it returns the terminated session, no index entry
    points to it any more, and every other identifier still retrieves what it
    did; in any other state it refuses and changes nothing. *)
Theorem delete_removes m id now l :
  reachable m -> byID m !! id = Some l ->
  let st := s_State (deref m l) in
  let '(m', r) := Delete m id now in
  if (State.eqb st State.Terminating || State.eqb st State.Terminated)%bool
  then (exists s, r = Some s /\ s_ID s = id /\ s_State s = State.Terminated) /\
       (forall k, look m' k <> Some l) /\ Get m' id = None /\
       (forall id', id' <> id -> Get m' id' = Get m id')
  else m' = m /\ r = None.
Proof.
  intros Hr%reachable_sound Hl. destruct (live_deref m id l Hr Hl) as [Hd Hid].
  unfold Delete. rewrite Hl.
  assert (E : validTransition (s_State (deref m l)) State.Terminated =
              (State.eqb (s_State (deref m l)) State.Terminating
               || State.eqb (s_State (deref m l)) State.Terminated)%bool)
    by (by destruct (s_State (deref m l))).
  rewrite E. destruct (_ || _)%bool; [|done]. cbv zeta.
  set (f := fun s : Session => s <| s_State := _ |> <| s_UpdatedAt := _ |>).
  set (m' := write l f (unindexLocked l m)).
  assert (HID : forall id', byID m' !! id' = if decide (id = id') then None else byID m !! id')
    by (intros id'; change (byID m') with (byID (unindexLocked l m)); by rewrite byID_unindex, Hid).
  split_and!.
  - exists (deref m' l). unfold m'. by rewrite (deref_write l f _ (deref m l)).
  - intros k Hk. unfold m' in Hk. rewrite look_write in Hk. apply look_unindex in Hk as [Hk Hno].
    by apply Hno, sound_at.
  - unfold Get. by rewrite HID, decide_True.
  - intros id' Hne. unfold Get. rewrite HID, decide_False by congruence.
    destruct (byID m !! id') as [l'|] eqn:Hl'; [|done]. cbn [fmap option_fmap option_map]. f_equal.
    apply deref_heap. apply (heap_write_ne l f (unindexLocked l m)).
    intros ->. by destruct (live_unique m id id' l Hr).
Qed.

Definition demo_term : Manager := exec (OMarkTerminating demo_id) 3000 demo.

Lemma demo_term_reachable : reachable demo_term.
Proof. constructor; [exact demo_reachable|done]. Qed.

Lemma delete_removes_witness :
  let '(m', r) := Delete demo_term demo_id 3001 in
  (exists s, r = Some s /\ s_ID s = demo_id /\ s_State s = State.Terminated) /\
  (forall k, look m' k <> Some 0%nat) /\ Get m' demo_id = None /\
  (forall id', id' <> demo_id -> Get m' id' = Get demo_term id').
Proof.
  refine (delete_removes demo_term demo_id 3001 0 demo_term_reachable _). by vm_compute.
Defined.

(** ** Searches that iterate over the map *)
Lemma findBySubscriber_spec m ord imsi mac apn act :
  match findBySubscriber m ord imsi mac apn act with
  | Some s => exists id l, (id, l) ∈ ord /\ s = deref m l /\
      subscriberMatches s imsi mac apn = true /\ (act = true -> s_State s = State.Active)
  | None => forall id l, (id, l) ∈ ord ->
      subscriberMatches (deref m l) imsi mac apn = true ->
      act = true /\ s_State (deref m l) <> State.Active
  end.
Proof.
  induction ord as [|[id l] ord IH]; cbn [findBySubscriber].
  { intros id l H. by apply elem_of_nil in H. }
  destruct (act && negb (State.eqb (s_State (deref m l)) State.Active))%bool eqn:E1;
    [|destruct (subscriberMatches (deref m l) imsi mac apn) eqn:E2; cbn [negb]].
  2: { exists id, l. split_and!; [by left|done|done|]. intros ->. cbn in E1.
       apply negb_false_iff, bool_decide_eq_true in E1. done. }
  all: destruct (findBySubscriber m ord imsi mac apn act) as [s|];
    [destruct IH as (i & l' & ? & ?); exists i, l'; split; [by right|done]|].
  all: intros id' l' [[= -> ->]|Hin]%elem_of_cons Hm; [|by apply (IH id')].
  - bools. split; [done|]. intros E. rewrite E in *. discriminate.
  - congruence.
Qed.

(** Whatever order Go iterates the map in, [FindActiveBySubscriber]
    returns a live [Active] session that matches the subscriber, and returns
    none only when no live [Active] session does. *)
Theorem find_active_sound_complete m ord imsi mac apn :
  reachable m -> ord ≡ₚ map_to_list (byID m) ->
  match FindActiveBySubscriber m ord imsi mac apn with
  | Some s => Get m (s_ID s) = Some s /\ subscriberMatches s imsi mac apn = true /\
              s_State s = State.Active
  | None => forall id s, Get m id = Some s -> s_State s = State.Active ->
              subscriberMatches s imsi mac apn = false
  end.
Proof.
  intros Hr%reachable_sound Ho. unfold FindActiveBySubscriber.
  pose proof (findBySubscriber_spec m ord imsi mac apn true) as H.
  destruct (findBySubscriber _ _ _ _ _ _) as [s|].
  - destruct H as (id & l & Hin & -> & Hm & Ha). split; [|auto].
    rewrite Ho in Hin. apply elem_of_map_to_list in Hin. by apply (look_Get m (KID id) l).
  - intros id s (l & Hl & ->)%fmap_Some Ha. apply not_true_iff_false. intros Hm.
    destruct (H id l) as [_ Hn]; [|done|done]. rewrite Ho. by apply elem_of_map_to_list.
Qed.

Lemma find_active_sound_complete_witness :
  exists s, FindActiveBySubscriber demo (map_to_list (byID demo)) "" "02-00-00-00-00-01" "INTERNET" = Some s /\
    Get demo (s_ID s) = Some s /\ subscriberMatches s "" "02-00-00-00-00-01" "INTERNET" = true /\
    s_State s = State.Active.
Proof.
  pose proof (find_active_sound_complete demo (map_to_list (byID demo)) "" "02-00-00-00-00-01" "INTERNET"
                demo_reachable (Permutation_refl _)) as H.
  assert (E : exists s, FindActiveBySubscriber demo (map_to_list (byID demo)) "" "02-00-00-00-00-01"
                          "INTERNET" = Some s) by (eexists; vm_compute; reflexivity).
  destruct E as [s E]. rewrite E in H. exists s. exact (conj E H).
Defined.

(** The sessions that survive [ExpireInactive], whatever the iteration
    order, are exactly those without an expiry time or whose expiry lies in
    the future, unchanged. *)
Theorem expire_inactive_exact m ord now id s :
  reachable m -> ord ≡ₚ map_to_list (byID m) ->
  Get (fst (ExpireInactive m ord now)) id = Some s <->
  Get m id = Some s /\ (s_ExpiresAt s = zeroTime \/ (now < s_ExpiresAt s)%Z).
Proof.
  intros Hr%reachable_sound Ho. destruct (ExpireInactive_post m ord now Hr Ho) as (_ & _ & Hh & Hk).
  set (m' := fst _) in *.
  assert (Hx : forall t, expired now t = false <-> s_ExpiresAt t = zeroTime \/ (now < s_ExpiresAt t)%Z).
  { intros t. unfold expired, IsZero. rewrite negb_false_iff, orb_true_iff, Z.eqb_eq, Z.ltb_lt. done. }
  rewrite <- Hx. unfold Get. rewrite !fmap_Some. split.
  - intros (l & Hl & ->). rewrite (deref_heap m m' l) by (by apply (Hh id)).
    apply Hk in Hl as [Hl Hn]. split; [by exists l|]. apply not_true_iff_false. intros He. apply Hn.
    split; [|done]. apply list_elem_of_fmap. exists (id, l). split; [done|].
    rewrite Ho. by apply elem_of_map_to_list.
  - intros [(l & Hl & ->) He]. assert (Hl' : byID m' !! id = Some l).
    { apply Hk. split; [done|]. intros [_ E]. congruence. }
    exists l. split; [done|]. symmetry. apply deref_heap. by apply (Hh id).
Qed.

Lemma expire_inactive_exact_witness :
  Get demo demo_id <> None /\
  Get (fst (ExpireInactive demo (map_to_list (byID demo)) 1005)) demo_id = None /\
  exists s, Get (fst (ExpireInactive demo (map_to_list (byID demo)) 1004)) demo_id = Some s.
Proof.
  assert (H : exists s, Get demo demo_id = Some s /\ s_ExpiresAt s = 1005%Z).
  { eexists. split; [by vm_compute|by vm_compute]. }
  destruct H as (s & Hs & He). split_and!; [by rewrite Hs| |].
  - destruct (Get (fst _) _) as [s'|] eqn:E; [|done].
    apply (expire_inactive_exact demo _ 1005 demo_id s' demo_reachable (Permutation_refl _)) in E as [E Hx].
    rewrite Hs in E. injection E as <-. rewrite He in Hx. destruct Hx; [discriminate|lia].
  - exists s. apply (expire_inactive_exact demo _ 1004 demo_id s demo_reachable (Permutation_refl _)).
    split; [done|]. right. lia.
Defined.

(** ** MAC normalisation *)
Lemma normalizeMAC_idem mac : normalizeMAC (normalizeMAC mac) = normalizeMAC mac.
Proof.
  unfold normalizeMAC at 2 3. destruct (ParseMAC mac) as [hw|] eqn:E.
  - destruct (ParseMAC_ok mac hw E) as [Hsz Hok]. rewrite ToLower_HWString by done.
    unfold normalizeMAC. rewrite ParseMAC_HWString by done. by apply ToLower_HWString.
  - unfold normalizeMAC. by rewrite ParseMAC_ToLower, E, ToLower_idem.
Qed.

(** MAC matching ignores case and notation: on non-empty strings
    [macMatches] is the equivalence induced by [normalizeMAC], every
    printable form of one hardware address matches every other, and the
    normal form matches the string it came from. *)
Theorem macMatches_equivalence a b c hw :
  macMatches a b = macMatches b a /\
  (a <> "" -> macMatches a a = true) /\
  (macMatches a b = true -> macMatches b c = true -> macMatches a c = true) /\
  (a <> "" -> normalizeMAC a <> "" -> macMatches a (normalizeMAC a) = true) /\
  (a <> "" -> b <> "" -> ParseMAC a = Some hw -> ParseMAC b = Some hw -> macMatches a b = true).
Proof.
  unfold macMatches. split_and!.
  - by destruct (nonempty a), (nonempty b); cbn; rewrite 1?String.eqb_sym.
  - intros Ha. rewrite (proj2 (nonempty_spec a)) by done. apply String.eqb_refl.
  - destruct (nonempty a), (nonempty b), (nonempty c); cbn; try done.
    rewrite !String.eqb_eq. congruence.
  - intros Ha Hb. rewrite !(proj2 (nonempty_spec _)) by done. cbn.
    rewrite normalizeMAC_idem. apply String.eqb_refl.
  - intros Ha Hb Ea Eb. rewrite !(proj2 (nonempty_spec _)) by done. cbn.
    unfold normalizeMAC. rewrite Ea, Eb. apply String.eqb_refl.
Qed.

Lemma macMatches_equivalence_witness :
  macMatches "02-00-00-00-00-AB" "0200.0000.00ab" = true.
Proof.
  apply (macMatches_equivalence "02-00-00-00-00-AB" "0200.0000.00ab" "" [2; 0; 0; 0; 0; 171]%Z);
    by vm_compute.
Defined.
