(* ===== verification/AuthCache.v ===== *)
(** The authentication cache of [internal/session/manager.go]: upsert, the
    two lookups, deletion and expiry, over the four maps [authByKey],
    [authByMAC], [authByIMSI] and [authByAcctNAS] of the [Manager].  The
    entries live in the store [aheap]; a map holds positions in it.  The
    instants [time.Now()] are arguments. *)
From S2P Require Import Prelude.
From S2P Require Import GoNet.
From S2P Require Import Session.
From S2P Require Import SessionFacts.
Open Scope string_scope.

Definition authCacheKey (mac imsi apn : string) : string :=
  normalizeMAC mac +:+ "|" +:+ TrimSpace imsi +:+ "|" +:+ ToLower (TrimSpace apn).

Definition authAcctKey (acct nasIP nasIdentifier : string) : string :=
  TrimSpace acct +:+ "|" +:+ TrimSpace nasIP +:+ "|" +:+ TrimSpace nasIdentifier.

(** The four keys an entry has in [authByAcctNAS]. *)
Definition acct_keys (acct nasIP nasIdentifier : string) : list string :=
  [authAcctKey acct nasIP nasIdentifier; authAcctKey acct nasIP "";
   authAcctKey acct "" nasIdentifier; authAcctKey acct "" ""].

Definition aderef (m : Manager) (l : ptr) : AuthCacheEntry :=
  default zeroAuthCacheEntry (aheap m !! l).

Definition awrite (l : ptr) (f : AuthCacheEntry -> AuthCacheEntry) (m : Manager) : Manager :=
  m <| aheap ::= alter f l |>.

Definition insert_all (ks : list string) (l : ptr) (x : gmap string ptr) : gmap string ptr :=
  fold_left (fun x k => <[k:=l]> x) ks x.

Definition delete_all (ks : list string) (x : gmap string ptr) : gmap string ptr :=
  fold_left (fun x k => delete k x) ks x.

Definition entry_acct_keys (e : AuthCacheEntry) : list string :=
  if nonempty (e_AcctSessionID e)
  then acct_keys (e_AcctSessionID e) (e_NASIP e) (e_NASIdentifier e) else [].

Definition indexAuthCacheLocked (l : ptr) (m : Manager) : Manager :=
  let e := aderef m l in
  m <| authByKey ::= <[authCacheKey (e_MACAddress e) (e_IMSI e) (e_APN e) := l]> |>
    <| authByMAC ::= insert_if (nonempty (e_MACAddress e)) (e_MACAddress e) l |>
    <| authByIMSI ::= insert_if (nonempty (e_IMSI e)) (e_IMSI e) l |>
    <| authByAcctNAS ::= insert_all (entry_acct_keys e) l |>.

Definition unindexAuthCacheLocked (l : ptr) (m : Manager) : Manager :=
  let e := aderef m l in
  m <| authByKey ::= delete (authCacheKey (e_MACAddress e) (e_IMSI e) (e_APN e)) |>
    <| authByMAC ::= delete (e_MACAddress e) |>
    <| authByIMSI ::= delete (e_IMSI e) |>
    <| authByAcctNAS ::= delete_all (entry_acct_keys e) |>.

(** The merge of an update into an entry; [now] is [time.Now()]. *)
Definition merge_auth (u : AuthCacheUpdate) (now : Time) (e : AuthCacheEntry) : AuthCacheEntry :=
  e <| e_UserName ::= keep_str (u_UserName u) |>
    <| e_MSISDN ::= keep_str (u_MSISDN u) |>
    <| e_NASIP ::= keep_str (u_NASIP u) |>
    <| e_NASIdentifier ::= keep_str (u_NASIdentifier u) |>
    <| e_CalledStationID ::= keep_str (u_CalledStationID u) |>
    <| e_CallingStationID ::= keep_str (u_CallingStationID u) |>
    <| e_SSID ::= keep_str (u_SSID u) |>
    <| e_BSSID ::= keep_str (u_BSSID u) |>
    <| e_AcctSessionID ::= keep_str (u_AcctSessionID u) |>
    <| e_SessionTimeoutSeconds ::= fun old =>
         if (0 <? u_SessionTimeoutSeconds u)%Z then u_SessionTimeoutSeconds u else old |>
    <| e_AuthStartTime ::= keep_time (u_AuthStartTime u) |>
    <| e_AuthExpiresAt ::= keep_time (u_AuthExpiresAt u) |>
    <| e_LastSeenTime := if IsZero (u_LastSeenTime u) then now else u_LastSeenTime u |>
    <| e_LastAccessAcceptSessionID ::= keep_str (u_LastAccessAcceptSessionID u) |>
    <| e_LastAccountingStopAt ::= keep_time (u_LastAccountingStopAt u) |>
    <| e_LastAccountingStopCause ::= keep_str (u_LastAccountingStopCause u) |>.

Definition new_auth_entry (mac imsi apn : string) (now : Time) : AuthCacheEntry :=
  zeroAuthCacheEntry <| e_MACAddress := mac |> <| e_IMSI := imsi |> <| e_APN := apn |>
    <| e_AuthStartTime := now |>.

Definition UpsertAuthCache (m : Manager) (update : AuthCacheUpdate) (now : Time)
  : Manager * option AuthCacheEntry :=
  let mac := normalizeMAC (u_MACAddress update) in
  let imsi := TrimSpace (u_IMSI update) in
  let apn := TrimSpace (u_APN update) in
  if (negb (nonempty mac) || negb (nonempty imsi))%bool then (m, None)
  else
    let key := authCacheKey mac imsi apn in
    let '(l, m1) :=
      match authByKey m !! key with
      | None => (length (aheap m), m <| aheap ::= fun h => (h ++ [new_auth_entry mac imsi apn now])%list |>)
      | Some l => (l, unindexAuthCacheLocked l m)
      end in
    let m2 := indexAuthCacheLocked l (awrite l (merge_auth update now) m1) in
    (m2, Some (aderef m2 l)).

Definition auth_expired (e : AuthCacheEntry) (now : Time) : bool :=
  (negb (IsZero (e_AuthExpiresAt e)) && negb (now <? e_AuthExpiresAt e)%Z)%bool.

Definition authCacheExpiredLocked (m : Manager) (l : option ptr) (now : Time) : Manager * bool :=
  match l with
  | None => (m, true)
  | Some l => if auth_expired (aderef m l) now then (unindexAuthCacheLocked l m, true) else (m, false)
  end.

(** [if entry == nil && c { entry = x }] *)
Definition or_else (e : option ptr) (c : bool) (x : option ptr) : option ptr :=
  match e with Some l => Some l | None => if c then x else None end.

Definition auth_candidate (m : Manager) (mac imsi apn : string) : option ptr :=
  let e1 :=
    if (nonempty mac && nonempty imsi)%bool then
      or_else (authByKey m !! authCacheKey (normalizeMAC mac) (TrimSpace imsi) (TrimSpace apn))
        (nonempty apn) (authByKey m !! authCacheKey (normalizeMAC mac) (TrimSpace imsi) "")
    else None in
  let e2 := or_else e1 (nonempty mac) (authByMAC m !! normalizeMAC mac) in
  or_else e2 (nonempty imsi) (authByIMSI m !! TrimSpace imsi).

(** [clock] is [time.Now()], used when the caller passes the zero time. *)
Definition LookupValidAuthCache (m : Manager) (mac imsi apn : string) (now clock : Time)
  : Manager * option AuthCacheEntry :=
  let now := if IsZero now then clock else now in
  let entry := auth_candidate m mac imsi apn in
  let '(m', expired) := authCacheExpiredLocked m entry now in
  match entry, expired with
  | Some l, false =>
    if (nonempty apn && nonempty (e_APN (aderef m l)) && negb (sameAPN (e_APN (aderef m l)) apn))%bool
    then (m', None) else (m', Some (aderef m l))
  | _, _ => (m', None)
  end.

Fixpoint acct_lookup (m : Manager) (keys : list string) (now : Time)
  : Manager * option AuthCacheEntry :=
  match keys with
  | [] => (m, None)
  | k :: rest =>
    let entry := authByAcctNAS m !! k in
    let '(m', expired) := authCacheExpiredLocked m entry now in
    match entry, expired with
    | Some l, false => (m', Some (aderef m l))
    | _, _ => acct_lookup m' rest now
    end
  end.

Definition LookupValidAuthCacheByAcct (m : Manager) (acct nasIP nasIdentifier : string)
    (now clock : Time) : Manager * option AuthCacheEntry :=
  if negb (nonempty acct) then (m, None)
  else acct_lookup m (acct_keys acct nasIP nasIdentifier) (if IsZero now then clock else now).

Definition DeleteAuthCache (m : Manager) (mac imsi apn : string) : Manager * bool :=
  match or_else (authByKey m !! authCacheKey (normalizeMAC mac) (TrimSpace imsi) (TrimSpace apn))
          (nonempty mac) (authByMAC m !! normalizeMAC mac) with
  | None => (m, false)
  | Some l => (unindexAuthCacheLocked l m, true)
  end.

(** * The four maps seen as one *)
Inductive akey := AKey (k : string) | AMAC (k : string) | AIMSI (k : string) | AAcct (k : string).

Definition alook (m : Manager) (k : akey) : option ptr :=
  match k with
  | AKey k => authByKey m !! k | AMAC k => authByMAC m !! k
  | AIMSI k => authByIMSI m !! k | AAcct k => authByAcctNAS m !! k
  end.

Definition ahas (e : AuthCacheEntry) (k : akey) : Prop :=
  match k with
  | AKey k => authCacheKey (e_MACAddress e) (e_IMSI e) (e_APN e) = k
  | AMAC k => e_MACAddress e = k /\ k <> ""
  | AIMSI k => e_IMSI e = k /\ k <> ""
  | AAcct k => k ∈ entry_acct_keys e
  end.

Definition auth_sound (m : Manager) : Prop :=
  forall k l, alook m k = Some l -> exists e, aheap m !! l = Some e /\ ahas e k.

(** Two registries with the same authentication cache. *)
Definition same_auth (m m' : Manager) : Prop :=
  aheap m' = aheap m /\ forall k, alook m' k = alook m k.

(** Registries that session, accounting and recovery operations (which leave
    the cache alone) and the cache's own operations produce. *)
Inductive areachable : Manager -> Prop :=
| ar_init : areachable NewManager
| ar_other m m' : areachable m -> same_auth m m' -> areachable m'
| ar_upsert m u now : areachable m -> areachable (fst (UpsertAuthCache m u now))
| ar_lookup m mac imsi apn now clock : areachable m ->
    areachable (fst (LookupValidAuthCache m mac imsi apn now clock))
| ar_acct m a n i now clock : areachable m ->
    areachable (fst (LookupValidAuthCacheByAcct m a n i now clock))
| ar_delete m mac imsi apn : areachable m -> areachable (fst (DeleteAuthCache m mac imsi apn)).

(** * Lemmas *)
Lemma look_insert_all ks l x k :
  insert_all ks l x !! k = if decide (k ∈ ks) then Some l else x !! k.
Proof.
  unfold insert_all. revert x. induction ks as [|k' ks IH]; intros x; cbn [fold_left].
  { by rewrite decide_False by (apply not_elem_of_nil). }
  rewrite IH. destruct (decide (k ∈ ks)) as [Hin|Hn].
  - by rewrite decide_True by (by right).
  - destruct (decide (k' = k)) as [<-|Hne].
    + by rewrite decide_True, lookup_insert_eq by (by left).
    + rewrite lookup_insert_ne, decide_False by set_solver. done.
Qed.

Lemma look_delete_all ks x k :
  delete_all ks x !! k = if decide (k ∈ ks) then None else x !! k.
Proof.
  unfold delete_all. revert x. induction ks as [|k' ks IH]; intros x; cbn [fold_left].
  { by rewrite decide_False by (apply not_elem_of_nil). }
  rewrite IH. destruct (decide (k ∈ ks)) as [Hin|Hn].
  - by rewrite decide_True by (by right).
  - destruct (decide (k' = k)) as [<-|Hne].
    + by rewrite decide_True, lookup_delete_eq by (by left).
    + rewrite lookup_delete_ne, decide_False by set_solver. done.
Qed.

Lemma alook_index l m k :
  (ahas (aderef m l) k /\ alook (indexAuthCacheLocked l m) k = Some l) \/
  (~ ahas (aderef m l) k /\ alook (indexAuthCacheLocked l m) k = alook m k).
Proof.
  destruct k as [k|k|k|k]; cbn; autorewrite with reg.
  - rewrite lookup_insert. case_decide; naive_solver.
  - case_decide as E; rewrite nonempty_spec in E; naive_solver.
  - case_decide as E; rewrite nonempty_spec in E; naive_solver.
  - rewrite look_insert_all. case_decide; naive_solver.
Qed.

Lemma alook_unindex l m k l' :
  alook (unindexAuthCacheLocked l m) k = Some l' -> alook m k = Some l' /\ ~ ahas (aderef m l) k.
Proof.
  destruct k as [k|k|k|k]; cbn; rewrite ?look_delete_all, ?lookup_delete_Some;
    [naive_solver..|]. case_decide; naive_solver.
Qed.

Lemma aderef_Some m l e : aheap m !! l = Some e -> aderef m l = e.
Proof. intros H. unfold aderef. by rewrite H. Qed.

Lemma auth_at m k l : auth_sound m -> alook m k = Some l -> ahas (aderef m l) k.
Proof. intros Hs Hk. destruct (Hs k l Hk) as (e & He & Hh). by rewrite (aderef_Some m l e). Qed.

Lemma unindex_auth_sound m l : auth_sound m -> auth_sound (unindexAuthCacheLocked l m).
Proof. intros Hs k i Hk. apply alook_unindex in Hk as [Hk _]. exact (Hs k i Hk). Qed.

Lemma expired_auth_sound m l now : auth_sound m -> auth_sound (fst (authCacheExpiredLocked m l now)).
Proof.
  intros Hs. destruct l as [l|]; cbn; [|done]. destruct (auth_expired _ _); [|done].
  by apply unindex_auth_sound.
Qed.

(** An entry that no map points to may be rewritten and indexed. *)
Lemma index_auth_sound m l f e :
  auth_sound m -> aheap m !! l = Some e -> (forall k, alook m k <> Some l) ->
  auth_sound (indexAuthCacheLocked l (awrite l f m)).
Proof.
  intros Hs He Hno. set (m1 := awrite l f m).
  assert (Hl : aheap m1 !! l = Some (f e)) by (cbn; by rewrite list_lookup_alter_eq, He).
  assert (Hlook : forall k, alook m1 k = alook m k) by (by intros []).
  intros k i Hk. change (aheap (indexAuthCacheLocked l m1)) with (aheap m1).
  destruct (alook_index l m1 k) as [[Hh E]|[_ E]]; rewrite E in Hk.
  - injection Hk as <-. exists (f e). by rewrite (aderef_Some m1 l (f e)) in Hh.
  - rewrite Hlook in Hk. destruct (Hs k i Hk) as (e' & He' & Hh). exists e'. split; [|done].
    cbn. rewrite list_lookup_alter_ne; [done|]. intros <-. by apply (Hno k).
Qed.

(** The entry an upsert works on: allocated, and no map points to it. *)
Lemma upsert_target m u now (mac := normalizeMAC (u_MACAddress u)) (imsi := TrimSpace (u_IMSI u))
    (apn := TrimSpace (u_APN u)) :
  auth_sound m ->
  let '(l, m1) :=
    match authByKey m !! authCacheKey mac imsi apn with
    | None => (length (aheap m), m <| aheap ::= fun h => (h ++ [new_auth_entry mac imsi apn now])%list |>)
    | Some l => (l, unindexAuthCacheLocked l m)
    end in
  auth_sound m1 /\ (forall k, alook m1 k <> Some l) /\
  exists e, aheap m1 !! l = Some e /\
    authCacheKey (e_MACAddress e) (e_IMSI e) (e_APN e) = authCacheKey mac imsi apn /\
    (authByKey m !! authCacheKey mac imsi apn = None -> e_APN e = apn) /\
    (forall l, authByKey m !! authCacheKey mac imsi apn = Some l -> e_APN e = e_APN (aderef m l)).
Proof.
  intros Hs. destruct (authByKey m !! _) as [l|] eqn:Hk.
  - split_and!; [by apply unindex_auth_sound| |].
    + intros k H. apply alook_unindex in H as [H Hno]. by apply Hno, auth_at.
    + destruct (Hs (AKey _) l Hk) as (e & He & Hh). exists e. split_and!; [done|done|done|].
      intros l' [= <-]. by rewrite (aderef_Some m l e).
  - set (m1 := m <| aheap ::= _ |>). assert (Hlook : forall k, alook m1 k = alook m k) by (by intros []).
    split_and!.
    + intros k i H. rewrite Hlook in H. destruct (Hs k i H) as (e & He & Hh). exists e.
      split; [|done]. cbn. by apply lookup_app_l_Some.
    + intros k H. rewrite Hlook in H. destruct (Hs k _ H) as (e & He & _).
      apply lookup_lt_Some in He. lia.
    + eexists. split; [cbn; by rewrite list_lookup_middle|done].
Qed.

Lemma upsert_auth_sound m u now : auth_sound m -> auth_sound (fst (UpsertAuthCache m u now)).
Proof.
  intros Hs. unfold UpsertAuthCache. destruct (_ || _)%bool; [done|].
  pose proof (upsert_target m u now Hs) as H. cbv zeta in *.
  destruct (match authByKey m !! _ with Some _ => _ | None => _ end) as [l m1].
  destruct H as (H1 & H2 & e & H3 & _). by apply (index_auth_sound m1 l _ e).
Qed.

Lemma acct_auth_sound m keys now : auth_sound m -> auth_sound (fst (acct_lookup m keys now)).
Proof.
  revert m. induction keys as [|k keys IH]; intros m Hs; cbn; [done|].
  pose proof (expired_auth_sound m (authByAcctNAS m !! k) now Hs) as He.
  destruct (authCacheExpiredLocked _ _ _) as [m' x]. cbn in He.
  destruct (authByAcctNAS m !! k) as [l|]; [destruct x|]; cbn; auto.
Qed.

Lemma areachable_sound m : areachable m -> auth_sound m.
Proof.
  induction 1 as [|m m' _ Hs [Hh Hl]|m u now _ Hs|m mac imsi apn now clock _ Hs|
                  m a n i now clock _ Hs|m mac imsi apn _ Hs].
  - by intros [] l.
  - intros k l Hk. rewrite Hl in Hk. rewrite Hh. exact (Hs k l Hk).
  - by apply upsert_auth_sound.
  - unfold LookupValidAuthCache. pose proof (expired_auth_sound m (auth_candidate m mac imsi apn)
      (if IsZero now then clock else now) Hs) as He.
    destruct (authCacheExpiredLocked _ _ _) as [m' x]. by repeat case_match.
  - unfold LookupValidAuthCacheByAcct. case_match; [done|]. by apply acct_auth_sound.
  - unfold DeleteAuthCache. case_match; [|done]. by apply unindex_auth_sound.
Qed.

Lemma auth_candidate_cases m mac imsi apn l :
  auth_candidate m mac imsi apn = Some l ->
  (exists a, (a = TrimSpace apn \/ a = "") /\
    alook m (AKey (authCacheKey (normalizeMAC mac) (TrimSpace imsi) a)) = Some l) \/
  alook m (AMAC (normalizeMAC mac)) = Some l \/ alook m (AIMSI (TrimSpace imsi)) = Some l.
Proof.
  unfold auth_candidate, or_else. cbn [alook].
  destruct (nonempty mac), (nonempty imsi), (nonempty apn); cbn;
    repeat case_match; intros; simplify_eq; eauto 6.
Qed.

Lemma merge_auth_keys u now e :
  e_MACAddress (merge_auth u now e) = e_MACAddress e /\ e_IMSI (merge_auth u now e) = e_IMSI e /\
  e_APN (merge_auth u now e) = e_APN e.
Proof. done. Qed.

Lemma index_write_post m l f e :
  aheap m !! l = Some e ->
  aheap (indexAuthCacheLocked l (awrite l f m)) !! l = Some (f e) /\
  forall k, ahas (f e) k -> alook (indexAuthCacheLocked l (awrite l f m)) k = Some l.
Proof.
  intros He. assert (Hl : aheap (awrite l f m) !! l = Some (f e))
    by (cbn; by rewrite list_lookup_alter_eq, He).
  split; [exact Hl|]. intros k Hk.
  destruct (alook_index l (awrite l f m) k) as [[_ E]|[Hn _]]; [done|].
  by rewrite (aderef_Some _ l (f e) Hl) in Hn.
Qed.

(** The key under which an update is stored. *)
Definition update_key (u : AuthCacheUpdate) : string :=
  authCacheKey (normalizeMAC (u_MACAddress u)) (TrimSpace (u_IMSI u)) (TrimSpace (u_APN u)).

(** After a successful upsert the key of the request leads to the returned entry. *)
Lemma upsert_post m u now m' e :
  auth_sound m -> UpsertAuthCache m u now = (m', Some e) ->
  normalizeMAC (u_MACAddress u) <> "" /\ TrimSpace (u_IMSI u) <> "" /\
  exists l, authByKey m' !! update_key u = Some l /\ aheap m' !! l = Some e /\
    (e_APN e = TrimSpace (u_APN u) \/
     exists l0, authByKey m !! update_key u = Some l0 /\ e_APN e = e_APN (aderef m l0)).
Proof.
  intros Hs. unfold UpsertAuthCache. destruct (_ || _)%bool eqn:Hc; [done|].
  intros E. bools. split; [done|]. split; [done|].
  pose proof (upsert_target m u now Hs) as Ht. cbv zeta in *. revert E. fold (update_key u) in *.
  destruct (match authByKey m !! _ with Some _ => _ | None => _ end) as [l m1] eqn:Em.
  destruct Ht as (Hs1 & Hno & e0 & He0 & Hkey & Hnew & Hold).
  destruct (index_write_post m1 l (merge_auth u now) e0 He0) as [Hl Hk]. intros E.
  injection E as <- <-. exists l. rewrite (aderef_Some _ l _ Hl).
  split_and!; [by apply (Hk (AKey _))|done|].
  destruct (authByKey m !! update_key u) as [l0|]; [right|left; by apply Hnew].
  exists l0. split; [done|]. by apply Hold.
Qed.

(** * Properties *)

(** C20: every entry of the four cache maps points to an allocated entry that
    carries the key: a refreshed, expired or deleted entry is never reachable
    under a key of its past. *)
Theorem auth_cache_sound m : areachable m -> auth_sound m.
Proof. exact (areachable_sound m). Qed.

Definition demo_update : AuthCacheUpdate := mkAuthCacheUpdate
  "02-00-00-00-00-01" "001010123456789" "user" "internet" "" "192.0.2.9" "nas" "" "" "" "" "acct-1"
  3600 0 5000 0 "" zeroTime "".

Definition demo_auth : Manager := fst (UpsertAuthCache NewManager demo_update 100).

Lemma demo_auth_reachable : areachable demo_auth.
Proof. apply ar_upsert, ar_init. Qed.

Lemma auth_cache_sound_witness :
  auth_sound demo_auth /\ alook demo_auth (AMAC "02:00:00:00:00:01") = Some 0%nat.
Proof. split; [apply (auth_cache_sound demo_auth), demo_auth_reachable|by vm_compute]. Defined.

(** An entry that [LookupValidAuthCache] returns has not expired at the
    instant of the lookup, was stored for the requested key, MAC or IMSI, and
    does not contradict the requested APN. *)
Theorem auth_lookup_valid m mac imsi apn now clock m' e :
  areachable m -> LookupValidAuthCache m mac imsi apn now clock = (m', Some e) ->
  let t := if IsZero now then clock else now in
  (e_AuthExpiresAt e = zeroTime \/ (t < e_AuthExpiresAt e)%Z) /\
  ((exists a, (a = TrimSpace apn \/ a = "") /\
      authCacheKey (e_MACAddress e) (e_IMSI e) (e_APN e) =
      authCacheKey (normalizeMAC mac) (TrimSpace imsi) a) \/
   e_MACAddress e = normalizeMAC mac \/ e_IMSI e = TrimSpace imsi) /\
  (apn = "" \/ e_APN e = "" \/ sameAPN (e_APN e) apn = true).
Proof.
  intros Hs%areachable_sound. unfold LookupValidAuthCache.
  destruct (auth_candidate m mac imsi apn) as [l|] eqn:Hc; cbn [authCacheExpiredLocked]; [|done].
  set (t := if IsZero now then clock else now).
  destruct (auth_expired (aderef m l) t) eqn:Hx; [done|].
  destruct (nonempty apn && _ && _)%bool eqn:Ha; [done|]. intros [= _ <-]. split_and!.
  - unfold auth_expired, IsZero in Hx. apply andb_false_iff in Hx as [Hx|Hx]; bools; auto.
  - apply auth_candidate_cases in Hc as [(a & Ha' & Hk)|[Hk|Hk]].
    + left. exists a. split; [done|]. exact (auth_at m _ l Hs Hk).
    + right. left. exact (proj1 (auth_at m _ l Hs Hk)).
    + right. right. exact (proj1 (auth_at m _ l Hs Hk)).
  - rewrite !andb_false_iff in Ha. destruct Ha as [[Ha|Ha]|Ha]; bools; auto.
Qed.

Lemma auth_lookup_valid_witness :
  exists e, snd (LookupValidAuthCache demo_auth "02:00:00:00:00:01" "" "INTERNET" 4999 0) = Some e /\
    (e_AuthExpiresAt e = zeroTime \/ (4999 < e_AuthExpiresAt e)%Z).
Proof.
  destruct (LookupValidAuthCache demo_auth "02:00:00:00:00:01" "" "INTERNET" 4999 0) as [m' [e|]] eqn:E.
  - exists e. split; [reflexivity|].
    exact (proj1 (auth_lookup_valid demo_auth _ _ _ 4999 0 m' e demo_auth_reachable E)).
  - exfalso. apply (f_equal snd) in E. vm_compute in E. discriminate E.
Defined.

(** Upsert/lookup round trip: what [UpsertAuthCache] stored is what
    [LookupValidAuthCache] finds for the same MAC, IMSI and APN while it has
    not expired, and the lookup changes nothing.  (An entry already stored
    under the key is for the same APN; the APN has no outer blanks.) *)
Theorem auth_upsert_lookup m u now m' e t clock :
  areachable m -> UpsertAuthCache m u now = (m', Some e) ->
  (forall l, authByKey m !! update_key u = Some l -> sameAPN (e_APN (aderef m l)) (u_APN u) = true) ->
  TrimSpace (u_APN u) = u_APN u -> t <> zeroTime -> auth_expired e t = false ->
  LookupValidAuthCache m' (u_MACAddress u) (u_IMSI u) (u_APN u) t clock = (m', Some e).
Proof.
  intros Hs%areachable_sound Hu Hapn Htrim Ht Hx.
  destruct (upsert_post m u now m' e Hs Hu) as (Hmac & Himsi & l & Hl & He & Hsrc).
  unfold LookupValidAuthCache.
  assert (Hm : nonempty (u_MACAddress u) = true)
    by (apply nonempty_spec; intros E; rewrite E in Hmac; by apply Hmac).
  assert (Hi : nonempty (u_IMSI u) = true)
    by (apply nonempty_spec; intros E; rewrite E in Himsi; by apply Himsi).
  assert (Hc : auth_candidate m' (u_MACAddress u) (u_IMSI u) (u_APN u) = Some l).
  { unfold auth_candidate. rewrite Hm, Hi. cbn [andb]. fold (update_key u). by rewrite Hl. }
  rewrite Hc. cbn [authCacheExpiredLocked]. rewrite (aderef_Some m' l e He).
  unfold IsZero. rewrite (proj2 (Z.eqb_neq t zeroTime) Ht), Hx.
  assert (Hsame : sameAPN (e_APN e) (u_APN u) = true).
  { destruct Hsrc as [->|(l0 & H0 & ->)]; [rewrite Htrim; apply EqualFold_refl|by apply Hapn]. }
  rewrite Hsame, andb_false_r. done.
Qed.

Lemma auth_upsert_lookup_witness :
  exists m' e, UpsertAuthCache demo_auth demo_update 200 = (m', Some e) /\
    LookupValidAuthCache m' "02-00-00-00-00-01" "001010123456789" "internet" 300 0 = (m', Some e).
Proof.
  destruct (UpsertAuthCache demo_auth demo_update 200) as [m' [e|]] eqn:E.
  - exists m', e. split; [reflexivity|].
    apply (auth_upsert_lookup demo_auth demo_update 200 m' e 300 0 demo_auth_reachable E);
      [|by vm_compute|by vm_compute|].
    + intros l Hl. assert (l = 0%nat) as -> by (vm_compute in Hl; congruence). by vm_compute.
    + apply (f_equal snd) in E. vm_compute in E. injection E as <-. by vm_compute.
  - exfalso. apply (f_equal snd) in E. vm_compute in E. discriminate E.
Defined.
