(* ===== verification/Recovery.v ===== *)
(** Recovery tombstones of [internal/session/manager.go]: what is kept of a
    session lost to a GTP-U Error Indication, so that the subscriber can be
    re-attached.  Four maps ([recoveryByMAC], [recoveryByIMSI],
    [recoveryByIP], [recoveryByRemoteT]) hold positions in the store
    [rheap]. *)
From S2P Require Import Prelude.
From S2P Require Import GoNet.
From S2P Require Import Session.
From S2P Require Import SessionFacts.
Open Scope string_scope.

Definition rderef (m : Manager) (l : ptr) : RecoveryTombstone := default zeroTombstone (rheap m !! l).

Definition rwrite (l : ptr) (f : RecoveryTombstone -> RecoveryTombstone) (m : Manager) : Manager :=
  m <| rheap ::= alter f l |>.

Definition indexRecoveryLocked (l : ptr) (m : Manager) : Manager :=
  let t := rderef m l in
  m <| recoveryByMAC ::= insert_if (non_nil (t_MAC t)) (HWString (t_MAC t)) l |>
    <| recoveryByIMSI ::= insert_if (nonempty (t_IMSI t)) (t_IMSI t) l |>
    <| recoveryByIP ::= insert_if (non_nil (t_OldSubscriberIP t)) (IPString (t_OldSubscriberIP t)) l |>
    <| recoveryByRemoteT ::= insert_if (negb (t_OldRemoteTEID t =? 0)%Z) (t_OldRemoteTEID t) l |>.

Definition unindexRecoveryLocked (l : ptr) (m : Manager) : Manager :=
  let t := rderef m l in
  m <| recoveryByMAC ::= delete_if (non_nil (t_MAC t)) (HWString (t_MAC t)) |>
    <| recoveryByIMSI ::= delete_if (nonempty (t_IMSI t)) (t_IMSI t) |>
    <| recoveryByIP ::= delete_if (non_nil (t_OldSubscriberIP t)) (IPString (t_OldSubscriberIP t)) |>
    <| recoveryByRemoteT ::= delete_if (negb (t_OldRemoteTEID t =? 0)%Z) (t_OldRemoteTEID t) |>.

Definition recovery_expired (t : RecoveryTombstone) (now : Time) : bool :=
  (negb (IsZero (t_ExpiresAt t)) && (t_ExpiresAt t <? now)%Z)%bool.

Definition recoveryExpiredLocked (m : Manager) (l : option ptr) (now : Time) : Manager * bool :=
  match l with
  | None => (m, false)
  | Some l => if recovery_expired (rderef m l) now then (unindexRecoveryLocked l m, true) else (m, false)
  end.

Definition new_tombstone (s : Session) (reason : string) (ttl : Z) (now : Time) : RecoveryTombstone :=
  let t := zeroTombstone
    <| t_IMSI := s_IMSI s |> <| t_APN := s_APN s |> <| t_OldSubscriberIP := s_SubscriberIP s |>
    <| t_OldSessionID := s_ID s |> <| t_OldRemoteTEID := s_RemoteGTPUTEID s |>
    <| t_OldLocalTEID := s_LocalGTPUTEID s |> <| t_OriginalUsername := s_Username s |>
    <| t_EAPIdentity := s_EAPIdentity s |> <| t_RadiusState := s_RadiusState s |>
    <| t_NASIP := s_NASIP s |> <| t_NASIdentifier := s_NASIdentifier s |>
    <| t_AcctSessionID := s_AcctSessionID s |> <| t_CallingStationID := s_CallingStationID s |>
    <| t_CalledStationID := s_CalledStationID s |> <| t_Class := s_RadiusClass s |>
    <| t_ConnectInfo := s_ConnectInfo s |> <| t_FramedMTU := s_FramedMTU s |>
    <| t_Reason := reason |> <| t_State := RecoveryRequired |> <| t_CreatedAt := now |>
    <| t_ExpiresAt := (now + ttl)%Z |> in
  if nonempty (s_MACAddress s) then
    match ParseMAC (s_MACAddress s) with
    | Some mac =>
      let t1 := t <| t_MAC := mac |> in
      if nonempty (t_CallingStationID t1) then t1 else t1 <| t_CallingStationID := HWString mac |>
    | None => t
    end
  else t.

Definition AddRecoveryTombstone (m : Manager) (sess : option Session) (reason : string) (ttl : Z)
    (now : Time) : Manager * option RecoveryTombstone :=
  match sess with
  | None => (m, None)
  | Some s =>
    if (ttl <=? 0)%Z then (m, None)
    else
      let t := new_tombstone s reason ttl now in
      let l := length (rheap m) in
      (indexRecoveryLocked l (m <| rheap ::= fun h => (h ++ [t])%list |>), Some t)
  end.

Definition find_old (m : Manager) (id : string) (ord : list (string * ptr)) : option ptr :=
  snd <$> List.find (fun kv => String.eqb (t_OldSessionID (rderef m (snd kv))) id) ord.

(** [ord1] and [ord2] are the iteration orders of the MAC and IMSI maps. *)
Definition UpdateRecovery (m : Manager) (ord1 ord2 : list (string * ptr)) (oldSessionID : string)
    (fn : RecoveryTombstone -> RecoveryTombstone) (now : Time) : Manager * option RecoveryTombstone :=
  if negb (nonempty oldSessionID) then (m, None)
  else
    let t := match find_old m oldSessionID ord1 with
             | Some l => Some l
             | None => find_old m oldSessionID ord2
             end in
    let '(m1, expired) := recoveryExpiredLocked m t now in
    match expired, t with
    | false, Some l =>
      let m2 := indexRecoveryLocked l (rwrite l fn (unindexRecoveryLocked l m1)) in
      (m2, Some (rderef m2 l))
    | _, _ => (m1, None)
    end.

(** The common tail of the lookups. *)
Definition live_recovery (m : Manager) (l : option ptr) (now : Time)
  : Manager * option RecoveryTombstone :=
  let '(m', expired) := recoveryExpiredLocked m l now in
  if expired then (m', None) else (m', rderef m' <$> l).

Definition LookupRecoveryByMACAddr (m : Manager) (mac : HardwareAddr) (now : Time) :=
  if non_nil mac then live_recovery m (recoveryByMAC m !! HWString mac) now else (m, None).

Definition LookupRecoveryByIP (m : Manager) (ip : IP) (now : Time) :=
  if non_nil ip then live_recovery m (recoveryByIP m !! IPString ip) now else (m, None).

Definition recovery_candidate (m : Manager) (imsi mac : string) : option ptr :=
  let t := if nonempty mac then
             recoveryByMAC m !! match ParseMAC mac with Some hw => HWString hw | None => mac end
           else None in
  match t with
  | Some l => Some l
  | None => if nonempty imsi then recoveryByIMSI m !! imsi else None
  end.

Definition FindRecovery (m : Manager) (imsi mac : string) (now : Time) :=
  live_recovery m (recovery_candidate m imsi mac) now.

Definition complete_candidate (m : Manager) (s : Session) : option ptr :=
  let t := if nonempty (s_MACAddress s) then
             match ParseMAC (s_MACAddress s) with
             | Some hw => recoveryByMAC m !! HWString hw
             | None => None
             end
           else None in
  match t with
  | Some l => Some l
  | None => if nonempty (s_IMSI s) then recoveryByIMSI m !! s_IMSI s else None
  end.

Definition CompleteRecoveryFor (m : Manager) (sess : option Session) (now : Time)
  : Manager * option RecoveryTombstone :=
  match sess with
  | None => (m, None)
  | Some s =>
    let t := complete_candidate m s in
    let '(m', expired) := recoveryExpiredLocked m t now in
    match expired, t with
    | false, Some l => (unindexRecoveryLocked l m', Some (rderef m' l))
    | _, _ => (m', None)
    end
  end.

(** * The four maps seen as one *)
Inductive rkey := RMAC (k : string) | RIMSI (k : string) | RIP (k : string) | RTEID (k : Z).

Definition rlook (m : Manager) (k : rkey) : option ptr :=
  match k with
  | RMAC k => recoveryByMAC m !! k | RIMSI k => recoveryByIMSI m !! k
  | RIP k => recoveryByIP m !! k | RTEID k => recoveryByRemoteT m !! k
  end.

Definition rhas (t : RecoveryTombstone) (k : rkey) : Prop :=
  match k with
  | RMAC k => t_MAC t <> [] /\ HWString (t_MAC t) = k
  | RIMSI k => t_IMSI t <> "" /\ t_IMSI t = k
  | RIP k => t_OldSubscriberIP t <> [] /\ IPString (t_OldSubscriberIP t) = k
  | RTEID k => t_OldRemoteTEID t <> 0%Z /\ t_OldRemoteTEID t = k
  end.

Definition recovery_sound (m : Manager) : Prop :=
  forall k l, rlook m k = Some l -> exists t, rheap m !! l = Some t /\ rhas t k.

Definition same_recovery (m m' : Manager) : Prop :=
  rheap m' = rheap m /\ forall k, rlook m' k = rlook m k.

Inductive rreachable : Manager -> Prop :=
| rr_init : rreachable NewManager
| rr_other m m' : rreachable m -> same_recovery m m' -> rreachable m'
| rr_add m s reason ttl now : rreachable m -> rreachable (fst (AddRecoveryTombstone m s reason ttl now))
| rr_update m o1 o2 id fn now : rreachable m ->
    o1 ≡ₚ map_to_list (recoveryByMAC m) -> o2 ≡ₚ map_to_list (recoveryByIMSI m) ->
    rreachable (fst (UpdateRecovery m o1 o2 id fn now))
| rr_lookup_mac m mac now : rreachable m -> rreachable (fst (LookupRecoveryByMACAddr m mac now))
| rr_lookup_ip m ip now : rreachable m -> rreachable (fst (LookupRecoveryByIP m ip now))
| rr_find m imsi mac now : rreachable m -> rreachable (fst (FindRecovery m imsi mac now))
| rr_complete m s now : rreachable m -> rreachable (fst (CompleteRecoveryFor m s now)).

(** * Lemmas *)
#[global] Instance rhas_dec t k : Decision (rhas t k).
Proof. destruct k; apply _. Defined.

Lemma rlook_index l m k :
  rlook (indexRecoveryLocked l m) k = if decide (rhas (rderef m l) k) then Some l else rlook m k.
Proof.
  destruct k as [k|k|k|k]; cbn; autorewrite with reg; apply decide_ext;
    rewrite ?nonempty_spec, ?non_nil_spec, ?negb_true_iff, ?Z.eqb_neq; done.
Qed.

Lemma rlook_unindex l m k :
  rlook (unindexRecoveryLocked l m) k = if decide (rhas (rderef m l) k) then None else rlook m k.
Proof.
  destruct k as [k|k|k|k]; cbn; autorewrite with reg; apply decide_ext;
    rewrite ?nonempty_spec, ?non_nil_spec, ?negb_true_iff, ?Z.eqb_neq; done.
Qed.

Lemma rderef_Some m l t : rheap m !! l = Some t -> rderef m l = t.
Proof. intros H. unfold rderef. by rewrite H. Qed.

Lemma recovery_at m k l :
  recovery_sound m -> rlook m k = Some l -> rheap m !! l = Some (rderef m l) /\ rhas (rderef m l) k.
Proof. intros Hs Hk. destruct (Hs k l Hk) as (t & Ht & Hh). by rewrite (rderef_Some m l t). Qed.

(** After unindexing an object no map points to it. *)
Lemma unindex_gone m l k : recovery_sound m -> rlook (unindexRecoveryLocked l m) k <> Some l.
Proof.
  intros Hs. rewrite rlook_unindex. case_decide as Hn; [done|]. intros Hk. by apply Hn, recovery_at.
Qed.

Lemma unindex_recovery_sound m l : recovery_sound m -> recovery_sound (unindexRecoveryLocked l m).
Proof. intros Hs k i. rewrite rlook_unindex. case_decide; [done|]. apply Hs. Qed.

Lemma expired_recovery_sound m l now :
  recovery_sound m -> recovery_sound (fst (recoveryExpiredLocked m l now)).
Proof.
  intros Hs. destruct l as [l|]; cbn; [|done]. destruct (recovery_expired _ _); [|done].
  by apply unindex_recovery_sound.
Qed.

(** An object that no map points to may be changed and indexed. *)
Lemma index_recovery_sound m m' l :
  recovery_sound m -> (forall k, rlook m k <> Some l) -> (forall k, rlook m' k = rlook m k) ->
  (exists t, rheap m' !! l = Some t) ->
  (forall i t, i <> l -> rheap m !! i = Some t -> rheap m' !! i = Some t) ->
  recovery_sound (indexRecoveryLocked l m').
Proof.
  intros Hs Hno Hlook [t Ht] Hheap k i. rewrite rlook_index.
  change (rheap (indexRecoveryLocked l m')) with (rheap m'). case_decide as Hh.
  - intros [= <-]. exists t. by rewrite (rderef_Some m' l t) in Hh.
  - rewrite Hlook. intros Hk. destruct (Hs k i Hk) as (t' & Ht' & Hh'). exists t'.
    split; [|done]. apply Hheap; [|done]. intros ->. by apply (Hno k).
Qed.

Lemma add_recovery_sound m s reason ttl now :
  recovery_sound m -> recovery_sound (fst (AddRecoveryTombstone m s reason ttl now)).
Proof.
  intros Hs. unfold AddRecoveryTombstone. destruct s as [s|]; [|done]. case_match; [done|].
  apply (index_recovery_sound m).
  - done.
  - intros k Hk. destruct (Hs k _ Hk) as (t & Ht & _). apply lookup_lt_Some in Ht. lia.
  - by intros [].
  - eexists. cbn. by rewrite list_lookup_middle.
  - intros i t _ Hi. cbn. by apply lookup_app_l_Some.
Qed.

Lemma find_old_Some m id ord l :
  find_old m id ord = Some l -> exists k, (k, l) ∈ ord /\ t_OldSessionID (rderef m l) = id.
Proof.
  unfold find_old. intros ([k l'] & Hf & ->)%fmap_Some. apply List.find_some in Hf as [Hin E].
  exists k. cbn in *. apply String.eqb_eq in E. split; [|done]. by apply list_elem_of_In.
Qed.

Lemma update_target_allocated m o1 o2 id l :
  recovery_sound m -> o1 ≡ₚ map_to_list (recoveryByMAC m) -> o2 ≡ₚ map_to_list (recoveryByIMSI m) ->
  match find_old m id o1 with Some l => Some l | None => find_old m id o2 end = Some l ->
  rheap m !! l = Some (rderef m l) /\ t_OldSessionID (rderef m l) = id.
Proof.
  intros Hs H1 H2 H. destruct (find_old m id o1) as [l'|] eqn:E.
  - injection H as ->. apply find_old_Some in E as (k & Hin & Hid). split; [|done].
    rewrite H1 in Hin. apply elem_of_map_to_list in Hin. by apply (recovery_at m (RMAC k)).
  - apply find_old_Some in H as (k & Hin & Hid). split; [|done].
    rewrite H2 in Hin. apply elem_of_map_to_list in Hin. by apply (recovery_at m (RIMSI k)).
Qed.

Lemma update_recovery_sound m o1 o2 id fn now :
  recovery_sound m -> o1 ≡ₚ map_to_list (recoveryByMAC m) -> o2 ≡ₚ map_to_list (recoveryByIMSI m) ->
  recovery_sound (fst (UpdateRecovery m o1 o2 id fn now)).
Proof.
  intros Hs H1 H2. unfold UpdateRecovery. case_match; [done|].
  pose proof (fun l => update_target_allocated m o1 o2 id l Hs H1 H2) as Ht.
  destruct (match find_old m id o1 with Some _ => _ | None => _ end) as [l|]; [|done].
  specialize (Ht l eq_refl) as [Hl _]. cbn [recoveryExpiredLocked].
  destruct (recovery_expired _ _); [by apply unindex_recovery_sound|]. cbn [fst].
  apply (index_recovery_sound (unindexRecoveryLocked l m)).
  - by apply unindex_recovery_sound.
  - intros k. by apply unindex_gone.
  - by intros [].
  - eexists. cbn. by rewrite list_lookup_alter_eq, Hl.
  - intros i t Hi Ht. cbn. by rewrite list_lookup_alter_ne.
Qed.

Lemma live_recovery_sound m l now : recovery_sound m -> recovery_sound (fst (live_recovery m l now)).
Proof.
  intros Hs. unfold live_recovery. pose proof (expired_recovery_sound m l now Hs).
  destruct (recoveryExpiredLocked m l now) as [m' []]; done.
Qed.

Lemma rreachable_sound m : rreachable m -> recovery_sound m.
Proof.
  induction 1 as [|m m' _ Hs [Hh Hl]|m s r ttl now _ Hs|m o1 o2 id fn now _ Hs H1 H2|
                  m mac now _ Hs|m ip now _ Hs|m imsi mac now _ Hs|m s now _ Hs].
  - by intros [] l.
  - intros k l Hk. rewrite Hl in Hk. rewrite Hh. exact (Hs k l Hk).
  - by apply add_recovery_sound.
  - by apply update_recovery_sound.
  - unfold LookupRecoveryByMACAddr. case_match; [|done]. by apply live_recovery_sound.
  - unfold LookupRecoveryByIP. case_match; [|done]. by apply live_recovery_sound.
  - by apply live_recovery_sound.
  - unfold CompleteRecoveryFor. destruct s as [s|]; [|done].
    pose proof (expired_recovery_sound m (complete_candidate m s) now Hs).
    destruct (recoveryExpiredLocked _ _ _) as [m' []]; [done|].
    destruct (complete_candidate m s); [|done]. by apply unindex_recovery_sound.
Qed.

Lemma new_tombstone_fields s reason ttl now :
  let t := new_tombstone s reason ttl now in
  t_IMSI t = s_IMSI s /\ t_OldSessionID t = s_ID s /\ t_State t = RecoveryRequired /\
  t_Reason t = reason /\ t_ExpiresAt t = (now + ttl)%Z /\ t_OldSubscriberIP t = s_SubscriberIP s /\
  (forall hw, s_MACAddress s <> "" -> ParseMAC (s_MACAddress s) = Some hw -> t_MAC t = hw).
Proof.
  cbv zeta. unfold new_tombstone.
  destruct (nonempty (s_MACAddress s)) eqn:E; [destruct (ParseMAC _) as [mac|] eqn:Ep|].
  1: destruct (nonempty (t_CallingStationID _)).
  all: split_and!; try reflexivity; intros hw Hne; try (by intros [= <-]); try done.
  by rewrite nonempty_false in E.
Qed.

(** Expiry as the lookups see it. *)
Lemma live_recovery_spec m l now m' t :
  live_recovery m l now = (m', Some t) ->
  exists i, l = Some i /\ m' = m /\ t = rderef m i /\ recovery_expired t now = false.
Proof.
  unfold live_recovery, recoveryExpiredLocked. destruct l as [i|]; cbn; [|by intros [= _ ?]].
  destruct (recovery_expired (rderef m i) now) eqn:E; cbn; [done|]. intros [= <- <-]. by exists i.
Qed.

(** * Properties *)

Definition demo_lost : Session := deref demo 0.

Definition demo_lost_registry : Manager :=
  fst (AddRecoveryTombstone demo (Some demo_lost) "GTP-U Error Indication" (15 * Minute) 7000).

Lemma demo_lost_reachable : rreachable demo_lost_registry.
Proof.
  apply rr_add. apply (rr_other NewManager); [constructor|].
  split; [by vm_compute|]. intros []; reflexivity.
Qed.

(** [AddRecoveryTombstone] followed by [FindRecovery] (by MAC, or by IMSI
    for a session without a MAC) returns the tombstone of that session, in
    state [RecoveryRequired] and with its identifier and address, as long as
    its time to live has not passed. *)
Theorem recovery_add_find m s reason ttl now now' hw :
  rreachable m -> (0 < ttl)%Z -> (now + ttl <> zeroTime)%Z -> (now' <= now + ttl)%Z ->
  (s_MACAddress s = "" /\ s_IMSI s <> "") \/
  (s_MACAddress s <> "" /\ ParseMAC (s_MACAddress s) = Some hw) ->
  let m1 := fst (AddRecoveryTombstone m (Some s) reason ttl now) in
  exists t, snd (AddRecoveryTombstone m (Some s) reason ttl now) = Some t /\
    FindRecovery m1 (s_IMSI s) (s_MACAddress s) now' = (m1, Some t) /\
    t_State t = RecoveryRequired /\ t_OldSessionID t = s_ID s /\
    t_OldSubscriberIP t = s_SubscriberIP s /\ t_IMSI t = s_IMSI s.
Proof.
  intros Hr%rreachable_sound Httl Hz Hnow Hkey. unfold AddRecoveryTombstone.
  rewrite (proj2 (Z.leb_gt _ _)) by lia. cbn [fst snd].
  set (t := new_tombstone s reason ttl now). set (l := length (rheap m)).
  set (m1 := m <| rheap ::= _ |>). exists t.
  destruct (new_tombstone_fields s reason ttl now) as (F1 & F2 & F3 & _ & F5 & F6 & F7). fold t in F1, F2, F3, F5, F6, F7.
  assert (Hl : rheap m1 !! l = Some t) by (cbn; by rewrite list_lookup_middle).
  assert (Hd : rderef m1 l = t) by (by apply rderef_Some).
  assert (Hlook : forall k, rhas t k -> rlook (indexRecoveryLocked l m1) k = Some l)
    by (intros k Hk; rewrite rlook_index, Hd; by rewrite decide_True).
  assert (Hc : recovery_candidate (indexRecoveryLocked l m1) (s_IMSI s) (s_MACAddress s) = Some l).
  { unfold recovery_candidate. destruct Hkey as [[-> Hi]|[Hm Hp]].
    - rewrite (proj2 (nonempty_spec _) Hi). apply (Hlook (RIMSI _)). by rewrite <- F1 in Hi.
    - rewrite (proj2 (nonempty_spec _) Hm), Hp.
      assert (E : rlook (indexRecoveryLocked l m1) (RMAC (HWString hw)) = Some l).
      2: { cbn [rlook] in E. by rewrite E. }
      apply Hlook. cbn. rewrite (F7 hw Hm Hp). split; [|done]. intros ->.
      by destruct (ParseMAC_ok _ _ Hp) as [? _]. }
  split; [done|]. split; [|done].
  unfold FindRecovery, live_recovery. rewrite Hc. cbn [recoveryExpiredLocked].
  change (rderef (indexRecoveryLocked l m1) l) with (rderef m1 l). rewrite Hd.
  unfold recovery_expired. rewrite F5, (proj2 (Z.ltb_ge _ _)) by lia. rewrite andb_false_r.
  cbn. by change (rderef (indexRecoveryLocked l m1) l) with (rderef m1 l); rewrite Hd.
Qed.

Lemma recovery_add_find_witness :
  exists t, snd (AddRecoveryTombstone demo (Some demo_lost) "r" (15 * Minute) 7000) = Some t /\
    FindRecovery (fst (AddRecoveryTombstone demo (Some demo_lost) "r" (15 * Minute) 7000))
      (s_IMSI demo_lost) (s_MACAddress demo_lost) 8000
      = (fst (AddRecoveryTombstone demo (Some demo_lost) "r" (15 * Minute) 7000), Some t) /\
    t_State t = RecoveryRequired /\ t_OldSessionID t = s_ID demo_lost /\
    t_OldSubscriberIP t = s_SubscriberIP demo_lost /\ t_IMSI t = s_IMSI demo_lost.
Proof.
  apply (recovery_add_find demo demo_lost "r" (15 * Minute) 7000 8000 [2; 0; 0; 0; 0; 1]%Z).
  - apply (rr_other NewManager); [constructor|]. split; [by vm_compute|]. intros []; reflexivity.
  - by vm_compute.
  - by vm_compute.
  - by vm_compute.
  - right. split; by vm_compute.
Defined.

(** C21: a recovery lookup never returns an expired tombstone nor one recorded
    under another address or hardware address, and a completed recovery is
    gone: no map points to the completed tombstone any more. *)
Theorem recovery_lookup_complete m :
  rreachable m ->
  (forall mac now m' t, LookupRecoveryByMACAddr m mac now = (m', Some t) ->
     HWString (t_MAC t) = HWString mac /\ (t_ExpiresAt t = zeroTime \/ now <= t_ExpiresAt t)%Z) /\
  (forall ip now m' t, LookupRecoveryByIP m ip now = (m', Some t) ->
     IPString (t_OldSubscriberIP t) = IPString ip /\ (t_ExpiresAt t = zeroTime \/ now <= t_ExpiresAt t)%Z) /\
  (forall s now m' t, CompleteRecoveryFor m (Some s) now = (m', Some t) ->
     (t_ExpiresAt t = zeroTime \/ now <= t_ExpiresAt t)%Z /\
     exists l, complete_candidate m s = Some l /\ rderef m l = t /\ forall k, rlook m' k <> Some l).
Proof.
  intros Hr%rreachable_sound.
  assert (Hx : forall t now, recovery_expired t now = false ->
                             (t_ExpiresAt t = zeroTime \/ now <= t_ExpiresAt t)%Z).
  { intros t now [H|H]%andb_false_iff; unfold IsZero in *; bools; auto. }
  split_and!.
  - intros mac now m' t. unfold LookupRecoveryByMACAddr. case_match; [|done].
    intros (l & Hl & -> & -> & He)%live_recovery_spec. split; [|by apply Hx].
    by destruct (recovery_at m (RMAC (HWString mac)) l Hr Hl) as [_ [_ ?]].
  - intros ip now m' t. unfold LookupRecoveryByIP. case_match; [|done].
    intros (l & Hl & -> & -> & He)%live_recovery_spec. split; [|by apply Hx].
    by destruct (recovery_at m (RIP (IPString ip)) l Hr Hl) as [_ [_ ?]].
  - intros s now m' t. unfold CompleteRecoveryFor.
    destruct (complete_candidate m s) as [l|]; [cbn [recoveryExpiredLocked]|done].
    destruct (recovery_expired (rderef m l) now) eqn:He; [done|]. intros [= <- <-].
    split; [by apply Hx|]. exists l. split_and!; [done|done|]. intros k. by apply unindex_gone.
Qed.

Lemma recovery_lookup_complete_witness :
  exists t, snd (CompleteRecoveryFor demo_lost_registry (Some demo_lost) 8000) = Some t /\
    exists l, complete_candidate demo_lost_registry demo_lost = Some l /\
      forall k, rlook (fst (CompleteRecoveryFor demo_lost_registry (Some demo_lost) 8000)) k <> Some l.
Proof.
  destruct (CompleteRecoveryFor demo_lost_registry (Some demo_lost) 8000) as [m' [t|]] eqn:E.
  - exists t. split; [reflexivity|].
    destruct (recovery_lookup_complete demo_lost_registry demo_lost_reachable) as (_ & _ & H).
    destruct (H demo_lost 8000%Z m' t E) as (_ & l & H1 & _ & H3). exists l. split; [exact H1|exact H3].
  - exfalso. apply (f_equal snd) in E. vm_compute in E. discriminate E.
Defined.
