(* ===== verification/Gtpv2.v ===== *)
(** The GTPv2-C codec: [internal/gtp/gtpv2.go] (messages and the sequence
    allocator) and [internal/gtp/gtpv2_ie.go] (information elements).
    Decoders run in the [go] monad, where [None] is a run-time panic (or, for
    [decodeIEs], a loop that did not end): the theorems show neither happens. *)
From S2P Require Import Prelude.
From S2P Require Import GoNet.
Open Scope string_scope.
Open Scope Z_scope.

(** * Messages (gtpv2.go) *)
Definition gtpv2VersionFlag : Z := 0x40.
Definition gtpv2TEIDFlag : Z := 0x08.
Definition gtpv2EchoRequest : Z := 1.
Definition gtpv2EchoResponse : Z := 2.
Definition gtpv2CreateSessionReq : Z := 32.
Definition gtpv2CreateSessionResp : Z := 33.
Definition gtpv2DeleteSessionReq : Z := 36.
Definition gtpv2DeleteSessionResp : Z := 37.
Definition minGTPv2Sequence : Z := 0x000001.
Definition maxGTPv2Sequence : Z := 0x7fffff.

Record gtpv2Message := mkMsg {
  g_Type : Z; g_TEID : Z; g_HasTEID : bool; g_Sequence : Z; g_Payload : list Z
}.

#[global] Instance gtpv2Message_eta : Eta gtpv2Message := fun m =>
  mkMsg (g_Type m) (g_TEID m) (g_HasTEID m) (g_Sequence m) (g_Payload m).

Inductive gtp_err :=
| ErrSequenceRange (s : Z) | ErrTooLarge (n : Z) | ErrTooShort (n : nat)
| ErrVersion (flags : Z) | ErrLength (field : Z) (actual : Z) | ErrTEIDTooShort (n : nat)
| ErrIEHeader | ErrIELength (typ l remaining : Z).

Definition encode (m : gtpv2Message) : result (list Z) gtp_err :=
  if ((g_Sequence m <? minGTPv2Sequence) || (maxGTPv2Sequence <? g_Sequence m))%bool
  then Err (ErrSequenceRange (g_Sequence m))
  else
    let flags := if g_HasTEID m then Z.lor gtpv2VersionFlag gtpv2TEIDFlag else gtpv2VersionFlag in
    let headerLen := if g_HasTEID m then 12 else 8 in
    let length := headerLen - 4 + Z.of_nat (length (g_Payload m)) in
    if 0xffff <? length then Err (ErrTooLarge length)
    else Ok ([flags; g_Type m] ++ be 2 (wrap 16 length)
             ++ (if g_HasTEID m then be 4 (g_TEID m) else [])
             ++ be 3 (g_Sequence m) ++ [0] ++ g_Payload m)%list.

Definition decodeGTPv2Message (b : list Z) : go (result gtpv2Message gtp_err) :=
  if (length b <? 8)%nat then Some (Err (ErrTooShort (length b)))
  else
    b0 ← go_idx b 0;
    if negb (Z.land b0 0xe0 =? gtpv2VersionFlag) then Some (Err (ErrVersion b0))
    else
      lf ← go_slice b 2 4;
      let len := be_dec lf in
      if negb (len =? Z.of_nat (length b) - 4)
      then Some (Err (ErrLength len (Z.of_nat (length b) - 4)))
      else
        b1 ← go_idx b 1;
        let hasTEID := negb (Z.land b0 gtpv2TEIDFlag =? 0) in
        if (hasTEID && (length b <? 12)%nat)%bool then Some (Err (ErrTEIDTooShort (length b)))
        else
          teid ← (if hasTEID then t ← go_slice b 4 8; Some (be_dec t) else Some 0);
          let offset := if hasTEID then 8%nat else 4%nat in
          s ← go_slice b offset (offset + 3);
          p ← go_from b (offset + 4);
          Some (Ok (mkMsg b1 teid hasTEID (read24 s) p)).

(** ** The sequence allocator *)

(** [randomInitialGTPv2Sequence]: the four bytes of [rand.Read], or its failure. *)
Definition randomInitialGTPv2Sequence (b : option (list Z)) : Z :=
  match b with
  | None => minGTPv2Sequence
  | Some b =>
    let n := Z.land (be_dec b) maxGTPv2Sequence in
    if n =? 0 then minGTPv2Sequence else n
  end.

(** [next]: the compare-and-swap loop is an atomic step from [cur]. *)
Definition next_sequence (cur : Z) : Z :=
  let next := wrap 32 (cur + 1) in
  if ((next =? 0) || (maxGTPv2Sequence <? next))%bool then minGTPv2Sequence else next.

(** * Information elements (gtpv2_ie.go) *)
Definition ieIMSI : Z := 1.
Definition ieCause : Z := 2.
Definition ieRecovery : Z := 3.
Definition ieAPN : Z := 71.
Definition ieAMBR : Z := 72.
Definition ieEBI : Z := 73.
Definition ieMSISDN : Z := 76.
Definition iePAA : Z := 79.
Definition ieBearerQoS : Z := 80.
Definition ieRATType : Z := 82.
Definition ieServingNetwork : Z := 83.
Definition ieFTEID : Z := 87.
Definition ieBearerContext : Z := 93.
Definition ieChargingChars : Z := 95.
Definition iePDNType : Z := 99.
Definition ieAPNRestriction : Z := 127.
Definition ieSelectionMode : Z := 128.
Definition causeRequestAccepted : Z := 16.
Definition ratTypeWLAN : Z := 3.
Definition pdnTypeIPv4 : Z := 1.
Definition ifaceS2aTWANGTPU : Z := 34.
Definition ifaceS2aTWANGTPC : Z := 35.
Definition ifaceS2aPGWGTPC : Z := 36.
Definition ifaceS2aPGWGTPU : Z := 37.
Definition defaultChargingCharacteristics : Z := 0x0800.

Record gtpv2IE := mkIE { ie_Type : Z; ie_Instance : Z; ie_Payload : list Z }.

Record causeInfo := mkCause {
  c_Cause : Z; c_OffendingIEType : Z; c_OffendingIELength : Z; c_OffendingIEInstance : Z
}.

Definition ie_encode (ie : gtpv2IE) : list Z :=
  ([ie_Type ie] ++ be 2 (wrap 16 (Z.of_nat (length (ie_Payload ie))))
   ++ [Z.land (ie_Instance ie) 0x0f] ++ ie_Payload ie)%list.

Definition encodeIEs (ies : list gtpv2IE) : list Z := flat_map ie_encode ies.

(** One round of the loop per unit of fuel; [length payload] is enough
    ([decodeIEs_total]), as a round consumes at least four bytes. *)
Fixpoint decodeIEs_loop (fuel : nat) (payload : list Z) (ies : list gtpv2IE)
  : go (result (list gtpv2IE) gtp_err) :=
  match payload with
  | [] => Some (Ok ies)
  | _ :: _ =>
    match fuel with
    | O => None
    | S fuel =>
      if (length payload <? 4)%nat then Some (Err ErrIEHeader)
      else
        lf ← go_slice payload 1 3;
        t ← go_idx payload 0;
        let l := be_dec lf in
        if (Z.of_nat (length payload) <? 4 + l) then Some (Err (ErrIELength t l (Z.of_nat (length payload) - 4)))
        else
          i ← go_idx payload 3;
          p ← go_slice payload 4 (4 + Z.to_nat l);
          rest ← go_from payload (4 + Z.to_nat l);
          decodeIEs_loop fuel rest (ies ++ [mkIE t (Z.land i 0x0f) p])%list
    end
  end.

Definition decodeIEs (payload : list Z) : go (result (list gtpv2IE) gtp_err) :=
  decodeIEs_loop (length payload) payload [].

Definition findIE (ies : list gtpv2IE) (typ inst : Z) : option gtpv2IE :=
  List.find (fun ie => (ie_Type ie =? typ) && (ie_Instance ie =? inst))%bool ies.

Definition is_digit (c : Z) : bool := ((48 <=? c) && (c <=? 57))%bool.

Fixpoint tbcd_pairs (digits : list Z) : list Z :=
  match digits with
  | [] => []
  | [lo] => [Z.lor lo (Z.shiftl 0x0f 4)]
  | lo :: hi :: rest => Z.lor lo (Z.shiftl hi 4) :: tbcd_pairs rest
  end.

Definition digits_of (value : string) : list Z :=
  map (fun c => c - 48) (List.filter is_digit (bytes_of_string value)).

Definition encodeTBCD (value : string) : list Z := tbcd_pairs (digits_of value).

Definition bcdIE (typ : Z) (value : string) : gtpv2IE := mkIE typ 0 (encodeTBCD value).

Definition apn_labels (apn : string) : list Z :=
  flat_map (fun label =>
    if nonempty label
    then wrap 8 (Z.of_nat (String.length label)) :: bytes_of_string label else [])
    (Split apn "."%char).

Definition apnIE (apn : string) : gtpv2IE := mkIE ieAPN 0 (apn_labels apn).

Definition uint8IE (typ v : Z) : gtpv2IE := mkIE typ 0 [v].

Definition recoveryIE (restartCounter : Z) : gtpv2IE := uint8IE ieRecovery restartCounter.

Definition chargingCharacteristicsIE (inst value : Z) : gtpv2IE :=
  mkIE ieChargingChars inst (be 2 value).

(** [strconv.ParseUint(s, 16, 16)] on four characters: all hexadecimal. *)
Fixpoint parse_hex (l : list ascii) (acc : Z) : option Z :=
  match l with
  | [] => Some acc
  | c :: r => v ← hexval c; parse_hex r (acc * 16 + v)
  end.

Definition parseChargingCharacteristicsHex (s : string) : option Z :=
  if negb (String.length s =? 4)%nat then None
  else parse_hex (String.list_ascii_of_string s) 0.

Definition prefix3 (p s : string) : bool := String.eqb (String.substring 0 3 s) p.

Definition suffix3 (s : string) : string := String.substring 3 (String.length s - 3) s.

Definition plmn_part (st : string * string) (part : string) : string * string :=
  let '(mcc, mnc) := st in
  let n := String.length part in
  let mcc := if (prefix3 "mcc" part && (n =? 6)%nat)%bool then suffix3 part else mcc in
  let mnc := if (prefix3 "mnc" part && ((n =? 5)%nat || (n =? 6)%nat))%bool
             then suffix3 part else mnc in
  (mcc, mnc).

Definition plmnFromRealm (realm : string) : option (string * string) :=
  let '(mcc, mnc) := fold_left plmn_part (Split realm "."%char) ("", "") in
  if (negb (String.length mcc =? 3)%nat
      || (negb (String.length mnc =? 2)%nat && negb (String.length mnc =? 3)%nat))%bool
  then None else Some (mcc, mnc).

Definition digitNibble (b : Z) : Z := if is_digit b then b - 48 else 0x0f.

Definition nib (b : list Z) (i : nat) : go Z := c ← go_idx b i; Some (digitNibble c).

Definition encodePLMN (mcc mnc : string) : go (list Z) :=
  let c := bytes_of_string mcc in
  let n := bytes_of_string mnc in
  mnc3 ← (if (length n =? 3)%nat then nib n 2 else Some 0x0f);
  c0 ← nib c 0; c1 ← nib c 1; c2 ← nib c 2; n0 ← nib n 0; n1 ← nib n 1;
  Some [Z.lor c0 (Z.shiftl c1 4); Z.lor c2 (Z.shiftl mnc3 4); Z.lor n0 (Z.shiftl n1 4)].

Definition servingNetworkIE (realm : string) : go (option gtpv2IE) :=
  match plmnFromRealm realm with
  | None => Some None
  | Some (mcc, mnc) => p ← encodePLMN mcc mnc; Some (Some (mkIE ieServingNetwork 0 p))
  end.

Definition ambrIE (uplink downlink : Z) : gtpv2IE := mkIE ieAMBR 0 (be 4 uplink ++ be 4 downlink)%list.

Definition bearerQoSIE (qci : Z) : gtpv2IE := mkIE ieBearerQoS 0 (put_at (zeros 22) 1 [qci]).

Definition fteidIE (inst iface teid : Z) (ip : IP) : gtpv2IE :=
  if 0x3f <? iface then mkIE ieFTEID inst []
  else mkIE ieFTEID inst ([Z.lor 0x80 iface] ++ be 4 teid ++ To4 ip)%list.

Definition paaIE (ip : IP) : gtpv2IE := mkIE iePAA 0 ([pdnTypeIPv4] ++ To4 ip)%list.

Definition zeroCause : causeInfo := mkCause 0 0 0 0.

Definition parseCauseInfo (ies : list gtpv2IE) : go causeInfo :=
  match findIE ies ieCause 0 with
  | None => Some zeroCause
  | Some ie =>
    let p := ie_Payload ie in
    if (length p =? 0)%nat then Some zeroCause
    else
      c ← go_idx p 0;
      if (6 <=? length p)%nat then
        t ← go_idx p 2; l ← go_slice p 3 5; i ← go_idx p 5;
        Some (mkCause c t (be_dec l) (Z.land i 0x0f))
      else Some (mkCause c 0 0 0)
  end.

Definition parseCause (ies : list gtpv2IE) : go Z := c ← parseCauseInfo ies; Some (c_Cause c).

Definition parsePAA (ies : list gtpv2IE) : go IP :=
  match findIE ies iePAA 0 with
  | None => Some []
  | Some ie =>
    let p := ie_Payload ie in
    if (length p <? 5)%nat then Some []
    else
      p0 ← go_idx p 0;
      if negb (Z.land p0 0x07 =? pdnTypeIPv4) then Some []
      else a ← go_idx p 1; b ← go_idx p 2; c ← go_idx p 3; d ← go_idx p 4; Some (IPv4 a b c d)
  end.

(** The result is [iface], [teid], [ip] (nil when the element has none) and the flag. *)
Definition parseFTEID (ie : gtpv2IE) : go (Z * Z * IP * bool) :=
  let p := ie_Payload ie in
  if (length p <? 5)%nat then Some (0, 0, [], false)
  else
    p0 ← go_idx p 0; t ← go_slice p 1 5;
    let iface := Z.land p0 0x3f in
    let teid := be_dec t in
    if ((Z.land p0 0x80 =? 0) || (length p <? 9)%nat)%bool then Some (iface, teid, [], true)
    else a ← go_idx p 5; b ← go_idx p 6; c ← go_idx p 7; d ← go_idx p 8;
         Some (iface, teid, IPv4 a b c d, true).

(** * Lemmas *)
(** The bytes of an encoded message, as a list of its parts. *)
Lemma encode_Ok m b :
  encode m = Ok b <->
  (minGTPv2Sequence <= g_Sequence m <= maxGTPv2Sequence /\
   (if g_HasTEID m then 8 else 4) + Z.of_nat (length (g_Payload m)) <= 0xffff /\
   b = ([if g_HasTEID m then 0x48 else 0x40; g_Type m]
        ++ be 2 ((if g_HasTEID m then 8 else 4) + Z.of_nat (length (g_Payload m)))
        ++ (if g_HasTEID m then be 4 (g_TEID m) else []) ++ be 3 (g_Sequence m) ++ [0]
        ++ g_Payload m)%list).
Proof.
  unfold encode. destruct (_ || _)%bool eqn:E1.
  { split; [done|]. intros (H & _ & _). apply orb_true_iff in E1.
    destruct E1 as [E1|E1]; apply Z.ltb_lt in E1; lia. }
  bools. set (len := _ - 4 + _).
  assert (Hlen : len = (if g_HasTEID m then 8 else 4) + Z.of_nat (length (g_Payload m)))
    by (unfold len; destruct (g_HasTEID m); lia).
  destruct (65535 <? len) eqn:E2; bools.
  { split; [done|]. intros (_ & ? & _). lia. }
  assert (Hw : wrap 16 len = len)
    by (unfold wrap; apply Z.mod_small; unfold len; destruct (g_HasTEID m); lia).
  rewrite Hw, <- Hlen. split.
  - intros [= <-]. split_and!; [lia|lia|lia|]. by destruct (g_HasTEID m).
  - intros (_ & _ & ->). by destruct (g_HasTEID m).
Qed.

Lemma length_encode m b :
  encode m = Ok b -> Z.of_nat (length b) = (if g_HasTEID m then 12 else 8) + Z.of_nat (length (g_Payload m)).
Proof.
  intros (_ & _ & ->)%encode_Ok. destruct (g_HasTEID m); len.
Qed.

(** Normal form of a message: without the T flag the TEID is not carried. *)
Definition wire (m : gtpv2Message) : gtpv2Message :=
  if g_HasTEID m then m else m <| g_TEID := 0 |>.

Lemma decode_encode m b :
  u_ok 32 (g_TEID m) -> encode m = Ok b -> decodeGTPv2Message b = Some (Ok (wire m)).
Proof.
  intros Ht He. pose proof (length_encode m b He) as Hlen.
  apply encode_Ok in He as (Hs & Hn & Hb). unfold minGTPv2Sequence, maxGTPv2Sequence in Hs.
  unfold decodeGTPv2Message. rewrite (proj2 (Nat.ltb_ge _ _)) by (destruct (g_HasTEID m); lia).
  set (L := (if g_HasTEID m then 8 else 4) + _) in *.
  assert (HL : go_slice b 2 4 = Some (be 2 L)).
  { rewrite Hb. apply (go_slice_app [_; _]); [done|len]. }
  assert (HLd : be_dec (be 2 L) = L).
  { apply be_dec_be_small. cbn. unfold L. destruct (g_HasTEID m); lia. }
  assert (H0 : go_idx b 0 = Some (if g_HasTEID m then 0x48 else 0x40)) by (by rewrite Hb).
  assert (H1 : go_idx b 1 = Some (g_Type m)) by (by rewrite Hb).
  set (fl := if g_HasTEID m then 0x48 else 0x40) in *.
  assert (Hv : negb (Z.land fl 0xe0 =? gtpv2VersionFlag) = false) by (unfold fl; by destruct (g_HasTEID m)).
  assert (Hf : negb (Z.land fl gtpv2TEIDFlag =? 0) = g_HasTEID m) by (unfold fl; by destruct (g_HasTEID m)).
  assert (Hq : negb (L =? Z.of_nat (length b) - 4) = false)
    by (rewrite negb_false_iff, Z.eqb_eq; unfold L; destruct (g_HasTEID m); lia).
  assert (Hx : (g_HasTEID m && (length b <? 12)%nat)%bool = false).
  { destruct (g_HasTEID m); [|done]. cbn [andb]. apply Nat.ltb_ge. lia. }
  rewrite H0; cbn [mbind option_bind]. rewrite Hv, HL; cbn [mbind option_bind].
  rewrite HLd, Hq, H1; cbn [mbind option_bind]. rewrite Hf, Hx. clear Hv Hf Hq Hx H0 H1 HL HLd; subst fl.
  destruct m as [ty te [] sq pl]; cbn [g_HasTEID g_Type g_TEID g_Sequence g_Payload wire] in *.
  - replace (go_slice b 4 8) with (Some (be 4 te)).
    2: { rewrite Hb, app_assoc. symmetry. apply go_slice_app; [len|len]. }
    cbn [mbind option_bind Nat.add]. replace (go_slice b 8 11) with (Some (be 3 sq)).
    2: { rewrite Hb, (app_assoc [_; _]), (app_assoc _ (be 4 te)). symmetry. apply go_slice_app; len. }
    cbn [mbind option_bind Nat.add]. replace (go_from b 12) with (Some pl).
    2: { rewrite Hb. rewrite !app_assoc. symmetry. apply go_from_app. len. }
    cbn -[read24 be]. rewrite <- (app_nil_r (be 3 sq)), read24_be by lia.
    rewrite be_dec_be_small; [done|]. unfold u_ok in Ht. cbn in *. lia.
  - rewrite app_nil_l in Hb. cbn [mbind option_bind Nat.add]. replace (go_slice b 4 7) with (Some (be 3 sq)).
    2: { rewrite Hb, app_assoc. symmetry. apply go_slice_app; len. }
    cbn [mbind option_bind Nat.add]. replace (go_from b 8) with (Some pl).
    2: { rewrite Hb. rewrite !app_assoc. symmetry. apply go_from_app. len. }
    cbn -[read24 be]. rewrite <- (app_nil_r (be 3 sq)), read24_be by lia. done.
Qed.

(** What [decodeGTPv2Message] accepts, and the fields it reads. *)
Definition t_flag (b : list Z) : bool := negb (Z.land (nth 0 b 0) gtpv2TEIDFlag =? 0).

Definition accepts (b : list Z) : Prop :=
  (8 <= length b)%nat /\ Z.land (nth 0 b 0) 0xe0 = gtpv2VersionFlag /\
  be_dec (take 2 (drop 2 b)) = Z.of_nat (length b) - 4 /\ (t_flag b = true -> (12 <= length b)%nat).

Definition fields (b : list Z) : gtpv2Message :=
  let offset := if t_flag b then 8%nat else 4%nat in
  mkMsg (nth 1 b 0) (if t_flag b then be_dec (take 4 (drop 4 b)) else 0) (t_flag b)
    (read24 (take 3 (drop offset b))) (drop (offset + 4) b).

Lemma decode_cases b :
  exists r, decodeGTPv2Message b = Some r /\
    match r with Ok m => accepts b /\ m = fields b | Err _ => ~ accepts b end.
Proof.
  unfold decodeGTPv2Message, accepts, fields.
  destruct (length b <? 8)%nat eqn:E1; [apply Nat.ltb_lt in E1|apply Nat.ltb_ge in E1].
  { eexists. split; [done|]. cbn. lia. }
  rewrite (go_idx_Some b 0), (go_slice_Some b 2 4), (go_idx_Some b 1) by lia.
  cbn [mbind option_bind]. fold (t_flag b). change (4 - 2)%nat with 2%nat.
  destruct (Z.land (nth 0 b 0) 224 =? gtpv2VersionFlag) eqn:E2; cbn [negb]; bools.
  2: { eexists. split; [done|]. intros (? & ? & ? & ?). congruence. }
  destruct (be_dec (take 2 (drop 2 b)) =? Z.of_nat (length b) - 4) eqn:E3; cbn [negb]; bools.
  2: { eexists. split; [done|]. intros (? & ? & ? & ?). congruence. }
  destruct (t_flag b) eqn:E4; cbn [andb].
  - destruct (length b <? 12)%nat eqn:E5; [apply Nat.ltb_lt in E5|apply Nat.ltb_ge in E5].
    { eexists. split; [done|]. cbn. intros (_ & _ & _ & H). specialize (H eq_refl). lia. }
    rewrite (go_slice_Some b 4 8) by lia. cbn [mbind option_bind Nat.add].
    rewrite (go_slice_Some b 8 11), (go_from_Some b 12) by lia. cbn [mbind option_bind].
    eexists. split; [done|]. done.
  - cbn [mbind option_bind Nat.add]. rewrite (go_slice_Some b 4 7), (go_from_Some b 8) by lia.
    cbn [mbind option_bind]. eexists. split; [done|]. done.
Qed.

(** ** Sequence numbers *)
Lemma next_sequence_eq cur :
  0 <= cur < 2 ^ 32 ->
  next_sequence cur = if (0 <=? cur) && (cur <? maxGTPv2Sequence) then cur + 1 else 1.
Proof.
  unfold next_sequence, wrap, minGTPv2Sequence, maxGTPv2Sequence. intros H.
  destruct (Z.eq_dec cur (2 ^ 32 - 1)) as [->|]; [done|].
  rewrite Z.mod_small by lia.
  destruct (cur + 1 =? 0) eqn:E1, (8388607 <? cur + 1) eqn:E2, (0 <=? cur) eqn:E3,
    (cur <? 8388607) eqn:E4; cbn; lia.
Qed.

Lemma next_sequence_range cur :
  0 <= cur < 2 ^ 32 -> minGTPv2Sequence <= next_sequence cur <= maxGTPv2Sequence.
Proof.
  intros H. rewrite next_sequence_eq by done. unfold minGTPv2Sequence, maxGTPv2Sequence.
  destruct (_ && _) eqn:E; bools; lia.
Qed.

Lemma iter_next_sequence k cur :
  minGTPv2Sequence <= cur <= maxGTPv2Sequence ->
  Nat.iter k next_sequence cur = (cur - 1 + Z.of_nat k) mod maxGTPv2Sequence + 1.
Proof.
  unfold minGTPv2Sequence, maxGTPv2Sequence. intros H. induction k as [|k IH].
  - rewrite Z.mod_small by lia. change (Nat.iter 0 next_sequence cur) with cur. lia.
  - change (Nat.iter (S k) next_sequence cur) with (next_sequence (Nat.iter k next_sequence cur)).
    rewrite IH. pose proof (Z.mod_pos_bound (cur - 1 + Z.of_nat k) 8388607 ltac:(lia)).
    rewrite next_sequence_eq by lia. unfold maxGTPv2Sequence.
    set (x := (cur - 1 + Z.of_nat k) mod 8388607) in *.
    assert (Hx : (cur - 1 + Z.of_nat (S k)) mod 8388607 = (x + 1) mod 8388607).
    { unfold x. rewrite Z.add_mod_idemp_l by lia. f_equal. lia. }
    rewrite Hx. destruct (_ && _) eqn:E; bools.
    + rewrite Z.mod_small by lia. lia.
    + assert (x + 1 = 8388607) as ->; [|done].
      destruct (x + 1 <? 8388607) eqn:E'; [|lia]. exfalso.
      rewrite andb_false_iff in E. destruct E; bools; lia.
Qed.

(** ** Information elements *)
Definition ie_ok (ie : gtpv2IE) : Prop :=
  byte_ok (ie_Type ie) /\ 0 <= ie_Instance ie < 16 /\ bytes_ok (ie_Payload ie) /\
  Z.of_nat (length (ie_Payload ie)) <= 65535.

Lemma ie_encode_eq ie :
  ie_ok ie ->
  ie_encode ie = ([ie_Type ie] ++ be 2 (Z.of_nat (length (ie_Payload ie))) ++ [ie_Instance ie]
                  ++ ie_Payload ie)%list.
Proof.
  intros (_ & Hi & _ & Hl). unfold ie_encode, wrap. rewrite Z.mod_small by lia.
  replace (Z.land (ie_Instance ie) 15) with (ie_Instance ie); [done|].
  change 15 with (Z.ones 4). rewrite Z.land_ones by lia. symmetry. apply Z.mod_small. lia.
Qed.

Lemma length_ie_encode ie : length (ie_encode ie) = (4 + length (ie_Payload ie))%nat.
Proof. unfold ie_encode. len. Qed.

Lemma decodeIEs_loop_step fuel ie rest acc :
  ie_ok ie ->
  decodeIEs_loop (S fuel) (ie_encode ie ++ rest)%list acc = decodeIEs_loop fuel rest (acc ++ [ie])%list.
Proof.
  intros Hok. pose proof (length_ie_encode ie) as Hle. pose proof (ie_encode_eq ie Hok) as He.
  set (b := (ie_encode ie ++ rest)%list).
  assert (Hb : b = ([ie_Type ie] ++ be 2 (Z.of_nat (length (ie_Payload ie))) ++ [ie_Instance ie]
                  ++ ie_Payload ie ++ rest)%list).
  { unfold b. rewrite He. by rewrite <- !app_assoc. }
  assert (Hlen : (length b = 4 + length (ie_Payload ie) + length rest)%nat)
    by (unfold b; rewrite length_app, Hle; lia).
  destruct Hok as (Ht & Hi & Hp & Hn).
  cbn [decodeIEs_loop]. destruct b as [|b0 br] eqn:Eb; [cbn in Hlen; lia|]. rewrite <- Eb in *. clear Eb b0 br.
  rewrite (proj2 (Nat.ltb_ge _ _)) by lia.
  replace (go_slice b 1 3) with (Some (be 2 (Z.of_nat (length (ie_Payload ie)))))
    by (rewrite Hb; symmetry; apply (go_slice_app [_]); len).
  replace (go_idx b 0) with (Some (ie_Type ie)) by (by rewrite Hb).
  replace (go_idx b 3) with (Some (ie_Instance ie)) by (by rewrite Hb).
  cbn [mbind option_bind]. rewrite be_dec_be_small by (cbn; lia).
  rewrite Nat2Z.id, (proj2 (Z.ltb_ge _ _)) by lia.
  replace (go_slice b 4 (4 + length (ie_Payload ie))) with (Some (ie_Payload ie))
    by (rewrite Hb; symmetry; rewrite (app_assoc [_]), (app_assoc _ [_]); apply go_slice_app; len).
  replace (go_from b (4 + length (ie_Payload ie))) with (Some rest)
    by (unfold b; symmetry; apply go_from_app; lia).
  cbn [mbind option_bind]. do 4 f_equal. destruct ie as [t i p]. cbn in *. f_equal.
  change 15 with (Z.ones 4). rewrite Z.land_ones by lia. apply Z.mod_small. lia.
Qed.

Lemma decodeIEs_loop_encode ies fuel acc :
  Forall ie_ok ies -> (length ies <= fuel)%nat ->
  decodeIEs_loop fuel (encodeIEs ies) acc = Some (Ok (acc ++ ies)%list).
Proof.
  intros Hok. revert fuel acc. induction Hok as [|ie ies Hie _ IH]; intros fuel acc Hf.
  - cbn. rewrite app_nil_r. by destruct fuel.
  - destruct fuel as [|fuel]; [cbn in Hf; lia|]. change (encodeIEs (ie :: ies)) with
      (ie_encode ie ++ encodeIEs ies)%list. rewrite decodeIEs_loop_step by done.
    rewrite IH by (cbn in Hf; lia). by rewrite <- app_assoc.
Qed.

Lemma length_encodeIEs ies : (4 * length ies <= length (encodeIEs ies))%nat.
Proof.
  induction ies as [|ie ies IH]; cbn [encodeIEs flat_map]; [done|].
  rewrite length_app, length_ie_encode. unfold encodeIEs in IH. cbn [length]. lia.
Qed.

Lemma decodeIEs_encodeIEs ies : Forall ie_ok ies -> decodeIEs (encodeIEs ies) = Some (Ok ies).
Proof.
  intros Hok. unfold decodeIEs. rewrite decodeIEs_loop_encode; [done|done|].
  pose proof (length_encodeIEs ies). lia.
Qed.

Lemma decodeIEs_loop_total fuel p acc :
  bytes_ok p -> (length p <= fuel)%nat -> exists r, decodeIEs_loop fuel p acc = Some r.
Proof.
  revert p acc. induction fuel as [|fuel IH]; intros p acc Hp Hf.
  { destruct p; [by eexists|]. cbn in Hf. lia. }
  destruct p as [|x p']; [by eexists|]. set (p := x :: p') in *. cbn [decodeIEs_loop].
  change (match p with [] => Some (Ok acc) | _ :: _ => ?e end) with e.
  destruct (length p <? 4)%nat eqn:E1; [by eexists|]. apply Nat.ltb_ge in E1.
  rewrite (go_slice_Some p 1 3), (go_idx_Some p 0), (go_idx_Some p 3) by lia. cbn [mbind option_bind].
  set (l := be_dec (take (3 - 1) (drop 1 p))).
  assert (Hl : 0 <= l) by (apply be_dec_bound; auto with bytes).
  destruct (Z.of_nat (length p) <? 4 + l) eqn:E2; [by eexists|]. bools.
  rewrite (go_slice_Some p 4 (4 + Z.to_nat l)), (go_from_Some p (4 + Z.to_nat l)) by lia.
  cbn [mbind option_bind]. apply IH; [by apply bytes_ok_drop|]. rewrite length_drop. lia.
Qed.

(** ** Element parsers never index out of range *)
Lemma parseFTEID_total ie : exists r, parseFTEID ie = Some r.
Proof.
  unfold parseFTEID. destruct (_ <? 5)%nat eqn:E1; [by eexists|]. apply Nat.ltb_ge in E1.
  rewrite (go_idx_Some _ 0), (go_slice_Some _ 1 5) by lia. cbn [mbind option_bind].
  destruct (_ =? 0); cbn [orb]; [by eexists|].
  destruct (_ <? 9)%nat eqn:E2; [by eexists|]. apply Nat.ltb_ge in E2.
  rewrite (go_idx_Some _ 5), (go_idx_Some _ 6), (go_idx_Some _ 7), (go_idx_Some _ 8) by lia.
  by eexists.
Qed.

Lemma parsePAA_total ies : exists r, parsePAA ies = Some r.
Proof.
  unfold parsePAA. destruct (findIE ies iePAA 0) as [ie|]; [|by eexists].
  destruct (_ <? 5)%nat eqn:E1; [by eexists|]. apply Nat.ltb_ge in E1.
  rewrite (go_idx_Some _ 0) by lia. cbn [mbind option_bind]. destruct (negb _); [by eexists|].
  rewrite (go_idx_Some _ 1), (go_idx_Some _ 2), (go_idx_Some _ 3), (go_idx_Some _ 4) by lia.
  by eexists.
Qed.

Lemma parseCauseInfo_total ies : exists r, parseCauseInfo ies = Some r.
Proof.
  unfold parseCauseInfo. destruct (findIE ies ieCause 0) as [ie|]; [|by eexists].
  destruct (_ =? 0)%nat eqn:E1; [by eexists|]. apply Nat.eqb_neq in E1.
  rewrite (go_idx_Some _ 0) by lia. cbn [mbind option_bind].
  destruct (6 <=? _)%nat eqn:E2; [|by eexists]. apply Nat.leb_le in E2.
  rewrite (go_idx_Some _ 2), (go_slice_Some _ 3 5), (go_idx_Some _ 5) by lia. by eexists.
Qed.

Lemma plmn_lengths realm mcc mnc :
  plmnFromRealm realm = Some (mcc, mnc) ->
  String.length mcc = 3%nat /\ (String.length mnc = 2%nat \/ String.length mnc = 3%nat).
Proof.
  unfold plmnFromRealm. destruct (fold_left _ _ _) as [a b].
  destruct (_ || _)%bool eqn:E; [done|]. intros [= <- <-]. bools.
  rewrite Nat.eqb_eq in *. split; [done|]. rewrite andb_false_iff, !negb_false_iff, !Nat.eqb_eq in *. done.
Qed.

Lemma servingNetworkIE_total realm : exists r, servingNetworkIE realm = Some r.
Proof.
  unfold servingNetworkIE. destruct (plmnFromRealm realm) as [[mcc mnc]|] eqn:E; [|by eexists].
  apply plmn_lengths in E as [H1 H2]. rewrite <- !length_bytes_of_string in H1, H2.
  unfold encodePLMN, nib. rewrite (go_idx_Some (bytes_of_string mcc) 0), (go_idx_Some (bytes_of_string mcc) 1),
    (go_idx_Some (bytes_of_string mcc) 2), (go_idx_Some (bytes_of_string mnc) 0),
    (go_idx_Some (bytes_of_string mnc) 1) by lia.
  destruct (length (bytes_of_string mnc) =? 3)%nat eqn:E3.
  - apply Nat.eqb_eq in E3. rewrite (go_idx_Some _ 2) by lia. by eexists.
  - by eexists.
Qed.

(** ** F-TEID, PAA and TBCD *)
Lemma land_byte_or i : 0 <= i <= 0x3f ->
  Z.land (Z.lor 0x80 i) 0x3f = i /\ Z.land (Z.lor 0x80 i) 0x80 = 0x80 /\ byte_ok (Z.lor 0x80 i).
Proof.
  intros Hi. assert (H : forall n : nat, (n <= 63)%nat ->
    (Z.land (Z.lor 0x80 (Z.of_nat n)) 0x3f =? Z.of_nat n) &&
    (Z.land (Z.lor 0x80 (Z.of_nat n)) 0x80 =? 0x80) &&
    (0 <=? Z.lor 0x80 (Z.of_nat n)) && (Z.lor 0x80 (Z.of_nat n) <? 256) = true).
  { intros n Hn. do 64 (destruct n as [|n]; [done|]). lia. }
  specialize (H (Z.to_nat i) ltac:(lia)). rewrite Z2Nat.id in H by lia. bools.
  unfold byte_ok. lia.
Qed.

Lemma parseFTEID_fteidIE inst iface teid a b c d :
  0 <= iface <= 0x3f -> u_ok 32 teid ->
  parseFTEID (fteidIE inst iface teid (IPv4 a b c d)) = Some (iface, teid, IPv4 a b c d, true).
Proof.
  intros Hi Ht. destruct (land_byte_or iface Hi) as (H1 & H2 & _).
  unfold fteidIE. rewrite (proj2 (Z.ltb_ge _ _)) by lia. rewrite To4_IPv4.
  unfold parseFTEID. cbn [ie_Payload].
  set (p := ([Z.lor 128 iface] ++ be 4 teid ++ [a; b; c; d])%list).
  assert (Hp : length p = 9%nat) by done. rewrite Hp. cbn [Nat.ltb Nat.leb].
  replace (go_idx p 0) with (Some (Z.lor 128 iface)) by done.
  replace (go_slice p 1 5) with (Some (be 4 teid)) by (symmetry; apply (go_slice_app [_]); len).
  cbn [mbind option_bind]. rewrite H1, H2. cbn [Z.eqb orb].
  rewrite be_dec_be_small by (unfold u_ok in Ht; cbn; lia). done.
Qed.

Lemma parsePAA_paaIE ies1 ies2 a b c d :
  findIE ies1 iePAA 0 = None ->
  parsePAA (ies1 ++ paaIE (IPv4 a b c d) :: ies2)%list = Some (IPv4 a b c d).
Proof.
  intros H. unfold parsePAA.
  assert (E : findIE (ies1 ++ paaIE (IPv4 a b c d) :: ies2)%list iePAA 0 = Some (paaIE (IPv4 a b c d))).
  { unfold findIE in *. induction ies1 as [|x l IH]; cbn in *; [done|].
    destruct (_ && _)%bool; [done|]. auto. }
  rewrite E. unfold paaIE. rewrite To4_IPv4. done.
Qed.

(** The digits of a TBCD string: nibbles, low first, without the filler. *)
Definition tbcd_nibbles (p : list Z) : list Z :=
  List.filter (fun n => negb (n =? 15)) (flat_map (fun b => [Z.land b 15; Z.shiftr b 4]) p).

Definition digit_ok (d : Z) : Prop := 0 <= d <= 9.

Lemma tbcd_byte lo hi :
  digit_ok lo -> digit_ok hi \/ hi = 15 ->
  Z.land (Z.lor lo (Z.shiftl hi 4)) 15 = lo /\ Z.shiftr (Z.lor lo (Z.shiftl hi 4)) 4 = hi /\
  byte_ok (Z.lor lo (Z.shiftl hi 4)).
Proof.
  unfold digit_ok. intros Hlo Hhi.
  assert (H : forall n m : nat, (n < 10)%nat -> (m < 16)%nat ->
    (Z.land (Z.lor (Z.of_nat n) (Z.shiftl (Z.of_nat m) 4)) 15 =? Z.of_nat n) &&
    (Z.shiftr (Z.lor (Z.of_nat n) (Z.shiftl (Z.of_nat m) 4)) 4 =? Z.of_nat m) &&
    (0 <=? Z.lor (Z.of_nat n) (Z.shiftl (Z.of_nat m) 4)) &&
    (Z.lor (Z.of_nat n) (Z.shiftl (Z.of_nat m) 4) <? 256) = true).
  { intros n m Hn Hm. do 10 (destruct n as [|n]; [do 16 (destruct m as [|m]; [done|]); lia|]). lia. }
  specialize (H (Z.to_nat lo) (Z.to_nat hi) ltac:(lia) ltac:(lia)).
  rewrite !Z2Nat.id in H by lia. bools. unfold byte_ok. lia.
Qed.

Lemma tbcd_pairs_nibbles l :
  Forall digit_ok l -> tbcd_nibbles (tbcd_pairs l) = l /\ bytes_ok (tbcd_pairs l) /\
  length (tbcd_pairs l) = Nat.div2 (length l + 1).
Proof.
  induction l as [l IH] using (induction_ltof1 _ (@length Z)). intros Hl.
  destruct l as [|lo [|hi rest]]; cbn [tbcd_pairs].
  - split_and!; [done|constructor|done].
  - apply Forall_cons_1 in Hl as [Hlo _].
    destruct (tbcd_byte lo 15 Hlo (or_intror eq_refl)) as (H1 & H2 & H3).
    split_and!; [|by constructor|done]. unfold tbcd_nibbles. cbn [flat_map app]. rewrite H1, H2. cbn.
    unfold digit_ok in Hlo. by replace (lo =? 15) with false by lia.
  - apply Forall_cons_1 in Hl as [Hlo Hl]. apply Forall_cons_1 in Hl as [Hhi Hl].
    destruct (tbcd_byte lo hi Hlo (or_introl Hhi)) as (H1 & H2 & H3).
    destruct (IH rest) as (I1 & I2 & I3); [unfold ltof; cbn; lia|done|].
    split_and!; [|by constructor|cbn; by rewrite I3].
    unfold tbcd_nibbles in *. cbn [flat_map app List.filter]. rewrite H1, H2, I1.
    unfold digit_ok in Hlo, Hhi. replace (lo =? 15) with false by lia.
    by replace (hi =? 15) with false by lia.
Qed.

Lemma digits_of_ok v : Forall digit_ok (digits_of v).
Proof.
  unfold digits_of. apply Forall_forall. intros d Hd.
  apply list_elem_of_fmap in Hd as (c & -> & Hc).
  apply list_elem_of_In, filter_In in Hc as [_ Hc]. unfold is_digit in Hc. bools.
  unfold digit_ok. lia.
Qed.

(** * Properties *)

(** C22: encode/decode round trip: a message encodes exactly when its sequence
    number is in the StarOS-compatible range and its length fits the 16-bit
    length field, and what is encoded decodes to the same message (the TEID
    is carried only with the T flag). *)
Theorem gtpv2_roundtrip m :
  u_ok 32 (g_TEID m) ->
  (is_ok (encode m) = true <->
   minGTPv2Sequence <= g_Sequence m <= maxGTPv2Sequence /\
   (if g_HasTEID m then 8 else 4) + Z.of_nat (length (g_Payload m)) <= 0xffff) /\
  forall b, encode m = Ok b -> decodeGTPv2Message b = Some (Ok (wire m)).
Proof.
  intros Ht. split; [|intros b; by apply decode_encode]. split.
  - destruct (encode m) as [b|e] eqn:E; [|done]. intros _. apply encode_Ok in E. tauto.
  - intros [H1 H2]. erewrite (proj2 (encode_Ok m _)); [done|]. split_and!; [tauto|tauto|done|done].
Qed.

Definition demo_msg : gtpv2Message := mkMsg gtpv2DeleteSessionReq 0xdeadbeef true 0x123456 [73; 0; 1; 0; 5].

Lemma gtpv2_roundtrip_witness :
  exists b, encode demo_msg = Ok b /\ decodeGTPv2Message b = Some (Ok demo_msg).
Proof.
  destruct (encode demo_msg) as [b|e] eqn:E; [|exfalso; vm_compute in E; discriminate E].
  exists b. split; [reflexivity|].
  apply (gtpv2_roundtrip demo_msg); [split; vm_compute; congruence|exact E].
Defined.

(** [decodeGTPv2Message] indexes within bounds on every packet, and
    accepts exactly the packets with version 2, at least a full header, and a
    length field equal to the packet length less four; the message then holds
    the fields at their offsets. *)
Theorem gtpv2_decode_total b :
  exists r, decodeGTPv2Message b = Some r /\
    (is_ok r = true <-> accepts b) /\ forall m, r = Ok m -> m = fields b.
Proof.
  destruct (decode_cases b) as (r & Hr & H). exists r. split; [done|]. destruct r as [m|e].
  - destruct H as [Ha ->]. split; [by split|]. by intros m' [= ->].
  - split; [split; [done|]|done]. intros Ha. by destruct H.
Qed.

(** The sequence allocator stays in [1..0x7fffff] from every 32-bit
    state, and fewer than 0x7fffff consecutive requests get pairwise distinct
    numbers, across the wrap-around as well. *)
Theorem sequence_distinct cur i j :
  minGTPv2Sequence <= cur <= maxGTPv2Sequence -> (i < j)%nat -> Z.of_nat j < maxGTPv2Sequence + Z.of_nat i ->
  Nat.iter i next_sequence cur <> Nat.iter j next_sequence cur /\
  minGTPv2Sequence <= Nat.iter j next_sequence cur <= maxGTPv2Sequence.
Proof.
  intros Hc Hij Hj. rewrite !iter_next_sequence by done.
  unfold minGTPv2Sequence, maxGTPv2Sequence in *. split.
  - intros E. assert (E' : (cur - 1 + Z.of_nat i) mod 8388607 = (cur - 1 + Z.of_nat j) mod 8388607) by lia.
    assert (H : (Z.of_nat j - Z.of_nat i) mod 8388607 = 0).
    { replace (Z.of_nat j - Z.of_nat i) with ((cur - 1 + Z.of_nat j) - (cur - 1 + Z.of_nat i)) by lia.
      rewrite Zminus_mod, <- E', Z.sub_diag. done. }
    rewrite Z.mod_small in H by lia. lia.
  - pose proof (Z.mod_pos_bound (cur - 1 + Z.of_nat j) 8388607 ltac:(lia)). lia.
Qed.

Lemma sequence_distinct_witness :
  Nat.iter 0 next_sequence maxGTPv2Sequence <> Nat.iter 3 next_sequence maxGTPv2Sequence /\
  minGTPv2Sequence <= Nat.iter 3 next_sequence maxGTPv2Sequence <= maxGTPv2Sequence.
Proof. apply (sequence_distinct maxGTPv2Sequence 0 3); unfold minGTPv2Sequence, maxGTPv2Sequence; lia. Defined.

(** C23: [decodeIEs] inverts [encodeIEs] on well-formed elements (byte type,
    4-bit instance, payload of at most 65535 bytes), and on every payload it
    ends without indexing out of range. *)
Theorem ies_roundtrip :
  (forall ies, Forall ie_ok ies -> decodeIEs (encodeIEs ies) = Some (Ok ies)) /\
  (forall p, bytes_ok p -> exists r, decodeIEs p = Some r).
Proof.
  split; [exact decodeIEs_encodeIEs|]. intros p Hp. by apply decodeIEs_loop_total.
Qed.

(** The element constructors and parsers agree: an F-TEID built from an
    interface type, a TEID and an IPv4 address parses to them, a PAA to its
    address, and the TBCD digits of an IMSI or MSISDN are recovered, in
    [(n+1)/2] bytes. *)
Theorem ie_values_roundtrip inst iface teid a b c d value :
  0 <= iface <= 0x3f -> u_ok 32 teid ->
  parseFTEID (fteidIE inst iface teid (IPv4 a b c d)) = Some (iface, teid, IPv4 a b c d, true) /\
  parsePAA [paaIE (IPv4 a b c d)] = Some (IPv4 a b c d) /\
  tbcd_nibbles (encodeTBCD value) = digits_of value /\
  length (encodeTBCD value) = Nat.div2 (length (digits_of value) + 1).
Proof.
  intros Hi Ht. destruct (tbcd_pairs_nibbles _ (digits_of_ok value)) as (H1 & _ & H3).
  split_and!; [by apply parseFTEID_fteidIE|by apply (parsePAA_paaIE [] [])|done|done].
Qed.

Lemma ie_values_roundtrip_witness :
  parseFTEID (fteidIE 1 ifaceS2aPGWGTPC 0x11223344 (IPv4 192 0 2 1))
    = Some (ifaceS2aPGWGTPC, 0x11223344, IPv4 192 0 2 1, true) /\
  parsePAA [paaIE (IPv4 192 0 2 1)] = Some (IPv4 192 0 2 1) /\
  tbcd_nibbles (encodeTBCD "001010123456789") = digits_of "001010123456789" /\
  length (encodeTBCD "001010123456789") = Nat.div2 (length (digits_of "001010123456789") + 1).
Proof.
  apply (ie_values_roundtrip 1 ifaceS2aPGWGTPC 0x11223344 192 0 2 1);
    [vm_compute|split; vm_compute]; try split; congruence.
Defined.
