(* ===== verification/GtpClient.v ===== *)
(** The GTP-C client: [internal/gtp/gtp.go] and [internal/gtp/errors.go].  What
    its callers see from send to wake-up is in [GtpRun.v], the wrapper
    [internal/pgw] in [Pgw.v].

    A client is a record of its fields; the [*gtpcTransaction]s live in a
    store, the map [pending] holds positions in it (the goroutine that waits
    for a response holds the position as well, so [failPending] may drop the
    map entry before the waiter looks).  The two channels of a transaction
    have capacity one and are options.  Mutexes make the operations atomic.
    Sending is an output; the socket's answer is an argument. *)
From S2P Require Import Prelude.
From S2P Require Import GoNet.
From S2P Require Import Config.
From S2P Require Import Session.
From S2P Require Import SessionFacts.
From S2P Require Import Gtpv2.
Open Scope string_scope.
Open Scope Z_scope.

Definition gtpControlPort : Z := 2123.

Definition GTPv2CauseContextNotFound : Z := 64.

(** The errors a call returns: those the package builds, and those of the
    codec, the socket and the context. *)
Inductive gtpc_error :=
| GTPError (operation : string) (cause : Z) (message : string)
| ECodec (e : gtp_err)
| EClosed
| EDuplicateSequence (seq : Z)
| ESend
| ETypeMismatch (description : string) (seq got want : Z)
| ETimeout (description : string) (seq : Z)
| ECanceled (description : string) (seq : Z)
| EContext
| ENoSession
| ENoControlTEID
| EUnexpectedType (t : Z).

(** [IsContextNotFound]: [errors.As] finds the [GTPError] itself (no caller wraps it). *)
Definition IsContextNotFound (e : gtpc_error) : bool :=
  match e with GTPError _ cause _ => cause =? GTPv2CauseContextNotFound | _ => false end.

Inductive PeerHealth := PeerHealthUnknown | PeerHealthHealthy | PeerHealthUnhealthy.

#[global] Instance PeerHealth_eq_dec : EqDecision PeerHealth.
Proof. solve_decision. Defined.

Record CreateSessionResult := mkResult {
  r_SubscriberIP : IP; r_GatewayIP : IP; r_PGWControlIP : IP; r_PGWUserIP : IP;
  r_GTPCTEID : Z; r_LocalGTPUTEID : Z; r_RemoteGTPUTEID : Z
}.

#[global] Instance CreateSessionResult_eta : Eta CreateSessionResult := fun x =>
  mkResult (r_SubscriberIP x) (r_GatewayIP x) (r_PGWControlIP x) (r_PGWUserIP x) (r_GTPCTEID x)
    (r_LocalGTPUTEID x) (r_RemoteGTPUTEID x).

Record gtpcTransaction := mkTx {
  tx_sequence : Z; tx_requestType : Z; tx_expectedType : Z; tx_description : string;
  tx_response : option gtpv2Message; tx_err : option gtpc_error
}.

#[global] Instance gtpcTransaction_eta : Eta gtpcTransaction := fun x =>
  mkTx (tx_sequence x) (tx_requestType x) (tx_expectedType x) (tx_description x) (tx_response x) (tx_err x).

Record GTPClient := mkClient {
  cl_cfg : GTPConfig; cl_echoCfg : GTPEchoConfig; cl_remote : UDPAddr;
  cl_seq : Z; cl_nextTEID : Z;
  cl_txs : list gtpcTransaction; cl_pending : gmap Z nat; cl_closed : bool;
  cl_peerHealth : PeerHealth; cl_failures : Z;
  cl_lastSuccess : Time; cl_lastFailure : Time; cl_lastLatency : Z;
  cl_watchdogStarted : bool; cl_deleteHandler : bool
}.

#[global] Instance GTPClient_eta : Eta GTPClient := fun x =>
  mkClient (cl_cfg x) (cl_echoCfg x) (cl_remote x) (cl_seq x) (cl_nextTEID x) (cl_txs x)
    (cl_pending x) (cl_closed x) (cl_peerHealth x) (cl_failures x) (cl_lastSuccess x)
    (cl_lastFailure x) (cl_lastLatency x) (cl_watchdogStarted x) (cl_deleteHandler x).

Record PeerHealthStatus := mkHealth {
  h_Health : PeerHealth; h_ConsecutiveFailures : Z; h_LastSuccess : Time; h_LastFailure : Time;
  h_LastLatency : Z
}.

(** * Configuration helpers *)
Definition normalizeEchoConfig (cfg : GTPEchoConfig) : GTPEchoConfig :=
  let i := ec_IntervalSeconds cfg in
  let i := if i =? 0 then MinGTPEchoIntervalSeconds
           else if ((0 <? i) && (i <? MinGTPEchoIntervalSeconds))%bool then MinGTPEchoIntervalSeconds
           else i in
  cfg <| ec_IntervalSeconds := i |> <| ec_TimeoutSeconds ::= or_num 5 |> <| ec_MaxFailures ::= or_num 3 |>.

Definition chargingCharacteristicsValue (value : string) : option Z :=
  if negb (nonempty value) then Some defaultChargingCharacteristics
  else parseChargingCharacteristicsHex value.

(** [NewGTP] up to the socket: the checks and the initial client.  [now] is
    [time.Now().UnixNano()], [rnd] what [rand.Read] gave. *)
Definition NewGTP (cfg : GTPConfig) (echo : GTPEchoConfig) (now : Z) (rnd : option (list Z))
  : option GTPClient :=
  if negb (non_nil (ParseIP (gt_LocalGTPCIP cfg))) then None
  else if negb (non_nil (ParseIP (gt_RemotePGWGTPCIP cfg))) then None
  else match chargingCharacteristicsValue (gt_ChargingCharacteristics cfg) with
  | None => None
  | Some _ =>
    Some (mkClient cfg (normalizeEchoConfig echo)
            (mkAddr (ParseIP (gt_RemotePGWGTPCIP cfg)) gtpControlPort)
            (randomInitialGTPv2Sequence rnd) (wrap 32 now) [] ∅ false PeerHealthUnknown 0
            zeroTime zeroTime 0 false false)
  end.

Definition nextTEIDValue (c : GTPClient) : GTPClient * Z :=
  let t := wrap 32 (cl_nextTEID c + 1) in
  if t =? 0 then let t := wrap 32 (t + 1) in (c <| cl_nextTEID := t |>, t)
  else (c <| cl_nextTEID := t |>, t).

Definition nextSequence (c : GTPClient) : GTPClient * Z :=
  let s := next_sequence (cl_seq c) in (c <| cl_seq := s |>, s).

(** * Transactions *)
Definition registerTransaction (c : GTPClient) (tx : gtpcTransaction) : GTPClient * result nat gtpc_error :=
  if cl_closed c then (c, Err EClosed)
  else match cl_pending c !! tx_sequence tx with
  | Some _ => (c, Err (EDuplicateSequence (tx_sequence tx)))
  | None =>
    let h := length (cl_txs c) in
    (c <| cl_txs ::= fun l => (l ++ [tx])%list |> <| cl_pending ::= <[tx_sequence tx := h]> |>, Ok h)
  end.

Definition unregisterTransaction (c : GTPClient) (sequence : Z) : GTPClient :=
  c <| cl_pending ::= delete sequence |>.

(** A send on a channel of capacity one with a [default] branch. *)
Definition offer {A} (v : A) (ch : option A) : option A :=
  match ch with None => Some v | Some x => Some x end.

(** The loop body touches each pending transaction once, so the order of the
    map iteration does not matter. *)
Definition failPending (c : GTPClient) (err : gtpc_error) : GTPClient :=
  c <| cl_txs := fold_right (fun '(_, h) txs => alter (fun t => t <| tx_err ::= offer err |>) h txs)
                   (cl_txs c) (map_to_list (cl_pending c)) |>
    <| cl_pending := ∅ |>.

Definition Close (c : GTPClient) : GTPClient :=
  if cl_closed c then c else failPending (c <| cl_closed := true |>) EClosed.

(** [doTransaction] up to the [select]: a sequence number, the registration,
    the encoding and the write.  [sent] is whether [WriteToUDP] succeeded.
    The output is the datagram and the handle the goroutine waits on. *)
Definition beginTransaction (c : GTPClient) (req : gtpv2Message) (expectedType : Z)
    (description : string) (sent : bool) : GTPClient * result (nat * list Z) gtpc_error :=
  let '(c, seq) := nextSequence c in
  let req := req <| g_Sequence := seq |> in
  let tx := mkTx seq (g_Type req) expectedType description None None in
  match registerTransaction c tx with
  | (c, Err e) => (c, Err e)
  | (c, Ok h) =>
    match encode req with
    | Err e => (unregisterTransaction c seq, Err (ECodec e))
    | Ok b => if sent then (c, Ok (h, b)) else (unregisterTransaction c seq, Err ESend)
    end
  end.

(** What the [select] of [doTransaction] may choose. *)
Inductive wakeup := WResponse | WError | WDeadline | WCanceled.

(** The [select], then the deferred [unregisterTransaction].  [None] when the
    chosen case is not ready. *)
Definition finishTransaction (c : GTPClient) (h : nat) (w : wakeup)
  : option (GTPClient * result gtpv2Message gtpc_error) :=
  tx ← cl_txs c !! h;
  let c' := unregisterTransaction c (tx_sequence tx) in
  match w with
  | WResponse => m ← tx_response tx; Some (c', Ok m)
  | WError => e ← tx_err tx; Some (c', Err e)
  | WDeadline => Some (c', Err (ETimeout (tx_description tx) (tx_sequence tx)))
  | WCanceled => Some (c', Err (ECanceled (tx_description tx) (tx_sequence tx)))
  end.

(** * Incoming packets *)
Inductive output :=
| OSend (b : list Z) (peer : UDPAddr)
| ONetworkDelete (teid : Z).

Definition echoResponse (msg : gtpv2Message) : gtpv2Message :=
  mkMsg gtpv2EchoResponse 0 false (g_Sequence msg) (ie_encode (recoveryIE 0)).

Definition handleInboundEchoRequest (msg : gtpv2Message) (peer : UDPAddr) : list output :=
  match encode (echoResponse msg) with
  | Err _ => []
  | Ok b => [OSend b peer]
  end.

Definition deleteResponse (msg : gtpv2Message) : gtpv2Message :=
  mkMsg gtpv2DeleteSessionResp (g_TEID msg) true (g_Sequence msg)
    (ie_encode (mkIE ieCause 0 [causeRequestAccepted; 0])).

(** [sent]: whether the write succeeded; a failure suppresses the callback. *)
Definition handleInboundDeleteSessionRequest (c : GTPClient) (msg : gtpv2Message) (peer : UDPAddr)
    (sent : bool) : list output :=
  match encode (deleteResponse msg) with
  | Err _ => []
  | Ok b =>
    if sent then OSend b peer :: (if cl_deleteHandler c then [ONetworkDelete (g_TEID msg)] else [])
    else []
  end.

Definition lookupTransaction (c : GTPClient) (sequence : Z) : option (nat * gtpcTransaction) :=
  h ← cl_pending c !! sequence; t ← cl_txs c !! h; Some (h, t).

Definition handleIncomingGTPv2 (c : GTPClient) (packet : list Z) (peer : UDPAddr) (sent : bool)
  : go (GTPClient * list output) :=
  if (negb (IPEqual (a_IP peer) (a_IP (cl_remote c))) || negb (a_Port peer =? a_Port (cl_remote c)))%bool
  then Some (c, [])
  else
    r ← decodeGTPv2Message packet;
    match r with
    | Err _ => Some (c, [])
    | Ok msg =>
      if g_Type msg =? gtpv2EchoRequest then Some (c, handleInboundEchoRequest msg peer)
      else if g_Type msg =? gtpv2DeleteSessionReq
      then Some (c, handleInboundDeleteSessionRequest c msg peer sent)
      else match lookupTransaction c (g_Sequence msg) with
      | None => Some (c, [])
      | Some (h, tx) =>
        if negb (g_Type msg =? tx_expectedType tx) then
          Some (c <| cl_txs ::= alter (fun t => t <| tx_err ::= offer
                  (ETypeMismatch (tx_description tx) (g_Sequence msg) (g_Type msg) (tx_expectedType tx)) |>) h |>, [])
        else Some (c <| cl_txs ::= alter (fun t => t <| tx_response ::= offer msg |>) h |>, [])
      end
    end.

(** * Peer health *)
Definition PeerHealth_ (c : GTPClient) : PeerHealthStatus :=
  mkHealth (cl_peerHealth c) (cl_failures c) (cl_lastSuccess c) (cl_lastFailure c) (cl_lastLatency c).

Definition recordEchoSuccess (c : GTPClient) (latency : Z) (now : Time) : GTPClient * (PeerHealth * bool) :=
  let previous := cl_peerHealth c in
  (c <| cl_peerHealth := PeerHealthHealthy |> <| cl_failures := 0 |>
     <| cl_lastSuccess := now |> <| cl_lastLatency := latency |>,
   (previous, bool_decide (previous = PeerHealthUnhealthy))).

Definition recordEchoFailure (c : GTPClient) (now : Time) : GTPClient * (Z * bool) :=
  let c := c <| cl_failures ::= fun n => n + 1 |> <| cl_lastFailure := now |> in
  if ((ec_MaxFailures (cl_echoCfg c) <=? cl_failures c)
      && negb (bool_decide (cl_peerHealth c = PeerHealthUnhealthy)))%bool
  then (c <| cl_peerHealth := PeerHealthUnhealthy |>, (cl_failures c, true))
  else (c, (cl_failures c, false)).

Definition echoRequest : gtpv2Message := mkMsg gtpv2EchoRequest 0 false 0 (ie_encode (recoveryIE 0)).

(** The end of [echo]: what the transaction returned, checked. *)
Definition echo_result (r : result gtpv2Message gtpc_error) : result Z gtpc_error :=
  match r with
  | Err e => Err e
  | Ok resp => if g_Type resp =? gtpv2EchoResponse then Ok (g_Sequence resp) else Err (EUnexpectedType (g_Type resp))
  end.

(** [runEchoProbe] and [Probe] after [echo] returned. *)
Definition recordEcho (c : GTPClient) (r : result gtpv2Message gtpc_error) (latency : Z) (now : Time) : GTPClient :=
  match echo_result r with
  | Err _ => fst (recordEchoFailure c now)
  | Ok _ => fst (recordEchoSuccess c latency now)
  end.

(** [StartEchoWatchdog]: whether a goroutine is started. *)
Definition StartEchoWatchdog (c : GTPClient) : GTPClient * bool :=
  if negb (ec_Enabled (cl_echoCfg c)) then (c, false)
  else if cl_watchdogStarted c then (c, false)
  else (c <| cl_watchdogStarted := true |>, true).

Definition SetNetworkDeleteHandler (c : GTPClient) : GTPClient := c <| cl_deleteHandler := true |>.

(** The deferred [Store(false)] of [runEchoWatchdog]. *)
Definition watchdogEnd (c : GTPClient) : GTPClient := c <| cl_watchdogStarted := false |>.

(** * Create Session and Delete Session *)
Definition bearerContextIE (localGTPU : Z) (ip : IP) : gtpv2IE :=
  mkIE ieBearerContext 0 (encodeIEs [uint8IE ieEBI 5; fteidIE 6 ifaceS2aTWANGTPU localGTPU ip; bearerQoSIE 9]).

Definition createSessionIEs (c : GTPClient) (sess : Session) (localGTPC localGTPU : Z) : go (list gtpv2IE) :=
  let localGTPCIP := ParseIP (gt_LocalGTPCIP (cl_cfg c)) in
  let localGTPUIP := ParseIP (gt_LocalGTPUIP (cl_cfg c)) in
  let apn := coalesce [gt_APN (cl_cfg c); s_APN sess] in
  let chargingChars := default defaultChargingCharacteristics
                         (chargingCharacteristicsValue (gt_ChargingCharacteristics (cl_cfg c))) in
  sn ← servingNetworkIE (s_Realm sess);
  Some ([bcdIE ieIMSI (s_IMSI sess); recoveryIE 0; apnIE apn]
        ++ (match sn with Some ie => [ie] | None => [] end)
        ++ [uint8IE ieRATType ratTypeWLAN; fteidIE 0 ifaceS2aTWANGTPC localGTPC localGTPCIP;
            uint8IE ieSelectionMode 0; uint8IE iePDNType pdnTypeIPv4; paaIE IPv4zero;
            uint8IE ieAPNRestriction 0; ambrIE 0 0; chargingCharacteristicsIE 0 chargingChars;
            bearerContextIE localGTPU localGTPUIP]
        ++ (if nonempty (s_MSISDN sess) then [bcdIE ieMSISDN (s_MSISDN sess)] else []))%list.

Definition createSessionPayload (c : GTPClient) (sess : Session) (localGTPC localGTPU : Z) : go (list Z) :=
  ies ← createSessionIEs c sess localGTPC localGTPU; Some (encodeIEs ies).

(** The two loops of [findFTEIDByInterface]. *)
Fixpoint fteid_by_iface (ies : list gtpv2IE) (want : Z) : go (option (Z * Z * IP)) :=
  match ies with
  | [] => Some None
  | ie :: rest =>
    if negb (ie_Type ie =? ieFTEID) then fteid_by_iface rest want
    else
      '(iface, teid, ip, ok) ← parseFTEID ie;
      if (ok && (iface =? want))%bool then Some (Some (iface, teid, ip)) else fteid_by_iface rest want
  end.

Fixpoint fteid_by_instance (ies : list gtpv2IE) (insts : list Z) : go (option (Z * Z * IP)) :=
  match insts with
  | [] => Some None
  | i :: rest =>
    match findIE ies ieFTEID i with
    | None => fteid_by_instance ies rest
    | Some ie =>
      '(iface, teid, ip, ok) ← parseFTEID ie;
      if (ok : bool) then Some (Some (iface, teid, ip)) else fteid_by_instance ies rest
    end
  end.

Definition findFTEIDByInterface (ies : list gtpv2IE) (want : Z) (fallback : list Z) : go (option (Z * Z * IP)) :=
  r ← fteid_by_iface ies want;
  match r with Some x => Some (Some x) | None => fteid_by_instance ies fallback end.

Fixpoint bearer_loop (ies : list gtpv2IE) (result : CreateSessionResult) : go CreateSessionResult :=
  match ies with
  | [] => Some result
  | ie :: rest =>
    if negb (ie_Type ie =? ieBearerContext) then bearer_loop rest result
    else
      r ← decodeIEs (ie_Payload ie);
      match r with
      | Err _ => bearer_loop rest result
      | Ok children =>
        f ← findFTEIDByInterface children ifaceS2aPGWGTPU [5; 2];
        match f with
        | None => bearer_loop rest result
        | Some (_, teid, ip) =>
          let result := result <| r_RemoteGTPUTEID := teid |> in
          bearer_loop rest (if non_nil ip then result <| r_PGWUserIP := ip |> else result)
        end
      end
  end.

(** [fmt.Sprintf("offending_ie_type=%d ...")] *)
Definition offending_message (ci : causeInfo) : string :=
  "offending_ie_type=" +:+ pretty (c_OffendingIEType ci) +:+ " offending_ie_instance="
  +:+ pretty (c_OffendingIEInstance ci) +:+ " offending_ie_length=" +:+ pretty (c_OffendingIELength ci).

Definition parseCreateSessionResponse (c : GTPClient) (resp : gtpv2Message) (localGTPU : Z)
  : go (result (CreateSessionResult * Z) gtpc_error) :=
  r ← decodeIEs (g_Payload resp);
  match r with
  | Err e => Some (Err (ECodec e))
  | Ok ies =>
    ci ← parseCauseInfo ies;
    if negb (c_Cause ci =? causeRequestAccepted) then
      Some (Err (GTPError "GTP-C Create Session" (c_Cause ci)
        (if c_OffendingIEType ci =? 0 then "" else offending_message ci)))
    else
      paa ← parsePAA ies;
      let result := mkResult paa [] (ParseIP (gt_RemotePGWGTPCIP (cl_cfg c)))
                      (ParseIP (gt_RemotePGWGTPUIP (cl_cfg c))) 0 localGTPU 0 in
      f ← findFTEIDByInterface ies ifaceS2aPGWGTPC [1; 0];
      let result :=
        match f with
        | None => result
        | Some (_, teid, ip) =>
          let result := result <| r_GTPCTEID := teid |> in
          if non_nil ip then result <| r_PGWControlIP := ip |> else result
        end in
      result ← bearer_loop ies result;
      Some (Ok (result, c_Cause ci))
  end.

(** [CreateSession] before the transaction: the TEIDs and the request. *)
Definition createSessionRequest (c : GTPClient) (sess : Session) : go (GTPClient * (gtpv2Message * Z)) :=
  let '(c, localGTPC) := nextTEIDValue c in
  let '(c, localGTPU) := nextTEIDValue c in
  p ← createSessionPayload c sess localGTPC localGTPU;
  Some (c, (mkMsg gtpv2CreateSessionReq 0 true 0 p, localGTPU)).

(** ... and after it: what the transaction returned, checked and parsed. *)
Definition createSessionFinish (c : GTPClient) (localGTPU : Z) (r : result gtpv2Message gtpc_error)
  : go (result CreateSessionResult gtpc_error) :=
  match r with
  | Err e => Some (Err e)
  | Ok resp =>
    if negb (g_Type resp =? gtpv2CreateSessionResp) then Some (Err (EUnexpectedType (g_Type resp)))
    else
      p ← parseCreateSessionResponse c resp localGTPU;
      Some (match p with Ok (result, _) => Ok result | Err e => Err e end)
  end.

Definition deleteSessionRequest (sess : Session) : result gtpv2Message gtpc_error :=
  if s_GTPCTEID sess =? 0 then Err ENoControlTEID
  else Ok (mkMsg gtpv2DeleteSessionReq (s_GTPCTEID sess) true 0 (ie_encode (uint8IE ieEBI 5))).

Definition deleteSessionFinish (r : result gtpv2Message gtpc_error) : go (option gtpc_error) :=
  match r with
  | Err e => Some (Some e)
  | Ok resp =>
    if negb (g_Type resp =? gtpv2DeleteSessionResp) then Some (Some (EUnexpectedType (g_Type resp)))
    else
      d ← decodeIEs (g_Payload resp);
      match d with
      | Err e => Some (Some (ECodec e))
      | Ok ies =>
        cause ← parseCause ies;
        if negb (cause =? causeRequestAccepted)
        then Some (Some (GTPError "GTP-C Delete Session" cause "")) else Some None
      end
  end.

(** * Reachable clients *)
Inductive cstep : GTPClient -> GTPClient -> Prop :=
| cs_begin c req t d sent : cstep c (fst (beginTransaction c req t d sent))
| cs_finish c h w c' r : finishTransaction c h w = Some (c', r) -> cstep c c'
| cs_incoming c packet peer sent c' out :
    handleIncomingGTPv2 c packet peer sent = Some (c', out) -> cstep c c'
| cs_close c : cstep c (Close c)
| cs_echo c r lat now : cstep c (recordEcho c r lat now)
| cs_teid c : cstep c (fst (nextTEIDValue c))
| cs_watchdog c : cstep c (fst (StartEchoWatchdog c))
| cs_watchdog_end c : cstep c (watchdogEnd c)
| cs_handler c : cstep c (SetNetworkDeleteHandler c).

Inductive creachable : GTPClient -> Prop :=
| cr_new cfg echo now rnd c : NewGTP cfg echo now rnd = Some c -> creachable c
| cr_step c c' : creachable c -> cstep c c' -> creachable c'.

(** The map leads from a sequence number to the transaction that has it, and
    a delivered response answers its transaction. *)
Definition tx_ok (t : gtpcTransaction) : Prop :=
  forall m, tx_response t = Some m -> g_Sequence m = tx_sequence t /\ g_Type m = tx_expectedType t.

Definition client_ok (c : GTPClient) : Prop :=
  (forall seq h, cl_pending c !! seq = Some h ->
     exists t, cl_txs c !! h = Some t /\ tx_sequence t = seq) /\
  Forall tx_ok (cl_txs c).

(** * Lemmas *)
Lemma register_ok c tx :
  client_ok c -> tx_ok tx -> client_ok (fst (registerTransaction c tx)).
Proof.
  intros [H1 H2] Ht. unfold registerTransaction. destruct (cl_closed c); [done|].
  destruct (cl_pending c !! _) eqn:E; [done|]. split; cbn.
  - intros seq h. rewrite lookup_insert. case_decide as Hs.
    + intros [= <-]. exists tx. split; [by rewrite list_lookup_middle|done].
    + intros Hp. destruct (H1 seq h Hp) as (t & Hl & Hseq). exists t.
      split; [by apply lookup_app_l_Some|done].
  - apply Forall_app. split; [done|by constructor].
Qed.

Lemma unregister_ok c seq : client_ok c -> client_ok (unregisterTransaction c seq).
Proof.
  intros [H1 H2]. split; [|done]. intros s h. cbn. rewrite lookup_delete_Some. intros [_ Hp]. eauto.
Qed.

Lemma alter_txs_ok c h f :
  client_ok c ->
  (forall t, cl_txs c !! h = Some t -> tx_sequence (f t) = tx_sequence t /\ (tx_ok t -> tx_ok (f t))) ->
  client_ok (c <| cl_txs ::= alter f h |>).
Proof.
  intros [H1 H2] Hf. split; cbn.
  - intros seq i Hp. destruct (H1 seq i Hp) as (t & Hl & Hs). destruct (decide (i = h)) as [->|Hne].
    + exists (f t). rewrite list_lookup_alter_eq, Hl. split; [done|]. by destruct (Hf t Hl) as [-> _].
    + exists t. by rewrite list_lookup_alter_ne.
  - rewrite Forall_lookup in H2 |- *. intros i t Hi. destruct (decide (i = h)) as [->|Hne].
    + rewrite list_lookup_alter_eq in Hi. apply fmap_Some in Hi as (t0 & Hl & ->).
      apply (Hf t0 Hl). by apply (H2 h).
    + rewrite list_lookup_alter_ne in Hi by done. by apply (H2 i).
Qed.

Lemma failPending_ok c e : client_ok c -> client_ok (failPending c e).
Proof.
  intros [_ H2]. split; cbn; [intros s h; by rewrite lookup_empty|].
  induction (map_to_list (cl_pending c)) as [|[s h] l IH]; cbn; [done|].
  rewrite Forall_lookup in IH |- *. intros i t Hi. destruct (decide (i = h)) as [->|Hne].
  - rewrite list_lookup_alter_eq in Hi. apply fmap_Some in Hi as (t0 & Hl & ->).
    exact (IH h t0 Hl).
  - rewrite list_lookup_alter_ne in Hi by done. by apply (IH i).
Qed.

Lemma lookupTransaction_Some c seq h t :
  client_ok c -> lookupTransaction c seq = Some (h, t) ->
  cl_pending c !! seq = Some h /\ cl_txs c !! h = Some t /\ tx_sequence t = seq.
Proof.
  intros [H1 _]. unfold lookupTransaction. destruct (cl_pending c !! seq) as [h'|] eqn:Hp; [|done].
  cbn. destruct (H1 seq h' Hp) as (t' & Hl & Hs). rewrite Hl. cbn. by intros [= <- <-].
Qed.

Lemma incoming_ok c packet peer sent c' out :
  client_ok c -> handleIncomingGTPv2 c packet peer sent = Some (c', out) -> client_ok c'.
Proof.
  intros Hc. unfold handleIncomingGTPv2. destruct (_ || _)%bool; [by intros [= <- _]|].
  destruct (decodeGTPv2Message packet) as [[msg|e]|]; cbn [mbind option_bind]; [|by intros [= <- _]|done].
  destruct (g_Type msg =? gtpv2EchoRequest); [by intros [= <- _]|].
  destruct (g_Type msg =? gtpv2DeleteSessionReq); [by intros [= <- _]|].
  destruct (lookupTransaction c (g_Sequence msg)) as [[h t]|] eqn:El; [|by intros [= <- _]].
  destruct (lookupTransaction_Some c _ h t Hc El) as (Hp & Hl & Hs).
  destruct (g_Type msg =? tx_expectedType t) eqn:Et; cbn [negb]; bools; intros [= <- _].
  - apply alter_txs_ok; [done|]. intros t' Hl'. rewrite Hl in Hl'. injection Hl' as <-. split; [done|].
    intros Hok m. cbn. destruct (tx_response t) as [m0|] eqn:Er; cbn.
    + intros [= <-]. by apply Hok.
    + by intros [= <-].
  - apply alter_txs_ok; [done|]. intros t' _. by split.
Qed.

Lemma begin_ok c req t d sent : client_ok c -> client_ok (fst (beginTransaction c req t d sent)).
Proof.
  intros Hc. unfold beginTransaction. cbn [nextSequence]. set (c1 := c <| cl_seq := _ |>).
  set (tx := mkTx _ _ _ _ _ _). assert (Hr : client_ok (fst (registerTransaction c1 tx)))
    by (apply register_ok; [exact Hc|done]).
  destruct (registerTransaction c1 tx) as [c2 [h|e]]; cbn in Hr; [|done].
  destruct (encode _) as [b|e]; cbn; [destruct sent; [done|]|]; by apply unregister_ok.
Qed.

Lemma creachable_ok c : creachable c -> client_ok c.
Proof.
  induction 1 as [cfg echo now rnd c H|c c' _ Hc Hs].
  - revert H. unfold NewGTP. repeat (case_match; [done|]). case_match; [|done]. intros [= <-].
    split; [|by constructor]. intros s h. cbn. by rewrite lookup_empty.
  - destruct Hs as [c req t d sent|c h w c' r H|c p peer sent c' out H|c|c r lat now|c|c|c|c].
    + by apply begin_ok.
    + revert H. unfold finishTransaction. destruct (cl_txs c !! h) as [tx|]; [|done]. cbn.
      destruct w; cbn; [destruct (tx_response tx)|destruct (tx_err tx)|..]; cbn; try done;
        intros [= <- _]; by apply unregister_ok.
    + by eapply incoming_ok.
    + unfold Close. destruct (cl_closed c); [done|]. by apply failPending_ok.
    + unfold recordEcho. destruct (echo_result r); [done|]. unfold recordEchoFailure. by case_match.
    + unfold nextTEIDValue. by case_match.
    + unfold StartEchoWatchdog. by repeat case_match.
    + done.
    + done.
Qed.

Lemma findFTEID_total ies want insts : exists r, findFTEIDByInterface ies want insts = Some r.
Proof.
  assert (H1 : exists r, fteid_by_iface ies want = Some r).
  { induction ies as [|ie ies IH]; cbn; [by eexists|]. destruct (negb _); [done|].
    destruct (parseFTEID_total ie) as ([[[i t] ip] ok] & ->). cbn. destruct (_ && _)%bool; [by eexists|done]. }
  assert (H2 : exists r, fteid_by_instance ies insts = Some r).
  { induction insts as [|i insts IH]; cbn; [by eexists|]. destruct (findIE _ _ _) as [ie|]; [|done].
    destruct (parseFTEID_total ie) as ([[[a t] ip] ok] & ->). cbn. destruct ok; [by eexists|done]. }
  unfold findFTEIDByInterface. destruct H1 as [[r|] ->]; cbn; [by eexists|done].
Qed.

Lemma decodeIEs_loop_bytes fuel p acc ies :
  bytes_ok p -> Forall (fun ie => bytes_ok (ie_Payload ie)) acc ->
  decodeIEs_loop fuel p acc = Some (Ok ies) -> Forall (fun ie => bytes_ok (ie_Payload ie)) ies.
Proof.
  revert p acc. induction fuel as [|fuel IH]; intros p acc Hp Ha.
  { destruct p; cbn; [by intros [= <-]|done]. }
  destruct p as [|x p']; [cbn; by intros [= <-]|]. set (p := x :: p') in *. cbn [decodeIEs_loop].
  change (match p with [] => Some (Ok acc) | _ :: _ => ?e end) with e.
  destruct (length p <? 4)%nat eqn:E1; [done|]. apply Nat.ltb_ge in E1.
  rewrite (go_slice_Some p 1 3), (go_idx_Some p 0), (go_idx_Some p 3) by lia. cbn [mbind option_bind].
  set (l := be_dec (take (3 - 1) (drop 1 p))).
  assert (Hl : 0 <= l) by (apply be_dec_bound; auto with bytes).
  destruct (Z.of_nat (length p) <? 4 + l) eqn:E2; [done|]. bools.
  rewrite (go_slice_Some p 4 (4 + Z.to_nat l)), (go_from_Some p (4 + Z.to_nat l)) by lia.
  cbn [mbind option_bind]. apply IH; [by apply bytes_ok_drop|].
  apply Forall_app. split; [done|]. constructor; [|done]. by apply bytes_ok_take, bytes_ok_drop.
Qed.

Lemma bearer_loop_total ies result :
  Forall (fun ie => bytes_ok (ie_Payload ie)) ies -> exists r, bearer_loop ies result = Some r.
Proof.
  intros H. revert result. induction H as [|ie ies Hie _ IH]; intros result; cbn; [by eexists|].
  destruct (negb _); [done|]. destruct (decodeIEs_loop_total (length (ie_Payload ie)) (ie_Payload ie) [] Hie) as [r Hr];
    [lia|]. fold (decodeIEs (ie_Payload ie)) in Hr. rewrite Hr. cbn. destruct r as [children|e]; [|done].
  destruct (findFTEID_total children ifaceS2aPGWGTPU [5; 2]) as [[[[i t] ip]|] ->]; cbn; done.
Qed.

Lemma parse_response_total c resp u :
  bytes_ok (g_Payload resp) -> exists r, parseCreateSessionResponse c resp u = Some r.
Proof.
  intros Hp. unfold parseCreateSessionResponse.
  destruct (decodeIEs_loop_total (length (g_Payload resp)) (g_Payload resp) [] Hp) as [r Hr]; [lia|].
  fold (decodeIEs (g_Payload resp)) in Hr. rewrite Hr. cbn [mbind option_bind].
  destruct r as [ies|e]; [|by eexists].
  destruct (parseCauseInfo_total ies) as [ci ->]. cbn [mbind option_bind]. destruct (negb _); [by eexists|].
  destruct (parsePAA_total ies) as [paa ->]. cbn [mbind option_bind].
  destruct (findFTEID_total ies ifaceS2aPGWGTPC [1; 0]) as [f ->]. cbn [mbind option_bind].
  match goal with |- context [bearer_loop ies ?r0] => destruct (bearer_loop_total ies r0) as [r2 Hr2] end.
  { unfold decodeIEs in Hr. by eapply (decodeIEs_loop_bytes _ (g_Payload resp) []). }
  rewrite Hr2. by eexists.
Qed.

Definition v4_ok (a b c d : Z) : Prop := byte_ok a /\ byte_ok b /\ byte_ok c /\ byte_ok d.

Lemma mk_ie_ok t i p :
  byte_ok t -> 0 <= i < 16 -> bytes_ok p -> Z.of_nat (length p) <= 65535 -> ie_ok (mkIE t i p).
Proof. intros Ht Hi Hp Hl. exact (conj Ht (conj Hi (conj Hp Hl))). Qed.

Lemma small_ie_ok t p :
  byte_ok t -> bytes_ok p -> Z.of_nat (length p) <= 65535 -> ie_ok (mkIE t 0 p).
Proof. intros Ht Hp Hl. apply mk_ie_ok; [done|lia|done|done]. Qed.

Lemma bytes_ok_4 a b c d : v4_ok a b c d -> bytes_ok [a; b; c; d].
Proof. intros (Ha & Hb & Hc & Hd). exact (Forall_cons_2 _ _ _ Ha (Forall_cons_2 _ _ _ Hb (Forall_cons_2 _ _ _ Hc (Forall_cons_2 _ _ _ Hd (Forall_nil_2 _))))). Qed.

Lemma bytes_ok_1 a : byte_ok a -> bytes_ok [a].
Proof. intros Ha. by apply Forall_singleton. Qed.

Lemma fteid_ie_ok inst iface teid a b c d :
  0 <= inst < 16 -> 0 <= iface <= 0x3f -> v4_ok a b c d -> ie_ok (fteidIE inst iface teid (IPv4 a b c d)).
Proof.
  intros Hn Hi Hv. destruct (land_byte_or iface Hi) as (_ & _ & H3).
  unfold fteidIE. rewrite (proj2 (Z.ltb_ge _ _)) by lia. rewrite To4_IPv4.
  apply mk_ie_ok; [by unfold byte_ok|done| |cbn; lia].
  apply bytes_ok_app. split; [by apply bytes_ok_1|].
  apply bytes_ok_app. split; [apply be_bytes_ok|by apply bytes_ok_4].
Qed.

Lemma paa_ie_ok a b c d : v4_ok a b c d -> ie_ok (paaIE (IPv4 a b c d)).
Proof.
  intros Hv. unfold paaIE. rewrite To4_IPv4.
  apply small_ie_ok; [by unfold byte_ok| |cbn; lia].
  apply bytes_ok_app. split; [by apply bytes_ok_1|by apply bytes_ok_4].
Qed.

Lemma bytes_ok_encodeIEs ies : Forall ie_ok ies -> bytes_ok (encodeIEs ies).
Proof.
  induction 1 as [|ie ies Hie _ IH]; [constructor|]. change (encodeIEs (ie :: ies)) with (ie_encode ie ++ encodeIEs ies)%list.
  apply bytes_ok_app. split; [|done]. rewrite (ie_encode_eq ie Hie). destruct Hie as (H1 & H2 & H3 & _).
  repeat (apply bytes_ok_app; split); auto using be_bytes_ok.
  - by apply bytes_ok_1.
  - apply bytes_ok_1. unfold byte_ok; lia.
Qed.

(** ** Searching F-TEIDs *)
Lemma fteid_found pre inst iface teid a b c d rest insts :
  Forall (fun ie => ie_Type ie <> ieFTEID) pre -> 0 <= iface <= 0x3f -> u_ok 32 teid ->
  findFTEIDByInterface (pre ++ fteidIE inst iface teid (IPv4 a b c d) :: rest)%list iface insts
    = Some (Some (iface, teid, IPv4 a b c d)).
Proof.
  intros Hpre Hi Ht. unfold findFTEIDByInterface.
  assert (H : fteid_by_iface (pre ++ fteidIE inst iface teid (IPv4 a b c d) :: rest)%list iface
              = Some (Some (iface, teid, IPv4 a b c d))).
  { induction Hpre as [|ie pre Hie _ IH]; cbn [app fteid_by_iface].
    - replace (ie_Type _ =? ieFTEID) with true by (unfold fteidIE; by case_match).
      cbn [negb]. rewrite parseFTEID_fteidIE by done. cbn [mbind option_bind andb].
      by rewrite Z.eqb_refl.
    - by rewrite (proj2 (Z.eqb_neq _ _) Hie). }
  by rewrite H.
Qed.

Lemma bearer_skip ie ies r : ie_Type ie <> ieBearerContext -> bearer_loop (ie :: ies) r = bearer_loop ies r.
Proof. intros H. cbn [bearer_loop]. by rewrite (proj2 (Z.eqb_neq _ _) H). Qed.

(** A bearer context whose children are well formed. *)
Lemma bearer_hit children r teid ip iface :
  Forall ie_ok children ->
  findFTEIDByInterface children ifaceS2aPGWGTPU [5; 2] = Some (Some (iface, teid, ip)) -> ip <> [] ->
  bearer_loop [mkIE ieBearerContext 0 (encodeIEs children)] r =
    Some (r <| r_RemoteGTPUTEID := teid |> <| r_PGWUserIP := ip |>).
Proof.
  intros Hok Hf Hip. cbn [bearer_loop ie_Type ie_Payload]. rewrite Z.eqb_refl. cbn [negb].
  rewrite decodeIEs_encodeIEs by done. cbn [mbind option_bind]. rewrite Hf. cbn [mbind option_bind].
  by rewrite (proj2 (non_nil_spec ip) Hip).
Qed.

(** ** Health *)
Fixpoint failures (c : GTPClient) (times : list Time) : GTPClient :=
  match times with
  | [] => c
  | t :: rest => failures (fst (recordEchoFailure c t)) rest
  end.

Lemma failure_step c t :
  cl_failures (fst (recordEchoFailure c t)) = cl_failures c + 1 /\
  cl_echoCfg (fst (recordEchoFailure c t)) = cl_echoCfg c /\
  (cl_peerHealth (fst (recordEchoFailure c t)) = PeerHealthUnhealthy <->
   cl_peerHealth c = PeerHealthUnhealthy \/ ec_MaxFailures (cl_echoCfg c) <= cl_failures c + 1).
Proof.
  unfold recordEchoFailure. cbn -[Z.add].
  destruct (_ <=? _) eqn:E1; cbn [andb]; [|bools].
  - destruct (bool_decide _) eqn:E2; cbn; split_and!; try done.
    + apply bool_decide_eq_true in E2. split; [by left|done].
    + bools. split; [by right|done].
  - cbn. split_and!; [done|done|]. split; [by left|]. intros [?|?]; [done|lia].
Qed.

Lemma failures_spec c times :
  cl_failures (failures c times) = cl_failures c + Z.of_nat (length times) /\
  (cl_peerHealth (failures c times) = PeerHealthUnhealthy <->
   cl_peerHealth c = PeerHealthUnhealthy \/
   (times <> [] /\ ec_MaxFailures (cl_echoCfg c) <= cl_failures c + Z.of_nat (length times))).
Proof.
  revert c. induction times as [|t times IH]; intros c; cbn [failures length].
  - split; [lia|]. split; [by left|]. by intros [?|[]].
  - destruct (failure_step c t) as (F1 & F2 & F3). destruct (IH (fst (recordEchoFailure c t))) as [I1 I2].
    rewrite I1, I2, F1, F2, F3. split; [lia|]. split.
    + intros [[?|?]|[? ?]]; [by left|right; split; [done|lia]..].
    + intros [?|[_ ?]]; [tauto|]. destruct times; [left; right; cbn in *; lia|].
      right. split; [done|lia].
Qed.

(** * Properties *)

(** In every reachable client, the response a waiting goroutine picks up
    carries the sequence number of its own transaction and the message type it
    expects, and the transaction is then no longer pending. *)
Theorem response_matches c h c' m :
  creachable c -> finishTransaction c h WResponse = Some (c', Ok m) ->
  exists t, cl_txs c !! h = Some t /\ g_Sequence m = tx_sequence t /\
    g_Type m = tx_expectedType t /\ cl_pending c' !! tx_sequence t = None.
Proof.
  intros [_ H2]%creachable_ok. unfold finishTransaction. destruct (cl_txs c !! h) as [t|] eqn:Hl; [|done].
  cbn. destruct (tx_response t) as [m'|] eqn:Er; [|done]. cbn. intros [= <- <-]. exists t.
  rewrite Forall_lookup in H2. destruct (H2 h t Hl m' Er). split_and!; try done. cbn. apply lookup_delete_eq.
Qed.

Definition demo_cfg : GTPConfig := zeroGTPConfig
  <| gt_LocalGTPCIP := "192.0.2.1" |> <| gt_LocalGTPUIP := "192.0.2.2" |>
  <| gt_RemotePGWGTPCIP := "192.0.2.9" |> <| gt_RemotePGWGTPUIP := "192.0.2.10" |>
  <| gt_APN := "internet" |>.

Definition demo_client : GTPClient :=
  default (mkClient demo_cfg zeroGTPEchoConfig (mkAddr [] 0) 0 0 [] ∅ false PeerHealthUnknown 0 0 0 0 false false)
    (NewGTP demo_cfg zeroGTPEchoConfig 1000 (Some [0; 0; 0; 7])).

Lemma demo_client_reachable : creachable demo_client.
Proof. by apply (cr_new demo_cfg zeroGTPEchoConfig 1000 (Some [0; 0; 0; 7])). Qed.

Definition demo_peer : UDPAddr := mkAddr (IPv4 192 0 2 9) 2123.

(** A client that sent an echo request and received its response. *)
Definition demo_sent : GTPClient := fst (beginTransaction demo_client echoRequest gtpv2EchoResponse "Echo" true).

Definition demo_reply : list Z := [0x40; 2; 0; 9; 0; 0; 8; 0; 3; 0; 1; 0; 0].

Definition demo_answered : GTPClient :=
  match handleIncomingGTPv2 demo_sent demo_reply demo_peer true with Some (c, _) => c | None => demo_sent end.

Lemma demo_answered_reachable : creachable demo_answered.
Proof.
  apply (cr_step demo_sent).
  - apply (cr_step demo_client); [apply demo_client_reachable|apply cs_begin].
  - apply (cs_incoming demo_sent demo_reply demo_peer true _ []). by vm_compute.
Qed.

Lemma response_matches_witness :
  exists c' m t, finishTransaction demo_answered 0 WResponse = Some (c', Ok m) /\
    cl_txs demo_answered !! 0%nat = Some t /\ g_Sequence m = tx_sequence t /\
    g_Type m = tx_expectedType t /\ cl_pending c' !! tx_sequence t = None.
Proof.
  destruct (finishTransaction demo_answered 0 WResponse) as [[c' [m|e]]|] eqn:E.
  - destruct (response_matches demo_answered 0 c' m demo_answered_reachable E) as (t & H).
    exists c', m, t. split; [reflexivity|exact H].
  - exfalso. vm_compute in E. discriminate E.
  - exfalso. vm_compute in E. discriminate E.
Defined.

(** [handleIncomingGTPv2] handles every datagram without indexing out of
    range; a datagram from any address or port but the configured PGW's is
    ignored, and one whose sequence number is not that of a transaction leaves
    the transaction as it was. *)
Theorem incoming_isolated c packet peer sent :
  exists c' out, handleIncomingGTPv2 c packet peer sent = Some (c', out) /\
    (IPEqual (a_IP peer) (a_IP (cl_remote c)) = false \/ a_Port peer <> a_Port (cl_remote c) ->
     c' = c /\ out = []) /\
    (client_ok c -> forall h t m, cl_txs c !! h = Some t -> decodeGTPv2Message packet = Some (Ok m) ->
       g_Sequence m <> tx_sequence t -> cl_txs c' !! h = Some t).
Proof.
  unfold handleIncomingGTPv2. destruct (_ || _)%bool eqn:Ep.
  { exists c, []. by split_and!. }
  destruct (decode_cases packet) as (r & Hr & _). rewrite Hr. cbn [mbind option_bind].
  assert (Hx : forall A : Prop, IPEqual (a_IP peer) (a_IP (cl_remote c)) = false \/
                         a_Port peer <> a_Port (cl_remote c) -> A).
  { bools. intros A [E|E]; congruence. }
  destruct r as [msg|e]; [|exists c, []; split_and!; [done|by eauto|done]].
  destruct (g_Type msg =? gtpv2EchoRequest); [eexists _, _; split_and!; [done|apply Hx|done]|].
  destruct (g_Type msg =? gtpv2DeleteSessionReq); [eexists _, _; split_and!; [done|apply Hx|done]|].
  destruct (lookupTransaction c (g_Sequence msg)) as [[h0 t0]|] eqn:El;
    [|eexists _, _; split_and!; [done|apply Hx|done]].
  destruct (g_Type msg =? tx_expectedType t0); cbn [negb]; eexists _, _; (split_and!; [done|apply Hx|]).
  all: intros Hok h t m Hl [= <-] Hne; destruct (lookupTransaction_Some c _ h0 t0 Hok El) as (_ & Hl0 & Hs0).
  all: cbn; rewrite list_lookup_alter_ne; [done|intros ->; congruence].
Qed.

(** An Echo Request from the PGW is answered with exactly one datagram to
    the same peer, which decodes to an Echo Response with the same sequence
    number - provided the sequence number lies in [1..0x7fffff]; with any
    other legal 24-bit number the request gets no answer. *)
Theorem echo_request_answered c packet peer sent m :
  IPEqual (a_IP peer) (a_IP (cl_remote c)) = true -> a_Port peer = a_Port (cl_remote c) ->
  decodeGTPv2Message packet = Some (Ok m) -> g_Type m = gtpv2EchoRequest ->
  if (minGTPv2Sequence <=? g_Sequence m) && (g_Sequence m <=? maxGTPv2Sequence) then
    exists b, handleIncomingGTPv2 c packet peer sent = Some (c, [OSend b peer]) /\
      decodeGTPv2Message b = Some (Ok (mkMsg gtpv2EchoResponse 0 false (g_Sequence m) (ie_encode (recoveryIE 0))))
  else handleIncomingGTPv2 c packet peer sent = Some (c, []).
Proof.
  intros H1 H2 Hd Ht. unfold handleIncomingGTPv2. rewrite H1, H2, Z.eqb_refl. cbn [negb orb].
  rewrite Hd. cbn [mbind option_bind]. rewrite Ht. cbn [Z.eqb gtpv2EchoRequest Pos.eqb].
  unfold handleInboundEchoRequest.
  destruct (_ && _) eqn:E; bools.
  - destruct (encode (echoResponse m)) as [b|e] eqn:Eb.
    + exists b. split; [done|]. apply decode_encode in Eb; [exact Eb|by split].
    + exfalso. assert (Hx : encode (echoResponse m) = Ok ([0x40; 2] ++ be 2 (4 + 5) ++ [] ++ be 3 (g_Sequence m) ++ [0] ++ ie_encode (recoveryIE 0))%list).
      { apply encode_Ok. split; [by split|]. split; [cbn; lia|done]. }
      congruence.
  - destruct (encode (echoResponse m)) as [b|e] eqn:Eb; [|done].
    apply encode_Ok in Eb as (Hs & _). cbn in Hs. apply andb_false_iff in E. destruct E; bools; lia.
Qed.

Definition demo_echo (s2 s1 s0 : Z) : list Z := [0x40; 1; 0; 9; s2; s1; s0; 0; 3; 0; 1; 0; 0].

Lemma echo_request_answered_witness :
  (exists b, handleIncomingGTPv2 demo_client (demo_echo 0 1 2) demo_peer true = Some (demo_client, [OSend b demo_peer]) /\
     decodeGTPv2Message b = Some (Ok (mkMsg gtpv2EchoResponse 0 false 258 (ie_encode (recoveryIE 0))))) /\
  handleIncomingGTPv2 demo_client (demo_echo 0x80 0 0) demo_peer true = Some (demo_client, []).
Proof.
  split.
  - exact (echo_request_answered demo_client (demo_echo 0 1 2) demo_peer true
      (mkMsg 1 0 false 258 (ie_encode (recoveryIE 0))) eq_refl eq_refl eq_refl eq_refl).
  - exact (echo_request_answered demo_client (demo_echo 0x80 0 0) demo_peer true
      (mkMsg 1 0 false 0x800000 (ie_encode (recoveryIE 0))) eq_refl eq_refl eq_refl eq_refl).
Defined.

(** The peer becomes unhealthy exactly when [max_failures] consecutive
    echoes have failed (counted since the last success), stays so under
    further failures, and one success makes it healthy with a zero count. *)
Theorem echo_health_machine c lat now times :
  cl_failures c = 0 -> cl_peerHealth c <> PeerHealthUnhealthy ->
  (cl_peerHealth (failures c times) = PeerHealthUnhealthy <->
   times <> [] /\ ec_MaxFailures (cl_echoCfg c) <= Z.of_nat (length times)) /\
  cl_failures (failures c times) = Z.of_nat (length times) /\
  let c' := fst (recordEchoSuccess (failures c times) lat now) in
  cl_peerHealth c' = PeerHealthHealthy /\ cl_failures c' = 0.
Proof.
  intros Hf Hh. destruct (failures_spec c times) as [H1 H2]. rewrite H1, H2, Hf.
  rewrite Z.add_0_l. split; [tauto|]. split; [lia|done].
Qed.

Lemma echo_health_machine_witness :
  cl_peerHealth (failures demo_client [10; 20; 30]) = PeerHealthUnhealthy.
Proof.
  apply (echo_health_machine demo_client 0 0 [10; 20; 30]); [reflexivity|discriminate|].
  split; [discriminate|]. vm_compute. discriminate.
Defined.

(** What a PGW answers to a Create Session Request. *)
Definition pgw_reply (cause : Z) (paa ctl usr : IP) (cteid uteid : Z) : list Z :=
  encodeIEs [mkIE ieCause 0 [cause; 0]; paaIE paa; fteidIE 1 ifaceS2aPGWGTPC cteid ctl;
             mkIE ieBearerContext 0 (encodeIEs [uint8IE ieEBI 5; mkIE ieCause 0 [cause; 0];
                                                fteidIE 5 ifaceS2aPGWGTPU uteid usr])].

(** The client reads back what the PGW put into its reply: the subscriber
    address from the PAA, the control TEID and address from the S2a PGW GTP-C
    F-TEID, the user TEID and address from the bearer context; a reply with
    any cause but 16 is a [GTPError] with that cause and yields no session. *)
Theorem create_response_parsed c m u cause a1 a2 a3 a4 c1 c2 c3 c4 u1 u2 u3 u4 cteid uteid :
  byte_ok cause -> v4_ok a1 a2 a3 a4 -> v4_ok c1 c2 c3 c4 -> v4_ok u1 u2 u3 u4 ->
  u_ok 32 cteid -> u_ok 32 uteid ->
  g_Payload m = pgw_reply cause (IPv4 a1 a2 a3 a4) (IPv4 c1 c2 c3 c4) (IPv4 u1 u2 u3 u4) cteid uteid ->
  parseCreateSessionResponse c m u =
    Some (if cause =? causeRequestAccepted
          then Ok (mkResult (IPv4 a1 a2 a3 a4) [] (IPv4 c1 c2 c3 c4) (IPv4 u1 u2 u3 u4) cteid u uteid, cause)
          else Err (GTPError "GTP-C Create Session" cause "")).
Proof.
  intros Hc Ha Hcl Hu Hct Hut Hp. unfold parseCreateSessionResponse. rewrite Hp. unfold pgw_reply.
  assert (Hcause : ie_ok (mkIE ieCause 0 [cause; 0])).
  { apply small_ie_ok; [by unfold byte_ok| |cbn; lia]. by apply bytes_ok_cons; split; [|apply bytes_ok_1]. }
  assert (Hch : Forall ie_ok [uint8IE ieEBI 5; mkIE ieCause 0 [cause; 0]; fteidIE 5 ifaceS2aPGWGTPU uteid (IPv4 u1 u2 u3 u4)]).
  { constructor; [|constructor; [done|constructor; [by apply fteid_ie_ok|constructor]]].
    apply small_ie_ok; [done|by apply bytes_ok_1|cbn; lia]. }
  rewrite decodeIEs_encodeIEs.
  2: { constructor; [done|]. constructor; [by apply paa_ie_ok|]. constructor; [by apply fteid_ie_ok|].
       constructor; [|constructor]. apply small_ie_ok; [by unfold byte_ok|by apply bytes_ok_encodeIEs|by vm_compute]. }
  cbn [mbind option_bind].
  replace (parseCauseInfo _) with (Some (mkCause cause 0 0 0)) by done. cbn [mbind option_bind c_Cause c_OffendingIEType].
  destruct (cause =? causeRequestAccepted) eqn:E; cbn [negb]; [|done].
  replace (parsePAA _) with (Some (IPv4 a1 a2 a3 a4))
    by (symmetry; by apply (parsePAA_paaIE [_])).
  cbn [mbind option_bind].
  replace (findFTEIDByInterface _ _ _) with (Some (Some (ifaceS2aPGWGTPC, cteid, IPv4 c1 c2 c3 c4)))
    by (symmetry; apply (fteid_found [_; _]); [by repeat constructor|done|done]).
  cbn [mbind option_bind].
  replace (non_nil (IPv4 c1 c2 c3 c4)) with true by done. cbv zeta.
  rewrite !bearer_skip by (done || by unfold fteidIE).
  rewrite (bearer_hit _ _ uteid (IPv4 u1 u2 u3 u4) ifaceS2aPGWGTPU); [done|done| |done].
  apply (fteid_found [_; _]); [by repeat constructor|done|done].
Qed.

Lemma create_response_parsed_witness :
  parseCreateSessionResponse demo_client
    (mkMsg gtpv2CreateSessionResp 1 true 8 (pgw_reply 16 (IPv4 10 45 0 2) (IPv4 192 0 2 9) (IPv4 192 0 2 10) 77 99)) 5
  = Some (Ok (mkResult (IPv4 10 45 0 2) [] (IPv4 192 0 2 9) (IPv4 192 0 2 10) 77 5 99, 16)).
Proof.
  apply (create_response_parsed demo_client
    (mkMsg gtpv2CreateSessionResp 1 true 8 (pgw_reply 16 (IPv4 10 45 0 2) (IPv4 192 0 2 9) (IPv4 192 0 2 10) 77 99))
    5 16); try reflexivity; repeat split; vm_compute; congruence.
Defined.

(** ** The request as the PGW decodes it *)

(** Elements that fit their 16-bit length fields. *)
Definition request_ok (c : GTPClient) (sess : Session) (l1 l2 l3 l4 u1 u2 u3 u4 : Z) : Prop :=
  ParseIP (gt_LocalGTPCIP (cl_cfg c)) = IPv4 l1 l2 l3 l4 /\ v4_ok l1 l2 l3 l4 /\
  ParseIP (gt_LocalGTPUIP (cl_cfg c)) = IPv4 u1 u2 u3 u4 /\ v4_ok u1 u2 u3 u4 /\
  Z.of_nat (String.length (s_IMSI sess)) <= 65535 /\ Z.of_nat (String.length (s_MSISDN sess)) <= 65535 /\
  Z.of_nat (length (apn_labels (coalesce [gt_APN (cl_cfg c); s_APN sess]))) <= 65535.

Lemma apn_labels_ok apn : bytes_ok (apn_labels apn).
Proof.
  unfold apn_labels. induction (Split apn _) as [|l ls IH]; cbn; [constructor|].
  apply bytes_ok_app. split; [|done]. case_match; [|constructor].
  constructor; [|apply bytes_of_string_ok]. unfold byte_ok, wrap. apply Z.mod_pos_bound. lia.
Qed.

Lemma bcd_ie_ok t v : byte_ok t -> Z.of_nat (String.length v) <= 65535 -> ie_ok (bcdIE t v).
Proof.
  intros Ht Hv. destruct (tbcd_pairs_nibbles _ (digits_of_ok v)) as (_ & Hb & Hl).
  apply small_ie_ok; [done|exact Hb|]. unfold encodeTBCD. rewrite Hl.
  assert (length (digits_of v) <= String.length v)%nat.
  { unfold digits_of. rewrite length_map, <- length_bytes_of_string. apply filter_length_le. }
  pose proof (Nat.div2_decr (length (digits_of v) + 1) (length (digits_of v))). lia.
Qed.

Lemma digitNibble_ok b : 0 <= digitNibble b < 16.
Proof. unfold digitNibble, is_digit. destruct (_ && _)%bool eqn:E; bools; lia. Qed.

Lemma nibbles_byte a b : 0 <= a < 16 -> 0 <= b < 16 -> byte_ok (Z.lor a (Z.shiftl b 4)).
Proof.
  intros Ha Hb. assert (H : forall n m : nat, (n < 16)%nat -> (m < 16)%nat ->
    (0 <=? Z.lor (Z.of_nat n) (Z.shiftl (Z.of_nat m) 4)) &&
    (Z.lor (Z.of_nat n) (Z.shiftl (Z.of_nat m) 4) <? 256) = true).
  { intros n m Hn Hm. do 16 (destruct n as [|n]; [do 16 (destruct m as [|m]; [done|]); lia|]). lia. }
  specialize (H (Z.to_nat a) (Z.to_nat b) ltac:(lia) ltac:(lia)). rewrite !Z2Nat.id in H by lia.
  bools. unfold byte_ok. lia.
Qed.

Lemma nib_ok b i n : nib b i = Some n -> 0 <= n < 16.
Proof. unfold nib. destruct (go_idx b i); [|done]. cbn. intros [= <-]. apply digitNibble_ok. Qed.

Lemma servingNetworkIE_ok realm ie : servingNetworkIE realm = Some (Some ie) -> ie_ok ie /\ ie_Type ie = ieServingNetwork.
Proof.
  unfold servingNetworkIE. destruct (plmnFromRealm realm) as [[mcc mnc]|]; [|done]. unfold encodePLMN.
  destruct (if (_ =? 3)%nat then _ else _) as [n3|] eqn:E3; [|done]. cbn [mbind option_bind].
  destruct (nib (bytes_of_string mcc) 0) as [c0|] eqn:E0; [|done]. cbn [mbind option_bind].
  destruct (nib (bytes_of_string mcc) 1) as [c1|] eqn:E1; [|done]. cbn [mbind option_bind].
  destruct (nib (bytes_of_string mcc) 2) as [c2|] eqn:E2; [|done]. cbn [mbind option_bind].
  destruct (nib (bytes_of_string mnc) 0) as [d0|] eqn:F0; [|done]. cbn [mbind option_bind].
  destruct (nib (bytes_of_string mnc) 1) as [d1|] eqn:F1; [|done]. cbn [mbind option_bind].
  intros [= <-]. split; [|done]. apply small_ie_ok; [done| |cbn; lia].
  apply nib_ok in E0, E1, E2, F0, F1.
  assert (0 <= n3 < 16) by (destruct (_ =? 3)%nat in E3; [by apply nib_ok in E3|injection E3 as <-; lia]).
  repeat (constructor; [by apply nibbles_byte|]). constructor.
Qed.

Lemma bearer_ie_ok u a b c d : v4_ok a b c d ->
  Forall ie_ok [uint8IE ieEBI 5; fteidIE 6 ifaceS2aTWANGTPU u (IPv4 a b c d); bearerQoSIE 9] /\
  ie_ok (bearerContextIE u (IPv4 a b c d)).
Proof.
  intros Hv. assert (H : Forall ie_ok [uint8IE ieEBI 5; fteidIE 6 ifaceS2aTWANGTPU u (IPv4 a b c d); bearerQoSIE 9]).
  { constructor; [|constructor; [by apply fteid_ie_ok|constructor; [|constructor]]].
    - apply small_ie_ok; [done|by apply bytes_ok_1|cbn; lia].
    - apply small_ie_ok; [done| |cbn; lia]. unfold put_at.
      apply bytes_ok_app; split; [|apply bytes_ok_app; split]; auto with bytes. by apply bytes_ok_1. }
  split; [done|]. apply small_ie_ok; [done|by apply bytes_ok_encodeIEs|by vm_compute].
Qed.

Lemma chargingValue_ok v x : chargingCharacteristicsValue v = Some x -> bytes_ok (be 2 x).
Proof. intros _. apply be_bytes_ok. Qed.

Lemma createSessionIEs_ok c sess lc lu l1 l2 l3 l4 u1 u2 u3 u4 :
  request_ok c sess l1 l2 l3 l4 u1 u2 u3 u4 ->
  exists ies, createSessionIEs c sess lc lu = Some ies /\ Forall ie_ok ies.
Proof.
  intros (Hl & Hlv & Hu & Huv & Hi & Hm & Ha). unfold createSessionIEs. rewrite Hl, Hu.
  destruct (servingNetworkIE_total (s_Realm sess)) as [sn Hsn]. rewrite Hsn. cbn [mbind option_bind].
  eexists. split; [done|]. rewrite !Forall_app. split; [|split; [|split]].
  - constructor; [by apply bcd_ie_ok|]. constructor; [apply small_ie_ok; [done|by apply bytes_ok_1|cbn; lia]|].
    constructor; [|constructor]. apply small_ie_ok; [done|apply apn_labels_ok|done].
  - destruct sn as [ie|]; constructor; [|constructor]. by apply servingNetworkIE_ok in Hsn as [? _].
  - repeat first [apply Forall_nil_2 | apply Forall_cons_2].
    all: try (by apply fteid_ie_ok); try (by apply paa_ie_ok); try (by apply bearer_ie_ok).
    all: apply small_ie_ok; [done| |cbn; lia].
    all: try (by apply bytes_ok_1). all: try (apply bytes_ok_app; split); apply be_bytes_ok.
  - destruct (nonempty _); constructor; [|constructor]. by apply bcd_ie_ok.
Qed.

Lemma findIE_skip ie ies t i : ie_Type ie <> t -> findIE (ie :: ies) t i = findIE ies t i.
Proof. intros H. unfold findIE. cbn. by rewrite (proj2 (Z.eqb_neq _ _) H). Qed.

(** The Create Session Request decodes, at the PGW, to elements that
    include the TBCD digits of the IMSI, the sender's control F-TEID with the
    local GTP-C TEID and address, and a bearer context whose user F-TEID has
    the local GTP-U TEID and address; nothing panics on the way. *)
Theorem create_request_decodes c sess lc lu l1 l2 l3 l4 u1 u2 u3 u4 :
  request_ok c sess l1 l2 l3 l4 u1 u2 u3 u4 -> u_ok 32 lc -> u_ok 32 lu ->
  exists p ies f b children g, createSessionPayload c sess lc lu = Some p /\ decodeIEs p = Some (Ok ies) /\
    findIE ies ieIMSI 0 = Some (bcdIE ieIMSI (s_IMSI sess)) /\
    tbcd_nibbles (ie_Payload (bcdIE ieIMSI (s_IMSI sess))) = digits_of (s_IMSI sess) /\
    findIE ies ieFTEID 0 = Some f /\ parseFTEID f = Some (ifaceS2aTWANGTPC, lc, IPv4 l1 l2 l3 l4, true) /\
    findIE ies ieBearerContext 0 = Some b /\ decodeIEs (ie_Payload b) = Some (Ok children) /\
    findIE children ieFTEID 6 = Some g /\ parseFTEID g = Some (ifaceS2aTWANGTPU, lu, IPv4 u1 u2 u3 u4, true).
Proof.
  intros Hr Hlc Hlu. destruct (createSessionIEs_ok c sess lc lu _ _ _ _ _ _ _ _ Hr) as (ies & Hies & Hok).
  destruct Hr as (Hl & Hlv & Hu & Huv & _).
  exists (encodeIEs ies), ies, (fteidIE 0 ifaceS2aTWANGTPC lc (IPv4 l1 l2 l3 l4)), (bearerContextIE lu (IPv4 u1 u2 u3 u4)),
    [uint8IE ieEBI 5; fteidIE 6 ifaceS2aTWANGTPU lu (IPv4 u1 u2 u3 u4); bearerQoSIE 9],
    (fteidIE 6 ifaceS2aTWANGTPU lu (IPv4 u1 u2 u3 u4)).
  unfold createSessionPayload. rewrite Hies. split; [done|]. split; [by apply decodeIEs_encodeIEs|].
  unfold createSessionIEs in Hies. rewrite Hl, Hu in Hies.
  destruct (servingNetworkIE (s_Realm sess)) as [sn|] eqn:Hsn; [|done]. cbn [mbind option_bind] in Hies.
  injection Hies as <-.
  assert (Hskip : forall t i rest, t <> ieServingNetwork ->
    findIE ((match sn with Some ie => [ie] | None => [] end) ++ rest)%list t i = findIE rest t i).
  { intros t i rest Hne. destruct sn as [ie|]; [|done]. apply findIE_skip.
    apply servingNetworkIE_ok in Hsn as [_ ->]. congruence. }
  split; [done|]. split; [apply (tbcd_pairs_nibbles _ (digits_of_ok _))|].
  split; [cbn [app]; rewrite !findIE_skip, Hskip by done; done|].
  split; [by apply parseFTEID_fteidIE|].
  split; [cbn [app]; rewrite !findIE_skip, Hskip by done; done|].
  split; [by apply decodeIEs_encodeIEs, bearer_ie_ok|].
  split; [done|by apply parseFTEID_fteidIE].
Qed.

(** The session of the registry example, with a realm that names a PLMN. *)
Definition demo_lost_session : Session := deref demo 0 <| s_Realm := "nai.epc.mnc001.mcc001.3gppnetwork.org" |>.

Lemma create_request_decodes_witness :
  exists p ies, createSessionPayload demo_client demo_lost_session 256 512 = Some p /\ decodeIEs p = Some (Ok ies) /\
    findIE ies ieIMSI 0 = Some (bcdIE ieIMSI "001010123456789").
Proof.
  destruct (create_request_decodes demo_client demo_lost_session 256 512 192 0 2 1 192 0 2 2)
    as (p & ies & f & b & ch & g & H1 & H2 & H3 & _).
  - repeat split; vm_compute; congruence.
  - split; vm_compute; congruence.
  - split; vm_compute; congruence.
  - exists p, ies. split; [exact H1|]. split; [exact H2|exact H3].
Defined.
