(* ===== verification/GtpRun.v ===== *)
(** The calls of the GTP-C client from send to wake-up
    ([internal/gtp/gtp.go]): a transaction together with whatever the reader
    and the other goroutines do to the client while its caller waits, and the
    calls that are built on it: [CreateSession], [DeleteSession], [Probe],
    [Echo] and the watchdog. *)
From S2P Require Import Prelude.
From S2P Require Import GoNet.
From S2P Require Import Config.
From S2P Require Import Session.
From S2P Require Import SessionFacts.
From S2P Require Import Gtpv2.
From S2P Require Import GtpClient.
Open Scope string_scope.
Open Scope Z_scope.

(** * Interleaving *)

(** One atomic step of the client: a datagram that the reader handles, the
    first half or the wake-up of a transaction, the other calls. *)
Inductive client_op :=
| OpIncoming (packet : list Z) (peer : UDPAddr) (sent : bool)
| OpBegin (req : gtpv2Message) (expected : Z) (desc : string) (sent : bool)
| OpFinish (h : nat) (w : wakeup)
| OpTEID
| OpEcho (r : result gtpv2Message gtpc_error) (latency : Z) (now : Time)
| OpWatchdog
| OpWatchdogEnd
| OpDeleteHandler
| OpClose.

(** The [select] waits: a chosen case that is not ready is replaced by the end
    of the context. *)
Definition wake (c : GTPClient) (h : nat) (w : wakeup) : option (GTPClient * result gtpv2Message gtpc_error) :=
  match finishTransaction c h w with
  | Some x => Some x
  | None => finishTransaction c h WDeadline
  end.

Definition perform (c : GTPClient) (op : client_op) : go (GTPClient * list output) :=
  match op with
  | OpIncoming packet peer sent => handleIncomingGTPv2 c packet peer sent
  | OpBegin req t d sent =>
    Some match beginTransaction c req t d sent with
         | (c, Ok (_, b)) => (c, [OSend b (cl_remote c)])
         | (c, Err _) => (c, [])
         end
  | OpFinish h w => Some match wake c h w with Some (c, _) => (c, []) | None => (c, []) end
  | OpTEID => Some (fst (nextTEIDValue c), [])
  | OpEcho r latency now => Some (recordEcho c r latency now, [])
  | OpWatchdog => Some (fst (StartEchoWatchdog c), [])
  | OpWatchdogEnd => Some (watchdogEnd c, [])
  | OpDeleteHandler => Some (SetNetworkDeleteHandler c, [])
  | OpClose => Some (Close c, [])
  end.

Fixpoint performs (c : GTPClient) (ops : list client_op) : go (GTPClient * list output) :=
  match ops with
  | [] => Some (c, [])
  | op :: ops =>
    '(c, o1) ← perform c op;
    '(c, o2) ← performs c ops;
    Some (c, (o1 ++ o2)%list)
  end.

(** * The calls *)

(** [during]: what happens between the send and the wake-up [ex_wakeup];
    [ex_ctx] is [ctx.Err()] at the beginning of the call. *)
Record exchange := mkExchange { ex_ctx : bool; ex_sent : bool; ex_during : list client_op; ex_wakeup : wakeup }.

Definition doTransaction (c : GTPClient) (req : gtpv2Message) (expectedType : Z) (description : string) (x : exchange)
  : go (GTPClient * list output * result gtpv2Message gtpc_error) :=
  if ex_ctx x then Some (c, [], Err EContext)
  else match beginTransaction c req expectedType description (ex_sent x) with
  | (c, Err e) => Some (c, [], Err e)
  | (c, Ok (h, b)) =>
    '(c', outs) ← performs c (ex_during x);
    '(c', r) ← wake c' h (ex_wakeup x);
    Some (c', OSend b (cl_remote c) :: outs, r)
  end.

Definition echo (c : GTPClient) (x : exchange) : go (GTPClient * list output * result gtpv2Message gtpc_error) :=
  doTransaction c echoRequest gtpv2EchoResponse "Echo" x.

Definition err_of {A E} (r : result A E) : option E := match r with Ok _ => None | Err e => Some e end.

(** [Probe], and [runEchoProbe] but for its log lines. *)
Definition Probe (c : GTPClient) (x : exchange) (latency : Z) (now : Time)
  : go (GTPClient * list output * option gtpc_error) :=
  '(c, outs, r) ← echo c x;
  Some (recordEcho c r latency now, outs, err_of (echo_result r)).

(** [Echo]: a failure is not recorded. *)
Definition Echo (c : GTPClient) (x : exchange) (latency : Z) (now : Time)
  : go (GTPClient * list output * option gtpc_error) :=
  '(c, outs, r) ← echo c x;
  Some match echo_result r with
       | Err e => (c, outs, Some e)
       | Ok _ => (fst (recordEchoSuccess c latency now), outs, None)
       end.

Definition CreateSession (c : GTPClient) (ctx : bool) (sess : option Session) (x : exchange)
  : go (GTPClient * list output * result CreateSessionResult gtpc_error) :=
  if ctx then Some (c, [], Err EContext)
  else match sess with
  | None => Some (c, [], Err ENoSession)
  | Some sess =>
    '(c, (req, localGTPU)) ← createSessionRequest c sess;
    '(c, outs, r) ← doTransaction c req gtpv2CreateSessionResp "Create Session" x;
    r ← createSessionFinish c localGTPU r;
    Some (c, outs, r)
  end.

Definition DeleteSession (c : GTPClient) (ctx : bool) (sess : option Session) (x : exchange)
  : go (GTPClient * list output * option gtpc_error) :=
  if ctx then Some (c, [], Some EContext)
  else match sess with
  | None => Some (c, [], Some ENoSession)
  | Some sess =>
    match deleteSessionRequest sess with
    | Err e => Some (c, [], Some e)
    | Ok req =>
      '(c, outs, r) ← doTransaction c req gtpv2DeleteSessionResp "Delete Session" x;
      e ← deleteSessionFinish r;
      Some (c, outs, e)
    end
  end.

(** * What a waiting transaction hears *)

(** The response that a step brings from the PGW [remote]. *)
Definition response_msg (remote : UDPAddr) (op : client_op) : option gtpv2Message :=
  match op with
  | OpIncoming packet peer _ =>
    if (negb (IPEqual (a_IP peer) (a_IP remote)) || negb (a_Port peer =? a_Port remote))%bool then None
    else match decodeGTPv2Message packet with
         | Some (Ok m) =>
           if ((g_Type m =? gtpv2EchoRequest) || (g_Type m =? gtpv2DeleteSessionReq))%bool then None else Some m
         | _ => None
         end
  | _ => None
  end.

Definition answer_to (remote : UDPAddr) (seq t : Z) (op : client_op) : option gtpv2Message :=
  m ← response_msg remote op;
  if ((g_Sequence m =? seq) && (g_Type m =? t))%bool then Some m else None.

Definition failure_of (remote : UDPAddr) (seq t : Z) (d : string) (op : client_op) : option gtpc_error :=
  match op with
  | OpClose => Some EClosed
  | _ =>
    m ← response_msg remote op;
    if ((g_Sequence m =? seq) && negb (g_Type m =? t))%bool then Some (ETypeMismatch d seq (g_Type m) t) else None
  end.

(** Nothing is heard after the client was closed. *)
Fixpoint heard (ops : list client_op) : list client_op :=
  match ops with
  | [] => []
  | OpClose :: _ => [OpClose]
  | op :: ops => op :: heard ops
  end.

(** The other goroutines wake up their own transactions only, each of them
    once: its entry is there until then. *)
Definition fair (c : GTPClient) (h : nat) (op : client_op) : Prop :=
  match op with
  | OpFinish h' _ => h' <> h /\ (cl_closed c = true \/
      forall tx, cl_txs c !! h' = Some tx -> cl_pending c !! tx_sequence tx = Some h')
  | _ => True
  end.

Fixpoint all_fair (c : GTPClient) (h : nat) (ops : list client_op) : Prop :=
  match ops with
  | [] => True
  | op :: ops => fair c h op /\ forall c' outs, perform c op = Some (c', outs) -> all_fair c' h ops
  end.

(** The reader hands a response to the transaction of its sequence number. *)
Definition deliver_msg (c : GTPClient) (m : option gtpv2Message) : GTPClient :=
  match m with
  | None => c
  | Some m =>
    match lookupTransaction c (g_Sequence m) with
    | None => c
    | Some (h, tx) =>
      if negb (g_Type m =? tx_expectedType tx)
      then c <| cl_txs ::= alter (fun t => t <| tx_err ::= offer
             (ETypeMismatch (tx_description tx) (g_Sequence m) (g_Type m) (tx_expectedType tx)) |>) h |>
      else c <| cl_txs ::= alter (fun t => t <| tx_response ::= offer m |>) h |>
    end
  end.

Lemma incoming_deliver c packet peer sent c' outs :
  handleIncomingGTPv2 c packet peer sent = Some (c', outs) ->
  c' = deliver_msg c (response_msg (cl_remote c) (OpIncoming packet peer sent)).
Proof.
  unfold handleIncomingGTPv2, response_msg. destruct (_ || _)%bool; [by intros [= <- _]|].
  destruct (decodeGTPv2Message packet) as [[msg|e]|]; cbn [mbind option_bind]; [|by intros [= <- _]|done].
  destruct (g_Type msg =? gtpv2EchoRequest); [by intros [= <- _]|].
  destruct (g_Type msg =? gtpv2DeleteSessionReq); [by intros [= <- _]|]. cbn [orb deliver_msg].
  destruct (lookupTransaction c (g_Sequence msg)) as [[h tx]|]; [|by intros [= <- _]].
  destruct (negb _); by intros [= <- _].
Qed.

Section Waiting.
Context (remote : UDPAddr) (h : nat) (seq rt t : Z) (d : string).

(** The transaction after the steps [past]: each channel holds the first
    message that was offered to it. *)
Definition tx_after (past : list client_op) : gtpcTransaction :=
  mkTx seq rt t d (head (omap (answer_to remote seq t) past)) (head (omap (failure_of remote seq t d) past)).

Record waiting (c : GTPClient) (past : list client_op) : Prop := {
  wt_ok : client_ok c;
  wt_remote : cl_remote c = remote;
  wt_tx : cl_txs c !! h = Some (tx_after past);
  wt_pending : cl_closed c = false -> cl_pending c !! seq = Some h;
  wt_closed : cl_closed c = true -> cl_pending c = ∅
}.

Lemma offer_head {A} (v : A) l : offer v (head l) = head (l ++ [v]).
Proof. by destruct l. Qed.

Lemma tx_after_quiet past op :
  answer_to remote seq t op = None -> failure_of remote seq t d op = None -> tx_after (past ++ [op]) = tx_after past.
Proof. intros H1 H2. unfold tx_after. rewrite !omap_app. cbn [omap list_omap]. by rewrite H1, H2, !app_nil_r. Qed.

Lemma response_quiet past op :
  op <> OpClose -> response_msg remote op = None -> tx_after (past ++ [op]) = tx_after past.
Proof.
  intros Hc H. apply tx_after_quiet; [unfold answer_to; by rewrite H|].
  unfold failure_of. destruct op; try done; by rewrite H.
Qed.

(** A step that leaves the transaction and its entry alone. *)
Lemma waiting_same c c' past op :
  waiting c past -> client_ok c' -> cl_remote c' = cl_remote c -> cl_closed c' = cl_closed c ->
  cl_txs c' !! h = cl_txs c !! h -> (cl_closed c = false -> cl_pending c' !! seq = cl_pending c !! seq) ->
  (cl_closed c = true -> cl_pending c' = ∅) ->
  (cl_closed c = false -> tx_after (past ++ [op]) = tx_after past) ->
  waiting c' (if cl_closed c then past else (past ++ [op])%list).
Proof.
  intros [W1 W2 W3 W4 W5] O R C T P E Q. split; rewrite ?R, ?C; try done.
  - rewrite T, W3. destruct (cl_closed c); [done|]. by rewrite Q.
  - intros F. rewrite P by done. by apply W4.
Qed.

(** The handle of another pending transaction belongs to another number. *)
Lemma other_sequence c past h' tx :
  waiting c past -> cl_closed c = false -> h' <> h -> cl_txs c !! h' = Some tx ->
  cl_pending c !! tx_sequence tx = Some h' -> tx_sequence tx <> seq.
Proof. intros W F N _ P E. rewrite E, (wt_pending _ _ W F) in P. by injection P. Qed.

Lemma incoming_step c past packet peer sent c' outs :
  waiting c past -> handleIncomingGTPv2 c packet peer sent = Some (c', outs) ->
  waiting c' (if cl_closed c then past else (past ++ [OpIncoming packet peer sent])%list).
Proof.
  intros W E. pose proof (incoming_ok _ _ _ _ _ _ (wt_ok _ _ W) E) as O.
  apply incoming_deliver in E. rewrite (wt_remote _ _ W) in E. revert E O.
  set (op := OpIncoming packet peer sent). assert (Hop : op <> OpClose) by done.
  destruct (response_msg remote op) as [m|] eqn:Em; cbn [deliver_msg]; intros -> O.
  2: { apply (waiting_same c); try done; [apply (wt_closed _ _ W)|]. intros _. by apply response_quiet. }
  destruct (cl_closed c) eqn:Ec.
  { revert O. unfold deliver_msg, lookupTransaction. by rewrite (wt_closed _ _ W Ec), lookup_empty. }
  destruct (decide (g_Sequence m = seq)) as [Es|Es].
  - revert O. unfold deliver_msg, lookupTransaction. rewrite Es, (wt_pending _ _ W Ec). cbn [mbind option_bind].
    rewrite (wt_tx _ _ W). cbn [mbind option_bind tx_expectedType tx_description tx_after].
    destruct W as [_ W2 W3 W4 W5].
    destruct (g_Type m =? t) eqn:Et; cbn [negb]; intros O; split; try done; cbn;
      rewrite list_lookup_alter_eq, W3; cbn [fmap option_fmap option_map]; unfold tx_after, upd; f_equal; cbn;
      rewrite offer_head, !omap_app; cbn [omap list_omap]; unfold answer_to, failure_of; subst op; rewrite Em; cbn;
      by rewrite Es, Z.eqb_refl, Et, ?app_nil_r.
  - assert (Q : tx_after (past ++ [op]) = tx_after past).
    { apply tx_after_quiet; unfold answer_to, failure_of; subst op; rewrite Em; cbn [mbind option_bind];
        by rewrite (proj2 (Z.eqb_neq _ _) Es). }
    revert O. unfold deliver_msg. destruct (lookupTransaction c (g_Sequence m)) as [[h0 t0]|] eqn:El.
    + destruct (lookupTransaction_Some c _ h0 t0 (wt_ok _ _ W) El) as (_ & Hl0 & Hs0).
      assert (Hh : h0 <> h). { intros ->. rewrite (wt_tx _ _ W) in Hl0. injection Hl0 as <-. by cbn in Hs0. }
      destruct (negb _); intros O; destruct W as [_ W2 W3 W4 W5]; (split; try done; cbn; by rewrite list_lookup_alter_ne, W3, Q).
    + intros O. destruct W as [_ W2 W3 W4 W5]. split; try done. by rewrite Q.
Qed.

Lemma begin_step c past req t' d' sent :
  waiting c past ->
  waiting (fst (beginTransaction c req t' d' sent)) (if cl_closed c then past else (past ++ [OpBegin req t' d' sent])%list).
Proof.
  intros W. pose proof (begin_ok c req t' d' sent (wt_ok _ _ W)) as O. revert O.
  unfold beginTransaction. cbn [nextSequence]. set (n := next_sequence (cl_seq c)). unfold registerTransaction.
  set (c1 := c <| cl_seq := n |>). change (cl_closed c1) with (cl_closed c). change (cl_pending c1) with (cl_pending c).
  cbn [tx_sequence]. assert (Q : tx_after (past ++ [OpBegin req t' d' sent]) = tx_after past) by by apply response_quiet.
  assert (L : forall tx, (cl_txs c ++ [tx])%list !! h = cl_txs c !! h).
  { intros tx. apply lookup_app_l. eapply lookup_lt_Some, (wt_tx _ _ W). }
  destruct (cl_closed c) eqn:Ec; [intros O; by destruct W; split|].
  destruct (cl_pending c !! n) eqn:En; [intros O; destruct W; split; try done; by rewrite Q|].
  assert (Hn : n <> seq). { intros E. by rewrite E, (wt_pending _ _ W Ec) in En. }
  destruct (encode _) as [b|e]; [destruct sent|]; intros O; cbn [fst] in *; destruct W as [_ W2 W3 W4 W5];
    (split; cbn; [done|done|by rewrite L, W3, Q| |by rewrite Ec]); intros _.
  - rewrite lookup_insert_ne by done. by apply W4.
  - rewrite lookup_delete_ne, lookup_insert_ne by done. by apply W4.
  - rewrite lookup_delete_ne, lookup_insert_ne by done. by apply W4.
Qed.

Lemma wake_unregisters c h' w c' r :
  wake c h' w = Some (c', r) ->
  exists tx, cl_txs c !! h' = Some tx /\ c' = unregisterTransaction c (tx_sequence tx).
Proof.
  unfold wake, finishTransaction. destruct (cl_txs c !! h') as [tx|]; [|done]. cbn [mbind option_bind]. intros E.
  exists tx. split; [done|]. revert E.
  destruct w; [destruct (tx_response tx)|destruct (tx_err tx)|..]; cbn [mbind option_bind]; by intros [= <- _].
Qed.

Lemma finish_step c past h' w :
  waiting c past -> fair c h (OpFinish h' w) ->
  waiting (match wake c h' w with Some (c', _) => c' | None => c end)
    (if cl_closed c then past else (past ++ [OpFinish h' w])%list).
Proof.
  intros W [N F]. assert (Q : tx_after (past ++ [OpFinish h' w]) = tx_after past) by by apply response_quiet.
  destruct (wake c h' w) as [[c' r]|] eqn:E;
    [|apply (waiting_same c); try done; apply W].
  apply wake_unregisters in E as (tx & Ht & ->). apply (waiting_same c); try done.
  - apply unregister_ok, W.
  - intros Ec. destruct F as [F|F]; [congruence|]. cbn. apply lookup_delete_ne.
    eapply other_sequence; [exact W|done..|]. by apply F.
  - intros Ec. cbn. rewrite (wt_closed _ _ W Ec). apply delete_empty.
Qed.

Lemma fail_all err l (txs : list gtpcTransaction) i :
  fold_right (fun '(_, h) txs => alter (fun t => t <| tx_err ::= offer err |>) h txs) txs (l : list (Z * nat)) !! i =
  (if decide (i ∈ l.*2) then (fun t => t <| tx_err ::= offer err |>) <$> txs !! i else txs !! i).
Proof.
  induction l as [|[s k] l IH]; cbn [foldr fmap list_fmap snd]; [by rewrite decide_False by apply not_elem_of_nil|].
  destruct (decide (i = k)) as [->|N].
  - rewrite list_lookup_alter_eq, IH, (decide_True (P := k ∈ k :: _)) by left. destruct (decide _); [|done].
    rewrite <- option_fmap_compose. destruct (txs !! k) as [x|]; [|done]. cbn [fmap option_fmap option_map compose]. f_equal.
    unfold upd. cbn. by destruct (tx_err x).
  - rewrite list_lookup_alter_ne, IH by done. destruct (decide (i ∈ l.*2)) as [Hi|Hi].
    + by rewrite decide_True by by right.
    + rewrite decide_False; [done|]. rewrite elem_of_cons. tauto.
Qed.

Lemma close_step c past :
  waiting c past -> waiting (Close c) (if cl_closed c then past else (past ++ [OpClose])%list).
Proof.
  intros W. unfold Close. destruct (cl_closed c) eqn:Ec; [done|].
  assert (O : client_ok (failPending (c <| cl_closed := true |>) EClosed)) by (apply failPending_ok, W).
  split; [exact O|apply W| |done|done]. cbn. rewrite fail_all.
  rewrite decide_True.
  - rewrite (wt_tx _ _ W). cbn [fmap option_fmap option_map]. f_equal. unfold tx_after, upd. cbn.
    rewrite offer_head, !omap_app. cbn [omap list_omap answer_to response_msg mbind option_bind failure_of].
    by rewrite app_nil_r.
  - apply list_elem_of_fmap. exists (seq, h). split; [done|]. apply elem_of_map_to_list. by apply (wt_pending _ _ W).
Qed.

Lemma perform_step c past op c' outs :
  waiting c past -> fair c h op -> perform c op = Some (c', outs) ->
  waiting c' (if cl_closed c then past else (past ++ [op])%list).
Proof.
  intros W F. assert (Same : forall c1, client_ok c1 -> cl_remote c1 = cl_remote c -> cl_closed c1 = cl_closed c ->
    cl_txs c1 = cl_txs c -> cl_pending c1 = cl_pending c -> op <> OpClose -> response_msg remote op = None ->
    waiting c1 (if cl_closed c then past else (past ++ [op])%list)).
  { intros c1 O R C T P N Q. apply (waiting_same c); rewrite ?T, ?P; try done; [apply W|]. intros _. by apply response_quiet. }
  destruct op as [p peer sent|req t' d' sent|h' w| |r lat now| | | |]; cbn [perform].
  - by apply incoming_step.
  - pose proof (begin_step c past req t' d' sent W) as B.
    destruct (beginTransaction c req t' d' sent) as [c1 [[h1 b]|e]]; cbn in B; by intros [= <- _].
  - pose proof (finish_step c past h' w W F) as B. destruct (wake c h' w) as [[c1 r]|]; by intros [= <- _].
  - intros [= <- _]. unfold nextTEIDValue. destruct (_ =? 0); (apply Same; try done; apply W).
  - intros [= <- _]. unfold recordEcho. destruct (echo_result r); [apply Same; try done; apply W|].
    unfold recordEchoFailure. destruct (_ && _)%bool; (apply Same; try done; apply W).
  - intros [= <- _]. unfold StartEchoWatchdog. destruct (negb _); [|destruct (cl_watchdogStarted c)]; (apply Same; try done; apply W).
  - intros [= <- _]. apply Same; try done; apply W.
  - intros [= <- _]. apply Same; try done; apply W.
  - intros [= <- _]. by apply close_step.
Qed.

(** After the client was closed, nothing is heard. *)
Lemma perform_closed c op c' outs :
  perform c op = Some (c', outs) ->
  cl_closed c' = (match op with OpClose => true | _ => cl_closed c end) /\ cl_cfg c' = cl_cfg c.
Proof.
  destruct op as [p peer sent|req t' d' sent|h' w| |r lat now| | | |]; cbn [perform].
  - intros ->%incoming_deliver. unfold deliver_msg. destruct (response_msg _ _) as [m|]; [|done].
    destruct (lookupTransaction c _) as [[h0 t0]|]; [|done]. by destruct (negb _).
  - unfold beginTransaction. cbn [nextSequence]. unfold registerTransaction. cbn [upd cl_closed cl_pending tx_sequence].
    destruct (cl_closed c) eqn:E; [by intros [= <- _]|].
    destruct (cl_pending c !! _); [by intros [= <- _]|].
    destruct (encode _) as [b|e]; [destruct sent|]; by intros [= <- _].
  - destruct (wake c h' w) as [[c1 r]|] eqn:E; intros [= <- _]; [|done]. by apply wake_unregisters in E as (tx & _ & ->).
  - intros [= <- _]. unfold nextTEIDValue. by destruct (_ =? 0).
  - intros [= <- _]. unfold recordEcho. destruct (echo_result r); [done|]. unfold recordEchoFailure. by destruct (_ && _)%bool.
  - intros [= <- _]. unfold StartEchoWatchdog. destruct (negb _); [done|]. by destruct (cl_watchdogStarted c).
  - by intros [= <- _].
  - by intros [= <- _].
  - intros [= <- _]. unfold Close. by destruct (cl_closed c) eqn:E.
Qed.

Lemma performs_waiting ops c past c' outs :
  waiting c past -> all_fair c h ops -> performs c ops = Some (c', outs) ->
  waiting c' (if cl_closed c then past else (past ++ heard ops)%list).
Proof.
  revert c past c' outs. induction ops as [|op ops IH]; intros c past c' outs W A; cbn [performs].
  { intros [= <- _]. cbn [heard]. rewrite app_nil_r. by destruct (cl_closed c). }
  destruct A as [F A]. destruct (perform c op) as [[c1 o1]|] eqn:E1; cbn [mbind option_bind]; [|done].
  destruct (performs c1 ops) as [[c2 o2]|] eqn:E2; cbn [mbind option_bind]; [|done]. intros [= <- _].
  pose proof (perform_step _ _ _ _ _ W F E1) as W1. pose proof (perform_closed _ _ _ _ E1) as [C _].
  specialize (IH _ _ _ _ W1 (A _ _ eq_refl) E2). rewrite C in IH.
  destruct (cl_closed c) eqn:Ec.
  - by destruct op.
  - destruct op; cbn [heard]; try exact IH; by rewrite <- app_assoc in IH.
Qed.
End Waiting.

(** * The result of a transaction *)
Lemma perform_total c op : exists c' outs, perform c op = Some (c', outs).
Proof.
  destruct op as [p peer sent|req t d sent|h w| |r lat now| | | |]; cbn [perform]; eauto.
  - unfold handleIncomingGTPv2. destruct (_ || _)%bool; [eauto|].
    destruct (decode_cases p) as (r & -> & _). cbn [mbind option_bind]. destruct r as [msg|e]; [|eauto].
    destruct (g_Type msg =? gtpv2EchoRequest); [eauto|]. destruct (g_Type msg =? gtpv2DeleteSessionReq); [eauto|].
    destruct (lookupTransaction c _) as [[h t]|]; [|eauto]. destruct (negb _); eauto.
  - destruct (beginTransaction c req t d sent) as [c1 [[h b]|e]]; eauto.
  - destruct (wake c h w) as [[c1 r]|]; eauto.
Qed.

Lemma performs_total ops c : exists c' outs, performs c ops = Some (c', outs).
Proof.
  revert c. induction ops as [|op ops IH]; intros c; cbn [performs]; [eauto|].
  destruct (perform_total c op) as (c1 & o1 & ->). cbn [mbind option_bind].
  destruct (IH c1) as (c2 & o2 & ->). cbn [mbind option_bind]. eauto.
Qed.

Lemma performs_cfg ops c c' outs : performs c ops = Some (c', outs) -> cl_cfg c' = cl_cfg c.
Proof.
  revert c c' outs. induction ops as [|op ops IH]; intros c c' outs; cbn [performs]; [by intros [= <- _]|].
  destruct (perform c op) as [[c1 o1]|] eqn:E1; cbn [mbind option_bind]; [|done].
  destruct (performs c1 ops) as [[c2 o2]|] eqn:E2; cbn [mbind option_bind]; [|done]. intros [= <- _].
  rewrite (IH _ _ _ E2). by eapply perform_closed.
Qed.

(** What a transaction that was sent starts with. *)
Lemma begin_waiting c req t d c1 h b :
  client_ok c -> beginTransaction c req t d true = (c1, Ok (h, b)) ->
  let seq := next_sequence (cl_seq c) in
  waiting (cl_remote c) h seq (g_Type req) t d c1 [] /\ cl_closed c1 = false /\
  encode (req <| g_Sequence := seq |>) = Ok b /\ cl_remote c1 = cl_remote c /\ cl_cfg c1 = cl_cfg c.
Proof.
  intros O E. pose proof (begin_ok c req t d true O) as O1. rewrite E in O1. revert E. cbn zeta.
  unfold beginTransaction. cbn [nextSequence]. unfold registerTransaction. cbn [tx_sequence].
  change (cl_closed (c <| cl_seq := next_sequence (cl_seq c) |>)) with (cl_closed c).
  change (cl_pending (c <| cl_seq := next_sequence (cl_seq c) |>)) with (cl_pending c).
  destruct (cl_closed c) eqn:Ec; [done|]. destruct (cl_pending c !! _) eqn:Ep; [done|].
  destruct (encode _) as [b'|e]; [|done]. intros [= <- <- <-]. split; [|by split_and!].
  split; [exact O1|done| | |cbn; by rewrite Ec]; cbn.
  - by rewrite list_lookup_middle.
  - intros _. apply lookup_insert_eq.
Qed.

(** The select on a transaction in a known state. *)
Lemma wake_waiting remote h seq rt t d c past w :
  waiting remote h seq rt t d c past ->
  wake c h w = Some (unregisterTransaction c seq,
    match w, head (omap (answer_to remote seq t) past), head (omap (failure_of remote seq t d) past) with
    | WResponse, Some m, _ => Ok m
    | WError, _, Some e => Err e
    | WCanceled, _, _ => Err (ECanceled d seq)
    | _, _, _ => Err (ETimeout d seq)
    end).
Proof.
  intros W. unfold wake, finishTransaction. rewrite (wt_tx _ _ _ _ _ _ _ _ W). cbn [mbind option_bind tx_after
    tx_sequence tx_description tx_response tx_err].
  destruct w; [destruct (head (omap (answer_to _ _ _) _))|destruct (head (omap (failure_of _ _ _ _) _))| |]; done.
Qed.

Definition exchange_fair (c : GTPClient) (req : gtpv2Message) (t : Z) (d : string) (x : exchange) : Prop :=
  forall c1 h b, beginTransaction c req t d (ex_sent x) = (c1, Ok (h, b)) -> all_fair c1 h (ex_during x).

(** What the caller gets, computed from the steps in between alone. *)
Definition mailbox_result (remote : UDPAddr) (seq t : Z) (d : string) (x : exchange) : result gtpv2Message gtpc_error :=
  match ex_wakeup x, head (omap (answer_to remote seq t) (heard (ex_during x))),
        head (omap (failure_of remote seq t d) (heard (ex_during x))) with
  | WResponse, Some m, _ => Ok m
  | WError, _, Some e => Err e
  | WCanceled, _, _ => Err (ECanceled d seq)
  | _, _, _ => Err (ETimeout d seq)
  end.

Lemma exchange_result c req t d x c1 h b :
  client_ok c -> ex_ctx x = false -> ex_sent x = true ->
  beginTransaction c req t d true = (c1, Ok (h, b)) -> all_fair c1 h (ex_during x) ->
  let seq := next_sequence (cl_seq c) in
  exists c3 outs, doTransaction c req t d x = Some (c3, OSend b (cl_remote c) :: outs, mailbox_result (cl_remote c) seq t d x) /\
    client_ok c3 /\ cl_pending c3 !! seq = None /\ encode (req <| g_Sequence := seq |>) = Ok b /\ cl_cfg c3 = cl_cfg c.
Proof.
  intros O Hc Hs B F seq. destruct (begin_waiting _ _ _ _ _ _ _ O B) as (W & C & En & R & G).
  destruct (performs_total (ex_during x) c1) as (c2 & outs & P).
  pose proof (performs_waiting _ _ _ _ _ _ _ _ _ _ _ W F P) as W2. rewrite C in W2. cbn [app] in W2.
  exists (unregisterTransaction c2 seq), outs. unfold doTransaction. rewrite Hc, Hs, B, P. cbn [mbind option_bind].
  rewrite (wake_waiting _ _ _ _ _ _ _ _ _ W2), R. cbn [mbind option_bind]. split; [done|].
  split; [apply unregister_ok, W2|]. split; [cbn; apply lookup_delete_eq|]. split; [exact En|].
  cbn. by rewrite (performs_cfg _ _ _ _ P).
Qed.

(** A response that is heard is a datagram of the PGW. *)
Lemma answer_is_datagram remote seq t ops m :
  head (omap (answer_to remote seq t) (heard ops)) = Some m ->
  exists packet peer sent, OpIncoming packet peer sent ∈ ops /\ IPEqual (a_IP peer) (a_IP remote) = true /\
    a_Port peer = a_Port remote /\ decodeGTPv2Message packet = Some (Ok m) /\ g_Sequence m = seq /\ g_Type m = t.
Proof.
  intros H. assert (I : m ∈ omap (answer_to remote seq t) (heard ops)).
  { destruct (omap _ _) as [|y l]; [done|]. injection H as ->. by left. }
  apply list_elem_of_omap in I as (op & Hop & Ha).
  assert (Hin : op ∈ ops).
  { clear -Hop. induction ops as [|o ops IH]; [exact Hop|]. destruct o; cbn [heard] in Hop;
      apply elem_of_cons in Hop as [->|Hop]; first [by left|by apply not_elem_of_nil in Hop|right; by apply IH]. }
  destruct op as [packet peer sent| | | | | | | |]; try done. unfold answer_to in Ha. cbn [response_msg] in Ha.
  destruct (negb (IPEqual (a_IP peer) (a_IP remote)) || negb (a_Port peer =? a_Port remote))%bool eqn:Ep; [done|].
  destruct (decodeGTPv2Message packet) as [[m'|]|] eqn:Ed; [|done..].
  destruct ((g_Type m' =? gtpv2EchoRequest) || (g_Type m' =? gtpv2DeleteSessionReq))%bool; [done|].
  cbn [mbind option_bind] in Ha.
  destruct ((g_Sequence m' =? seq) && (g_Type m' =? t))%bool eqn:Es; [|done]. injection Ha as ->. bools.
  exists packet, peer, sent. by split_and!.
Qed.

(** C13: a transaction is a mailbox.  Whatever datagrams arrive, other
    transactions begin and end, echoes, TEIDs and handlers change, and even
    when the client is closed while the caller waits, the request goes out
    once, the call returns, its entry is gone, and its result is computed from
    the steps in between alone: the first response of the configured PGW with
    its sequence number and type, or the first failure (a response of another
    type, or the closing), or the end of the context - and such a response is
    a datagram that arrived. *)
Theorem transaction_mailbox c req t d x c1 h b :
  creachable c -> ex_ctx x = false -> ex_sent x = true ->
  beginTransaction c req t d true = (c1, Ok (h, b)) -> all_fair c1 h (ex_during x) ->
  let seq := next_sequence (cl_seq c) in
  exists c3 outs r, doTransaction c req t d x = Some (c3, OSend b (cl_remote c) :: outs, r) /\
    r = mailbox_result (cl_remote c) seq t d x /\ cl_pending c3 !! seq = None /\
    forall m, r = Ok m -> exists packet peer sent, OpIncoming packet peer sent ∈ ex_during x /\
      IPEqual (a_IP peer) (a_IP (cl_remote c)) = true /\ a_Port peer = a_Port (cl_remote c) /\
      decodeGTPv2Message packet = Some (Ok m) /\ g_Sequence m = seq /\ g_Type m = t.
Proof.
  intros O Hc Hs B F seq. destruct (exchange_result c req t d x c1 h b (creachable_ok _ O) Hc Hs B F) as (c3 & outs & E & _ & P & _).
  exists c3, outs, (mailbox_result (cl_remote c) seq t d x). split_and!; [exact E|done|exact P|].
  intros m. unfold mailbox_result. destruct (head (omap (answer_to _ _ _) _)) as [m0|] eqn:Em;
    destruct (ex_wakeup x); try done; first [by case_match|intros [= <-]; exact (answer_is_datagram _ _ _ _ _ Em)].
Qed.

(** Two transactions at once: a stray datagram, the answer of the other one,
    the answer twice, the closing. *)
Definition answer_packet (seq : Z) : list Z := [0x40; 2; 0; 9; 0; 0; seq; 0; 3; 0; 1; 0; 0].

Definition demo_exchange : exchange := mkExchange false true
  [OpBegin echoRequest gtpv2EchoResponse "Echo" true;
   OpIncoming (answer_packet 8) (mkAddr (IPv4 198 51 100 1) 2123) true;
   OpIncoming (answer_packet 9) demo_peer true;
   OpIncoming (answer_packet 8) demo_peer true;
   OpFinish 1 WResponse; OpClose;
   OpIncoming (answer_packet 8) demo_peer true] WResponse.

Lemma demo_begin : exists b,
  beginTransaction demo_client echoRequest gtpv2EchoResponse "Echo" true =
    (fst (beginTransaction demo_client echoRequest gtpv2EchoResponse "Echo" true), Ok (0%nat, b)).
Proof. eexists. vm_compute. reflexivity. Qed.

Lemma demo_exchange_fair :
  all_fair (fst (beginTransaction demo_client echoRequest gtpv2EchoResponse "Echo" true)) 0 (ex_during demo_exchange).
Proof.
  repeat (split; [try exact I|intros ? ?; vm_compute; intros [= <- <-]]); [|exact I].
  split; [done|]. right. intros tx. vm_compute. by intros [= <-].
Qed.

Lemma transaction_mailbox_witness :
  exists c3 outs, doTransaction demo_client echoRequest gtpv2EchoResponse "Echo" demo_exchange =
    Some (c3, outs, Ok (mkMsg gtpv2EchoResponse 0 false 8 [3; 0; 1; 0; 0])) /\ cl_pending c3 !! 8 = None.
Proof.
  destruct demo_begin as (b & B).
  destruct (transaction_mailbox demo_client echoRequest gtpv2EchoResponse "Echo" demo_exchange _ 0%nat b
    demo_client_reachable eq_refl eq_refl B demo_exchange_fair) as (c3 & outs & r & E & R & P & _).
  assert (M : mailbox_result (cl_remote demo_client) (next_sequence (cl_seq demo_client)) gtpv2EchoResponse "Echo" demo_exchange =
    Ok (mkMsg gtpv2EchoResponse 0 false 8 [3; 0; 1; 0; 0])) by (vm_compute; reflexivity).
  rewrite M in R. subst r. exists c3, (OSend b (cl_remote demo_client) :: outs). split; [exact E|exact P].
Defined.

(** * Create Session *)
Lemma createSessionRequest_total c sess :
  exists c0 p u, createSessionRequest c sess = Some (c0, (mkMsg gtpv2CreateSessionReq 0 true 0 p, u)) /\
    cl_seq c0 = cl_seq c /\ cl_remote c0 = cl_remote c /\ cl_cfg c0 = cl_cfg c /\ cl_nextTEID c0 = u /\
    (client_ok c -> client_ok c0).
Proof.
  unfold createSessionRequest. assert (T : forall c, let c' := fst (nextTEIDValue c) in
    cl_seq c' = cl_seq c /\ cl_remote c' = cl_remote c /\ cl_cfg c' = cl_cfg c /\
    cl_nextTEID c' = snd (nextTEIDValue c) /\ (client_ok c -> client_ok c')).
  { intros c1. unfold nextTEIDValue. by destruct (_ =? 0). }
  pose proof (T c) as (A1 & A2 & A3 & _ & A5). destruct (nextTEIDValue c) as [c1 t1]. cbn [fst snd] in *.
  pose proof (T c1) as (B1 & B2 & B3 & B4 & B5). destruct (nextTEIDValue c1) as [c2 t2]. cbn [fst snd] in *.
  assert (P : exists p, createSessionPayload c2 sess t1 t2 = Some p).
  { unfold createSessionPayload, createSessionIEs. destruct (servingNetworkIE_total (s_Realm sess)) as [sn ->].
    cbn [mbind option_bind]. eauto. }
  destruct P as [p ->]. cbn [mbind option_bind]. exists c2, p, t2. split_and!; try congruence; auto.
Qed.

Lemma decode_payload_bytes b m : bytes_ok b -> decodeGTPv2Message b = Some (Ok m) -> bytes_ok (g_Payload m).
Proof.
  intros H E. destruct (decode_cases b) as (r & R & P). rewrite R in E. injection E as ->. destruct P as [_ ->].
  by apply bytes_ok_drop.
Qed.

Lemma bearer_local ies r r' : bearer_loop ies r = Some r' -> r_LocalGTPUTEID r' = r_LocalGTPUTEID r.
Proof.
  revert r. induction ies as [|ie ies IH]; intros r; cbn [bearer_loop]; [by intros [= ->]|].
  destruct (negb _); [apply IH|]. destruct (decodeIEs _) as [[ch|e]|]; cbn [mbind option_bind]; [|apply IH|done].
  destruct (findFTEIDByInterface _ _ _) as [[[[i t] ip]|]|]; cbn [mbind option_bind]; [|apply IH|done].
  intros E%IH. rewrite E. by destruct (non_nil ip).
Qed.

Lemma parse_ok c m u res cause :
  parseCreateSessionResponse c m u = Some (Ok (res, cause)) -> cause = causeRequestAccepted /\ r_LocalGTPUTEID res = u.
Proof.
  unfold parseCreateSessionResponse. destruct (decodeIEs _) as [[ies|e]|]; cbn [mbind option_bind]; [|done..].
  destruct (parseCauseInfo ies) as [ci|]; cbn [mbind option_bind]; [|done].
  destruct (c_Cause ci =? causeRequestAccepted) eqn:E; cbn [negb]; [|done]. bools.
  destruct (parsePAA ies) as [paa|]; cbn [mbind option_bind]; [|done].
  destruct (findFTEIDByInterface _ _ _) as [f|]; cbn [mbind option_bind]; [|done].
  match goal with |- context [bearer_loop ies ?r] => destruct (bearer_loop ies r) as [r'|] eqn:B end; cbn [mbind option_bind]; [|done].
  intros [= <- <-]. split; [done|]. apply bearer_local in B. rewrite B. destruct f as [[[i t] ip]|]; [|done]. by destruct (non_nil ip).
Qed.

Lemma parse_cfg c c' m u : cl_cfg c = cl_cfg c' -> parseCreateSessionResponse c m u = parseCreateSessionResponse c' m u.
Proof. intros E. unfold parseCreateSessionResponse. by rewrite E. Qed.

Definition arrives_ok (ops : list client_op) : Prop :=
  forall packet peer sent, OpIncoming packet peer sent ∈ ops -> bytes_ok packet.

(** Every transaction ends; a response it returns is one that was heard after
    the request was sent. *)
Lemma transaction_ok c req t d x :
  client_ok c -> exchange_fair c req t d x ->
  exists c3 outs r, doTransaction c req t d x = Some (c3, outs, r) /\ client_ok c3 /\
    forall m, r = Ok m ->
      let seq := next_sequence (cl_seq c) in
      exists b, encode (req <| g_Sequence := seq |>) = Ok b /\ head outs = Some (OSend b (cl_remote c)) /\
        head (omap (answer_to (cl_remote c) seq t) (heard (ex_during x))) = Some m /\ cl_pending c3 !! seq = None /\
        cl_cfg c3 = cl_cfg c.
Proof.
  intros O F. destruct (ex_ctx x) eqn:Ec; [unfold doTransaction; rewrite Ec; do 3 eexists; by split_and!|].
  pose proof (begin_ok c req t d (ex_sent x) O) as O1.
  destruct (beginTransaction c req t d (ex_sent x)) as [c1 [[h b]|e]] eqn:B;
    [|unfold doTransaction; rewrite Ec, B; do 3 eexists; by split_and!].
  assert (S' : ex_sent x = true).
  { revert B. unfold beginTransaction. destruct (nextSequence c) as [c0 s0].
    destruct (registerTransaction _ _) as [c' [h'|e']]; [|done]. destruct (encode _); [|done]. by destruct (ex_sent x). }
  pose proof B as B'. rewrite S' in B'.
  destruct (exchange_result c req t d x c1 h b O Ec S' B' (F _ _ _ B)) as (c3 & outs & E & O3 & P & En & G).
  do 3 eexists. split; [exact E|]. split; [exact O3|]. intros m Hm. exists b. split; [exact En|]. split; [done|]. split; [|split; [exact P|exact G]].
  revert Hm. unfold mailbox_result. destruct (head (omap (answer_to _ _ _) _)) as [m0|];
    destruct (ex_wakeup x); try done; first [by case_match|by intros [= <-]].
Qed.

(** C15: creating a session at the PGW.  [CreateSession] returns whatever
    arrives; when it returns a session, its request was sent with the fresh
    sequence number and local TEIDs, the first datagram that the configured
    PGW sent with that number as a Create Session Response is the answer, it
    was sent after the request, its cause is 16, and the session is what the
    parser reads from it, with the local TEID of the request; nothing of the
    transaction stays behind. *)
Theorem create_session_exchange c sess x :
  creachable c -> arrives_ok (ex_during x) ->
  (forall c0 req u, createSessionRequest c sess = Some (c0, (req, u)) ->
     exchange_fair c0 req gtpv2CreateSessionResp "Create Session" x) ->
  let seq := next_sequence (cl_seq c) in
  exists c0 req u, createSessionRequest c sess = Some (c0, (req, u)) /\ cl_nextTEID c0 = u /\
  exists c' outs r, CreateSession c false (Some sess) x = Some (c', outs, r) /\
    forall res, r = Ok res ->
      exists b m packet peer sent, encode (req <| g_Sequence := seq |>) = Ok b /\
        head outs = Some (OSend b (cl_remote c)) /\
        head (omap (answer_to (cl_remote c) seq gtpv2CreateSessionResp) (heard (ex_during x))) = Some m /\
        OpIncoming packet peer sent ∈ ex_during x /\ IPEqual (a_IP peer) (a_IP (cl_remote c)) = true /\
        decodeGTPv2Message packet = Some (Ok m) /\
        parseCreateSessionResponse c m u = Some (Ok (res, causeRequestAccepted)) /\
        r_LocalGTPUTEID res = u /\ cl_pending c' !! seq = None.
Proof.
  intros O A F seq. destruct (createSessionRequest_total c sess) as (c0 & p & u & R & Q1 & Q2 & Q3 & Q4 & Q5).
  exists c0, (mkMsg gtpv2CreateSessionReq 0 true 0 p), u. split; [exact R|]. split; [exact Q4|].
  destruct (transaction_ok c0 _ gtpv2CreateSessionResp "Create Session" x (Q5 (creachable_ok _ O)) (F _ _ _ R))
    as (c3 & outs & r & E & _ & H).
  unfold CreateSession. rewrite R. cbn [mbind option_bind]. rewrite E. cbn [mbind option_bind].
  rewrite Q1, Q2 in H. fold seq in H.
  unfold createSessionFinish. destruct r as [m|e]; cbn [mbind option_bind]; [|do 3 eexists; by split].
  destruct (H m eq_refl) as (b & En & Ho & Hm & Hp & Hg).
  destruct (answer_is_datagram _ _ _ _ _ Hm) as (packet & peer & sent & I & E1 & _ & D & _ & T).
  rewrite T, Z.eqb_refl. cbn [negb].
  destruct (parse_response_total c3 m u) as [pr Hpr].
  { eapply decode_payload_bytes; [|exact D]. by eapply A. }
  rewrite (parse_cfg c3 c) in Hpr |- * by congruence. rewrite Hpr. cbn [mbind option_bind]. do 3 eexists. split; [done|]. intros res Hres.
  destruct pr as [[res' cause]|e]; [|done]. injection Hres as ->. apply parse_ok in Hpr as Hpo. destruct Hpo as [-> Hl].
  exists b, m, packet, peer, sent. split_and!; try done.
Qed.

Definition demo_create_reply : list Z :=
  match encode (mkMsg gtpv2CreateSessionResp 1 true 8
                  (pgw_reply 16 (IPv4 10 45 0 2) (IPv4 192 0 2 9) (IPv4 192 0 2 10) 77 99)) with
  | Ok b => b
  | Err _ => []
  end.

(** An echo of the watchdog runs next to the Create Session. *)
Definition demo_create : exchange := mkExchange false true
  [OpBegin echoRequest gtpv2EchoResponse "Echo" true; OpIncoming demo_create_reply demo_peer true] WResponse.

Lemma demo_create_bytes : bytes_ok demo_create_reply.
Proof.
  assert (H : forallb (fun z => (0 <=? z) && (z <? 256)) demo_create_reply = true) by (vm_compute; reflexivity).
  rewrite forallb_forall in H. apply Forall_forall. intros z Hz%list_elem_of_In. specialize (H z Hz). bools. unfold byte_ok. lia.
Qed.

Lemma demo_create_runs : exists c' outs, CreateSession demo_client false (Some demo_lost_session) demo_create =
  Some (c', outs, Ok (mkResult (IPv4 10 45 0 2) [] (IPv4 192 0 2 9) (IPv4 192 0 2 10) 77 1002 99)).
Proof. vm_compute. eauto. Qed.

Lemma create_session_exchange_witness :
  exists c' outs b, CreateSession demo_client false (Some demo_lost_session) demo_create =
    Some (c', outs, Ok (mkResult (IPv4 10 45 0 2) [] (IPv4 192 0 2 9) (IPv4 192 0 2 10) 77 1002 99)) /\
    head outs = Some (OSend b (cl_remote demo_client)) /\ cl_pending c' !! 8 = None.
Proof.
  destruct (create_session_exchange demo_client demo_lost_session demo_create demo_client_reachable)
    as (c0 & req & u & _ & _ & c' & outs & r & E & H).
  - intros packet peer sent Hi. unfold demo_create in Hi. cbn [ex_during] in Hi.
    apply elem_of_cons in Hi as [Hi|Hi]; [discriminate Hi|].
    apply list_elem_of_singleton in Hi. injection Hi as -> _ _. apply demo_create_bytes.
  - intros c0 req u _ c1 h b _. split; [exact I|]. intros c2 o2 _. split; [exact I|]. intros c3 o3 _. exact I.
  - destruct demo_create_runs as (c2 & o2 & E2). rewrite E2 in E. injection E as -> -> <-.
    destruct (H _ eq_refl) as (b & m & packet & peer & sent & _ & Ho & _ & _ & _ & _ & _ & _ & Hp).
    exists c', outs, b. split; [exact E2|]. split; [exact Ho|exact Hp].
Defined.

(** * The well-formed clients *)
Record client_wf (c : GTPClient) : Prop := {
  wf_ok : client_ok c;
  wf_seq : 0 <= cl_seq c <= maxGTPv2Sequence;
  wf_keys : forall k h, cl_pending c !! k = Some h -> minGTPv2Sequence <= k <= maxGTPv2Sequence;
  wf_distinct : forall k1 k2 h, cl_pending c !! k1 = Some h -> cl_pending c !! k2 = Some h -> k1 = k2;
  wf_closed : cl_closed c = true -> cl_pending c = ∅;
  wf_teid : u_ok 32 (cl_nextTEID c);
  wf_failures : 0 <= cl_failures c;
  wf_health : cl_peerHealth c = PeerHealthUnhealthy <-> 0 < cl_failures c /\ ec_MaxFailures (cl_echoCfg c) <= cl_failures c
}.

Lemma wf_new cfg e now rnd c : NewGTP cfg e now rnd = Some c -> client_wf c.
Proof.
  intros N. pose proof (creachable_ok c (cr_new _ _ _ _ _ N)) as O. revert N. unfold NewGTP.
  destruct (negb _); [done|]. destruct (negb _); [done|]. destruct (chargingCharacteristicsValue _); [|done].
  intros [= <-]. split; [exact O| |done|done|done| |done|]; cbn [cl_seq cl_nextTEID cl_peerHealth cl_failures].
  - unfold randomInitialGTPv2Sequence, minGTPv2Sequence, maxGTPv2Sequence. destruct rnd as [b|]; [|lia].
    change 8388607 with (Z.ones 23). rewrite Z.land_ones by lia.
    pose proof (Z.mod_pos_bound (be_dec b) (2 ^ 23) ltac:(lia)). change (Z.ones 23) with (2 ^ 23 - 1).
    destruct (_ =? 0); lia.
  - unfold u_ok, wrap. apply Z.mod_pos_bound. lia.
  - split; [done|]. lia.
Qed.

(** A step that changes neither numbers nor health. *)
Lemma wf_pending c c' :
  client_wf c -> client_ok c' -> cl_seq c' = cl_seq c -> cl_nextTEID c' = cl_nextTEID c -> cl_failures c' = cl_failures c ->
  cl_peerHealth c' = cl_peerHealth c -> cl_echoCfg c' = cl_echoCfg c ->
  (forall k h, cl_pending c' !! k = Some h -> cl_pending c !! k = Some h) ->
  (cl_closed c' = true -> cl_pending c' = ∅) -> client_wf c'.
Proof.
  intros [W1 W2 W3 W4 W5 W6 W7 W8] O S1 T F H E P C. split; rewrite ?S1, ?T, ?F, ?H, ?E; try done.
  - intros k h Hk%P. by eapply W3.
  - intros k1 k2 h H1%P H2%P. by eapply W4.
Qed.

Lemma wf_distinct_ok c : client_ok c -> forall k1 k2 h, cl_pending c !! k1 = Some h -> cl_pending c !! k2 = Some h -> k1 = k2.
Proof. intros [O _] k1 k2 h H1 H2. apply O in H1 as (t1 & E1 & <-). apply O in H2 as (t2 & E2 & <-). congruence. Qed.

Lemma wf_begin c req t d sent : client_wf c -> client_wf (fst (beginTransaction c req t d sent)).
Proof.
  intros W. pose proof (begin_ok c req t d sent (wf_ok _ W)) as O. revert O. unfold beginTransaction.
  cbn [nextSequence]. unfold registerTransaction. cbn [tx_sequence]. set (n := next_sequence (cl_seq c)).
  assert (R : minGTPv2Sequence <= n <= maxGTPv2Sequence).
  { apply next_sequence_range. pose proof (wf_seq _ W) as Hs. unfold maxGTPv2Sequence in Hs. lia. }
  change (cl_closed (c <| cl_seq := n |>)) with (cl_closed c). change (cl_pending (c <| cl_seq := n |>)) with (cl_pending c).
  assert (R0 : 0 <= n <= maxGTPv2Sequence) by (unfold minGTPv2Sequence in R; lia).
  destruct W as [W1 W2 W3 W4 W5 W6 W7 W8].
  destruct (cl_closed c) eqn:Ec; [intros O; split; try done; cbn; intros _; by apply W5|].
  destruct (cl_pending c !! n) eqn:En; [intros O; split; try done; cbn; by rewrite ?Ec|].
  destruct (encode _) as [b|e]; [destruct sent|]; intros O; cbn [fst] in *;
    (split; try done; [|by apply wf_distinct_ok|by cbn; rewrite Ec]); cbn; intros k h.
  - intros [[<- _]|[_ Hk]]%lookup_insert_Some; [done|by eapply W3].
  - intros [_ [[<- _]|[_ Hk]]%lookup_insert_Some]%lookup_delete_Some; [done|by eapply W3].
  - intros [_ [[<- _]|[_ Hk]]%lookup_insert_Some]%lookup_delete_Some; [done|by eapply W3].
Qed.

Lemma wf_echo c r lat now : client_wf c -> client_wf (recordEcho c r lat now).
Proof.
  intros [W1 W2 W3 W4 W5 W6 W7 W8]. unfold recordEcho. destruct (echo_result r) as [s|e].
  - split; try done. cbn. split; [done|lia].
  - unfold recordEchoFailure. cbn [cl_failures cl_echoCfg cl_peerHealth upd].
    destruct (_ <=? _) eqn:Em; cbn [andb]; bools.
    + destruct (bool_decide _) eqn:Eh; cbn [negb].
      * apply bool_decide_eq_true in Eh. cbn in Eh. split; try done; cbn; [lia|]. cbn in Em. split; [lia|done].
      * split; try done; cbn in *; [lia|]. split; [lia|done].
    + split; try done; cbn in *; [lia|]. rewrite W8. lia.
Qed.

Lemma perform_wf c0 op c1 o1 : client_wf c0 -> perform c0 op = Some (c1, o1) -> client_wf c1.
Proof.
  intros W E. destruct op as [p peer sent|req t d sent|h w| |r lat now'| | | |]; cbn [perform] in E.
  - pose proof (incoming_ok _ _ _ _ _ _ (wf_ok _ W) E) as O. apply incoming_deliver in E. revert O. rewrite E.
    unfold deliver_msg. destruct (response_msg _ _) as [m|]; [|done]. destruct (lookupTransaction _ _) as [[h tx]|]; [|done].
    destruct (negb _); intros O; (apply (wf_pending c0); try done; apply W).
  - pose proof (wf_begin c0 req t d sent W) as B. destruct (beginTransaction c0 req t d sent) as [c' [[h b]|x]]; by injection E as <- _.
  - destruct (wake c0 h w) as [[c' r]|] eqn:Ew; injection E as <- _; [|done].
    apply wake_unregisters in Ew as (tx & _ & ->). apply (wf_pending c0); try done; [apply unregister_ok, W| |].
    + intros k i. cbn. by intros [_ ?]%lookup_delete_Some.
    + cbn. intros Ec%(wf_closed _ W). rewrite Ec. apply delete_empty.
  - injection E as <- _. destruct W as [W1 W2 W3 W4 W5 W6 W7 W8]. unfold nextTEIDValue.
    destruct (_ =? 0); (split; try done; cbn; unfold u_ok, wrap; apply Z.mod_pos_bound; lia).
  - injection E as <- _. by apply wf_echo.
  - injection E as <- _. unfold StartEchoWatchdog. destruct (negb _); [done|]. destruct (cl_watchdogStarted c0); [done|].
    apply (wf_pending c0); try done; apply W.
  - injection E as <- _. apply (wf_pending c0); try done; apply W.
  - injection E as <- _. apply (wf_pending c0); try done; apply W.
  - injection E as <- _. unfold Close. destruct (cl_closed c0) eqn:Ec; [done|].
    apply (wf_pending c0); try done; apply failPending_ok, W.
Qed.

Lemma performs_wf ops c c' outs : client_wf c -> performs c ops = Some (c', outs) -> client_wf c'.
Proof.
  revert c c' outs. induction ops as [|op ops IH]; intros c c' outs W; cbn [performs]; [by intros [= <- _]|].
  destruct (perform c op) as [[c1 o1]|] eqn:E1; cbn [mbind option_bind]; [|done].
  destruct (performs c1 ops) as [[c2 o2]|] eqn:E2; cbn [mbind option_bind]; [|done]. intros [= <- _].
  eapply IH; [by eapply perform_wf|exact E2].
Qed.

Lemma transaction_wf c req t d x c' outs r :
  client_wf c -> doTransaction c req t d x = Some (c', outs, r) -> client_wf c'.
Proof.
  intros W. unfold doTransaction. destruct (ex_ctx x); [by intros [= <- _ _]|].
  pose proof (wf_begin c req t d (ex_sent x) W) as B.
  destruct (beginTransaction c req t d (ex_sent x)) as [c1 [[h b]|e]]; cbn [fst] in B; [|by intros [= <- _ _]].
  destruct (performs c1 (ex_during x)) as [[c2 o2]|] eqn:P; cbn [mbind option_bind]; [|done].
  destruct (wake c2 h (ex_wakeup x)) as [[c3 r3]|] eqn:K; cbn [mbind option_bind]; [|done]. intros [= <- _ _].
  apply (perform_wf c2 (OpFinish h (ex_wakeup x)) c3 []); [by eapply performs_wf|]. cbn [perform]. by rewrite K.
Qed.

(** C37: every client is well formed, whatever happens to it: its sequence
    numbers and those of the pending transactions are valid, no two numbers
    lead to one transaction, a closed client has none, the TEID counter is a
    32-bit word, and the peer is unhealthy exactly when the configured number
    of echoes has failed in a row. *)
Theorem client_well_formed cfg e now rnd c0 ops :
  NewGTP cfg e now rnd = Some c0 ->
  exists c outs, performs c0 ops = Some (c, outs) /\ client_wf c.
Proof.
  intros N%wf_new. revert c0 N. induction ops as [|op ops IH]; intros c0 W; cbn [performs]; [eauto|].
  destruct (perform_total c0 op) as (c1 & o1 & E). rewrite E. cbn [mbind option_bind].
  assert (W1 : client_wf c1) by (by eapply perform_wf).
  destruct (IH c1 W1) as (c & outs & P & Wc). rewrite P. cbn [mbind option_bind]. eauto.
Qed.

Lemma client_well_formed_witness :
  exists c outs, performs demo_client (ex_during demo_exchange) = Some (c, outs) /\ client_wf c.
Proof. exact (client_well_formed GtpClient.demo_cfg zeroGTPEchoConfig 1000 (Some [0; 0; 0; 7]) demo_client (ex_during demo_exchange) eq_refl). Defined.
