(* ===== verification/Gtpu.v ===== *)
(** The GTP-U forwarder: [internal/gtpu/forwarder.go].  Packet codecs, the
    forwarder's three tables and its handling of control and data packets.
    The table entries are the clones [AddSession] makes and are never written
    to, so the tables hold values. *)
From S2P Require Import Prelude.
From S2P Require Import GoNet.
From S2P Require Import Config.
From S2P Require Import Session.
From S2P Require Import Gtpv2.
Open Scope string_scope.
Open Scope Z_scope.

Definition portGTPU : Z := 2152.
Definition msgTypeEchoRequest : Z := 1.
Definition msgTypeEchoResponse : Z := 2.
Definition msgTypeErrorIndication : Z := 26.
Definition msgTypeGTPU : Z := 255.
Definition ieRecoveryU : Z := 14.
Definition ieTunnelEndpointIDDataI : Z := 16.
Definition headerLenGTPU : nat := 8.
Definition headerLenGTPUWithSequence : nat := 12.
Definition maxUDPPacket : Z := 65535.

Inductive gtpu_err :=
| UTruncated | UVersion (v : Z) | UType (t : Z) | ULength (l : Z) (remaining : Z)
| USequenceTruncated | UOffset | UNoTEID | UTooLarge (n : Z)
| UPeer | UUnknownTEID (t : Z) | UNoSessionID | UNoLocalTEID | UNoRemoteTEID | UNoIP | UNoSession.

(** * Codec *)
Definition EncodePacket (teid : Z) (payload : list Z) : result (list Z) gtpu_err :=
  if teid =? 0 then Err UNoTEID
  else if maxUDPPacket - Z.of_nat headerLenGTPU <? Z.of_nat (length payload)
  then Err (UTooLarge (Z.of_nat (length payload)))
  else Ok ([0x30; msgTypeGTPU] ++ be 2 (wrap 16 (Z.of_nat (length payload))) ++ be 4 teid ++ payload)%list.

Definition DecodePacket (packet : list Z) : go (result (Z * list Z) gtpu_err) :=
  if (length packet <? headerLenGTPU)%nat then Some (Err UTruncated)
  else
    p0 ← go_idx packet 0;
    if negb (Z.shiftr p0 5 =? 1) then Some (Err (UVersion (Z.shiftr p0 5)))
    else
      p1 ← go_idx packet 1;
      if negb (p1 =? msgTypeGTPU) then Some (Err (UType p1))
      else
        lf ← go_slice packet 2 4;
        let len := be_dec lf in
        let remaining := Z.of_nat (length packet) - Z.of_nat headerLenGTPU in
        if remaining <? len then Some (Err (ULength len remaining))
        else
          tf ← go_slice packet 4 8;
          let teid := be_dec tf in
          if teid =? 0 then Some (Err UNoTEID)
          else p ← go_slice packet 8 (8 + Z.to_nat len); Some (Ok (teid, p)).

Definition EncodeEchoResponse (sequence : Z) : list Z :=
  ([0x32; msgTypeEchoResponse] ++ be 2 (4 + 3) ++ be 4 0 ++ be 2 sequence ++ [0; 0] ++ [ieRecoveryU; 1; 0])%list.

Definition EncodeEchoRequest (sequence : Z) : list Z :=
  ([0x32; msgTypeEchoRequest] ++ be 2 4 ++ be 4 0 ++ be 2 sequence ++ [0; 0])%list.

(** The loop of [parseOffendingTEID]; a round moves on by at least one byte,
    so [length payload] rounds are enough. *)
Fixpoint offending_loop (fuel : nat) (payload : list Z) (i : nat) : go Z :=
  if (i + 2 <=? length payload)%nat then
    match fuel with
    | O => None
    | S fuel =>
      typ ← go_idx payload i;
      if typ =? ieTunnelEndpointIDDataI then
        if (i + 5 <=? length payload)%nat then t ← go_slice payload (i + 1) (i + 5); Some (be_dec t)
        else Some 0
      else if typ =? ieRecoveryU then offending_loop fuel payload (i + 2)
      else offending_loop fuel payload (i + 1)
    end
  else Some 0.

Definition parseOffendingTEID (payload : list Z) : go Z := offending_loop (length payload) payload 0.

Record ControlMessage := mkControl {
  cm_Type : Z; cm_TEID : Z; cm_Sequence : Z; cm_Payload : list Z; cm_OffendingTEID : Z
}.

Definition DecodeControlPacket (packet : list Z) : go (result ControlMessage gtpu_err) :=
  if (length packet <? headerLenGTPU)%nat then Some (Err UTruncated)
  else
    p0 ← go_idx packet 0;
    if negb (Z.shiftr p0 5 =? 1) then Some (Err (UVersion (Z.shiftr p0 5)))
    else
      msgType ← go_idx packet 1;
      if (negb (msgType =? msgTypeEchoRequest) && negb (msgType =? msgTypeEchoResponse)
          && negb (msgType =? msgTypeErrorIndication))%bool
      then Some (Err (UType msgType))
      else
        lf ← go_slice packet 2 4;
        let len := be_dec lf in
        let remaining := Z.of_nat (length packet) - Z.of_nat headerLenGTPU in
        if remaining <? len then Some (Err (ULength len remaining))
        else
          tf ← go_slice packet 4 8;
          let payloadEnd := (headerLenGTPU + Z.to_nat len)%nat in
          let hasSeq := negb (Z.land p0 0x02 =? 0) in
          if (hasSeq && ((length packet <? headerLenGTPUWithSequence)%nat || (len <? 4)))%bool
          then Some (Err USequenceTruncated)
          else
            seq ← (if hasSeq then s ← go_slice packet 8 10; Some (be_dec s) else Some 0);
            let payloadOffset := if hasSeq then headerLenGTPUWithSequence else headerLenGTPU in
            if (payloadEnd <? payloadOffset)%nat then Some (Err UOffset)
            else
              p ← go_slice packet payloadOffset payloadEnd;
              off ← parseOffendingTEID p;
              Some (Ok (mkControl msgType (be_dec tf) seq p off)).

(** * The forwarder *)
Record Forwarder := mkForwarder {
  f_remote : UDPAddr;
  f_bySessionID : gmap string Session; f_byLocalTEID : gmap Z Session; f_byIP : gmap string Session;
  f_errorHandler : bool
}.

#[global] Instance Forwarder_eta : Eta Forwarder := fun x =>
  mkForwarder (f_remote x) (f_bySessionID x) (f_byLocalTEID x) (f_byIP x) (f_errorHandler x).

(** [newForwarder] without the socket. *)
Definition newForwarder (localIP remoteIP : string) (remotePort : Z) : option Forwarder :=
  if negb (non_nil (ParseIP localIP)) then None
  else if negb (non_nil (ParseIP remoteIP)) then None
  else Some (mkForwarder (mkAddr (ParseIP remoteIP) remotePort) ∅ ∅ ∅ false).

(** Drop the two secondary entries of [old]. *)
Definition unbind (old : Session) (f : Forwarder) : Forwarder :=
  let f := f <| f_byLocalTEID ::= delete (s_LocalGTPUTEID old) |> in
  if non_nil (s_SubscriberIP old) then f <| f_byIP ::= delete (IPString (s_SubscriberIP old)) |> else f.

Definition AddSession (f : Forwarder) (sess : Session) : Forwarder * option gtpu_err :=
  if negb (nonempty (s_ID sess)) then (f, Some UNoSessionID)
  else if s_LocalGTPUTEID sess =? 0 then (f, Some UNoLocalTEID)
  else if s_RemoteGTPUTEID sess =? 0 then (f, Some UNoRemoteTEID)
  else if negb (non_nil (s_SubscriberIP sess)) then (f, Some UNoIP)
  else
    let f := match f_bySessionID f !! s_ID sess with Some old => unbind old f | None => f end in
    (f <| f_bySessionID ::= <[s_ID sess := sess]> |>
       <| f_byLocalTEID ::= <[s_LocalGTPUTEID sess := sess]> |>
       <| f_byIP ::= <[IPString (s_SubscriberIP sess) := sess]> |>, None).

Definition RemoveSession (f : Forwarder) (sessionID : string) : Forwarder :=
  match f_bySessionID f !! sessionID with
  | None => f
  | Some sess => unbind sess (f <| f_bySessionID ::= delete sessionID |>)
  end.

Definition remoteForSession (f : Forwarder) (sess : Session) : UDPAddr :=
  if non_nil (s_PGWUserIP sess) then mkAddr (s_PGWUserIP sess) (a_Port (f_remote f)) else f_remote f.

(** [SendUplinkPacket]: the datagram and its destination. *)
Definition SendUplinkPacket (f : Forwarder) (sess : Session) (payload : list Z)
  : result (list Z * UDPAddr) gtpu_err :=
  if s_RemoteGTPUTEID sess =? 0 then Err UNoRemoteTEID
  else match EncodePacket (s_RemoteGTPUTEID sess) payload with
  | Err e => Err e
  | Ok b => Ok (b, remoteForSession f sess)
  end.

Definition Decapsulate (f : Forwarder) (packet : list Z) (peer : UDPAddr)
  : go (result (Session * list Z) gtpu_err) :=
  d ← DecodePacket packet;
  match d with
  | Err e => Some (Err e)
  | Ok (teid, payload) =>
    if negb (IPEqual (a_IP peer) (a_IP (f_remote f))) then Some (Err UPeer)
    else match f_byLocalTEID f !! teid with
    | None => Some (Err (UUnknownTEID teid))
    | Some sess => Some (Ok (sess, payload))
    end
  end.

(** What the read loop does with a control packet. *)
Inductive uoutput :=
| USend (b : list Z) (peer : UDPAddr)
| UIndication (peer : UDPAddr) (teid : Z) (raw : list Z).

(** The boolean says whether the packet was a control packet. *)
Definition handleControlPacket (f : Forwarder) (packet : list Z) (peer : UDPAddr)
  : go (bool * list uoutput) :=
  d ← DecodeControlPacket packet;
  match d with
  | Err _ => Some (false, [])
  | Ok msg =>
    if negb (IPEqual (a_IP peer) (a_IP (f_remote f))) then Some (true, [])
    else if cm_Type msg =? msgTypeEchoRequest
    then Some (true, [USend (EncodeEchoResponse (cm_Sequence msg)) peer])
    else if cm_Type msg =? msgTypeErrorIndication
    then Some (true, if f_errorHandler f then [UIndication peer (cm_OffendingTEID msg) (cm_Payload msg)] else [])
    else Some (false, [])
  end.

(** One packet of [readLoop]: control packets first, then decapsulation. *)
Definition handlePacket (f : Forwarder) (packet : list Z) (peer : UDPAddr)
  : go (list uoutput * option (Session * list Z)) :=
  '(handled, out) ← handleControlPacket f packet peer;
  if (handled : bool) then Some (out, None)
  else
    d ← Decapsulate f packet peer;
    Some (out, match d with Ok x => Some x | Err _ => None end).

(** What one turn of [readLoop] finds: the end of the context, the timeout of
    the read, another error of the socket, a datagram. *)
Inductive udp_read := ReadCtxDone | ReadTimeout | ReadFailed | ReadPacket (packet : list Z) (peer : UDPAddr).

(** [readLoop]: the outputs and the deliveries; [true] when the loop ended.
    The handlers of the forwarder run between the turns, so each turn comes
    with the state it sees. *)
Fixpoint readLoop (turns : list (Forwarder * udp_read)) : go (list uoutput * list (Session * list Z) * bool) :=
  match turns with
  | [] => Some ([], [], false)
  | (_, ReadCtxDone) :: _ | (_, ReadFailed) :: _ => Some ([], [], true)
  | (_, ReadTimeout) :: turns => readLoop turns
  | (f, ReadPacket packet peer) :: turns =>
    '(out, delivered) ← handlePacket f packet peer;
    '(outs, ds, ended) ← readLoop turns;
    Some ((out ++ outs)%list, (option_list delivered ++ ds)%list, ended)
  end.

Definition forwarder_SetErrorIndicationHandler (f : Forwarder) : Forwarder := f <| f_errorHandler := true |>.

Definition NewForwarder (cfg : GTPConfig) : option Forwarder :=
  newForwarder (gt_LocalGTPUIP cfg) (gt_RemotePGWGTPUIP cfg) portGTPU.

(** [Start]: whether the reader is started. *)
Definition forwarder_Start (ctx : option string) : bool * option string :=
  match ctx with Some e => (false, Some e) | None => (true, None) end.

(** [Stop]: the socket is closed once. *)
Definition forwarder_Stop (stopped : bool) (close : option string) : bool * option string :=
  if stopped then (true, None) else (true, close).

(** * Lemmas *)
Lemma offending_loop_total fuel p i :
  (length p <= fuel + i)%nat -> exists t, offending_loop fuel p i = Some t.
Proof.
  revert i. induction fuel as [|fuel IH]; intros i Hf; cbn [offending_loop].
  all: destruct (i + 2 <=? length p)%nat eqn:E; [|by eexists]; apply Nat.leb_le in E; try lia.
  rewrite (go_idx_Some p i) by lia. cbn [mbind option_bind].
  destruct (_ =? ieTunnelEndpointIDDataI).
  - destruct (i + 5 <=? length p)%nat eqn:E5; [|by eexists]. apply Nat.leb_le in E5.
    rewrite go_slice_Some by lia. by eexists.
  - destruct (_ =? ieRecoveryU); apply IH; lia.
Qed.

Lemma DecodePacket_total b : bytes_ok b -> exists r, DecodePacket b = Some r.
Proof.
  intros Hb. unfold DecodePacket, headerLenGTPU. destruct (_ <? 8)%nat eqn:E; [by eexists|]. apply Nat.ltb_ge in E.
  rewrite (go_idx_Some b 0), (go_idx_Some b 1), (go_slice_Some b 2 4), (go_slice_Some b 4 8) by lia.
  cbn [mbind option_bind]. destruct (negb _); [by eexists|]. destruct (negb _); [by eexists|].
  assert (Hl : 0 <= be_dec (take (4 - 2) (drop 2 b))) by (apply be_dec_bound; auto with bytes).
  destruct (_ <? _) eqn:E2; [by eexists|]. bools. destruct (_ =? 0); [by eexists|].
  rewrite go_slice_Some by lia. by eexists.
Qed.

Lemma DecodeControlPacket_total b : bytes_ok b -> exists r, DecodeControlPacket b = Some r.
Proof.
  intros Hb. unfold DecodeControlPacket, headerLenGTPU, headerLenGTPUWithSequence.
  destruct (_ <? 8)%nat eqn:E; [by eexists|]. apply Nat.ltb_ge in E.
  rewrite (go_idx_Some b 0), (go_idx_Some b 1), (go_slice_Some b 2 4), (go_slice_Some b 4 8) by lia.
  cbn [mbind option_bind]. destruct (negb _); [by eexists|]. destruct (_ && _ && _)%bool; [by eexists|].
  set (l := be_dec (take (4 - 2) (drop 2 b))).
  assert (Hl : 0 <= l) by (apply be_dec_bound; auto with bytes).
  destruct (_ <? l) eqn:E2; [by eexists|]. bools.
  destruct (negb (Z.land (nth 0 b 0) 2 =? 0)) eqn:Es; cbn [andb].
  - destruct (_ || _)%bool eqn:E3; [by eexists|]. bools. rewrite Nat.ltb_ge in *.
    rewrite (go_slice_Some b 8 10) by lia. cbn [mbind option_bind].
    destruct (_ <? 12)%nat eqn:E4; [by eexists|]. apply Nat.ltb_ge in E4.
    rewrite go_slice_Some by lia. cbn [mbind option_bind].
    destruct (offending_loop_total (length (take (8 + Z.to_nat l - 12) (drop 12 b))) (take (8 + Z.to_nat l - 12) (drop 12 b)) 0)
      as [t Ht]; [lia|]. unfold parseOffendingTEID. rewrite Ht. by eexists.
  - cbn [mbind option_bind]. destruct (_ <? 8)%nat eqn:E4; [by eexists|]. apply Nat.ltb_ge in E4.
    rewrite go_slice_Some by lia. cbn [mbind option_bind].
    destruct (offending_loop_total (length (take (8 + Z.to_nat l - 8) (drop 8 b))) (take (8 + Z.to_nat l - 8) (drop 8 b)) 0)
      as [t Ht]; [lia|]. unfold parseOffendingTEID. rewrite Ht. by eexists.
Qed.

Lemma decode_encode_packet teid payload b extra :
  u_ok 32 teid -> EncodePacket teid payload = Ok b -> DecodePacket (b ++ extra)%list = Some (Ok (teid, payload)).
Proof.
  unfold EncodePacket. intros Ht. destruct (teid =? 0) eqn:E0; [done|]. destruct (_ <? _) eqn:E1; [done|]. bools.
  unfold maxUDPPacket, headerLenGTPU in E1. intros [= <-].
  assert (Hw : wrap 16 (Z.of_nat (length payload)) = Z.of_nat (length payload))
    by (unfold wrap; apply Z.mod_small; lia). rewrite Hw. clear Hw.
  set (n := Z.of_nat (length payload)) in *.
  set (b := ([48; msgTypeGTPU] ++ be 2 n ++ be 4 teid ++ payload ++ extra)%list).
  match goal with |- DecodePacket ?x = _ => replace x with b by done end.
  assert (Hlen : length b = (8 + length payload + length extra)%nat) by (unfold b; len).
  unfold DecodePacket, headerLenGTPU. rewrite (proj2 (Nat.ltb_ge _ _)) by lia.
  replace (go_idx b 0) with (Some 48) by done. replace (go_idx b 1) with (Some msgTypeGTPU) by done.
  replace (go_slice b 2 4) with (Some (be 2 n)) by (symmetry; apply (go_slice_app [_; _]); len).
  replace (go_slice b 4 8) with (Some (be 4 teid))
    by (symmetry; unfold b; rewrite (app_assoc [_; _]); apply go_slice_app; len).
  cbn [mbind option_bind]. cbn [Z.eqb negb Pos.eqb Z.shiftr Z.shiftl Z.opp Pos.iter Z.div2 msgTypeGTPU].
  rewrite be_dec_be_small by (cbn; lia). rewrite (be_dec_be_small 4) by (unfold u_ok in Ht; cbn; lia).
  rewrite (proj2 (Z.ltb_ge _ _)) by lia. rewrite (proj2 (Z.eqb_neq _ _) E0).
  replace (go_slice b 8 _) with (Some payload); [done|]. symmetry. unfold b.
  rewrite (app_assoc [_; _]), (app_assoc _ (be 4 teid)). apply go_slice_app; [len|unfold n; len].
Qed.

(** ** The tables *)
Definition f_ok (f : Forwarder) : Prop :=
  (forall id s, f_bySessionID f !! id = Some s -> s_ID s = id /\ s_SubscriberIP s <> []) /\
  (forall t s, f_byLocalTEID f !! t = Some s -> s_LocalGTPUTEID s = t /\ f_bySessionID f !! s_ID s = Some s) /\
  (forall k s, f_byIP f !! k = Some s -> IPString (s_SubscriberIP s) = k /\ f_bySessionID f !! s_ID s = Some s).

Inductive freachable : Forwarder -> Prop :=
| fr_new l r p f : newForwarder l r p = Some f -> freachable f
| fr_add f s : freachable f -> freachable (fst (AddSession f s))
| fr_remove f id : freachable f -> freachable (RemoveSession f id)
| fr_handler f : freachable f -> freachable (f <| f_errorHandler := true |>).

Lemma unbind_lookup old f :
  s_SubscriberIP old <> [] ->
  unbind old f = f <| f_byLocalTEID ::= delete (s_LocalGTPUTEID old) |>
                   <| f_byIP ::= delete (IPString (s_SubscriberIP old)) |>.
Proof. intros H. unfold unbind. by rewrite (proj2 (non_nil_spec _) H). Qed.

Lemma remove_ok f id : f_ok f -> f_ok (RemoveSession f id).
Proof.
  intros (H1 & H2 & H3). unfold RemoveSession. destruct (f_bySessionID f !! id) as [old|] eqn:E; [|done].
  destruct (H1 id old E) as [Hid Hip]. rewrite unbind_lookup by done. split_and!; cbn.
  - intros i s. rewrite lookup_delete_Some. intros [_ H]. by apply H1.
  - intros t s. rewrite lookup_delete_Some. intros [Ht H]. destruct (H2 t s H) as [? Hs].
    split; [done|]. rewrite lookup_delete_ne; [done|]. intros Ei. rewrite <- Ei, E in Hs. injection Hs as <-. congruence.
  - intros k s. rewrite lookup_delete_Some. intros [Hk H]. destruct (H3 k s H) as [? Hs].
    split; [done|]. rewrite lookup_delete_ne; [done|]. intros Ei. rewrite <- Ei, E in Hs. injection Hs as <-. congruence.
Qed.

(** Adding a session is removing its previous binding and inserting. *)
Lemma insert_ok f s :
  f_ok f -> f_bySessionID f !! s_ID s = None -> s_SubscriberIP s <> [] ->
  f_ok (f <| f_bySessionID ::= <[s_ID s := s]> |> <| f_byLocalTEID ::= <[s_LocalGTPUTEID s := s]> |>
          <| f_byIP ::= <[IPString (s_SubscriberIP s) := s]> |>).
Proof.
  intros (H1 & H2 & H3) Hn Hip. split_and!; cbn.
  - intros i x. rewrite lookup_insert_Some. intros [[<- <-]|[_ H]]; [done|]. by apply H1.
  - intros t x. rewrite lookup_insert_Some. intros [[<- <-]|[_ H]]; [by rewrite lookup_insert_eq|].
    destruct (H2 t x H) as [? Hx]. split; [done|]. rewrite lookup_insert_ne; [done|]. congruence.
  - intros k x. rewrite lookup_insert_Some. intros [[<- <-]|[_ H]]; [by rewrite lookup_insert_eq|].
    destruct (H3 k x H) as [? Hx]. split; [done|]. rewrite lookup_insert_ne; [done|]. congruence.
Qed.

Lemma add_eq f s :
  f_ok f -> snd (AddSession f s) = None ->
  fst (AddSession f s) =
    RemoveSession f (s_ID s) <| f_bySessionID ::= <[s_ID s := s]> |>
      <| f_byLocalTEID ::= <[s_LocalGTPUTEID s := s]> |> <| f_byIP ::= <[IPString (s_SubscriberIP s) := s]> |>.
Proof.
  intros (H1 & _). unfold AddSession, RemoveSession. repeat (case_match; [done|]). intros _. cbn [fst].
  destruct (f_bySessionID f !! s_ID s) as [old|] eqn:E; [|done]. destruct (H1 _ _ E) as [_ Hip].
  rewrite !unbind_lookup by done. unfold upd. cbn. by rewrite insert_delete_eq.
Qed.

Lemma add_ok f s : f_ok f -> f_ok (fst (AddSession f s)).
Proof.
  intros Hf. destruct (snd (AddSession f s)) eqn:E.
  - assert (H : fst (AddSession f s) = f); [|by rewrite H].
    revert E. unfold AddSession. by repeat (case_match; [done|]).
  - rewrite add_eq by done. apply insert_ok; [by apply remove_ok| |].
    + unfold RemoveSession. destruct (f_bySessionID f !! s_ID s) as [old|] eqn:Eo; [|done].
      rewrite unbind_lookup by (by destruct Hf as (H1 & _); apply (H1 (s_ID s))). cbn. apply lookup_delete_eq.
    + revert E. unfold AddSession. repeat (case_match; [done|]). intros _. bools. by apply non_nil_spec.
Qed.

Lemma freachable_ok f : freachable f -> f_ok f.
Proof.
  induction 1 as [l r p f H|f s _ IH|f id _ IH|f _ IH]; [|by apply add_ok|by apply remove_ok|exact IH].
  revert H. unfold newForwarder. repeat (case_match; [done|]). intros [= <-].
  split_and!; cbn; intros k s; by rewrite lookup_empty.
Qed.

(** * Properties *)

(** C24: a user packet encodes exactly for a non-zero TEID and a payload that
    fits a datagram, decodes to that TEID and payload even when trailing bytes
    follow, and no packet makes either decoder index out of range. *)
Theorem gtpu_roundtrip teid payload packet :
  u_ok 32 teid -> bytes_ok packet ->
  (is_ok (EncodePacket teid payload) = true <-> teid <> 0 /\ Z.of_nat (length payload) <= 65527) /\
  (forall b extra, EncodePacket teid payload = Ok b -> DecodePacket (b ++ extra)%list = Some (Ok (teid, payload))) /\
  (exists r, DecodePacket packet = Some r) /\ (exists r, DecodeControlPacket packet = Some r).
Proof.
  intros Ht Hp. split; [|split; [intros b extra; by apply decode_encode_packet|
    split; [by apply DecodePacket_total|by apply DecodeControlPacket_total]]].
  unfold EncodePacket, maxUDPPacket, headerLenGTPU.
  destruct (teid =? 0) eqn:E0; [|destruct (_ <? _) eqn:E1]; bools; cbn; split; try done; lia.
Qed.

Lemma gtpu_roundtrip_witness :
  exists b, EncodePacket 0x100 [0x45; 0; 0] = Ok b /\ DecodePacket (b ++ [])%list = Some (Ok (0x100, [0x45; 0; 0])).
Proof.
  destruct (EncodePacket 0x100 [0x45; 0; 0]) as [b|e] eqn:E; [|exfalso; vm_compute in E; discriminate E].
  exists b. split; [reflexivity|].
  apply (gtpu_roundtrip 0x100 [0x45; 0; 0] []); [split; vm_compute; congruence|constructor|exact E].
Defined.

Lemma decode_echo_response seq : u_ok 16 seq ->
  DecodeControlPacket (EncodeEchoResponse seq) =
    Some (Ok (mkControl msgTypeEchoResponse 0 seq [ieRecoveryU; 1; 0] 0)).
Proof. intros Hs. unfold u_ok in Hs. rewrite <- (be_dec_be_small 2 seq) at 2 by (cbn; lia). done. Qed.

(** Control packets from the PGW: an Echo Request with any 16-bit sequence
    number is answered with an Echo Response with the same number to the same
    peer, and an Error Indication (with or without a leading Recovery element)
    is reported with the TEID it names. *)
Theorem gtpu_control f peer seq teid raw :
  IPEqual (a_IP peer) (a_IP (f_remote f)) = true -> u_ok 16 seq -> u_ok 32 teid -> f_errorHandler f = true ->
  raw = ([ieTunnelEndpointIDDataI] ++ be 4 teid)%list \/
  raw = ([ieRecoveryU; 0; ieTunnelEndpointIDDataI] ++ be 4 teid)%list ->
  handleControlPacket f (EncodeEchoRequest seq) peer = Some (true, [USend (EncodeEchoResponse seq) peer]) /\
  DecodeControlPacket (EncodeEchoResponse seq) = Some (Ok (mkControl msgTypeEchoResponse 0 seq [ieRecoveryU; 1; 0] 0)) /\
  handleControlPacket f ([0x30; msgTypeErrorIndication] ++ be 2 (Z.of_nat (length raw)) ++ be 4 0 ++ raw)%list peer
    = Some (true, [UIndication peer teid raw]).
Proof.
  intros Hp Hs Ht Hh Hraw.
  assert (E1 : DecodeControlPacket (EncodeEchoRequest seq) = Some (Ok (mkControl msgTypeEchoRequest 0 seq [] 0))).
  { unfold u_ok in Hs. rewrite <- (be_dec_be_small 2 seq) at 2 by (cbn; lia). done. }
  pose proof (decode_echo_response seq Hs) as E2.
  assert (E3 : DecodeControlPacket ([0x30; msgTypeErrorIndication] ++ be 2 (Z.of_nat (length raw)) ++ be 4 0 ++ raw)%list
               = Some (Ok (mkControl msgTypeErrorIndication 0 0 raw teid))).
  { unfold u_ok in Ht. rewrite <- (be_dec_be_small 4 teid) at 1 by (cbn; lia).
    by destruct Hraw as [-> | ->]. }
  split_and!; [|done|]; unfold handleControlPacket; [rewrite E1|rewrite E3]; cbn [mbind option_bind];
    rewrite Hp; cbn; [done|by rewrite Hh].
Qed.

Definition demo_fwd : Forwarder :=
  default (mkForwarder (mkAddr [] 0) ∅ ∅ ∅ false) (newForwarder "192.0.2.2" "192.0.2.10" 2152)
  <| f_errorHandler := true |>.

Lemma gtpu_control_witness :
  handleControlPacket demo_fwd ([0x30; 26] ++ be 2 7 ++ be 4 0 ++ [14; 0; 16] ++ be 4 0xabcd)%list
    (mkAddr (IPv4 192 0 2 10) 2152)
  = Some (true, [UIndication (mkAddr (IPv4 192 0 2 10) 2152) 0xabcd ([14; 0; 16] ++ be 4 0xabcd)%list]).
Proof.
  refine (proj2 (proj2 (gtpu_control demo_fwd (mkAddr (IPv4 192 0 2 10) 2152) 7 0xabcd
    ([14; 0; 16] ++ be 4 0xabcd)%list _ _ _ _ _))); [reflexivity|split; vm_compute; congruence..|reflexivity|].
  right. reflexivity.
Defined.

Lemma delivers_registered f packet peer sess payload :
  freachable f -> Decapsulate f packet peer = Some (Ok (sess, payload)) ->
  DecodePacket packet = Some (Ok (s_LocalGTPUTEID sess, payload)) /\
  f_bySessionID f !! s_ID sess = Some sess /\ IPEqual (a_IP peer) (a_IP (f_remote f)) = true.
Proof.
  intros (_ & H2 & _)%freachable_ok. unfold Decapsulate. destruct (DecodePacket packet) as [[[t p]|e]|]; cbn; try done.
  destruct (IPEqual _ _); cbn; [|done]. destruct (f_byLocalTEID f !! t) as [s|] eqn:E; [|done].
  intros [= <- <-]. destruct (H2 t s E) as [<- ?]. done.
Qed.

(** In every reachable forwarder a downlink packet is delivered only when
    it comes from the PGW, and then to a registered session whose local TEID
    is the packet's; once [RemoveSession] ran for an identifier no packet is
    delivered to a session with it. *)
Theorem forwarder_delivery f packet peer sess payload :
  freachable f ->
  (Decapsulate f packet peer = Some (Ok (sess, payload)) ->
     DecodePacket packet = Some (Ok (s_LocalGTPUTEID sess, payload)) /\
     f_bySessionID f !! s_ID sess = Some sess /\ IPEqual (a_IP peer) (a_IP (f_remote f)) = true) /\
  (forall id, Decapsulate (RemoveSession f id) packet peer = Some (Ok (sess, payload)) -> s_ID sess <> id).
Proof.
  intros Hf%freachable_ok.
  assert (H : forall g, f_ok g -> Decapsulate g packet peer = Some (Ok (sess, payload)) ->
     DecodePacket packet = Some (Ok (s_LocalGTPUTEID sess, payload)) /\
     f_bySessionID g !! s_ID sess = Some sess /\ IPEqual (a_IP peer) (a_IP (f_remote g)) = true).
  { intros g (_ & H2 & _). unfold Decapsulate. destruct (DecodePacket packet) as [[[t p]|e]|]; cbn; try done.
    destruct (IPEqual _ _); cbn; [|done]. destruct (f_byLocalTEID g !! t) as [s|] eqn:E; [|done].
    intros [= <- <-]. destruct (H2 t s E) as [<- ?]. done. }
  split; [by apply H|]. intros id Hd Hid.
  destruct (H (RemoveSession f id) (remove_ok f _ Hf) Hd) as (_ & Hs & _). rewrite Hid in Hs.
  revert Hs. unfold RemoveSession. destruct (f_bySessionID f !! id) as [old|] eqn:E; [|congruence].
  rewrite unbind_lookup by (by destruct Hf as (H1 & _); apply (H1 id)). cbn.
  by rewrite lookup_delete_eq.
Qed.

Lemma handlePacket_total f packet peer : bytes_ok packet -> exists out d, handlePacket f packet peer = Some (out, d).
Proof.
  intros B. unfold handlePacket, handleControlPacket. destruct (DecodeControlPacket_total packet B) as [r ->].
  cbn [mbind option_bind]. assert (D : exists out d, (d ← Decapsulate f packet peer; Some (@nil uoutput,
    match d with Ok x => Some x | Err _ => None end)) = Some (out, d)).
  { unfold Decapsulate. destruct (DecodePacket_total packet B) as [r' ->]. cbn [mbind option_bind].
    destruct r' as [[t p]|e]; [|do 2 eexists; done]. destruct (negb _); [do 2 eexists; done|].
    destruct (f_byLocalTEID f !! t); do 2 eexists; done. }
  destruct r as [msg|e]; [|exact D]. destruct (negb _); [do 2 eexists; done|].
  destruct (_ =? msgTypeEchoRequest); [do 2 eexists; done|].
  destruct (_ =? msgTypeErrorIndication); [do 2 eexists; done|exact D].
Qed.

Lemma handlePacket_delivers f packet peer out sess payload :
  handlePacket f packet peer = Some (out, Some (sess, payload)) ->
  out = [] /\ Decapsulate f packet peer = Some (Ok (sess, payload)).
Proof.
  unfold handlePacket, handleControlPacket. destruct (DecodeControlPacket packet) as [[msg|e]|]; cbn [mbind option_bind]; [| |done].
  - destruct (negb _); [done|]. destruct (_ =? msgTypeEchoRequest); [done|]. destruct (_ =? msgTypeErrorIndication); [done|].
    destruct (Decapsulate f packet peer) as [[x|e]|]; cbn [mbind option_bind]; [|done..]. by intros [= <- ->].
  - destruct (Decapsulate f packet peer) as [[x|e']|]; cbn [mbind option_bind]; [|done..]. by intros [= <- ->].
Qed.

(** C38: the reader of the forwarder.  Whatever it reads and however sessions
    are added and removed between its turns, it does not panic; it ends when
    the context is done or the socket fails; and each packet it delivers is a
    G-PDU from the PGW that carried the local TEID of a session registered at
    that moment. *)
Theorem read_loop_delivery turns :
  (forall f r, (f, r) ∈ turns -> freachable f) ->
  (forall f packet peer, (f, ReadPacket packet peer) ∈ turns -> bytes_ok packet) ->
  exists outs ds ended, readLoop turns = Some (outs, ds, ended) /\
    (ended = true <-> exists f r, (f, r) ∈ turns /\ (r = ReadCtxDone \/ r = ReadFailed)) /\
    forall sess payload, (sess, payload) ∈ ds ->
      exists f packet peer, (f, ReadPacket packet peer) ∈ turns /\
        DecodePacket packet = Some (Ok (s_LocalGTPUTEID sess, payload)) /\
        f_bySessionID f !! s_ID sess = Some sess /\ IPEqual (a_IP peer) (a_IP (f_remote f)) = true.
Proof.
  induction turns as [|[f r] turns IH]; intros R B.
  { exists [], [], false. split; [done|]. split; [split; [done|intros (f & r & H & _); by apply not_elem_of_nil in H]|].
    intros s p H. by apply not_elem_of_nil in H. }
  assert (Stop : r = ReadCtxDone \/ r = ReadFailed -> readLoop ((f, r) :: turns) = Some ([], [], true)) by by intros [->| ->].
  assert (C : (r = ReadCtxDone \/ r = ReadFailed) \/ ~ (r = ReadCtxDone \/ r = ReadFailed))
    by (destruct r; first [by left; left|by left; right|right; by intros [?|?]]).
  destruct C as [E|N].
  { exists [], [], true. split; [by apply Stop|]. split; [split; [intros _; exists f, r; split; [left|done]|done]|].
    intros s p H. by apply not_elem_of_nil in H. }
  destruct IH as (outs & ds & ended & E & En & D); [intros f' r' H; apply (R f' r'); by right|
    intros f' p' q' H; apply (B f' p' q'); by right|].
  assert (En' : ended = true <-> exists f0 r0, (f0, r0) ∈ (f, r) :: turns /\ (r0 = ReadCtxDone \/ r0 = ReadFailed)).
  { rewrite En. split; intros (f' & r' & H & X); exists f', r'; [split; [by right|done]|].
    apply elem_of_cons in H as [[= -> ->]|H]; [by destruct N|done]. }
  assert (D' : forall sess payload, (sess, payload) ∈ ds -> exists f0 packet peer, (f0, ReadPacket packet peer) ∈ (f, r) :: turns /\
      DecodePacket packet = Some (Ok (s_LocalGTPUTEID sess, payload)) /\
      f_bySessionID f0 !! s_ID sess = Some sess /\ IPEqual (a_IP peer) (a_IP (f_remote f0)) = true).
  { intros s p (f' & pk & pr & H & X)%D. exists f', pk, pr. split; [by right|done]. }
  destruct r as [| | |packet peer]; [destruct N; by left|by exists outs, ds, ended|destruct N; by right|].
  destruct (handlePacket_total f packet peer) as (out & d & Eh); [apply (B f packet peer); by left|].
  cbn [readLoop]. rewrite Eh. cbn [mbind option_bind]. rewrite E. cbn [mbind option_bind].
  do 3 eexists. split; [done|]. split; [exact En'|]. intros s p [H|H]%elem_of_app; [|by apply D'].
  destruct d as [[s0 p0]|]; [|by apply not_elem_of_nil in H]. apply list_elem_of_singleton in H as [= -> ->].
  apply handlePacket_delivers in Eh as [_ Eh]. exists f, packet, peer. split; [left|].
  apply delivers_registered; [apply (R f (ReadPacket packet peer)); left|exact Eh].
Qed.

Definition demo_usess : Session := zeroSession <| s_ID := "s1" |> <| s_LocalGTPUTEID := 0x100 |>
  <| s_RemoteGTPUTEID := 0x200 |> <| s_SubscriberIP := IPv4 10 0 0 2 |>.

Lemma forwarder_delivery_witness :
  Decapsulate (fst (AddSession demo_fwd demo_usess)) ([0x30; 255; 0; 1; 0; 0; 1; 0; 7])%list (mkAddr (IPv4 192 0 2 10) 2152)
    = Some (Ok (demo_usess, [7])) /\
  f_bySessionID (fst (AddSession demo_fwd demo_usess)) !! "s1" = Some demo_usess.
Proof.
  split; [by vm_compute|].
  refine (proj1 (proj2 (proj1 (forwarder_delivery (fst (AddSession demo_fwd demo_usess))
    ([0x30; 255; 0; 1; 0; 0; 1; 0; 7])%list (mkAddr (IPv4 192 0 2 10) 2152) demo_usess [7] _) _))).
  - apply fr_add, fr_handler. by apply (fr_new "192.0.2.2" "192.0.2.10" 2152).
  - by vm_compute.
Defined.

Lemma demo_usess_reachable : freachable (fst (AddSession demo_fwd demo_usess)).
Proof. apply fr_add, fr_handler. by apply (fr_new "192.0.2.2" "192.0.2.10" 2152). Qed.

(** A packet before the session is removed, one after, and the end. *)
Definition demo_turns : list (Forwarder * udp_read) :=
  let f := fst (AddSession demo_fwd demo_usess) in
  let p := ReadPacket ([0x30; 255; 0; 1; 0; 0; 1; 0; 7])%list (mkAddr (IPv4 192 0 2 10) 2152) in
  [(f, ReadTimeout); (f, p); (RemoveSession f "s1", p); (f, ReadCtxDone); (f, p)].

Lemma demo_turns_reachable f r : (f, r) ∈ demo_turns -> freachable f.
Proof.
  unfold demo_turns. intros H. repeat (apply elem_of_cons in H as [[= -> ->]|H]); try apply demo_usess_reachable.
  - apply fr_remove, demo_usess_reachable.
  - by apply not_elem_of_nil in H.
Qed.

Lemma demo_turns_bytes f packet peer : (f, ReadPacket packet peer) ∈ demo_turns -> bytes_ok packet.
Proof.
  unfold demo_turns. intros H. repeat (apply elem_of_cons in H as [H|H]; [first [discriminate H|injection H as _ -> _;
    repeat constructor; vm_compute; congruence]|]). by apply not_elem_of_nil in H.
Qed.

Lemma read_loop_delivery_witness :
  exists outs ds ended, readLoop demo_turns = Some (outs, ds, ended) /\ ended = true /\ ds = [(demo_usess, [7])].
Proof.
  destruct (read_loop_delivery demo_turns demo_turns_reachable demo_turns_bytes) as (outs & ds & ended & E & _ & _).
  exists outs, ds, ended. split; [exact E|].
  assert (G : readLoop demo_turns = Some ([], [(demo_usess, [7])], true)) by (vm_compute; reflexivity).
  rewrite G in E. injection E as <- <- <-. split; reflexivity.
Defined.
