(* ===== verification/Ipam.v ===== *)
(** The address pool: [internal/ipam/ipam.go].  The allocation loops walk the
    pool's addresses; they carry fuel, one round per address, and [None] is a
    loop that did not end.  The theorems show the fuel is enough for every
    pool with a prefix of at least one bit (for [0.0.0.0/0] the code itself
    does not end: the address after the last one is in the pool again). *)
From S2P Require Import Prelude.
From S2P Require Import GoNet.
From S2P Require Import IpText.
From S2P Require Import SessionFacts.
Open Scope string_scope.
Open Scope Z_scope.

(** [incIPv4] on the bytes from the last to the first. *)
Fixpoint inc_rev (l : list Z) : list Z :=
  match l with
  | [] => []
  | b :: r => let b' := wrap 8 (b + 1) in if b' =? 0 then b' :: inc_rev r else b' :: r
  end.

Definition incIPv4 (ip : IP) : IP := rev (inc_rev (rev ip)).

Definition firstUsable (pool : IPNet) : IP :=
  match To4 (net_ip pool) with
  | [] => []
  | ip => incIPv4 ip
  end.

Definition broadcast (pool : IPNet) : IP :=
  zip_with (fun p m => Z.lor p (255 - m)) (To4 (net_ip pool)) (net_mask pool).

(** [pool.Mask[i]] is in range for the pools of [NewMemory], whose mask has
    four or sixteen bytes; of a mask of sixteen bytes the code takes the first
    four. *)
Definition isBroadcast (pool : IPNet) (ip : IP) : bool :=
  match To4 ip, To4 (net_ip pool) with
  | [], _ | _, [] => false
  | ip4, _ => IPEqual ip4 (broadcast pool)
  end.

(** One round per address of the pool, counted by the last four bytes of the
    mask (all of it for a pool written in IPv4 form). *)
Definition pool_fuel (pool : IPNet) : nat :=
  Z.to_nat (2 ^ 32 - be_dec (drop (length (net_mask pool) - 4) (net_mask pool))).

Fixpoint usable_loop (fuel : nat) (pool : IPNet) (gateway ip : IP) (count : Z) : go Z :=
  if (non_nil ip && Contains pool ip)%bool then
    match fuel with
    | O => None
    | S fuel =>
      if (IPEqual ip gateway || isBroadcast pool ip)%bool
      then usable_loop fuel pool gateway (incIPv4 ip) count
      else usable_loop fuel pool gateway (incIPv4 ip) (count + 1)
    end
  else Some count.

Definition usableCount (pool : IPNet) (gateway : IP) : go Z :=
  usable_loop (pool_fuel pool) pool gateway (firstUsable pool) 0.

Record MemoryIPAM := mkIPAM {
  i_pool : IPNet; i_gateway : IP; i_total : Z;
  i_leases : gmap string IP; i_assigned : gmap string string
}.

#[global] Instance MemoryIPAM_eta : Eta MemoryIPAM := fun x =>
  mkIPAM (i_pool x) (i_gateway x) (i_total x) (i_leases x) (i_assigned x).

Inductive ipam_err :=
| IBadPool | IGatewayNotIPv4 | IGatewayOutside | INoUsable | INoSessionID | IExhausted.

Definition NewMemory (pool gateway : string) : go (result MemoryIPAM ipam_err) :=
  match ParseCIDR pool with
  | None => Some (Err IBadPool)
  | Some p =>
    let g := To4 (ParseIP gateway) in
    if negb (non_nil g) then Some (Err IGatewayNotIPv4)
    else if negb (Contains p g) then Some (Err IGatewayOutside)
    else
      total ← usableCount p g;
      if total =? 0 then Some (Err INoUsable) else Some (Ok (mkIPAM p g total ∅ ∅))
  end.

Fixpoint alloc_loop (fuel : nat) (m : MemoryIPAM) (ip : IP) : go (option IP) :=
  if Contains (i_pool m) ip then
    match fuel with
    | O => None
    | S fuel =>
      if (IPEqual ip (i_gateway m) || isBroadcast (i_pool m) ip)%bool then alloc_loop fuel m (incIPv4 ip)
      else match i_assigned m !! IPString ip with
           | Some _ => alloc_loop fuel m (incIPv4 ip)
           | None => Some (Some ip)
           end
    end
  else Some None.

Definition Allocate (m : MemoryIPAM) (sessionID : string) : go (MemoryIPAM * result IP ipam_err) :=
  if negb (nonempty sessionID) then Some (m, Err INoSessionID)
  else match i_leases m !! sessionID with
  | Some ip => Some (m, Ok ip)
  | None =>
    r ← alloc_loop (pool_fuel (i_pool m)) m (firstUsable (i_pool m));
    Some (match r with
          | Some ip => (m <| i_leases ::= <[sessionID := ip]> |>
                          <| i_assigned ::= <[IPString ip := sessionID]> |>, Ok ip)
          | None => (m, Err IExhausted)
          end)
  end.

Definition Release (m : MemoryIPAM) (sessionID : string) : MemoryIPAM * option ipam_err :=
  if negb (nonempty sessionID) then (m, Some INoSessionID)
  else match i_leases m !! sessionID with
  | None => (m, None)
  | Some ip => (m <| i_leases ::= delete sessionID |> <| i_assigned ::= delete (IPString ip) |>, None)
  end.

Definition Lookup (m : MemoryIPAM) (sessionID : string) : option IP :=
  if negb (nonempty sessionID) then None else i_leases m !! sessionID.

(** [Status]: total, used and free addresses. *)
Definition Status_ (m : MemoryIPAM) : Z * Z * Z :=
  let used := Z.of_nat (size (i_leases m)) in (i_total m, used, i_total m - used).

(** * Addresses as numbers *)
Definition val4 (ip : IP) : Z := be_dec ip.

Definition v4 (ip : IP) : Prop := length ip = 4%nat /\ bytes_ok ip.

Lemma val4_inj a b : v4 a -> v4 b -> val4 a = val4 b -> a = b.
Proof.
  intros [La Ba] [Lb Bb] E. rewrite <- (be_be_dec a Ba), <- (be_be_dec b Bb), La, Lb. by f_equal.
Qed.

Lemma val4_bound ip : v4 ip -> 0 <= val4 ip < 2 ^ 32.
Proof. intros [L B]. pose proof (be_dec_bound ip B) as H. rewrite L in H. exact H. Qed.

Lemma be_v4 z : v4 (be 4 z).
Proof. split; [done|apply be_bytes_ok]. Qed.

Lemma be_val4 ip : v4 ip -> be 4 (val4 ip) = ip.
Proof. intros [L B]. rewrite <- L. by apply be_be_dec. Qed.

Lemma inc_rev_val l :
  bytes_ok l -> bytes_ok (inc_rev l) /\ length (inc_rev l) = length l /\
  be_dec (rev (inc_rev l)) = (be_dec (rev l) + 1) mod 256 ^ Z.of_nat (length l).
Proof.
  induction 1 as [|b l Hb Hl IH]; [split; [by constructor|done]|]. destruct IH as (I1 & I2 & I3).
  pose proof (be_dec_bound (rev l)) as Hbd. rewrite length_rev in Hbd.
  specialize (Hbd (Forall_rev Hl)). set (M := 256 ^ Z.of_nat (length l)) in *.
  cbn [inc_rev rev length]. rewrite Nat2Z.inj_succ, Z.pow_succ_r by lia. fold M.
  assert (Hw : wrap 8 (b + 1) = if b =? 255 then 0 else b + 1).
  { unfold wrap, byte_ok in *. change (2 ^ 8) with 256. case_match; bools; [by subst|].
    apply Z.mod_small. lia. }
  rewrite Hw, !be_dec_app. unfold byte_ok in Hb.
  destruct (b =? 255) eqn:E; bools; cbn -[Z.modulo Z.mul be_dec bytes_ok].
  - subst b. rewrite be_dec_app. split; [constructor; [by unfold byte_ok|done]|]. split; [lia|].
    rewrite I3. replace (be_dec (rev l) * 256 + 255 + 1) with (256 * (be_dec (rev l) + 1)) by lia.
    rewrite Z.mul_mod_distr_l by lia. lia.
  - destruct (b + 1 =? 0) eqn:E0; bools; [lia|].
    split; [constructor; [unfold byte_ok; lia|done]|]. split; [done|].
    cbn [rev]. rewrite be_dec_app, Z.mod_small by nia. lia.
Qed.

Lemma incIPv4_spec ip : v4 ip -> v4 (incIPv4 ip) /\ val4 (incIPv4 ip) = (val4 ip + 1) mod 2 ^ 32.
Proof.
  intros [L B]. destruct (inc_rev_val (rev ip)) as (H1 & H2 & H3); [by apply Forall_rev|].
  rewrite length_rev, L in H2, H3. rewrite rev_involutive in H3.
  unfold incIPv4, val4. split; [split; [by rewrite length_rev|by apply Forall_rev]|exact H3].
Qed.

(** * Masks as numbers *)
Lemma land_high_bits j b :
  0 <= j <= 8 -> byte_ok b -> Z.land b (256 - 2 ^ j) = 2 ^ j * (b / 2 ^ j).
Proof.
  intros Hj Hb.
  assert (C : forallb (fun j => forallb (fun b =>
    Z.land b (256 - 2 ^ j) =? 2 ^ j * (b / 2 ^ j)) (seqZ 0 256)) (seqZ 0 9) = true) by (vm_compute; done).
  rewrite forallb_forall in C. specialize (C j). rewrite forallb_forall in C.
  apply Z.eqb_eq, C; apply list_elem_of_In, elem_of_seqZ; unfold byte_ok in Hb; lia.
Qed.

Lemma mask_zero n k l :
  n <= 0 -> length l = k -> be_dec (mask_bytes l (CIDRMask n k)) = 0 /\
  length (mask_bytes l (CIDRMask n k)) = k /\ bytes_ok (mask_bytes l (CIDRMask n k)).
Proof.
  intros Hn. revert n Hn l. induction k as [|k IH]; intros n Hn l Hl.
  { destruct l; [|done]. split; [done|split; [done|constructor]]. }
  destruct l as [|b l]; [done|]. injection Hl as Hl.
  destruct (IH (n - 8) ltac:(lia) l Hl) as (I1 & I2 & I3). cbn [CIDRMask mask_bytes zip_with].
  rewrite decide_False, decide_True by lia. fold (mask_bytes l (CIDRMask (n - 8) k)).
  rewrite Z.land_0_r, be_dec_cons, I1, Z.mul_0_l. cbn [length]. rewrite I2.
  split_and!; [done|done|constructor; [done|exact I3]].
Qed.

Lemma mask_val n k l :
  0 <= n <= 8 * Z.of_nat k -> length l = k -> bytes_ok l ->
  let s := 2 ^ (8 * Z.of_nat k - n) in
  be_dec (mask_bytes l (CIDRMask n k)) = s * (be_dec l / s) /\
  length (mask_bytes l (CIDRMask n k)) = k /\ bytes_ok (mask_bytes l (CIDRMask n k)).
Proof.
  revert n l. induction k as [|k IH]; intros n l Hn Hl Hok s.
  { destruct l; [|done]. assert (n = 0) as -> by lia. split; [reflexivity|split; [done|constructor]]. }
  destruct l as [|b l]; [done|]. injection Hl as Hl. apply bytes_ok_cons in Hok as [Hb Hok].
  pose proof (be_dec_bound l Hok) as Hv. rewrite Hl in Hv.
  assert (H256 : 256 ^ Z.of_nat k = 2 ^ (8 * Z.of_nat k)) by (rewrite (Z.pow_mul_r 2 8) by lia; reflexivity).
  cbn [CIDRMask mask_bytes zip_with]. fold (mask_bytes l (CIDRMask (n - 8) k)).
  case_decide as H8; [|case_decide as H0].
  - destruct (IH (n - 8) l ltac:(lia) Hl Hok) as (I1 & I2 & I3).
    assert (Hs : s = 2 ^ (8 * Z.of_nat k - (n - 8))) by (unfold s; f_equal; lia). rewrite <- Hs in I1.
    pose proof (land_high_bits 0 b ltac:(lia) Hb) as Hl0. change (256 - 2 ^ 0) with 255 in Hl0.
    rewrite Z.mul_1_l, Z.div_1_r in Hl0.
    rewrite Hl0, !be_dec_cons, I1, I2, Hl. cbn [length]. rewrite I2.
    split_and!; [|done|by constructor].
    assert (Hd : 256 ^ Z.of_nat k = s * 2 ^ (n - 8)) by (rewrite Hs, H256, <- Z.pow_add_r by lia; f_equal; lia).
    rewrite Hd. assert (0 < s) by (unfold s; apply Z.pow_pos_nonneg; lia).
    replace (b * (s * 2 ^ (n - 8)) + be_dec l) with (be_dec l + (b * 2 ^ (n - 8)) * s) by lia.
    rewrite Z.div_add by lia. lia.
  - destruct (mask_zero (n - 8) k l ltac:(lia) Hl) as (I1 & I2 & I3).
    rewrite Z.land_0_r, be_dec_cons, I1. cbn [length]. rewrite I2. unfold s.
    split_and!; [|done|by constructor]. replace n with 0 by lia.
    rewrite be_dec_cons, Hl, H256, Z.div_small; [lia|]. unfold byte_ok in Hb.
    replace (2 ^ (8 * Z.of_nat (S k) - 0)) with (256 * 2 ^ (8 * Z.of_nat k))
      by (change 256 with (2 ^ 8); rewrite <- Z.pow_add_r by lia; f_equal; lia). nia.
  - destruct (mask_zero (n - 8) k l ltac:(lia) Hl) as (I1 & I2 & I3).
    rewrite land_high_bits, !be_dec_cons, I1, I2, Hl by (done || lia). cbn [length]. rewrite I2.
    assert (Hs : s = 2 ^ (8 * Z.of_nat k) * 2 ^ (8 - n)) by (unfold s; rewrite <- Z.pow_add_r by lia; f_equal; lia).
    assert (0 < 2 ^ (8 * Z.of_nat k)) by (apply Z.pow_pos_nonneg; lia).
    assert (0 < 2 ^ (8 - n)) by (apply Z.pow_pos_nonneg; lia).
    rewrite H256 in *. rewrite Hs, <- Z.div_div by lia.
    rewrite (Z.div_add_l b), (Z.div_small (be_dec l)), !Z.add_0_r by lia.
    split_and!; [lia|done|constructor; [|done]]. unfold byte_ok in *.
    pose proof (Z.div_pos b (2 ^ (8 - n)) ltac:(lia) ltac:(lia)).
    pose proof (Z.mul_div_le b (2 ^ (8 - n)) ltac:(lia)). lia.
Qed.

(** * The pools of [NewMemory] *)
Definition pool_ok (n : Z) (p : IPNet) : Prop :=
  0 <= n <= 32 /\ net_mask p = CIDRMask n 4 /\ v4 (net_ip p) /\ (2 ^ (32 - n) | val4 (net_ip p)).

(** The last address of the pool. *)
Definition pool_last (n : Z) (p : IPNet) : Z := val4 (net_ip p) + 2 ^ (32 - n) - 1.

Lemma contains_spec n p ip :
  pool_ok n p -> v4 ip -> (Contains p ip = true <-> val4 (net_ip p) <= val4 ip <= pool_last n p).
Proof.
  intros (Hn & Hm & [Lp Bp] & [q Hq]) [Li Bi]. unfold pool_last.
  destruct (mask_val n 4 (net_ip p) ltac:(lia) Lp Bp) as (P1 & P2 & P3).
  destruct (mask_val n 4 ip ltac:(lia) Li Bi) as (Q1 & Q2 & Q3).
  change (8 * Z.of_nat 4) with 32 in *. set (s := 2 ^ (32 - n)) in *.
  assert (0 < s) by (apply Z.pow_pos_nonneg; lia).
  unfold Contains. rewrite Hm, !To4_v4 by done.
  assert (Hlm : length (CIDRMask n 4) = 4%nat) by done. rewrite Hlm. cbn [Nat.eqb andb].
  destruct (net_ip p) as [|p0 pr] eqn:Ep; [done|]. destruct ip as [|i0 ir] eqn:Ei; [done|].
  rewrite <- Ep, <- Ei in *. rewrite Lp, Li, Hlm. cbn [Nat.eqb andb negb].
  rewrite bool_decide_eq_true. unfold val4 in *. rewrite Hq in P1 |- *.
  rewrite Z.div_mul in P1 by lia.
  transitivity (be_dec (mask_bytes (net_ip p) (CIDRMask n 4)) = be_dec (mask_bytes ip (CIDRMask n 4))).
  { split; [by intros ->|]. intros E. apply val4_inj; [by split|by split|exact E]. }
  rewrite P1, Q1. pose proof (Z.div_mod (be_dec ip) s ltac:(lia)).
  pose proof (Z.mod_pos_bound (be_dec ip) s ltac:(lia)).
  split; [nia|]. intros Hb. assert (be_dec ip / s = q); [|lia].
  symmetry. apply (Z.div_unique (be_dec ip) s q (be_dec ip - s * q)); lia.
Qed.

Lemma dtoi_nonneg l acc n : 0 <= acc -> dtoi l acc = Some n -> 0 <= n.
Proof.
  revert acc. induction l as [|c l IH]; intros acc Ha H; [by simplify_eq/=|].
  cbn in H. destruct (digit c) as [d|] eqn:E; [|done]. cbn in H. case_decide; [done|].
  revert H. apply IH. unfold digit in E. case_decide; simplify_eq. lia.
Qed.

Lemma parse_cidr_pool s p :
  ParseCIDR s = Some p -> length (net_mask p) = 4%nat -> exists n, pool_ok n p.
Proof.
  unfold ParseCIDR. intros H Hm.
  destruct (index_ascii _ _) as [i|]; [|done]. cbn -[CIDRMask drop take] in H.
  destruct (match drop (S i) _ with [] => None | _ => _ end) as [n|] eqn:En; [|done].
  cbn -[CIDRMask drop take] in H. case_match; [done|].
  assert (0 <= n) by (destruct (drop _ _); [discriminate En|by eapply dtoi_nonneg, En]).
  case_match; [|case_match; [|done]].
  - destruct (parse_v4 _) as [b|] eqn:Eb; [|done]. cbn -[CIDRMask] in H. case_decide; simplify_eq.
    apply parse_v4_ok in Eb as [Lb Bb]. exists n. unfold pool_ok. cbn [net_ip net_mask].
    destruct (mask_val n 4 b ltac:(lia) Lb Bb) as (M1 & M2 & M3).
    split_and!; [lia|lia|done|by split|]. unfold val4. rewrite M1.
    apply Z.divide_factor_l.
  - destruct (parse_v6 _) as [b|] eqn:Eb; [|done]. cbn -[CIDRMask] in H. case_decide; by simplify_eq.
Qed.

(** * The broadcast address is the last of the pool *)
Lemma lor_host_bits j b :
  0 <= j <= 8 -> byte_ok b -> Z.land b (256 - 2 ^ j) = b ->
  Z.lor b (255 - (256 - 2 ^ j)) = b + (2 ^ j - 1) /\ byte_ok (b + (2 ^ j - 1)).
Proof.
  intros Hj Hb.
  assert (C : forallb (fun j => forallb (fun b =>
    negb (Z.land b (256 - 2 ^ j) =? b) ||
    ((Z.lor b (255 - (256 - 2 ^ j)) =? b + (2 ^ j - 1)) && (b + (2 ^ j - 1) <? 256)))
    (seqZ 0 256)) (seqZ 0 9) = true) by (vm_compute; done).
  rewrite forallb_forall in C. specialize (C j). rewrite forallb_forall in C.
  intros E. specialize (C ltac:(apply list_elem_of_In, elem_of_seqZ; lia) b).
  rewrite E, Z.eqb_refl in C. unfold byte_ok in *.
  specialize (C ltac:(apply list_elem_of_In, elem_of_seqZ; lia)). cbn [negb orb] in C. bools.
  pose proof (Z.pow_pos_nonneg 2 j). split; [done|lia].
Qed.

Lemma mask_byte_form n k m :
  m ∈ CIDRMask n k -> exists j, 0 <= j <= 8 /\ m = 256 - 2 ^ j.
Proof.
  revert n. induction k as [|k IH]; intros n; cbn [CIDRMask]; [by intros ?%elem_of_nil|].
  intros [->|Hm]%elem_of_cons; [|by eapply IH].
  case_decide; [by exists 0|]. case_decide; [by exists 8|]. exists (8 - n). split; [lia|done].
Qed.

Lemma be_dec_lor l ms :
  length l = length ms -> bytes_ok l -> mask_bytes l ms = l ->
  (forall m, m ∈ ms -> exists j, 0 <= j <= 8 /\ m = 256 - 2 ^ j) ->
  be_dec (zip_with (fun p m => Z.lor p (255 - m)) l ms) =
  be_dec l + be_dec ((fun m => 255 - m) <$> ms) /\
  bytes_ok (zip_with (fun p m => Z.lor p (255 - m)) l ms).
Proof.
  revert ms. induction l as [|b l IH]; intros [|m ms] Hl Hok Hmask Hms; [by split; [|constructor]|done|done|].
  apply bytes_ok_cons in Hok as [Hb Hok]. injection Hl as Hl. injection Hmask as Hm1 Hm2.
  destruct (Hms m ltac:(left)) as (j & Hj & ->).
  destruct (lor_host_bits j b Hj Hb Hm1) as [E1 E2].
  destruct (IH ms Hl Hok Hm2 ltac:(intros ? ?; apply Hms; by right)) as [I1 I2].
  cbn [zip_with fmap list_fmap]. rewrite !be_dec_cons, E1, I1, length_zip_with, length_fmap, Hl, Nat.min_id.
  split; [lia|by constructor].
Qed.

Lemma isBroadcast_spec n p ip :
  pool_ok n p -> v4 ip -> isBroadcast p ip = bool_decide (val4 ip = pool_last n p).
Proof.
  intros (Hn & Hm & [Lp Bp] & [q Hq]) [Li Bi].
  destruct (mask_val n 4 (net_ip p) ltac:(lia) Lp Bp) as (P1 & P2 & P3).
  change (8 * Z.of_nat 4) with 32 in *. unfold val4 in Hq.
  assert (E : mask_bytes (net_ip p) (CIDRMask n 4) = net_ip p).
  { apply val4_inj; [done|done|]. unfold val4. rewrite P1, Hq, Z.div_mul; [lia|].
    apply Z.pow_nonzero; lia. }
  assert (Hc : be_dec ((fun m => 255 - m) <$> CIDRMask n 4) = 2 ^ (32 - n) - 1).
  { assert (C : forallb (fun n => be_dec ((fun m => 255 - m) <$> CIDRMask n 4) =? 2 ^ (32 - n) - 1)
      (seqZ 0 33) = true) by (vm_compute; done).
    rewrite forallb_forall in C. apply Z.eqb_eq, C, list_elem_of_In, elem_of_seqZ. lia. }
  destruct (be_dec_lor (net_ip p) (CIDRMask n 4) Lp Bp E (mask_byte_form n 4)) as [Hb Bbc].
  rewrite Hc in Hb. unfold isBroadcast, broadcast. rewrite !To4_v4, Hm by done.
  destruct ip as [|i0 ir] eqn:Ei; [done|]. rewrite <- Ei in *.
  destruct (net_ip p) as [|p0 pr] eqn:Ep; [done|]. rewrite <- Ep in *.
  set (bc := zip_with _ _ _) in *.
  assert (Lbc : length bc = 4%nat) by (unfold bc; rewrite length_zip_with, Lp; done).
  unfold IPEqual. rewrite Li, Lbc. cbn [Nat.eqb]. apply bool_decide_ext.
  unfold pool_last, val4.  split.
  - intros ->. lia.
  - intros H. apply val4_inj; [done|done|]. unfold val4. lia.
Qed.

(** * Addresses print injectively *)
Lemma IPString_inj a b : v4 a -> v4 b -> IPString a = IPString b -> a = b.
Proof. intros [La Ba] [Lb Bb] E. rewrite <- (ParseIP_IPString a), <- (ParseIP_IPString b) by done. by rewrite E. Qed.

(** * The loops *)
Lemma incIPv4_be z : 0 <= z -> incIPv4 (be 4 z) = be 4 (z + 1).
Proof.
  intros Hz. destruct (incIPv4_spec (be 4 z) (be_v4 z)) as [H1 H2].
  apply val4_inj; [done|apply be_v4|]. rewrite H2. unfold val4. rewrite !be_dec_be.
  change (256 ^ Z.of_nat 4) with (2 ^ 32). by rewrite Zplus_mod_idemp_l.
Qed.

Lemma val4_be z : 0 <= z < 2 ^ 32 -> val4 (be 4 z) = z.
Proof. intros Hz. unfold val4. rewrite be_dec_be. by apply Z.mod_small. Qed.

Lemma pool_bounds n p : pool_ok n p -> 0 <= val4 (net_ip p) /\ pool_last n p < 2 ^ 32 /\
  0 < 2 ^ (32 - n) /\ (1 <= n -> pool_last n p = 2 ^ 32 - 1 -> 0 < val4 (net_ip p)).
Proof.
  intros (Hn & _ & Hv & [q Hq]). pose proof (val4_bound _ Hv) as Hb. unfold pool_last.
  assert (0 < 2 ^ (32 - n)) by (apply Z.pow_pos_nonneg; lia).
  assert (Hs : 2 ^ 32 = 2 ^ n * 2 ^ (32 - n)) by (rewrite <- Z.pow_add_r by lia; f_equal; lia).
  split_and!; [lia| |lia|].
  - rewrite Hq, Hs in Hb. rewrite Hq, Hs. assert (q < 2 ^ n) by nia. nia.
  - intros Hn1 E. assert (2 ^ 1 <= 2 ^ n) by (apply Z.pow_le_mono_r; lia). nia.
Qed.

Lemma contains_be n p z :
  pool_ok n p -> 1 <= n -> val4 (net_ip p) <= z <= pool_last n p + 1 ->
  Contains p (be 4 z) = bool_decide (z <= pool_last n p).
Proof.
  intros Hp Hn Hz. destruct (pool_bounds n p Hp) as (B1 & B2 & B3 & B4).
  apply Bool.eq_true_iff_eq. rewrite (contains_spec n) by (done || apply be_v4). rewrite bool_decide_eq_true.
  destruct (decide (z = 2 ^ 32)) as [->|].
  - change (val4 (be 4 (2 ^ 32))) with 0. specialize (B4 Hn). lia.
  - rewrite val4_be by lia. lia.
Qed.

(** The host addresses of the pool, the gateway and the broadcast address
    left out, in the order the loops visit them. *)
Definition hosts (n : Z) (p : IPNet) (g : IP) (z : Z) : list IP :=
  filter (fun ip => negb (IPEqual ip g || isBroadcast p ip)%bool)
         (be 4 <$> seqZ z (pool_last n p + 1 - z)).

Lemma hosts_end n p g z : pool_last n p < z -> hosts n p g z = [].
Proof. intros Hz. unfold hosts. rewrite seqZ_nil by lia. done. Qed.

Lemma hosts_step n p g z :
  z <= pool_last n p ->
  hosts n p g z = if (IPEqual (be 4 z) g || isBroadcast p (be 4 z))%bool
                  then hosts n p g (z + 1) else be 4 z :: hosts n p g (z + 1).
Proof.
  intros Hz. unfold hosts. rewrite seqZ_cons by lia.
  replace (Z.pred (pool_last n p + 1 - z)) with (pool_last n p + 1 - (z + 1)) by lia.
  rewrite <- Z.add_1_r. rewrite fmap_cons, filter_cons.
  destruct (IPEqual _ _ || _)%bool; [by rewrite decide_False by (intros []) | by rewrite decide_True by done].
Qed.

Lemma pool_fuel_spec n p : pool_ok n p -> pool_fuel p = Z.to_nat (2 ^ (32 - n)).
Proof.
  intros (Hn & Hm & _). unfold pool_fuel. rewrite Hm. f_equal.
  assert (C : forallb (fun n => 2 ^ 32 - be_dec (drop (length (CIDRMask n 4) - 4) (CIDRMask n 4))
    =? 2 ^ (32 - n)) (seqZ 0 33) = true) by (vm_compute; done).
  rewrite forallb_forall in C. apply Z.eqb_eq, C, list_elem_of_In, elem_of_seqZ. lia.
Qed.

Lemma firstUsable_spec n p : pool_ok n p -> firstUsable p = be 4 (val4 (net_ip p) + 1).
Proof.
  intros (Hn & _ & [L B] & _). unfold firstUsable. rewrite To4_v4 by done.
  destruct (net_ip p) as [|x r] eqn:E; [done|]. rewrite <- E in *.
  rewrite <- (be_val4 (net_ip p)) at 1 by done. apply incIPv4_be.
  by apply val4_bound.
Qed.

Lemma non_nil_be k z : non_nil (be (S k) z) = true.
Proof. done. Qed.

Section loops.
Context (n : Z) (p : IPNet) (Hp : pool_ok n p) (Hn : 1 <= n).

Lemma usable_loop_spec g fuel z count :
  val4 (net_ip p) <= z <= pool_last n p + 1 -> (Z.to_nat (pool_last n p + 1 - z) <= fuel)%nat ->
  usable_loop fuel p g (be 4 z) count = Some (count + Z.of_nat (length (hosts n p g z))).
Proof.
  pose proof (pool_bounds n p Hp) as (B1 & _).
  revert z count. induction fuel as [|fuel IH]; intros z count Hz Hf; cbn [usable_loop];
    rewrite non_nil_be, (contains_be n p z Hp Hn Hz); cbn [andb];
    (case_bool_decide as Hc; [|rewrite hosts_end by lia; cbn; by rewrite Z.add_0_r]); [lia|].
  rewrite incIPv4_be, (hosts_step n p g z Hc) by lia.
  destruct (_ || _)%bool; rewrite IH by lia; [done|]. cbn [length]. f_equal. lia.
Qed.

Lemma alloc_loop_spec m fuel z :
  i_pool m = p ->
  val4 (net_ip p) <= z <= pool_last n p + 1 -> (Z.to_nat (pool_last n p + 1 - z) <= fuel)%nat ->
  alloc_loop fuel m (be 4 z) =
  Some (head (filter (fun ip => i_assigned m !! IPString ip = None) (hosts n p (i_gateway m) z))).
Proof.
  intros Em. pose proof (pool_bounds n p Hp) as (B1 & _).
  revert z. induction fuel as [|fuel IH]; intros z Hz Hf; cbn [alloc_loop];
    rewrite Em, (contains_be n p z Hp Hn Hz);
    (case_bool_decide as Hc; [|by rewrite hosts_end by lia]); [lia|].
  rewrite incIPv4_be, (hosts_step n p _ z Hc) by lia.
  destruct (_ || _)%bool; [by rewrite IH by lia|]. rewrite filter_cons.
  destruct (i_assigned m !! _) eqn:E.
  - by rewrite IH, decide_False by (lia || done).
  - by rewrite decide_True by done.
Qed.

Lemma usableCount_spec g :
  usableCount p g = Some (Z.of_nat (length (hosts n p g (val4 (net_ip p) + 1)))).
Proof.
  pose proof (pool_bounds n p Hp) as (B1 & B2 & B3 & _).
  unfold usableCount. rewrite (firstUsable_spec n p Hp), (pool_fuel_spec n p Hp), usable_loop_spec; [done|..];
    unfold pool_last; lia.
Qed.

Lemma elem_of_hosts g ip z : length g = 4%nat -> val4 (net_ip p) < z ->
  ip ∈ hosts n p g z <-> v4 ip /\ z <= val4 ip < pool_last n p /\ ip <> g.
Proof.
  intros Lg Hz. pose proof (pool_bounds n p Hp) as (B1 & B2 & B3 & _).
  unfold hosts. rewrite list_elem_of_filter, list_elem_of_fmap.
  assert (Hsem : forall y, 0 <= y < 2 ^ 32 ->
    negb (IPEqual (be 4 y) g || isBroadcast p (be 4 y))%bool <-> y <> pool_last n p /\ be 4 y <> g).
  { intros y Hy. rewrite (isBroadcast_spec n) by (done || apply be_v4). unfold IPEqual.
    rewrite length_be, Lg, val4_be by done. cbn [Nat.eqb].
    rewrite negb_True, orb_True, !bool_decide_spec. naive_solver. }
  split.
  - intros (Hb & y & -> & Hy%elem_of_seqZ). apply Hsem in Hb; [|lia].
    rewrite val4_be by lia. split; [apply be_v4|]. split; [lia|naive_solver].
  - intros (Hv & Hy & Hg). pose proof (val4_bound ip Hv). rewrite <- (be_val4 ip Hv) in Hg |- *.
    split; [apply Hsem; [lia|split; [lia|done]]|]. exists (val4 ip). split; [done|].
    apply elem_of_seqZ. lia.
Qed.

Lemma hosts_NoDup g z : 0 <= z -> NoDup (hosts n p g z).
Proof.
  intros Hz. pose proof (pool_bounds n p Hp) as (B1 & B2 & B3 & _).
  apply NoDup_filter, NoDup_fmap_2_strong, NoDup_seqZ.
  intros x y Hx%elem_of_seqZ Hy%elem_of_seqZ E%(f_equal val4).
  rewrite !val4_be in E by lia. done.
Qed.
End loops.

(** A pool of every address: the counting loop does not end. *)
Lemma usable_loop_everything p g ip count fuel :
  pool_ok 0 p -> v4 ip -> usable_loop fuel p g ip count = None.
Proof.
  intros Hp. assert (Hall : forall ip, v4 ip -> Contains p ip = true).
  { intros a Ha. apply (contains_spec 0 p a Hp Ha). pose proof (val4_bound a Ha).
    destruct Hp as (_ & _ & Hv & [q Hq]). pose proof (val4_bound _ Hv) as Hb. unfold pool_last.
    rewrite Hq in Hb |- *. change (32 - 0) with 32 in *. nia. }
  assert (Hne : forall ip, v4 ip -> non_nil ip = true) by (by intros [|? ?] [? _]).
  revert ip count. induction fuel as [|fuel IH]; intros ip count Hv; cbn [usable_loop];
    rewrite (Hall ip Hv), (Hne ip Hv); cbn [andb]; [done|].
  destruct (_ || _)%bool; apply IH, incIPv4_spec, Hv.
Qed.

(** * The pool in service *)
Inductive ipam_op := OAllocate (sid : string) | ORelease (sid : string).

Definition ipam_step (m : MemoryIPAM) (o : ipam_op) : go MemoryIPAM :=
  match o with
  | OAllocate sid => fst <$> Allocate m sid
  | ORelease sid => Some (fst (Release m sid))
  end.

Fixpoint ipam_run (m : MemoryIPAM) (ops : list ipam_op) : go MemoryIPAM :=
  match ops with
  | [] => Some m
  | o :: ops => m' ← ipam_step m o; ipam_run m' ops
  end.

(** A pool of [NewMemory], written in IPv4 form, after some operations. *)
Definition ipam_reachable (m : MemoryIPAM) : Prop :=
  exists pool gw m0 ops,
    NewMemory pool gw = Some (Ok m0) /\ length (net_mask (i_pool m0)) = 4%nat /\
    ipam_run m0 ops = Some m.

(** The addresses a subscriber may get. *)
Definition host_of (m : MemoryIPAM) (ip : IP) : Prop :=
  exists n, pool_ok n (i_pool m) /\ v4 ip /\ ip <> i_gateway m /\
    val4 (net_ip (i_pool m)) < val4 ip < pool_last n (i_pool m).

Record ipam_ok (n : Z) (m : MemoryIPAM) : Prop := {
  io_pool : pool_ok n (i_pool m);
  io_n : 1 <= n;
  io_gw : length (i_gateway m) = 4%nat;
  io_total : i_total m = Z.of_nat (length (hosts n (i_pool m) (i_gateway m) (val4 (net_ip (i_pool m)) + 1)));
  io_host : forall sid ip, i_leases m !! sid = Some ip ->
    v4 ip /\ ip <> i_gateway m /\ val4 (net_ip (i_pool m)) < val4 ip < pool_last n (i_pool m);
  io_assigned : forall key sid, i_assigned m !! key = Some sid <->
    exists ip, i_leases m !! sid = Some ip /\ IPString ip = key
}.

Lemma NewMemory_ok pool gw m :
  NewMemory pool gw = Some (Ok m) -> length (net_mask (i_pool m)) = 4%nat -> exists n, ipam_ok n m.
Proof.
  unfold NewMemory. intros H Hm. destruct (ParseCIDR pool) as [p|] eqn:E; [|done].
  destruct (negb (non_nil _)) eqn:Eg; [done|]. destruct (negb (Contains _ _)) eqn:Ec; [done|].
  destruct (usableCount p _) as [t|] eqn:Eu; [|done]. cbn [mbind option_bind] in H.
  destruct (t =? 0) eqn:Et; simplify_eq. cbn [i_pool] in Hm.
  destruct (parse_cidr_pool _ _ E Hm) as [n Hp]. exists n.
  assert (Hn : 1 <= n).
  { destruct (decide (n = 0)) as [->|]; [|destruct Hp; lia].
    unfold usableCount in Eu. rewrite (firstUsable_spec 0 p Hp) in Eu.
    rewrite (usable_loop_everything p _ _ _ _ Hp (be_v4 _)) in Eu. done. }
  rewrite (usableCount_spec n p Hp Hn) in Eu. injection Eu as <-.
  constructor; cbn [i_pool i_gateway i_total i_leases i_assigned]; try done.
  - apply To4_length. intros Heq. rewrite Heq in Eg. done.
  - intros key sid. rewrite lookup_empty. split; [done|]. intros (ip & H & _). by rewrite lookup_empty in H.
Qed.

(** The free host addresses of a pool. *)
Definition free_hosts (n : Z) (m : MemoryIPAM) : list IP :=
  filter (fun ip => i_assigned m !! IPString ip = None)
    (hosts n (i_pool m) (i_gateway m) (val4 (net_ip (i_pool m)) + 1)).

Lemma Allocate_spec n m sid :
  ipam_ok n m -> sid <> EmptyString ->
  Allocate m sid = Some (
    match i_leases m !! sid with
    | Some ip => (m, Ok ip)
    | None =>
      match head (free_hosts n m) with
      | Some ip => (m <| i_leases ::= <[sid := ip]> |> <| i_assigned ::= <[IPString ip := sid]> |>, Ok ip)
      | None => (m, Err IExhausted)
      end
    end).
Proof.
  intros [Hp Hn Hg Ht Hh Ha] Hs. unfold Allocate.
  apply nonempty_spec in Hs. rewrite Hs. cbn [negb].
  destruct (i_leases m !! sid); [done|].
  pose proof (pool_bounds n _ Hp) as (B1 & B2 & B3 & _).
  rewrite (firstUsable_spec n _ Hp), (pool_fuel_spec n _ Hp), (alloc_loop_spec n _ Hp Hn m) by
    (done || unfold pool_last; lia).
  done.
Qed.

Lemma elem_of_free_hosts n m ip :
  ipam_ok n m -> ip ∈ free_hosts n m <->
  (v4 ip /\ val4 (net_ip (i_pool m)) < val4 ip < pool_last n (i_pool m) /\ ip <> i_gateway m) /\
  forall sid, i_leases m !! sid <> Some ip.
Proof.
  intros [Hp Hn Hg Ht Hh Ha]. unfold free_hosts. rewrite list_elem_of_filter, (elem_of_hosts n _ Hp) by (done || lia).
  split.
  - intros (Hf & Hv & Hb & Hne). split; [split_and!; done || lia|]. intros sid Hl.
    assert (i_assigned m !! IPString ip = Some sid) by (apply Ha; eauto). congruence.
  - intros ((Hv & Hb & Hne) & Hf). split; [|split_and!; done || lia].
    destruct (i_assigned m !! IPString ip) as [sid|] eqn:E; [|done].
    apply Ha in E as (ip' & Hl & Heq). destruct (Hh _ _ Hl) as (Hv' & _).
    apply IPString_inj in Heq as ->; [|done..]. by destruct (Hf sid).
Qed.

Lemma Allocate_ok n m sid m' r : ipam_ok n m -> Allocate m sid = Some (m', r) -> ipam_ok n m'.
Proof.
  intros Hok H. destruct (decide (sid = EmptyString)) as [->|Hs].
  { unfold Allocate in H. cbn in H. by simplify_eq. }
  rewrite (Allocate_spec n) in H by done.
  destruct (i_leases m !! sid) as [ip|] eqn:El; [by simplify_eq|].
  destruct (head (free_hosts n m)) as [ip|] eqn:Eh; simplify_eq; [|done].
  assert (Hin : ip ∈ free_hosts n m) by (destruct (free_hosts n m); simplify_eq/=; left).
  apply (elem_of_free_hosts n m ip Hok) in Hin as ((Hv & Hb & Hne) & Hf).
  destruct Hok as [Hp Hn Hg Ht Hh Ha]. destruct m as [pl gw tot le as_].
  constructor; cbn in *; try done.
  - intros s a [[<- <-]|[Hns Hl]]%lookup_insert_Some; [done|by eapply Hh].
  - intros key s. split.
    + intros [[<- <-]|[Hk Hl]]%lookup_insert_Some; [exists ip; by rewrite lookup_insert_eq|].
      apply Ha in Hl as (a & Hl & Hk'). exists a. split; [|done].
      rewrite lookup_insert_ne; [done|]. intros ->. congruence.
    + intros (a & [[<- <-]|[Hns Hl]]%lookup_insert_Some & <-); [by rewrite lookup_insert_eq|].
      rewrite lookup_insert_ne; [apply Ha; eauto|]. intros E.
      apply IPString_inj in E as ->; [|done|by eapply Hh]. by eapply Hf.
Qed.

Lemma Release_ok n m sid : ipam_ok n m -> ipam_ok n (fst (Release m sid)).
Proof.
  intros Hok. unfold Release. destruct (negb _); [done|].
  destruct (i_leases m !! sid) as [ip|] eqn:El; [|done].
  destruct Hok as [Hp Hn Hg Ht Hh Ha]. destruct m as [pl gw tot le as_]. constructor; cbn in *; try done.
  - intros s a [_ Hl]%lookup_delete_Some. by eapply Hh.
  - intros key s. rewrite lookup_delete_Some, Ha. split.
    + intros (Hk & a & Hl & E). exists a. rewrite lookup_delete_Some. split_and!; [|done|done].
      intros <-. congruence.
    + intros (a & [Hns Hl]%lookup_delete_Some & E). split; [|eauto]. intros E'.
      assert (as_ !! IPString ip = Some sid) as H1 by (apply Ha; eauto).
      assert (as_ !! IPString ip = Some s) as H2 by (apply Ha; exists a; split; congruence). congruence.
Qed.

Lemma reachable_ok m : ipam_reachable m -> exists n, ipam_ok n m.
Proof.
  intros (pool & gw & m0 & ops & Hnew & Hm & Hops). destruct (NewMemory_ok _ _ _ Hnew Hm) as [n Hok].
  exists n. clear Hnew Hm. revert m0 Hok Hops. induction ops as [|o ops IH]; intros m0 Hok H; [by simplify_eq/=|].
  cbn in H. destruct (ipam_step m0 o) as [m1|] eqn:E; [|done]. cbn in H. apply (IH m1); [|done].
  destruct o as [sid|sid]; cbn in E.
  - destruct (Allocate m0 sid) as [[m2 r]|] eqn:Ea; [|done]. cbn in E. simplify_eq. by eapply Allocate_ok.
  - simplify_eq. by apply Release_ok.
Qed.

Lemma leases_inj n m s1 s2 ip :
  ipam_ok n m -> i_leases m !! s1 = Some ip -> i_leases m !! s2 = Some ip -> s1 = s2.
Proof.
  intros Hok H1 H2. assert (i_assigned m !! IPString ip = Some s1) by (apply Hok; eauto).
  assert (i_assigned m !! IPString ip = Some s2) by (apply Hok; eauto). congruence.
Qed.

Lemma leases_size n m : ipam_ok n m -> Z.of_nat (size (i_leases m)) <= i_total m.
Proof.
  intros Hok. rewrite (io_total _ _ Hok). apply inj_le.
  rewrite <- length_map_to_list, <- (length_fmap snd). apply submseteq_length, NoDup_submseteq.
  - apply NoDup_fmap_2_strong, NoDup_map_to_list.
    intros [s1 a1] [s2 a2] H1%elem_of_map_to_list H2%elem_of_map_to_list E. cbn in E. subst a2.
    by rewrite (leases_inj n m s1 s2 a1 Hok H1 H2).
  - intros ip ([s a] & -> & Hin%elem_of_map_to_list)%list_elem_of_fmap.
    pose proof Hok as [Hp Hn Hg Ht Hh Ha]. destruct (Hh _ _ Hin) as (Hv & Hne & Hb).
    apply (elem_of_hosts n _ Hp); [done|lia|]. cbn [snd]. split_and!; done || lia.
Qed.

Lemma pool_ok_unique n n' p : pool_ok n p -> pool_ok n' p -> n = n'.
Proof.
  intros Hp Hp'. pose proof (pool_fuel_spec n p Hp) as E. rewrite (pool_fuel_spec n' p Hp') in E.
  destruct Hp as (Hn & _), Hp' as (Hn' & _).
  pose proof (Z.pow_pos_nonneg 2 (32 - n)). pose proof (Z.pow_pos_nonneg 2 (32 - n')).
  assert (E2 : 2 ^ (32 - n) = 2 ^ (32 - n')) by lia.
  apply Z.pow_inj_r in E2; lia.
Qed.

Lemma free_hosts_sorted n m ip ip' :
  ipam_ok n m -> head (free_hosts n m) = Some ip -> ip' ∈ free_hosts n m -> val4 ip <= val4 ip'.
Proof.
  intros Hok. pose proof (pool_bounds n _ (io_pool _ _ Hok)) as (B1 & B2 & B3 & _).
  unfold free_hosts, hosts. rewrite list_filter_filter.
  assert (Hz : 0 <= val4 (net_ip (i_pool m)) + 1) by lia. revert Hz.
  generalize (val4 (net_ip (i_pool m)) + 1) as z. intros z Hz.
  remember (Z.to_nat (pool_last n (i_pool m) + 1 - z)) as k eqn:Ek. revert z Hz Ek.
  induction k as [|k IH]; intros z Hz Ek.
  { rewrite seqZ_nil by lia. done. }
  rewrite seqZ_cons by lia. replace (Z.pred _) with (pool_last n (i_pool m) + 1 - Z.succ z) by lia.
  rewrite fmap_cons, filter_cons. case_decide as Hd; [|apply IH; lia].
  intros Hhd. cbn [head] in Hhd. assert (ip = be 4 z) as -> by congruence.
  intros [->|Hin]%elem_of_cons; [apply Z.le_refl|]. apply list_elem_of_filter in Hin as (_ & Hin).
  apply list_elem_of_fmap in Hin as (y & -> & Hy%elem_of_seqZ). rewrite !val4_be by lia. lia.
Qed.

(** C25: Whatever sequence of allocations and releases the pool has served, a
    lease is a host address of the pool - inside it, never the network address,
    the broadcast address or the gateway -, no two sessions hold the same
    address, and the leases never outnumber the usable addresses, so the
    [Free] figure of [Status] is never negative. *)
Theorem leases_disjoint m :
  ipam_reachable m ->
  (forall sid ip, i_leases m !! sid = Some ip -> host_of m ip) /\
  (forall s1 s2 ip, i_leases m !! s1 = Some ip -> i_leases m !! s2 = Some ip -> s1 = s2) /\
  (let '(total, used, free) := Status_ m in
   used = Z.of_nat (size (i_leases m)) /\ used <= total /\ 0 <= free).
Proof.
  intros [n Hok]%reachable_ok. pose proof (leases_size n m Hok). split_and!.
  - intros sid ip Hl. exists n. destruct (io_host _ _ Hok _ _ Hl) as (Hv & Hne & Hb).
    split_and!; [apply Hok|done|done|apply Hb|apply Hb].
  - intros s1 s2 ip. by apply (leases_inj n).
  - unfold Status_. split_and!; [done|done|lia].
Qed.

(** The allocation loop always ends.  A session that holds an address gets
    the same one; otherwise it gets the first host address of the pool that no
    session holds, and the call fails (changing nothing) exactly when every
    host address is held.  A release of the session makes its address free. *)
Theorem allocate_first_free m sid :
  ipam_reachable m -> sid <> EmptyString ->
  exists m' r, Allocate m sid = Some (m', r) /\ i_pool m' = i_pool m /\ i_gateway m' = i_gateway m /\
  match i_leases m !! sid, r with
  | Some ip, _ => r = Ok ip /\ m' = m
  | None, Ok ip =>
    host_of m ip /\ (forall s, i_leases m !! s <> Some ip) /\
    (forall ip', host_of m ip' -> val4 ip' < val4 ip -> exists s, i_leases m !! s = Some ip') /\
    i_leases m' = <[sid := ip]> (i_leases m) /\
    i_leases (fst (Release m' sid)) = i_leases m
  | None, Err e => e = IExhausted /\ m' = m /\ (forall ip', host_of m ip' -> exists s, i_leases m !! s = Some ip')
  end.
Proof.
  intros [n Hok]%reachable_ok Hs. rewrite (Allocate_spec n m sid Hok Hs).
  eexists _, _. split; [apply f_equal, surjective_pairing|].
  destruct (i_leases m !! sid) as [ip|] eqn:El; [done|].
  assert (Hfree : forall ip', host_of m ip' -> ip' ∈ free_hosts n m \/ exists s, i_leases m !! s = Some ip').
  { intros ip' (n' & Hp' & Hv & Hne & Hb). destruct (pool_ok_unique n n' (i_pool m)) as []; [apply Hok|done|].
    destruct (decide (ip' ∈ free_hosts n m)) as [|Hni]; [by left|right].
    destruct (i_assigned m !! IPString ip') as [s|] eqn:Ea.
    - apply (io_assigned _ _ Hok) in Ea as (a & Hl & E). exists s.
      destruct (io_host _ _ Hok _ _ Hl) as (Hva & _). by apply IPString_inj in E as ->.
    - destruct Hni. apply list_elem_of_filter. split; [done|].
      apply (elem_of_hosts n _ (io_pool _ _ Hok)); [apply Hok|lia|]. split_and!; done || lia. }
  destruct (head (free_hosts n m)) as [ip|] eqn:Eh; cbn [fst snd].
  - assert (Hin : ip ∈ free_hosts n m) by (destruct (free_hosts n m); simplify_eq/=; left).
    apply (elem_of_free_hosts n m ip Hok) in Hin as ((Hv & Hb & Hne) & Hf).
    split_and!; try done.
    + exists n. split_and!; try done; [apply Hok|lia|lia].
    + intros ip' Hh Hlt. destruct (Hfree ip' Hh) as [Hin|]; [|done].
      pose proof (free_hosts_sorted n m ip ip' Hok Eh Hin). lia.
    + destruct m as [pl gw tot le as_]. cbn in *. unfold Release. apply nonempty_spec in Hs. rewrite Hs. cbn.
      rewrite lookup_insert_eq. cbn. by apply delete_insert_id.
  - split_and!; try done. intros ip' Hh. destruct (Hfree ip' Hh) as [Hin|]; [|done].
    destruct (free_hosts n m); [by apply elem_of_nil in Hin|done].
Qed.

(** A pool with one usable address, taken by one session. *)
Definition tiny : MemoryIPAM :=
  mkIPAM (mkIPNet [10; 0; 0; 0] [255; 255; 255; 252]) [10; 0; 0; 1] 1
         {[ "a" := [10; 0; 0; 2] ]} {[ "10.0.0.2" := "a" ]}.

Lemma tiny_reachable : ipam_reachable tiny.
Proof.
  exists "10.0.0.0/30", "10.0.0.1", (mkIPAM (mkIPNet [10; 0; 0; 0] [255; 255; 255; 252]) [10; 0; 0; 1] 1 ∅ ∅),
    [OAllocate "b"; OAllocate "a"; ORelease "b"; OAllocate "a"; OAllocate "c"; ORelease "c"; OAllocate "a"].
  split_and!; vm_compute; reflexivity.
Qed.

Lemma leases_disjoint_witness :
  i_leases tiny !! "a" = Some [10; 0; 0; 2] /\ host_of tiny [10; 0; 0; 2] /\ Status_ tiny = (1, 1, 0).
Proof.
  split; [vm_compute; reflexivity|]. split; [|vm_compute; reflexivity].
  apply (proj1 (leases_disjoint tiny tiny_reachable) "a"). vm_compute. reflexivity.
Defined.

Lemma allocate_first_free_witness :
  Allocate tiny "z" = Some (tiny, Err IExhausted) /\
  exists m' r, Allocate tiny "z" = Some (m', r) /\ i_pool m' = i_pool tiny.
Proof.
  split; [vm_compute; reflexivity|].
  destruct (allocate_first_free tiny "z" tiny_reachable ltac:(done)) as (m' & r & H & Hp & _).
  exists m', r. split; [exact H|exact Hp].
Defined.
