(* ===== verification/SessionMap.v ===== *)
(** The session registry seen as a map from identifiers to sessions: what each
    operation of the manager does to [Get], for the components that use the
    registry.  The operations of the authentication cache and of the recovery
    tombstones leave that map alone. *)
From S2P Require Import Prelude.
From S2P Require Import GoNet.
From S2P Require Import Session.
From S2P Require Import SessionFacts.
From S2P Require Import AuthCache.
From S2P Require Import Recovery.
Open Scope string_scope.

(** The invariant of a registry ([reachable_inv]). *)
Definition mgr_ok (m : Manager) : Prop := index_sound m /\ ids_ok m /\ Forall flags_ok (heap m).

Lemma exec_mgr_ok o now m : mgr_ok m -> op_ok o m -> mgr_ok (exec o now m).
Proof.
  intros (H1 & H2 & H3) Ho. split_and!; [by apply exec_sound|by apply exec_ids|by apply exec_flags].
Qed.

Lemma new_mgr_ok : mgr_ok NewManager.
Proof. apply reachable_inv, reach_init. Qed.

(** The session [id] is now [s']; nothing else changed. *)
Record changed (m m' : Manager) (id : string) (s' : Session) : Prop := {
  ch_ok : mgr_ok m';
  ch_next : next m' = next m;
  ch_get : forall k, Get m' k = if decide (k = id) then Some s' else Get m k
}.

(** What an operation on [id] does: it gives the session [f s] on success,
    and nothing on an error. *)
Definition op_spec (m : Manager) (id : string) (r : Manager * result Session sess_err)
    (f : Session -> Session) (can : Session -> Prop) : Prop :=
  match snd r with
  | Ok s' => exists s, Get m id = Some s /\ can s /\ s' = f s /\ changed m (fst r) id s'
  | Err _ => fst r = m /\ forall s, Get m id = Some s -> ~ can s
  end.

Section get.
Context (m : Manager) (Hm : mgr_ok m).

Lemma Get_live id s : Get m id = Some s -> exists l, byID m !! id = Some l /\ heap m !! l = Some s /\ s_ID s = id.
Proof.
  unfold Get. intros (l & Hl & ->)%fmap_Some. exists l.
  destruct (live_deref m id l) as [Hd Hid]; [apply Hm|done|]. by rewrite <- Hd at 1.
Qed.

Lemma Get_ID id s : Get m id = Some s -> s_ID s = id.
Proof. intros (l & _ & _ & H)%Get_live. exact H. Qed.

Lemma Get_flags id s : Get m id = Some s -> flags_ok s.
Proof.
  intros (l & _ & Hs & _)%Get_live. destruct Hm as (_ & _ & Hf). rewrite Forall_lookup in Hf. eauto.
Qed.

(** One object is rewritten, the identifiers stay. *)
Lemma Get_rewrite m' id l f :
  byID m !! id = Some l -> (forall k, byID m' !! k = byID m !! k) -> heap m' = alter f l (heap m) ->
  forall k, Get m' k = if decide (k = id) then Some (f (deref m l)) else Get m k.
Proof.
  intros Hl Hid Hh k. destruct (live_deref m id l) as [Hd _]; [apply Hm|done|].
  unfold Get. rewrite Hid. case_decide as Hk.
  - subst k. rewrite Hl. cbn. f_equal. apply deref_Some. by rewrite Hh, list_lookup_alter_eq, Hd.
  - destruct (byID m !! k) as [l'|] eqn:Hl'; [|done]. cbn. f_equal. apply deref_heap.
    rewrite Hh. apply list_lookup_alter_ne. intros <-. apply Hk, (live_unique m k id l); [apply Hm|done|done].
Qed.

Lemma transition_spec id nxt fn g now :
  acts g fn -> (forall l k, byID m !! id = Some l -> byID (fn l m) !! k = byID m !! k) ->
  mgr_ok (fst (transition m id nxt fn now)) ->
  op_spec m id (transition m id nxt fn now) (fun s => g s <| s_State := nxt |> <| s_UpdatedAt := now |>)
    (fun s => validTransition (s_State s) nxt = true).
Proof.
  intros Ha Hb. unfold transition, op_spec. destruct (byID m !! id) as [l|] eqn:Hl; cbn [fst snd].
  2: { intros _. split; [done|]. unfold Get. by rewrite Hl. }
  assert (HG : Get m id = Some (deref m l)) by (unfold Get; by rewrite Hl).
  destruct (validTransition _ _) eqn:Hv; cbn [fst snd]; intros Hok.
  2: { split; [done|]. intros s Hs. rewrite HG in Hs. injection Hs as <-. by rewrite Hv. }
  set (f := fun s => g s <| s_State := nxt |> <| s_UpdatedAt := now |>).
  destruct (Ha l m) as [Hh Hn]. destruct (live_deref m id l) as [Hd _]; [apply Hm|done|].
  set (m' := write l _ (fn l m)) in *.
  assert (Hh' : heap m' = alter f l (heap m)) by (unfold m'; cbn; by rewrite Hh, alter_compose_heap).
  assert (Hf : deref m' l = f (deref m l)) by (apply deref_Some; by rewrite Hh', list_lookup_alter_eq, Hd).
  exists (deref m l). rewrite Hf. split_and!; try done. split; [done|exact Hn|].
  apply (Get_rewrite m' id l f); [done| |done]. intros k. by apply (Hb l k).
Qed.

Lemma update_spec id fn g now :
  acts g fn -> (forall l k, byID m !! id = Some l -> byID (fn l m) !! k = byID m !! k) ->
  mgr_ok (fst (update m id fn now)) ->
  op_spec m id (update m id fn now) (fun s => g s <| s_UpdatedAt := now |>) (fun _ => True).
Proof.
  intros Ha Hb. unfold update, op_spec. destruct (byID m !! id) as [l|] eqn:Hl; cbn [fst snd].
  2: { intros _. split; [done|]. unfold Get. by rewrite Hl. }
  assert (HG : Get m id = Some (deref m l)) by (unfold Get; by rewrite Hl).
  intros Hok. set (f := fun s => g s <| s_UpdatedAt := now |>).
  destruct (Ha l m) as [Hh Hn]. destruct (live_deref m id l) as [Hd _]; [apply Hm|done|].
  set (m' := write l _ (fn l m)) in *.
  assert (Hh' : heap m' = alter f l (heap m)) by (unfold m'; cbn; by rewrite Hh, alter_compose_heap).
  assert (Hf : deref m' l = f (deref m l)) by (apply deref_Some; by rewrite Hh', list_lookup_alter_eq, Hd).
  exists (deref m l). rewrite Hf. split_and!; try done. split; [done|exact Hn|].
  apply (Get_rewrite m' id l f); [done| |done]. intros k. by apply (Hb l k).
Qed.

(** The operations the lifecycle service uses. *)
Lemma mark_spec id nxt now :
  mgr_ok (fst (transition m id nxt (fun _ m => m) now)) ->
  op_spec m id (transition m id nxt (fun _ m => m) now)
    (fun s => s <| s_State := nxt |> <| s_UpdatedAt := now |>) (fun s => validTransition (s_State s) nxt = true).
Proof. intros H. by apply (transition_spec id nxt _ (fun s => s)); [apply acts_id|..]. Qed.

Lemma MarkAuthPending_spec id now :
  op_spec m id (MarkAuthPending m id now) (fun s => s <| s_State := State.AuthPending |> <| s_UpdatedAt := now |>)
    (fun s => validTransition (s_State s) State.AuthPending = true).
Proof. apply mark_spec. by apply (exec_mgr_ok (OMarkAuthPending id)). Qed.

Lemma MarkPGWPending_spec id now :
  op_spec m id (MarkPGWPending m id now) (fun s => s <| s_State := State.PGWPending |> <| s_UpdatedAt := now |>)
    (fun s => validTransition (s_State s) State.PGWPending = true).
Proof. apply mark_spec. by apply (exec_mgr_ok (OMarkPGWPending id)). Qed.

Lemma MarkActive_spec id now :
  op_spec m id (MarkActive m id now) (fun s => s <| s_State := State.Active |> <| s_UpdatedAt := now |>)
    (fun s => validTransition (s_State s) State.Active = true).
Proof. apply mark_spec. by apply (exec_mgr_ok (OMarkActive id)). Qed.

Lemma MarkTerminating_spec id now :
  op_spec m id (MarkTerminating m id now) (fun s => s <| s_State := State.Terminating |> <| s_UpdatedAt := now |>)
    (fun s => validTransition (s_State s) State.Terminating = true).
Proof. apply mark_spec. by apply (exec_mgr_ok (OMarkTerminating id)). Qed.

Lemma MarkRecovering_spec id r now :
  op_spec m id (MarkRecovering m id r now)
    (fun s => s <| s_Reason := r |> <| s_State := State.Recovering |> <| s_UpdatedAt := now |>)
    (fun s => validTransition (s_State s) State.Recovering = true).
Proof.
  apply (transition_spec id _ _ (fun s => s <| s_Reason := r |>)); [done|done|].
  by apply (exec_mgr_ok (OMarkRecovering id r)).
Qed.

Lemma MarkFailed_spec id r now :
  op_spec m id (MarkFailed m id r now)
    (fun s => s <| s_Reason := r |> <| s_State := State.Failed |> <| s_UpdatedAt := now |>)
    (fun s => validTransition (s_State s) State.Failed = true).
Proof.
  apply (transition_spec id _ _ (fun s => s <| s_Reason := r |>)); [done|done|].
  by apply (exec_mgr_ok (OMarkFailed id r)).
Qed.

Lemma SetSubscriberIP_spec id ip now :
  ip <> [] ->
  op_spec m id (SetSubscriberIP m id ip now)
    (fun s => s <| s_SubscriberIP := ip |> <| s_State := State.IPAllocated |> <| s_UpdatedAt := now |>)
    (fun s => validTransition (s_State s) State.IPAllocated = true).
Proof.
  intros Hip. apply (transition_spec id _ _ (fun s => s <| s_SubscriberIP := ip |>)); [done|done|].
  by apply (exec_mgr_ok (OSetSubscriberIP id ip)).
Qed.

Lemma UpdateSubscriberIP_spec id ip now :
  op_spec m id (UpdateSubscriberIP m id ip now)
    (fun s => s <| s_SubscriberIP := ip |> <| s_UpdatedAt := now |>) (fun _ => True).
Proof.
  apply (update_spec id _ (fun s => s <| s_SubscriberIP := ip |>)); [done|done|].
  by apply (exec_mgr_ok (OUpdateSubscriberIP id ip)).
Qed.

Lemma ApplyPGWResult_spec id ci ui c l r now :
  op_spec m id (ApplyPGWResult m id ci ui c l r now)
    (fun s => s <| s_PGWControlIP := ci |> <| s_PGWUserIP := ui |> <| s_LocalGTPUTEID := l |>
                <| s_RemoteGTPUTEID := r |> <| s_GTPCTEID := c |> <| s_UpdatedAt := now |>) (fun _ => True).
Proof.
  apply (update_spec id _ (fun s => s <| s_PGWControlIP := ci |> <| s_PGWUserIP := ui |>
    <| s_LocalGTPUTEID := l |> <| s_RemoteGTPUTEID := r |> <| s_GTPCTEID := c |>)); [done|done|].
  by apply (exec_mgr_ok (OApplyPGWResult id ci ui c l r)).
Qed.

Lemma RecordGTPUError_spec id t a now :
  op_spec m id (RecordGTPUError m id t a now)
    (fun s => s <| s_GTPUErrorCount ::= fun n => wrap 64 (n + 1) |> <| s_LastGTPUErrorAt := a |>
      <| s_LastGTPUErrorTEID := t |> <| s_Reason := teid_reason t |> <| s_UpdatedAt := now |>) (fun _ => True).
Proof.
  apply (update_spec id _ (fun s => s <| s_GTPUErrorCount ::= fun n => wrap 64 (n + 1) |>
    <| s_LastGTPUErrorAt := a |> <| s_LastGTPUErrorTEID := t |> <| s_Reason := teid_reason t |>)); [done|done|].
  by apply (exec_mgr_ok (ORecordGTPUError id t a)).
Qed.

Lemma ApplyAccounting_spec id u now :
  op_spec m id (ApplyAccounting m id u now)
    (fun s => apply_accounting u s <| s_UpdatedAt := now |>) (fun _ => True).
Proof.
  apply (update_spec id _ (apply_accounting u)); [done|done|].
  by apply (exec_mgr_ok (OApplyAccounting id u)).
Qed.

Lemma ApplyAuthResult_spec id a b c d now :
  op_spec m id (ApplyAuthResult m id a b c d now)
    (fun s => auth_fields a b c d s <| s_State := State.Authorized |> <| s_UpdatedAt := now |>)
    (fun s => validTransition (s_State s) State.Authorized = true).
Proof.
  apply (transition_spec id _ _ (auth_fields a b c d)); [by intros l m'| |].
  - intros l k Hl. destruct (live_deref m id l) as [Hd Hid]; [apply Hm|done|].
    rewrite byID_index, (deref_write l (auth_fields a b c d) _ (deref m l)) by exact Hd.
    rewrite (proj1 (auth_fields_keeps a b c d (deref m l))), Hid.
    change (byID (write l _ (unindexLocked l m))) with (byID (unindexLocked l m)).
    destruct (decide (id = k)) as [<-|Hne]; [by rewrite lookup_insert_eq|].
    by rewrite lookup_insert_ne, byID_unindex, Hid, decide_False.
  - by apply (exec_mgr_ok (OApplyAuthResult id a b c d)).
Qed.

Lemma Create_spec i now :
  (next m + 1 < 2 ^ 64)%Z ->
  let s := snd (Create m i now) in
  Get m (s_ID s) = None /\ s = new_session (s_ID s) i now /\ changed (m <| next := (next m + 1)%Z |>) (fst (Create m i now)) (s_ID s) s.
Proof.
  intros Hn. destruct Hm as (Hs & Hi & Hf). pose proof (create_fresh m now Hi Hs Hn) as Hfr.
  assert (Hok : mgr_ok (fst (Create m i now))) by (by apply (exec_mgr_ok (OCreate i))).
  assert (En : wrap 64 (next m + 1) = (next m + 1)%Z)
    by (destruct Hi as [H0 _]; unfold wrap; apply Z.mod_small; lia).
  unfold Create in *. cbn [fst snd] in *. rewrite En in *. set (id := session_id _ _) in *.
  destruct (new_session_keys id i now) as (E1 & _).
  rewrite E1. split; [unfold Get; by rewrite Hfr|]. split; [done|]. split; [done|done|].
  set (s := new_session id i now) in *. set (m1 := m <| next := _ |> <| heap ::= _ |>) in *.
  assert (Hd : deref m1 (length (heap m)) = s) by (apply deref_Some; cbn; by rewrite list_lookup_middle).
  intros k. unfold Get. rewrite byID_index, Hd, E1. case_decide as Hk.
  - subst k. rewrite lookup_insert_eq. cbn. by f_equal.
  - rewrite lookup_insert_ne by congruence. change (byID m1) with (byID m).
    change (byID (m <| next := (next m + 1)%Z |>)) with (byID m).
    destruct (byID m !! k) as [l|] eqn:E; [|done]. cbn. f_equal. apply deref_heap. cbn.
    destruct (live_deref m k l Hs E) as [Hl _]. rewrite lookup_app_l; [done|]. by apply lookup_lt_Some in Hl.
Qed.

(** [Delete] of a session in [Terminating]. *)
Lemma Delete_spec id now s :
  Get m id = Some s -> s_State s = State.Terminating ->
  let m' := fst (Delete m id now) in
  snd (Delete m id now) = Some (s <| s_State := State.Terminated |> <| s_UpdatedAt := now |>) /\
  mgr_ok m' /\ next m' = next m /\ forall k, Get m' k = if decide (k = id) then None else Get m k.
Proof.
  intros HG Hst. destruct (Get_live id s HG) as (l & Hl & Hh & Hid).
  assert (Hd : deref m l = s) by (by apply deref_Some).
  assert (Hok : mgr_ok (fst (Delete m id now))) by (by apply (exec_mgr_ok (ODelete id))).
  assert (Ev : validTransition State.Terminating State.Terminated = true) by done.
  unfold Delete in *. rewrite Hl, Hd, Hst, Ev in *. cbv zeta in *.
  cbn [fst snd] in *. set (f := fun s : Session => s <| s_State := _ |> <| s_UpdatedAt := _ |>) in *.
  split; [by rewrite (deref_write l f _ s)|]. split; [done|]. split; [done|]. intros k. unfold Get.
  change (byID (write l f (unindexLocked l m))) with (byID (unindexLocked l m)).
  rewrite byID_unindex, Hd, Hid. case_decide as Hk.
  - by rewrite decide_True by congruence.
  - rewrite decide_False by congruence. destruct (byID m !! k) as [l'|] eqn:Hl'; [|done]. cbn. f_equal.
    apply deref_heap, (heap_write_ne l f (unindexLocked l m)). intros ->.
    apply Hk. by apply (live_unique m id k l); [apply Hm|..].
Qed.
End get.

(** * Operations that leave the sessions alone *)
Definition same_sessions (m m' : Manager) : Prop :=
  heap m' = heap m /\ next m' = next m /\ forall k, look m' k = look m k.

Lemma same_sessions_refl m : same_sessions m m.
Proof. done. Qed.

Lemma same_sessions_trans m1 m2 m3 : same_sessions m1 m2 -> same_sessions m2 m3 -> same_sessions m1 m3.
Proof. intros (A1 & A2 & A3) (B1 & B2 & B3). split_and!; [congruence..|]. intros k. by rewrite B3. Qed.

#[export] Instance same_sessions_preorder : PreOrder same_sessions.
Proof. split; [exact same_sessions_refl|exact same_sessions_trans]. Qed.

Lemma same_sessions_Get m m' : same_sessions m m' -> forall k, Get m' k = Get m k.
Proof. intros (Hh & _ & Hl) k. pose proof (Hl (KID k)) as E. cbn in E. unfold Get, deref. by rewrite E, Hh. Qed.

Lemma same_sessions_ok m m' : same_sessions m m' -> mgr_ok m -> mgr_ok m'.
Proof.
  intros (Hh & Hn & Hl) (Hs & Hi & Hf). split_and!.
  - intros k l Hk. rewrite Hl in Hk. destruct (Hs k l Hk) as (s & H1 & H2 & H3). exists s.
    rewrite Hh. split_and!; [done..|]. pose proof (Hl (KID (s_ID s))) as E. cbn in E. by rewrite E.
  - destruct Hi as [H0 Hi]. split; [by rewrite Hn|]. intros i s. rewrite Hh. intros (t & n & Hb & E)%Hi.
    exists t, n. by rewrite Hn.
  - by rewrite Hh.
Qed.

Lemma fst_if {A B} (b : bool) (x y : A * B) : fst (if b then x else y) = if b then fst x else fst y.
Proof. by destruct b. Qed.

Create HintDb same.
Ltac same := by (split_and!; [done|done|by intros []]).

Lemma same_unindex_auth l m : same_sessions m (unindexAuthCacheLocked l m). Proof. same. Qed.
Lemma same_index_auth l m : same_sessions m (indexAuthCacheLocked l m). Proof. same. Qed.
Lemma same_unindex_recovery l m : same_sessions m (unindexRecoveryLocked l m). Proof. same. Qed.
Lemma same_index_recovery l m : same_sessions m (indexRecoveryLocked l m). Proof. same. Qed.

#[export] Hint Resolve same_sessions_refl same_unindex_auth same_index_auth same_unindex_recovery
  same_index_recovery : same.

Lemma same_auth_expired m l now : same_sessions m (fst (authCacheExpiredLocked m l now)).
Proof. destruct l; cbn; [|done]. case_match; cbn; auto with same. Qed.

Lemma same_recovery_expired m l now : same_sessions m (fst (recoveryExpiredLocked m l now)).
Proof. destruct l; cbn; [|done]. case_match; cbn; auto with same. Qed.
#[export] Hint Resolve same_auth_expired same_recovery_expired : same.

Lemma same_upsert m u now : same_sessions m (fst (UpsertAuthCache m u now)).
Proof. unfold UpsertAuthCache. case_match; [done|]. destruct (authByKey m !! _); cbn; same. Qed.

Lemma same_lookup_auth m mac imsi apn now clock :
  same_sessions m (fst (LookupValidAuthCache m mac imsi apn now clock)).
Proof.
  unfold LookupValidAuthCache. set (l := auth_candidate _ _ _ _). set (t := if IsZero now then clock else now).
  pose proof (same_auth_expired m l t) as H. destruct (authCacheExpiredLocked m l t) as [m' b]. cbn in H.
  by repeat case_match.
Qed.

Lemma same_acct_lookup m ks now : same_sessions m (fst (acct_lookup m ks now)).
Proof.
  revert m. induction ks as [|k ks IH]; intros m; cbn [acct_lookup]; [done|].
  pose proof (same_auth_expired m (authByAcctNAS m !! k) now) as H.
  destruct (authCacheExpiredLocked _ _ _) as [m' b]. cbn in H.
  repeat case_match; try done; by etransitivity; [exact H|apply IH].
Qed.

Lemma same_lookup_acct m a n i now clock :
  same_sessions m (fst (LookupValidAuthCacheByAcct m a n i now clock)).
Proof. unfold LookupValidAuthCacheByAcct. case_match; [done|]. apply same_acct_lookup. Qed.

Lemma same_delete_auth m mac imsi apn : same_sessions m (fst (DeleteAuthCache m mac imsi apn)).
Proof. unfold DeleteAuthCache. case_match; cbn; auto with same. Qed.

Lemma same_add_tombstone m s r ttl now : same_sessions m (fst (AddRecoveryTombstone m s r ttl now)).
Proof. unfold AddRecoveryTombstone. repeat case_match; done || same. Qed.

Lemma same_live_recovery m l now : same_sessions m (fst (live_recovery m l now)).
Proof.
  unfold live_recovery. pose proof (same_recovery_expired m l now) as H.
  destruct (recoveryExpiredLocked _ _ _) as [m' b]. by case_match.
Qed.

Lemma same_find_recovery m imsi mac now : same_sessions m (fst (FindRecovery m imsi mac now)).
Proof. apply same_live_recovery. Qed.

Lemma same_complete m s now : same_sessions m (fst (CompleteRecoveryFor m s now)).
Proof.
  unfold CompleteRecoveryFor. destruct s as [s|]; [|done].
  pose proof (same_recovery_expired m (complete_candidate m s) now) as H.
  destruct (recoveryExpiredLocked _ _ _) as [m' b]. cbn in H. repeat case_match; done || (cbn; etransitivity; [exact H|auto with same]).
Qed.

Lemma same_update_recovery m o1 o2 id fn now : same_sessions m (fst (UpdateRecovery m o1 o2 id fn now)).
Proof.
  unfold UpdateRecovery. case_match; [done|]. set (l := match find_old m id o1 with Some _ => _ | None => _ end).
  pose proof (same_recovery_expired m l now) as Hexp. destruct (recoveryExpiredLocked _ _ _) as [m' b]. cbn in Hexp.
  repeat case_match; done || (cbn; etransitivity; [exact Hexp|]; same).
Qed.

#[export] Hint Resolve same_upsert same_lookup_auth same_lookup_acct same_delete_auth same_add_tombstone
  same_find_recovery same_complete same_update_recovery : same.
