(* ===== verification/Lifecycle.v ===== *)
(** The subscriber lifecycle service: [internal/lifecycle/service.go], with
    the interfaces it drives ([pgw.Client], [routing.Manager],
    [userplane.UserPlane], the access-side binder, the RADIUS dynamic
    authorizer and the AAA provider).

    A handler is a function of the service's state ([M]): the registry, the
    optional address pool, the counters, the accounting recovery table, the
    subscriber locks that are held, and a trace of the calls made to the other
    components (newest first).  [None] is a panic.  The other components, the
    clock, the order of map iterations and the waits for locks are an [Env]:
    each question carries its number, so two calls with the same arguments may
    have different answers.  Handlers run one after the other; the lock table
    shows which subscriber locks each call takes and frees. *)
From S2P Require Import Prelude.
From S2P Require Import GoNet.
From S2P Require Import Config.
From S2P Require Import Session.
From S2P Require Import SessionFacts.
From S2P Require Import AuthCache.
From S2P Require Import Recovery.
From S2P Require Import GtpClient.
From S2P Require Import Ipam.
Open Scope string_scope.
Open Scope Z_scope.

Declare Scope life_scope.
Delimit Scope life_scope with life.
Open Scope life_scope.

(** * Requests and answers *)
Record AttachRequest := mkAttachRequest {
  q_IMSI : string; q_MSISDN : string; q_MACAddress : string; q_Username : string;
  q_EAPIdentity : string; q_Realm : string; q_APN : string; q_CallingStationID : string;
  q_CalledStationID : string; q_NASIP : string; q_NASIdentifier : string;
  q_AcctSessionID : string; q_RadiusState : string; q_RadiusClass : list Z;
  q_ConnectInfo : string; q_FramedMTU : Z; q_Ki : string; q_OPc : string
}.
#[global] Instance AttachRequest_eta : Eta AttachRequest := fun x => mkAttachRequest
  (q_IMSI x) (q_MSISDN x) (q_MACAddress x) (q_Username x) (q_EAPIdentity x) (q_Realm x) (q_APN x)
  (q_CallingStationID x) (q_CalledStationID x) (q_NASIP x) (q_NASIdentifier x) (q_AcctSessionID x)
  (q_RadiusState x) (q_RadiusClass x) (q_ConnectInfo x) (q_FramedMTU x) (q_Ki x) (q_OPc x).

Definition zeroAttachRequest : AttachRequest :=
  mkAttachRequest "" "" "" "" "" "" "" "" "" "" "" "" "" [] "" 0 "" "".

(** [AttachResponse] and [DetachResponse] have the same fields. *)
Record AttachResponse := mkAttachResponse {
  ar_SessionID : string; ar_State : State.t; ar_IMSI : string; ar_SubscriberIP : string;
  ar_APN : string; ar_Reason : string
}.
Definition DetachResponse := AttachResponse.

Record DetachRequest := mkDetachRequest { dr_SessionID : string; dr_IMSI : string; dr_MACAddress : string }.

(** [lifecycle.EAPRequest]; the AAA provider's request is built from it. *)
Record EAPRequest := mkEAPRequest {
  p_SessionID : string; p_IMSI : string; p_MSISDN : string; p_MACAddress : string;
  p_Username : string; p_EAPIdentity : string; p_Realm : string; p_APN : string;
  p_CallingStationID : string; p_CalledStationID : string; p_NASIP : string;
  p_NASIdentifier : string; p_AcctSessionID : string; p_RadiusClass : list Z;
  p_ConnectInfo : string; p_FramedMTU : Z; p_EAPPayload : list Z
}.
#[global] Instance EAPRequest_eta : Eta EAPRequest := fun x => mkEAPRequest
  (p_SessionID x) (p_IMSI x) (p_MSISDN x) (p_MACAddress x) (p_Username x) (p_EAPIdentity x) (p_Realm x)
  (p_APN x) (p_CallingStationID x) (p_CalledStationID x) (p_NASIP x) (p_NASIdentifier x)
  (p_AcctSessionID x) (p_RadiusClass x) (p_ConnectInfo x) (p_FramedMTU x) (p_EAPPayload x).

Record EAPResponse := mkEAPResponse {
  pr_SessionID : string; pr_State : string; pr_IMSI : string; pr_SubscriberIP : string;
  pr_APN : string; pr_Reason : string; pr_EAPPayload : list Z; pr_MSK : list Z
}.

Inductive AccountingStatus :=
| AccountingStart | AccountingStop | AccountingInterimUpdate | AccountingOn | AccountingOff
| AccountingOther (status : string).

Record AccountingRequest := mkAccountingRequest {
  a_StatusType : AccountingStatus; a_UserName : string; a_IMSI : string; a_MACAddress : string;
  a_CallingStationID : string; a_CalledStationID : string; a_NASIP : string;
  a_NASIdentifier : string; a_NASPort : Z; a_NASPortType : string; a_AcctSessionID : string;
  a_AcctMultiSessionID : string; a_AcctAuthentic : string; a_AcctSessionTime : Z;
  a_InputOctets : Z; a_OutputOctets : Z; a_InputPackets : Z; a_OutputPackets : Z;
  a_TerminateCause : string; a_FramedIPAddress : IP; a_Class : list Z; a_EventTimestamp : Time;
  a_ConnectInfo : string; a_SourceIP : string
}.
#[global] Instance AccountingRequest_eta : Eta AccountingRequest := fun x => mkAccountingRequest
  (a_StatusType x) (a_UserName x) (a_IMSI x) (a_MACAddress x) (a_CallingStationID x)
  (a_CalledStationID x) (a_NASIP x) (a_NASIdentifier x) (a_NASPort x) (a_NASPortType x) (a_AcctSessionID x)
  (a_AcctMultiSessionID x) (a_AcctAuthentic x) (a_AcctSessionTime x)
  (a_InputOctets x) (a_OutputOctets x) (a_InputPackets x) (a_OutputPackets x) (a_TerminateCause x)
  (a_FramedIPAddress x) (a_Class x) (a_EventTimestamp x) (a_ConnectInfo x) (a_SourceIP x).

(** [aaa.AuthRequest], [aaa.AuthResult], [aaa.EAPRequest] and [aaa.EAPResult]. *)
Record AuthRequest := mkAuthRequest {
  arq_IMSI : string; arq_MSISDN : string; arq_MACAddress : string; arq_Username : string;
  arq_Realm : string; arq_APN : string; arq_Ki : string; arq_OPc : string
}.
Record AuthResult := mkAuthResult {
  au_Allowed : bool; au_IMSI : string; au_MSISDN : string; au_APN : string; au_SubscriberID : string;
  au_Reason : string; au_ResultCode : Z
}.
Record AAAEAPRequest := mkAAAEAPRequest {
  erq_SessionID : string; erq_IMSI : string; erq_MSISDN : string; erq_MACAddress : string;
  erq_Username : string; erq_Realm : string; erq_APN : string; erq_EAPPayload : list Z
}.
Inductive EAPState := EAPStateChallenge | EAPStateSuccess | EAPStateFailure | EAPStateOther (s : string).
#[global] Instance EAPState_eq_dec : EqDecision EAPState.
Proof. solve_decision. Defined.
Definition eap_state_string (s : EAPState) : string :=
  match s with
  | EAPStateChallenge => "challenge" | EAPStateSuccess => "success"
  | EAPStateFailure => "failure" | EAPStateOther s => s
  end.
Record EAPResult := mkEAPResult {
  er_SessionID : string; er_State : EAPState; er_Allowed : bool; er_IMSI : string; er_MSISDN : string;
  er_APN : string; er_SubscriberID : string; er_Reason : string; er_ResultCode : Z;
  er_EAPPayload : list Z; er_MSK : list Z
}.

(** * Errors

    The text, and what [pgw.IsContextNotFound] and [errors.Is] with
    [context.DeadlineExceeded] find in the chain. *)
Record gerr := mkErr { ge_msg : string; ge_contextNotFound : bool; ge_deadline : bool }.

Definition errorf (msg : string) : gerr := mkErr msg false false.

(** [errors.Join] of the errors that are not nil. *)
Definition Join (errs : list gerr) : option gerr :=
  match errs with
  | [] => None
  | _ => Some (mkErr (String.concat (String "010" EmptyString) (map ge_msg errs))
                     (existsb ge_contextNotFound errs) (existsb ge_deadline errs))
  end.

(** [fmt.Errorf(prefix + "%w", err)] *)
Definition wrap_err (prefix : string) (e : gerr) : gerr :=
  mkErr (prefix +:+ ge_msg e) (ge_contextNotFound e) (ge_deadline e).

Definition state_string (s : State.t) : string :=
  match s with
  | State.Pending => "pending" | State.AuthPending => "auth_pending" | State.Authorized => "authorized"
  | State.IPAllocated => "ip_allocated" | State.PGWPending => "pgw_pending" | State.Active => "active"
  | State.Recovering => "recovering" | State.Terminating => "terminating"
  | State.Terminated => "terminated" | State.Failed => "failed"
  end.

Definition of_sess_err (e : sess_err) : gerr :=
  errorf match e with
         | ErrNotFound id => "session " +:+ quote id +:+ " not found"
         | ErrInvalidTransition a b =>
           "invalid session state transition: " +:+ state_string a +:+ " -> " +:+ state_string b
         end.

Definition ErrRejected : gerr := errorf "subscriber rejected".

(** * The service *)
Record lifecycleCounters := mkCounters {
  duplicateAttachEvents : Z; duplicateAttachReusedExisting : Z; duplicateAttachReplacedExisting : Z;
  duplicateAttachSuppressedCreate : Z; controlledReplacement : Z; overlapPrevented : Z;
  createSessionBlockedExistingActive : Z
}.
#[global] Instance lifecycleCounters_eta : Eta lifecycleCounters := fun x => mkCounters
  (duplicateAttachEvents x) (duplicateAttachReusedExisting x) (duplicateAttachReplacedExisting x)
  (duplicateAttachSuppressedCreate x) (controlledReplacement x) (overlapPrevented x)
  (createSessionBlockedExistingActive x).

Record authCacheRecoveryState := mkRecState { rs_state : string; rs_lastAt : Time; rs_attempts : list Time }.
#[global] Instance authCacheRecoveryState_eta : Eta authCacheRecoveryState := fun x =>
  mkRecState (rs_state x) (rs_lastAt x) (rs_attempts x).

(** What a session holds in the other components. *)
Inductive resource := RPGW | RRoute | RUser | RAccess.
#[global] Instance resource_eq_dec : EqDecision resource.
Proof. solve_decision. Defined.

Inductive event :=
| EvAdd (r : resource) (sess : Session) (ok : bool)
| EvRemove (r : resource) (sess : Session) (ok : bool)
| EvLock (key : string) | EvUnlock (key : string)
| EvDisconnect (t : RecoveryTombstone)
| EvSpawnStopTimeout (oldSessionID : string) (timeout : Z).

Record Service := mkService {
  sv_mgr : Manager; sv_ipam : option MemoryIPAM; sv_counters : lifecycleCounters;
  sv_recoveryByKey : gmap string authCacheRecoveryState; sv_locks : list string;
  sv_trace : list event; sv_questions : nat
}.
#[global] Instance Service_eta : Eta Service := fun x => mkService
  (sv_mgr x) (sv_ipam x) (sv_counters x) (sv_recoveryByKey x) (sv_locks x) (sv_trace x) (sv_questions x).

Record Env := mkEnv {
  v_cfg : Config;
  v_user : bool;               (* a user plane is set *)
  v_access : bool;             (* an access-side binder is set *)
  v_dynamic : bool;            (* a dynamic authorizer is set *)
  v_pgwIsGTP : bool;           (* [s.pgw.Type() == pgw.ModeGTP] *)
  v_now : nat -> Time;
  v_ids : nat -> Manager -> list (string * ptr);         (* iteration of [byID] *)
  v_rmac : nat -> Manager -> list (string * ptr);        (* iteration of [recoveryByMAC] *)
  v_rimsi : nat -> Manager -> list (string * ptr);       (* iteration of [recoveryByIMSI] *)
  v_lock : nat -> string -> option gerr;                 (* why a free lock is not obtained *)
  v_ctxErr : nat -> option gerr;
  v_authenticate : nat -> AuthRequest -> option AuthResult * option gerr;
  v_exchangeEAP : nat -> AAAEAPRequest -> option EAPResult * option gerr;
  v_createSession : nat -> Session -> result (option CreateSessionResult) gerr;
  v_add : nat -> resource -> Session -> option gerr;     (* Install and the two AddSession *)
  v_remove : nat -> resource -> Session -> option gerr;  (* DeleteSession, Remove, RemoveSession *)
  v_disconnect : nat -> RecoveryTombstone -> option gerr
}.

(** * Handlers *)
Definition M (A : Type) : Type := Service -> go (Service * A).

Definition ret {A} (a : A) : M A := fun w => Some (w, a).
Definition bind {A B} (m : M A) (k : A -> M B) : M B :=
  fun w => match m w with Some (w', a) => k a w' | None => None end.
Definition panic {A} : M A := fun _ => None.
Definition gets {A} (f : Service -> A) : M A := fun w => Some (w, f w).
Definition modify (f : Service -> Service) : M unit := fun w => Some (f w, tt).
Definition ask {A} (q : nat -> A) : M A := fun w => Some (w <| sv_questions ::= S |>, q (sv_questions w)).
Definition emit (e : event) : M unit := modify (fun w => w <| sv_trace ::= cons e |>).
Definition whenM (b : bool) (m : M unit) : M unit := if b then m else ret tt.

Notation "'let*' x := m 'in' k" := (bind m (fun x => k))
  (at level 10, x pattern, m at level 100, k at level 200) : life_scope.
Notation "m ;; k" := (bind m (fun _ => k)) (at level 100, right associativity) : life_scope.

(** A registry operation. *)
Definition on_mgr {A} (f : Manager -> Manager * A) : M A :=
  fun w => let '(m, a) := f (sv_mgr w) in Some (w <| sv_mgr := m |>, a).

Definition count (f : lifecycleCounters -> lifecycleCounters) : M unit :=
  modify (fun w => w <| sv_counters ::= f |>).
Definition inc (n : Z) : Z := wrap 64 (n + 1).

(** * Helpers without state *)
Definition isLivePGWOwner (state : State.t) : bool :=
  match state with State.Terminated | State.Failed => false | _ => true end.

Definition accountingStopShouldDetach (state : State.t) : bool :=
  match state with State.Terminating | State.Terminated | State.Failed => false | _ => true end.

Definition shutdownShouldDetach (state : State.t) : bool :=
  match state with State.IPAllocated | State.PGWPending | State.Active => true | _ => false end.

Definition normalizeMAC (mac : string) : string :=
  match ParseMAC mac with
  | Some hw => ToLower (HWString hw)
  | None => ToLower (TrimSpace mac)
  end.

(** One separator of [splitCalledStation]: [strings.SplitN(value, sep, 2)]. *)
Definition split_station (value : string) (sep : ascii) : option (string * string) :=
  let l := String.list_ascii_of_string value in
  i ← index_ascii sep l;
  hw ← ParseMAC (String.string_of_list_ascii (take i l));
  Some (ToLower (HWString hw), TrimSpace (String.string_of_list_ascii (drop (S i) l))).

Definition splitCalledStation (value : string) : string * string :=
  let value := TrimSpace value in
  match split_station value ":" with
  | Some r => r
  | None => default ("", "") (split_station value " ")
  end.

Definition subscriberSame (a b : Session) : bool :=
  if (nonempty (s_IMSI a) && nonempty (s_IMSI b) && negb (String.eqb (s_IMSI a) (s_IMSI b)))%bool then false
  else if (nonempty (s_MACAddress a) && nonempty (s_MACAddress b)
           && negb (String.eqb (normalizeMAC (s_MACAddress a)) (normalizeMAC (s_MACAddress b))))%bool then false
  else if (nonempty (s_APN a) && nonempty (s_APN b) && negb (EqualFold (s_APN a) (s_APN b)))%bool then false
  else ((nonempty (s_IMSI a) && String.eqb (s_IMSI a) (s_IMSI b))
        || (nonempty (s_MACAddress a)
            && String.eqb (normalizeMAC (s_MACAddress a)) (normalizeMAC (s_MACAddress b))))%bool.

Definition subscriberLockKey (imsi mac apn : string) : string :=
  let apn := ToLower (TrimSpace apn) in
  let imsi := TrimSpace imsi in
  if nonempty imsi then imsi +:+ "||" +:+ apn else "|" +:+ normalizeMAC mac +:+ "|" +:+ apn.

Definition responseFromSession (sess : Session) : AttachResponse :=
  mkAttachResponse (s_ID sess) (s_State sess) (s_IMSI sess) (ipString (s_SubscriberIP sess))
    (s_APN sess) (s_Reason sess).

Definition detachResponseFromSession (sess : option Session) : option DetachResponse :=
  responseFromSession <$> sess.

Definition nonFatalPGWDeleteError (e : gerr) : bool := (ge_contextNotFound e || ge_deadline e)%bool.

Definition HasSuffix (s suffix : string) : bool :=
  let l := String.list_ascii_of_string s in
  let x := String.list_ascii_of_string suffix in
  bool_decide (drop (length l - length x) l = x).

Definition authCacheRecoveryKey (entry : AuthCacheEntry) : string :=
  normalizeMAC (e_MACAddress entry) +:+ "|" +:+ e_IMSI entry +:+ "|" +:+ ToLower (e_APN entry).

(** A field of a session pointer, empty for nil ([sessionIMSI], [sessionMAC], ...). *)
Definition session_field (f : Session -> string) (sess : option Session) : string :=
  match sess with Some s => f s | None => "" end.
Definition entry_field (f : AuthCacheEntry -> string) (entry : option AuthCacheEntry) : string :=
  match entry with Some e => f e | None => "" end.

(** * The service's methods *)
Section service.
Context (E : Env).

Definition now : M Time := ask (v_now E).

(** A registry operation that reads the clock. *)
Definition at_now {A} (f : Manager -> Time -> Manager * A) : M A :=
  let* t := now in on_mgr (fun m => f m t).

(** A read that iterates [byID]. *)
Definition over_ids {A} (f : Manager -> list (string * ptr) -> A) : M A :=
  let* m := gets sv_mgr in let* ord := ask (fun n => v_ids E n m) in ret (f m ord).

(** A session operation, its error as an [error]. *)
Definition session_op (f : Manager -> Time -> Manager * result Session sess_err) : M (result Session gerr) :=
  let* r := at_now f in
  ret (match r with Ok s => Ok s | Err e => Err (of_sess_err e) end).

Definition UpdateRecovery_ (id : string) (fn : RecoveryTombstone -> RecoveryTombstone)
  : M (option RecoveryTombstone) :=
  let* m := gets sv_mgr in
  let* o1 := ask (fun n => v_rmac E n m) in
  let* o2 := ask (fun n => v_rimsi E n m) in
  at_now (fun m => UpdateRecovery m o1 o2 id fn).

(** Calls to the other components. *)
Definition acquire (r : resource) (sess : Session) : M (option gerr) :=
  let* e := ask (fun n => v_add E n r sess) in
  emit (EvAdd r sess (match e with None => true | Some _ => false end)) ;; ret e.

Definition release (r : resource) (sess : Session) : M (option gerr) :=
  let* e := ask (fun n => v_remove E n r sess) in
  emit (EvRemove r sess (match e with None => true | Some _ => false end)) ;; ret e.

Definition pgw_create (sess : Session) : M (result (option CreateSessionResult) gerr) :=
  let* r := ask (fun n => v_createSession E n sess) in
  emit (EvAdd RPGW sess (is_ok r)) ;; ret r.

Definition releaseIP (sessionID : string) : M (bool * option gerr) :=
  let* i := gets sv_ipam in
  match i with
  | None => ret (false, None)
  | Some m =>
    let '(m', e) := Release m sessionID in
    modify (fun w => w <| sv_ipam := Some m' |>) ;;
    ret (true, match e with Some _ => Some (errorf "session id is required") | None => None end)
  end.

(** The lock of a subscriber is a channel of capacity one: a handler that
    holds it already waits until the timeout. *)
Definition lock (key : string) : M (option gerr) :=
  let* held := gets sv_locks in
  if bool_decide (key ∈ held)
  then ret (Some (errorf ("timed out waiting for subscriber lifecycle lock for " +:+ key)))
  else
    let* e := ask (fun n => v_lock E n key) in
    match e with
    | Some e => ret (Some e)
    | None => modify (fun w => w <| sv_locks ::= cons key |>) ;; emit (EvLock key) ;; ret None
    end.

Definition lockSubscriber (imsi mac apn : string) : M (option gerr) := lock (subscriberLockKey imsi mac apn).

Definition unlock (key : string) : M unit :=
  modify (fun w => w <| sv_locks ::= List.filter (fun k => negb (String.eqb k key)) |>) ;; emit (EvUnlock key).

Definition withDefaults (req : AttachRequest) : AttachRequest :=
  let r := if nonempty (q_APN req) then req else req <| q_APN := sub_DefaultAPN (cfg_Subscriber (v_cfg E)) |> in
  let r := if nonempty (q_Realm r) then r else r <| q_Realm := sub_DefaultRealm (cfg_Subscriber (v_cfg E)) |> in
  let r := if nonempty (q_CallingStationID r) then r else r <| q_CallingStationID := q_MACAddress r |> in
  if nonempty (q_EAPIdentity r) then r else r <| q_EAPIdentity := q_Username r |>.

Definition eapWithDefaults (req : EAPRequest) : EAPRequest :=
  let r := if nonempty (p_APN req) then req else req <| p_APN := sub_DefaultAPN (cfg_Subscriber (v_cfg E)) |> in
  let r := if nonempty (p_Realm r) then r else r <| p_Realm := sub_DefaultRealm (cfg_Subscriber (v_cfg E)) |> in
  let r := if nonempty (p_CallingStationID r) then r else r <| p_CallingStationID := p_MACAddress r |> in
  if nonempty (p_EAPIdentity r) then r else r <| p_EAPIdentity := p_Username r |>.

Definition radiusSessionTTL : Z :=
  raa_SessionTimeoutSeconds (rd_AccessAccept (cfg_Radius (v_cfg E))) * Second.

(** ** Detach *)
Definition opt_list {A} (o : option A) : list A := match o with Some a => [a] | None => [] end.

Definition detachSessionLocked (sess : Session) : M (option DetachResponse * option gerr) :=
  let* r := session_op (fun m => MarkTerminating m (s_ID sess)) in
  match r with
  | Err e => ret (None, Some e)
  | Ok terminating =>
    let* e1 := release RPGW terminating in
    let e1 := match e1 with Some e => if nonFatalPGWDeleteError e then None else Some e | None => None end in
    let* e2 := release RRoute terminating in
    let* e3 := (if v_user E then release RUser terminating else ret None) in
    let* e4 := (if v_access E then release RAccess terminating else ret None) in
    let* (_, e5) := releaseIP (s_ID terminating) in
    let* terminated := at_now (fun m => Delete m (s_ID terminating)) in
    ret (detachResponseFromSession terminated,
         Join (opt_list e1 ++ opt_list e2 ++ opt_list e3 ++ opt_list e4 ++ opt_list e5)%list)
  end.

Definition detachExistingBeforeAttach (existing : Session) : M (option gerr) :=
  let* (_, e) := detachSessionLocked existing in
  ret (match e with
       | None => None
       | Some e => if ge_contextNotFound e then None
                   else Some (wrap_err "detach existing session before attach: " e)
       end).

Definition findDetachSession (req : DetachRequest) : M (result Session gerr) :=
  let* m := gets sv_mgr in
  ret (if (negb (nonempty (dr_SessionID req)) && negb (nonempty (dr_IMSI req))
           && negb (nonempty (dr_MACAddress req)))%bool
       then Err (errorf "detach request requires session_id, imsi, or mac")
       else
         let by_id := if nonempty (dr_SessionID req) then Get m (dr_SessionID req) else None in
         let by_imsi := if nonempty (dr_IMSI req) then LookupByIMSI m (dr_IMSI req) else None in
         let by_mac := if nonempty (dr_MACAddress req) then LookupByMAC m (dr_MACAddress req) else None in
         match by_id, by_imsi, by_mac with
         | Some s, _, _ | None, Some s, _ | None, None, Some s => Ok s
         | None, None, None => Err (errorf "session not found")
         end).

(** Take the subscriber's lock, run the body, free the lock. *)
Definition with_lock {A} (imsi mac apn : string) (fail : gerr -> A) (body : M A) : M A :=
  let* e := lockSubscriber imsi mac apn in
  match e with
  | Some e => ret (fail e)
  | None => let* r := body in unlock (subscriberLockKey imsi mac apn) ;; ret r
  end.

Definition Detach (req : DetachRequest) : M (option DetachResponse * option gerr) :=
  let* s := findDetachSession req in
  match s with
  | Err e => ret (None, Some e)
  | Ok sess => with_lock (s_IMSI sess) (s_MACAddress sess) (s_APN sess) (fun e => (None, Some e))
                 (detachSessionLocked sess)
  end.

(** The errors of the detaches that failed. *)
Fixpoint shutdown_loop (sessions : list Session) : M (list gerr) :=
  match sessions with
  | [] => ret []
  | sess :: rest =>
    if negb (shutdownShouldDetach (s_State sess)) then shutdown_loop rest
    else
      let* (_, e) := Detach (mkDetachRequest (s_ID sess) "" "") in
      let* errs := shutdown_loop rest in
      ret (match e with
           | Some e => wrap_err ("detach session " +:+ s_ID sess +:+ ": ") e :: errs
           | None => errs
           end)
  end.

Definition Shutdown : M (option gerr) :=
  let* sessions := over_ids (fun m ord => List_ m ord) in
  let* errs := shutdown_loop sessions in
  ret (Join errs).

(** ** Recovery of lost sessions *)
Definition logRecoveryAttachIfPresent (req : AttachRequest) : M (option RecoveryTombstone) :=
  let rc := cfg_Recovery (v_cfg E) in
  if (negb (rc_Enabled rc) || negb (rc_AllowSameMACReattach rc))%bool then ret None
  else at_now (fun m => FindRecovery m (q_IMSI req) (q_MACAddress req)).

Definition completeRecovery (created : option Session) (resp : option AttachResponse) : M unit :=
  match resp with
  | None => ret tt
  | Some resp =>
    let* m := gets sv_mgr in
    let active := match Get m (ar_SessionID resp) with
                  | Some s => Some s
                  | None => match created with Some c => Get m (s_ID c) | None => None end
                  end in
    match active with
    | None => ret tt
    | Some active =>
      let* _ := at_now (fun m => CompleteRecoveryFor m (Some active)) in ret tt
    end
  end.

(** [recovering] tells whether a tombstone was found. *)
Definition completeIf (recovering : option RecoveryTombstone) (created : option Session)
    (resp : option AttachResponse) : M unit :=
  match recovering with Some _ => completeRecovery created resp | None => ret tt end.

Definition recoveryTombstoneTTL (sess : Session) : M Z :=
  let ttl := rc_RecoveryWindowSeconds (cfg_Recovery (v_cfg E)) * Second in
  if IsZero (s_ExpiresAt sess) then ret ttl
  else let* t := now in
       let remaining := s_ExpiresAt sess - t in
       ret (if ttl <? remaining then remaining else ttl).

Definition set_recovery (st : RecoveryState) (action err : string) (t : RecoveryTombstone) : RecoveryTombstone :=
  t <| t_State := st |> <| t_LastAction := action |> <| t_LastError := err |>.

Definition setRecoveryFallback (tombstone : RecoveryTombstone) (action lastError : string) : M unit :=
  let* _ := UpdateRecovery_ (t_OldSessionID tombstone)
    (set_recovery (if rdc_FallbackToRecoveryTombstone (rc_RadiusDisconnect (cfg_Recovery (v_cfg E)))
                   then RecoveryFallback else RecoveryExpired) action lastError) in
  ret tt.

Definition mark_disconnecting (request_type : string) (t : RecoveryTombstone) : RecoveryTombstone :=
  let t := t <| t_State := RecoveryDisconnecting |> <| t_LastAction := request_type |> in
  let t := if (negb (nonempty (t_CallingStationID t)) && non_nil (t_MAC t))%bool
           then t <| t_CallingStationID := HWString (t_MAC t) |> else t in
  if (negb (non_nil (t_Class t)) && nonempty (t_OldSessionID t))%bool
  then t <| t_Class := bytes_of_string (t_OldSessionID t) |> else t.

Definition attemptDynamicAuthorization (tombstone : RecoveryTombstone) : M unit :=
  let rd := rc_RadiusDisconnect (cfg_Recovery (v_cfg E)) in
  if (negb (rdc_Enabled rd) || negb (v_dynamic E))%bool
  then setRecoveryFallback tombstone "dynamic_authorization_disabled" ""
  else
    let* updated := UpdateRecovery_ (t_OldSessionID tombstone) (mark_disconnecting (rdc_RequestType rd)) in
    let tombstone := default tombstone updated in
    emit (EvDisconnect tombstone) ;;
    let* e := ask (fun n => v_disconnect E n tombstone) in
    match e with
    | Some err => setRecoveryFallback tombstone "dynamic_authorization_failed" (ge_msg err)
    | None =>
      let '(nextState, nextAction) :=
        if rdc_WaitForAccountingStop rd then (RecoveryWaitingAccountingStop, "waiting_accounting_stop")
        else (RecoveryWaitingReauth, "dynamic_authorization_accepted") in
      let* _ := UpdateRecovery_ (t_OldSessionID tombstone) (set_recovery nextState nextAction "") in
      whenM (bool_decide (nextState = RecoveryWaitingAccountingStop))
        (emit (EvSpawnStopTimeout (t_OldSessionID tombstone) (rdc_AccountingStopTimeoutSeconds rd * Second)))
    end.

(** The step of the goroutine after its timer fired. *)
Definition waitForAccountingStopTimeout (oldSessionID : string) : M unit :=
  let* _ := UpdateRecovery_ oldSessionID (fun t =>
    if bool_decide (t_State t = RecoveryWaitingAccountingStop)
    then t <| t_State := RecoveryFallback |> <| t_LastAction := "accounting_stop_timeout" |> else t) in
  ret tt.

(** ** Duplicate attaches *)
Definition findAttachExisting (imsi mac apn : string) : M (option Session) :=
  let* r := over_ids (fun m ord => FindAnyBySubscriber m ord imsi mac apn) in
  ret (match r with
       | Some sess =>
         if (State.eqb (s_State sess) State.Failed || State.eqb (s_State sess) State.Terminated)%bool
         then None else Some sess
       | None => None
       end).

Definition shouldReplaceExisting (existing : Session) (req : AttachRequest) : bool :=
  if String.eqb (lc_DuplicateAttachPolicy (cfg_Lifecycle (v_cfg E))) "replace_existing" then true
  else if negb (State.eqb (s_State existing) State.Active) then true
  else if negb (non_nil (s_SubscriberIP existing)) then true
  else if ((0 <? s_GTPUErrorCount existing) || State.eqb (s_State existing) State.Recovering
           || State.eqb (s_State existing) State.Failed)%bool then true
  else (nonempty (q_APN req) && nonempty (s_APN existing)
        && negb (EqualFold (q_APN req) (s_APN existing)))%bool.

(** The response, whether the attach proceeds, the error. *)
Definition handleExistingBeforeAttach (existing : Session) (req : AttachRequest)
  : M (option AttachResponse * bool * option gerr) :=
  if negb (isLivePGWOwner (s_State existing)) then ret (None, true, None)
  else
    count (fun c => c <| duplicateAttachEvents ::= inc |>) ;;
    if negb (shouldReplaceExisting existing req) then
      count (fun c => c <| duplicateAttachReusedExisting ::= inc |>
                        <| duplicateAttachSuppressedCreate ::= inc |>
                        <| overlapPrevented ::= inc |>
                        <| createSessionBlockedExistingActive ::= inc |>) ;;
      ret (Some (responseFromSession existing), false, None)
    else
      count (fun c => c <| duplicateAttachReplacedExisting ::= inc |> <| controlledReplacement ::= inc |>) ;;
      let* e := detachExistingBeforeAttach existing in
      match e with
      | Some e => ret (None, false, Some e)
      | None => ret (None, true, None)
      end.

(** The part of an attach before a session is created (or activated): reuse
    or replace the subscriber's session.  [Some r] is an early return. *)
Definition before_attach (imsi mac apn : string) (req : AttachRequest) (on_reuse : M unit)
    (recovering : option RecoveryTombstone) : M (option (option AttachResponse * option gerr)) :=
  let* ex := findAttachExisting imsi mac apn in
  match ex with
  | None => ret None
  | Some existing =>
    let* (resp, proceed, err) := handleExistingBeforeAttach existing req in
    match err with
    | Some e => ret (Some (None, Some e))
    | None =>
      if (proceed : bool) then ret None
      else on_reuse ;; completeIf recovering (Some existing) resp ;; ret (Some (resp, None))
    end
  end.

Definition findLiveSessionDifferentFrom (sess : Session) : M (option Session) :=
  let* c1 := over_ids (fun m ord => FindByIMSIAPN m ord (s_IMSI sess) (s_APN sess)) in
  let* c2 := (if nonempty (s_MACAddress sess)
              then over_ids (fun m ord => FindByMAC m ord (s_MACAddress sess)) else ret []) in
  ret (List.find (fun candidate =>
         negb (String.eqb (s_ID candidate) (s_ID sess)) && isLivePGWOwner (s_State candidate)
         && subscriberSame candidate sess)%bool (c1 ++ c2)%list).

(** ** Activation *)

(** [MarkFailed] and the return of the error that caused it. *)
Definition fail_with (id : string) (err : gerr) : M (option AttachResponse * option gerr) :=
  let* failed := session_op (fun m => MarkFailed m id (ge_msg err)) in
  ret (match failed with
       | Ok s => (Some (responseFromSession s), Some err)
       | Err markErr => (None, Join [err; markErr])
       end).

Definition releaseIP_ (id : string) : M unit := let* _ := releaseIP id in ret tt.
Definition release_ (r : resource) (sess : Session) : M unit := let* _ := release r sess in ret tt.

Definition validatePostActivation (sess : Session) : M (option gerr) :=
  if negb (pav_Enabled (lc_PostActivationValidation (cfg_Lifecycle (v_cfg E)))) then ret None
  else
    let* e := ask (v_ctxErr E) in
    ret (match e with
         | Some e => Some e
         | None =>
           if negb (non_nil (s_SubscriberIP sess)) then Some (errorf "subscriber_ip_missing")
           else if s_GTPCTEID sess =? 0 then Some (errorf "gtpc_teid_missing")
           else if s_LocalGTPUTEID sess =? 0 then Some (errorf "local_gtpu_teid_missing")
           else if s_RemoteGTPUTEID sess =? 0 then Some (errorf "remote_gtpu_teid_missing")
           else if negb (s_Authorized sess) then Some (errorf "access_authorization_missing")
           else None
         end).

(** The subscriber address of a session whose PGW does not assign one. *)
Definition allocate_address (authorized : Session) : M (result Session (option AttachResponse * option gerr)) :=
  if v_pgwIsGTP E then ret (Ok authorized)
  else
    let* i := gets sv_ipam in
    match i with
    | None => panic
    | Some pool =>
      match Allocate pool (s_ID authorized) with
      | None => panic
      | Some (pool', r) =>
        modify (fun w => w <| sv_ipam := Some pool' |>) ;;
        match r with
        | Err e =>
          let* x := fail_with (s_ID authorized)
            (errorf match e with IExhausted => "ip pool exhausted" | _ => "session id is required" end) in
          ret (Err x)
        | Ok ip =>
          let* r := session_op (fun m => SetSubscriberIP m (s_ID authorized) ip) in
          match r with
          | Ok s => ret (Ok s)
          | Err e => releaseIP_ (s_ID authorized) ;; ret (Err (None, Some e))
          end
        end
      end
    end.

(** What the Create Session answer changes in the session. *)
Definition apply_pgw_result (pending : Session) (res : option CreateSessionResult) : M (result Session gerr) :=
  match res with
  | None => ret (Ok pending)
  | Some p =>
    let* r1 :=
      (if (non_nil (r_SubscriberIP p)
           && (negb (non_nil (s_SubscriberIP pending))
               || negb (IPEqual (r_SubscriberIP p) (s_SubscriberIP pending))))%bool
       then
         (if non_nil (s_SubscriberIP pending) then releaseIP_ (s_ID pending) else ret tt) ;;
         session_op (fun m => UpdateSubscriberIP m (s_ID pending) (r_SubscriberIP p))
       else ret (Ok pending)) in
    match r1 with
    | Err e => ret (Err e)
    | Ok routable =>
      if (non_nil (r_PGWControlIP p) || non_nil (r_PGWUserIP p) || negb (r_GTPCTEID p =? 0)
          || negb (r_LocalGTPUTEID p =? 0) || negb (r_RemoteGTPUTEID p =? 0))%bool
      then session_op (fun m => ApplyPGWResult m (s_ID routable) (r_PGWControlIP p) (r_PGWUserIP p)
                                  (r_GTPCTEID p) (r_LocalGTPUTEID p) (r_RemoteGTPUTEID p))
      else ret (Ok routable)
    end
  end.

(** Undo what an activation acquired ([rs], in the order the code undoes it)
    and fail the session. *)
Definition undo (rs : list resource) (sess : Session) : M unit :=
  fold_right (fun r k => release_ r sess ;; k) (releaseIP_ (s_ID sess)) rs.

Definition undo_and_fail (rs : list resource) (sess : Session) (err : gerr) :=
  undo rs sess ;; fail_with (s_ID sess) err.

(** After [MarkActive]: the access side and the validation. *)
Definition activate_access (active : Session) : M (option AttachResponse * option gerr) :=
  let* e := (if v_access E then acquire RAccess active else ret None) in
  match e with
  | Some err =>
    (* [s.user.RemoveSession] on a nil user plane panics *)
    if v_user E then undo_and_fail [RUser; RRoute; RPGW] active err else panic
  | None =>
    let* invalid := validatePostActivation active in
    match invalid with
    | None => ret (Some (responseFromSession active), None)
    | Some err =>
      let action := pav_FailAction (lc_PostActivationValidation (cfg_Lifecycle (v_cfg E))) in
      if (String.eqb action "trigger_recovery" || String.eqb action "reject_access")%bool then
        let* _ := detachSessionLocked active in
        ret (Some (responseFromSession active), Some err)
      else ret (Some (responseFromSession active), None)
    end
  end.

(** After a successful Create Session: routing, user plane, [MarkActive]. *)
Definition activate_datapath (routable : Session) : M (option AttachResponse * option gerr) :=
  if negb (non_nil (s_SubscriberIP routable)) then
    undo_and_fail [RPGW] routable (errorf "PGW Create Session Response missing subscriber IPv4 PAA")
  else
    let* e := acquire RRoute routable in
    match e with
    | Some err => undo_and_fail [RPGW] routable err
    | None =>
      let* e := (if v_user E then acquire RUser routable else ret None) in
      match e with
      | Some err => undo_and_fail [RRoute; RPGW] routable err
      | None =>
        let* r := session_op (fun m => MarkActive m (s_ID routable)) in
        match r with
        | Err e => ret (None, Some e)
        | Ok active => activate_access active
        end
      end
    end.

(** The Create Session exchange of a pending session. *)
Definition activate_pgw (pending : Session) : M (option AttachResponse * option gerr) :=
  let* r := pgw_create pending in
  match r with
  | Err err => releaseIP_ (s_ID pending) ;; fail_with (s_ID pending) err
  | Ok res =>
    let* r := apply_pgw_result pending res in
    match r with
    | Err e => ret (None, Some e)
    | Ok routable => activate_datapath routable
    end
  end.

Definition activateAuthorizedSession (sess : Session) (auth : AuthResult)
  : M (option AttachResponse * option gerr) :=
  let* r := session_op (fun m => ApplyAuthResult m (s_ID sess) (au_IMSI auth) (au_MSISDN auth)
                                   (au_APN auth) (au_Reason auth)) in
  match r with
  | Err e => ret (None, Some e)
  | Ok authorized =>
    let* a := allocate_address authorized in
    match a with
    | Err x => ret x
    | Ok allocated =>
      let* r := session_op (fun m => MarkPGWPending m (s_ID allocated)) in
      match r with
      | Err e => releaseIP_ (s_ID allocated) ;; ret (None, Some e)
      | Ok pending =>
        let* live := findLiveSessionDifferentFrom pending in
        match live with
        | Some _ =>
          count (fun c => c <| createSessionBlockedExistingActive ::= inc |> <| overlapPrevented ::= inc |>) ;;
          releaseIP_ (s_ID pending) ;;
          fail_with (s_ID pending) (errorf "live PGW session already exists for subscriber")
        | None => activate_pgw pending
        end
      end
    end
  end.

(** ** Attach *)
Definition update_auth_ttl : Z :=
  let rd := cfg_Radius (v_cfg E) in
  let ttl := rac_DefaultTTLSeconds (rd_AuthCache rd) in
  let ttl := if 0 <? raa_SessionTimeoutSeconds (rd_AccessAccept rd)
             then raa_SessionTimeoutSeconds (rd_AccessAccept rd) else ttl in
  let max := rac_MaxTTLSeconds (rd_AuthCache rd) in
  let ttl := if ((0 <? max) && (max <? ttl))%bool then max else ttl in
  if ttl <=? 0 then 3600 else ttl.

Definition updateAuthCacheFromAccessAccept (sessionID : string) (req : AttachRequest) : M unit :=
  if negb (rac_Enabled (rd_AuthCache (cfg_Radius (v_cfg E)))) then ret tt
  else
    let imsi := TrimSpace (q_IMSI req) in
    let mac := normalizeMAC (q_MACAddress req) in
    if (negb (nonempty imsi) || negb (nonempty mac))%bool then ret tt
    else
      let* t := now in
      let ttl := update_auth_ttl in
      let '(bssid, ssid) := splitCalledStation (q_CalledStationID req) in
      let* _ := at_now (fun m => UpsertAuthCache m
        (mkAuthCacheUpdate mac imsi (q_Username req) (q_APN req) (q_MSISDN req) (q_NASIP req)
           (q_NASIdentifier req) (q_CalledStationID req) (coalesce [q_CallingStationID req; mac]) ssid bssid
           (q_AcctSessionID req) ttl t (t + ttl * Second) t sessionID zeroTime "")) in
      ret tt.

Definition attach_input (imsi msisdn apn : string) (req : AttachRequest) : CreateInput :=
  mkCreateInput imsi msisdn (q_MACAddress req) apn (q_Realm req) (q_Username req) (q_EAPIdentity req)
    (q_CallingStationID req) (q_CalledStationID req) (q_NASIP req) (q_NASIdentifier req)
    (q_AcctSessionID req) (q_RadiusState req) (q_RadiusClass req) (q_ConnectInfo req) (q_FramedMTU req)
    "ethernet" (ac_Interface (cfg_Access (v_cfg E))) [] radiusSessionTTL.

(** [coalesceString(auth.X, req.X)] for the three identity fields. *)
Definition auth_imsi (auth : AuthResult) (req : AttachRequest) := coalesce [au_IMSI auth; q_IMSI req].
Definition auth_msisdn (auth : AuthResult) (req : AttachRequest) := coalesce [au_MSISDN auth; q_MSISDN req].
Definition auth_apn (auth : AuthResult) (req : AttachRequest) := coalesce [au_APN auth; q_APN req].

(** Activation, and on success the recovery and the authentication cache. *)
Definition finish_attach (sess : Session) (auth : AuthResult) (req : AttachRequest)
    (recovering : option RecoveryTombstone) : M (option AttachResponse * option gerr) :=
  let* (resp, err) := activateAuthorizedSession sess auth in
  match err with
  | Some _ => ret (resp, err)
  | None =>
    completeIf recovering (Some sess) resp ;;
    match resp with
    | None => ret tt
    | Some r =>
      updateAuthCacheFromAccessAccept (ar_SessionID r)
        (req <| q_IMSI := auth_imsi auth req |> <| q_MSISDN := auth_msisdn auth req |>
             <| q_APN := auth_apn auth req |>)
    end ;;
    ret (resp, None)
  end.

Definition discardPreAuthSession (sess : Session) : M unit :=
  let* r := session_op (fun m => MarkTerminating m (s_ID sess)) in
  match r with
  | Err _ => ret tt
  | Ok terminating => let* _ := at_now (fun m => Delete m (s_ID terminating)) in ret tt
  end.

(** [Attach] after the answer of the AAA server: the lock moves to the
    authorised identity when that has another key.  The first component is
    the lock still held. *)
Definition attach_authenticated (req : AttachRequest) (key : string) (sess : Session) (auth : AuthResult)
    (recovering : option RecoveryTombstone) : M (option string * (option AttachResponse * option gerr)) :=
  let authIMSI := auth_imsi auth req in
  let authAPN := auth_apn auth req in
  let key' := subscriberLockKey authIMSI (q_MACAddress req) authAPN in
  if String.eqb key' key then
    let* r := finish_attach sess auth req recovering in ret (Some key, r)
  else
    unlock key ;;
    let* e := lockSubscriber authIMSI (q_MACAddress req) authAPN in
    match e with
    | Some e => ret (None, (None, Some e))
    | None =>
      let* pre := before_attach authIMSI (q_MACAddress req) authAPN req (discardPreAuthSession sess) recovering in
      match pre with
      | Some r => ret (Some key', r)
      | None => let* r := finish_attach sess auth req recovering in ret (Some key', r)
      end
    end.

Definition attach_locked (req : AttachRequest) (key : string)
  : M (option string * (option AttachResponse * option gerr)) :=
  let* recovering := logRecoveryAttachIfPresent req in
  let* pre := before_attach (q_IMSI req) (q_MACAddress req) (q_APN req) req (ret tt) recovering in
  match pre with
  | Some r => ret (Some key, r)
  | None =>
    let* sess := at_now (fun m => Create m (attach_input (q_IMSI req) (q_MSISDN req) (q_APN req) req)) in
    let* r := session_op (fun m => MarkAuthPending m (s_ID sess)) in
    match r with
    | Err e => ret (Some key, (None, Some e))
    | Ok _ =>
      let* (auth, err) := ask (fun n => v_authenticate E n
        (mkAuthRequest (q_IMSI req) (q_MSISDN req) (q_MACAddress req) (q_Username req) (q_Realm req)
           (q_APN req) (q_Ki req) (q_OPc req))) in
      match err, auth with
      | Some err, _ =>
        let reason := match auth with
                      | Some a => if nonempty (au_Reason a) then au_Reason a else ge_msg err
                      | None => ge_msg err
                      end in
        let* failed := session_op (fun m => MarkFailed m (s_ID sess) reason) in
        ret (Some key, match failed with
                       | Ok s => (Some (responseFromSession s), Some err)
                       | Err markErr => (None, Join [err; markErr])
                       end)
      | None, None => panic
      | None, Some auth => attach_authenticated req key sess auth recovering
      end
    end
  end.

Definition Attach (req0 : AttachRequest) : M (option AttachResponse * option gerr) :=
  let req := withDefaults req0 in
  let key := subscriberLockKey (q_IMSI req) (q_MACAddress req) (q_APN req) in
  let* e := lockSubscriber (q_IMSI req) (q_MACAddress req) (q_APN req) in
  match e with
  | Some e => ret (None, Some e)
  | None =>
    let* (held, r) := attach_locked req key in
    match held with Some k => unlock k | None => ret tt end ;;
    ret r
  end.

Definition attach_authorized_locked (req : AttachRequest) (auth : AuthResult)
  : M (option AttachResponse * option gerr) :=
  let* recovering := logRecoveryAttachIfPresent req in
  let* pre := before_attach (auth_imsi auth req) (q_MACAddress req) (auth_apn auth req) req (ret tt) recovering in
  match pre with
  | Some r => ret r
  | None =>
    let* sess := at_now (fun m => Create m
      (attach_input (auth_imsi auth req) (auth_msisdn auth req) (auth_apn auth req) req)) in
    let* r := session_op (fun m => MarkAuthPending m (s_ID sess)) in
    match r with
    | Err e => ret (None, Some e)
    | Ok _ => finish_attach sess auth req recovering
    end
  end.

Definition AttachAuthorized (req0 : AttachRequest) (auth0 : option AuthResult)
  : M (option AttachResponse * option gerr) :=
  let req := withDefaults req0 in
  let auth := default (mkAuthResult true (q_IMSI req) (q_MSISDN req) (q_APN req) "" "authorized" 0) auth0 in
  if negb (au_Allowed auth) then ret (None, Some ErrRejected)
  else with_lock (auth_imsi auth req) (q_MACAddress req) (auth_apn auth req) (fun e => (None, Some e))
         (attach_authorized_locked req auth).

(** ** EAP *)
Definition eap_answer (res : EAPResult) (state reason : string) : EAPResponse :=
  mkEAPResponse (er_SessionID res) state (er_IMSI res) "" (er_APN res) reason (er_EAPPayload res) (er_MSK res).

Definition ExchangeEAP (req0 : EAPRequest) : M (option EAPResponse * option gerr) :=
  let req := eapWithDefaults req0 in
  let* (res, err) := ask (fun n => v_exchangeEAP E n
    (mkAAAEAPRequest (p_SessionID req) (p_IMSI req) (p_MSISDN req) (p_MACAddress req) (p_Username req)
       (p_Realm req) (p_APN req) (p_EAPPayload req))) in
  match res, err with
  | None, Some e => ret (None, Some e)
  | None, None => panic
  | Some res, _ =>
    if bool_decide (er_State res = EAPStateChallenge)
    then ret (Some (eap_answer res (eap_state_string (er_State res)) (er_Reason res)), None)
    else match err with
    | Some e => ret (Some (eap_answer res (eap_state_string (er_State res)) (er_Reason res)), Some e)
    | None =>
      if (negb (bool_decide (er_State res = EAPStateSuccess)) || negb (er_Allowed res))%bool
      then ret (Some (eap_answer res "failure" (coalesce [er_Reason res; "eap rejected"])), Some ErrRejected)
      else
        let imsi := coalesce [er_IMSI res; p_IMSI req] in
        let msisdn := coalesce [er_MSISDN res; p_MSISDN req] in
        let apn := coalesce [er_APN res; p_APN req] in
        let* (attach, err) := AttachAuthorized
          (mkAttachRequest imsi msisdn (p_MACAddress req) (p_Username req) (p_EAPIdentity req) (p_Realm req)
             apn (p_CallingStationID req) (p_CalledStationID req) (p_NASIP req) (p_NASIdentifier req)
             (p_AcctSessionID req) (p_SessionID req) (p_RadiusClass req) (p_ConnectInfo req)
             (p_FramedMTU req) "" "")
          (Some (mkAuthResult true imsi msisdn apn (er_SubscriberID res) (er_Reason res) (er_ResultCode res))) in
        match err, attach with
        | Some e, _ => ret (None, Some e)
        | None, None => panic
        | None, Some a =>
          ret (Some (mkEAPResponse (coalesce [ar_SessionID a; er_SessionID res]) "success" (ar_IMSI a)
                       (ar_SubscriberIP a) (ar_APN a) (ar_Reason a) (er_EAPPayload res) (er_MSK res)), None)
        end
    end
  end.

(** ** Recovery from the authentication cache *)
Definition zeroRecState : authCacheRecoveryState := mkRecState "" zeroTime [].

(** The decision of [beginAuthCacheRecovery] on one entry of the table. *)
Definition begin_recovery (cfg : AccountingStartRecoveryConfig) (state : string) (t : Time)
    (rec : authCacheRecoveryState) : authCacheRecoveryState * bool :=
  if HasSuffix (rs_state rec) "_pending" then (rec, false)
  else if (negb (IsZero (rs_lastAt rec)) && (t - rs_lastAt rec <? asr_CooldownSeconds cfg * Second))%bool
  then (rec, false)
  else
    let rec := rec <| rs_attempts ::= List.filter (fun at_ => t - Minute <? at_) |> in
    if asr_MaxAttemptsPerMinute cfg <=? Z.of_nat (length (rs_attempts rec)) then (rec, false)
    else (rec <| rs_attempts ::= fun l => (l ++ [t])%list |> <| rs_state := state +:+ "_pending" |>
              <| rs_lastAt := t |>, true).

Definition beginAuthCacheRecovery (entry : AuthCacheEntry) (state : string) : M bool :=
  let cfg := rc_AccountingStartRecovery (cfg_Recovery (v_cfg E)) in
  if negb (asr_Enabled cfg) then ret false
  else
    let* t := now in
    let key := authCacheRecoveryKey entry in
    let* table := gets sv_recoveryByKey in
    let '(rec, ok) := begin_recovery cfg state t (default zeroRecState (table !! key)) in
    modify (fun w => w <| sv_recoveryByKey ::= <[key := rec]> |>) ;;
    ret ok.

Definition finish_recovery (t : Time) (rec : authCacheRecoveryState) : authCacheRecoveryState :=
  rec <| rs_state := "cooldown" |> <| rs_lastAt := t |>.

Definition finishAuthCacheRecovery (entry : AuthCacheEntry) : M unit :=
  let key := authCacheRecoveryKey entry in
  let* table := gets sv_recoveryByKey in
  match table !! key with
  | None => ret tt
  | Some rec =>
    let* t := now in
    modify (fun w => w <| sv_recoveryByKey ::= <[key := finish_recovery t rec]> |>)
  end.

(** [session.AccountingUpdate] of a request. *)
Definition accounting_update (req : AccountingRequest) (active : bool) (cause : string) : AccountingUpdate :=
  mkAccountingUpdate (a_AcctSessionID req) (a_AcctMultiSessionID req) active false (a_EventTimestamp req)
    (a_InputOctets req) (a_OutputOctets req) (a_InputPackets req) (a_OutputPackets req) cause.

Definition recovery_request (entry : AuthCacheEntry) (req : AccountingRequest) : AttachRequest :=
  zeroAttachRequest <| q_IMSI := e_IMSI entry |> <| q_MSISDN := e_MSISDN entry |>
    <| q_MACAddress := e_MACAddress entry |> <| q_Username := coalesce [a_UserName req; e_UserName entry] |>
    <| q_APN := e_APN entry |>
    <| q_CallingStationID := coalesce [a_CallingStationID req; e_CallingStationID entry; e_MACAddress entry] |>
    <| q_CalledStationID := coalesce [a_CalledStationID req; e_CalledStationID entry] |>
    <| q_NASIP := coalesce [a_NASIP req; e_NASIP entry] |>
    <| q_NASIdentifier := coalesce [a_NASIdentifier req; e_NASIdentifier entry] |>
    <| q_AcctSessionID := coalesce [a_AcctSessionID req; e_AcctSessionID entry] |>
    <| q_ConnectInfo := a_ConnectInfo req |>.

Definition recoverFromAuthCache (entry : AuthCacheEntry) (req : AccountingRequest) (reason : string)
  : M (option AttachResponse * option gerr) :=
  let* started := beginAuthCacheRecovery entry reason in
  if negb started then ret (None, None)
  else
    let* (resp, err) := AttachAuthorized (recovery_request entry req)
      (Some (mkAuthResult true (e_IMSI entry) (e_MSISDN entry) (e_APN entry) "" reason 0)) in
    match err, resp with
    | None, Some r =>
      if nonempty (a_AcctSessionID req)
      then let* _ := session_op (fun m => ApplyAccounting m (ar_SessionID r) (accounting_update req true "")) in ret tt
      else ret tt
    | _, _ => ret tt
    end ;;
    finishAuthCacheRecovery entry ;;
    ret (resp, err).

Definition default_apn : string := coalesce [sub_DefaultAPN (cfg_Subscriber (v_cfg E)); gt_APN (cfg_GTP (v_cfg E))].

(** A lookup in the authentication cache at the present instant. *)
Definition lookup_auth (mac imsi apn : string) : M (option AuthCacheEntry) :=
  let* t := now in at_now (fun m clock => LookupValidAuthCache m mac imsi apn t clock).

Definition lookup_auth_acct (acct nasIP nasIdentifier : string) : M (option AuthCacheEntry) :=
  let* t := now in at_now (fun m clock => LookupValidAuthCacheByAcct m acct nasIP nasIdentifier t clock).

Definition disconnect_tombstone (req : AccountingRequest) (t : Time) : RecoveryTombstone :=
  let t := zeroTombstone <| t_IMSI := a_IMSI req |> <| t_APN := default_apn |>
    <| t_OriginalUsername := a_UserName req |> <| t_NASIP := a_NASIP req |>
    <| t_NASIdentifier := a_NASIdentifier req |> <| t_AcctSessionID := a_AcctSessionID req |>
    <| t_CallingStationID := a_CallingStationID req |> <| t_CalledStationID := a_CalledStationID req |>
    <| t_Class := a_Class req |> <| t_Reason := "Accounting-Start without valid auth cache" |>
    <| t_State := RecoveryRequired |> <| t_CreatedAt := t |> in
  match (if nonempty (a_MACAddress req) then ParseMAC (a_MACAddress req) else None) with
  | Some mac => t <| t_MAC := mac |>
  | None => t
  end.

Definition disconnectAccountingClient (req : AccountingRequest) : M unit :=
  if negb (v_dynamic E) then ret tt
  else
    let* t := now in
    let tombstone := disconnect_tombstone req t in
    emit (EvDisconnect tombstone) ;;
    let* _ := ask (fun n => v_disconnect E n tombstone) in ret tt.

(** [handleAccountingStartWithoutSession]'s choice of the action when no
    recovery takes place. *)
Definition no_auth_action (action : string) : string :=
  if String.eqb action "disconnect" then "disconnect"
  else coalesce [rat_StartWithoutAuthAction (rd_Accounting (cfg_Radius (v_cfg E))); "disconnect"].

Definition handleAccountingStartWithoutSession (req : AccountingRequest) : M (option gerr) :=
  let action := coalesce [rat_StartWithoutSessionAction (rd_Accounting (cfg_Radius (v_cfg E))); "recover_if_auth_valid"] in
  let* t := now in
  let* e1 := at_now (fun m clock => LookupValidAuthCache m (a_MACAddress req) (a_IMSI req) default_apn t clock) in
  let* entry := match e1 with
    | Some e => ret (Some e)
    | None =>
      if nonempty (a_AcctSessionID req)
      then at_now (fun m clock => LookupValidAuthCacheByAcct m (a_AcctSessionID req) (a_NASIP req)
                                    (a_NASIdentifier req) t clock)
      else ret None
    end in
  match entry, String.eqb action "recover_if_auth_valid" with
  | Some e, true =>
    let* (_, err) := recoverFromAuthCache e req "accounting_start_recovery" in ret err
  | _, _ =>
    whenM (String.eqb (no_auth_action action) "disconnect") (disconnectAccountingClient req) ;; ret None
  end.

Definition HandleDHCPAuthCacheRecovery (mac : string) : M unit :=
  let* entry := lookup_auth mac "" default_apn in
  match entry with
  | None => ret tt
  | Some e =>
    let* t := now in
    let* _ := recoverFromAuthCache e
      (mkAccountingRequest AccountingStart (e_UserName e) (e_IMSI e) (e_MACAddress e) (e_CallingStationID e)
         (e_CalledStationID e) (e_NASIP e) (e_NASIdentifier e) 0 "" (e_AcctSessionID e) "" "" 0 0 0 0 0 "" [] [] t "" "")
      "dhcp_auth_cache_recovery" in
    ret tt
  end.

Definition RecoverFromTombstone (t : option RecoveryTombstone) : M (option AttachResponse * option gerr) :=
  match t with
  | None => ret (None, Some (errorf "recovery tombstone is required"))
  | Some t =>
    if (negb (non_nil (t_MAC t)) || negb (nonempty (t_IMSI t)))%bool
    then ret (None, Some (errorf "recovery tombstone missing MAC or IMSI"))
    else AttachAuthorized
      (mkAttachRequest (t_IMSI t) "" (HWString (t_MAC t)) (t_OriginalUsername t) (t_EAPIdentity t) ""
         (t_APN t) (t_CallingStationID t) (t_CalledStationID t) (t_NASIP t) (t_NASIdentifier t)
         (t_AcctSessionID t) (t_RadiusState t) (t_Class t) (t_ConnectInfo t) (t_FramedMTU t) "" "")
      (Some (mkAuthResult true (t_IMSI t) "" (t_APN t) "" "radius_session_recovery" 0))
  end.

(** ** Accounting *)
Definition findAccountingSession (req : AccountingRequest) : M (option Session) :=
  let* m := gets sv_mgr in
  let* by_acct := over_ids (fun m ord => LookupByAcctSession m ord (a_AcctSessionID req) (a_NASIP req) (a_NASIdentifier req)) in
  let* by_mac := over_ids (fun m ord => FindByMAC m ord (a_MACAddress req)) in
  let or_else (a b : option Session) := match a with Some s => Some s | None => b end in
  ret (or_else (LookupByClass m (a_Class req))
      (or_else (if nonempty (a_AcctSessionID req) then by_acct else None)
      (or_else (if nonempty (a_MACAddress req)
                then List.find (fun s => negb (nonempty (a_NASIP req) && nonempty (s_NASIP s)
                                               && negb (String.eqb (s_NASIP s) (a_NASIP req))))%bool by_mac
                else None)
      (or_else (if nonempty (a_IMSI req) then LookupByIMSI m (a_IMSI req) else None)
               (if non_nil (a_FramedIPAddress req) then LookupByIP m (a_FramedIPAddress req) else None))))).

(** The times of the cache entry an accounting request refreshes. *)
Definition acct_cache_times (u : AuthCacheUpdate) (entry : option AuthCacheEntry) (sess : option Session)
    (t : Time) : AuthCacheUpdate :=
  let rd := cfg_Radius (v_cfg E) in
  let u := match entry, sess with
    | Some e, _ => u <| u_SessionTimeoutSeconds := e_SessionTimeoutSeconds e |>
        <| u_AuthStartTime := e_AuthStartTime e |> <| u_AuthExpiresAt := e_AuthExpiresAt e |>
        <| u_LastAccessAcceptSessionID := e_LastAccessAcceptSessionID e |>
    | None, Some s =>
      let u := u <| u_AuthStartTime := s_CreatedAt s |> <| u_AuthExpiresAt := s_ExpiresAt s |> in
      if (negb (IsZero (s_ExpiresAt s)) && (s_CreatedAt s <? s_ExpiresAt s))%bool
      then u <| u_SessionTimeoutSeconds := (s_ExpiresAt s - s_CreatedAt s) / Second |> else u
    | None, None => u
    end in
  let u := if IsZero (u_AuthStartTime u) then u <| u_AuthStartTime := t |> else u in
  let pick v u := if u_SessionTimeoutSeconds u <=? 0 then u <| u_SessionTimeoutSeconds := v |> else u in
  let u := pick (rac_DefaultTTLSeconds (rd_AuthCache rd)) u in
  let u := pick (raa_SessionTimeoutSeconds (rd_AccessAccept rd)) u in
  let u := pick 3600 u in
  let max := rac_MaxTTLSeconds (rd_AuthCache rd) in
  let u := if ((0 <? max) && (max <? u_SessionTimeoutSeconds u))%bool
           then u <| u_SessionTimeoutSeconds := max |> else u in
  if IsZero (u_AuthExpiresAt u)
  then u <| u_AuthExpiresAt := u_AuthStartTime u + u_SessionTimeoutSeconds u * Second |> else u.

Definition updateAuthCacheFromAccounting (req : AccountingRequest) (sess : option Session) (stopped : bool)
  : M (option AuthCacheEntry) :=
  if negb (rac_Enabled (rd_AuthCache (cfg_Radius (v_cfg E)))) then ret None
  else
    let imsi := coalesce [a_IMSI req; session_field s_IMSI sess] in
    let mac := coalesce [a_MACAddress req; session_field s_MACAddress sess] in
    let apn := coalesce [session_field s_APN sess; sub_DefaultAPN (cfg_Subscriber (v_cfg E)); gt_APN (cfg_GTP (v_cfg E))] in
    let* found := (if ((negb (nonempty imsi) || negb (nonempty mac)) && nonempty (a_AcctSessionID req))%bool
                   then lookup_auth_acct (a_AcctSessionID req) (a_NASIP req) (a_NASIdentifier req)
                   else ret None) in
    let '(imsi, mac, apn) := match found with
                             | Some e => (e_IMSI e, e_MACAddress e, e_APN e) | None => (imsi, mac, apn)
                             end in
    if (negb (nonempty imsi) || negb (nonempty mac))%bool then ret None
    else
      let* t := now in
      let* entry := at_now (fun m clock => LookupValidAuthCache m mac imsi apn t clock) in
      match entry, sess with
      | None, None => ret None
      | _, _ =>
        let u := mkAuthCacheUpdate mac imsi
          (coalesce [a_UserName req; entry_field e_UserName entry; session_field s_Username sess]) apn
          (session_field s_MSISDN sess) (coalesce [a_NASIP req; session_field s_NASIP sess])
          (coalesce [a_NASIdentifier req; session_field s_NASIdentifier sess])
          (coalesce [a_CalledStationID req; session_field s_CalledStationID sess])
          (coalesce [a_CallingStationID req; session_field s_CallingStationID sess; mac]) "" ""
          (coalesce [a_AcctSessionID req; entry_field e_AcctSessionID entry]) 0 zeroTime zeroTime
          (a_EventTimestamp req) "" zeroTime "" in
        let u := acct_cache_times u entry sess t in
        let u := if stopped then u <| u_LastAccountingStopAt := a_EventTimestamp req |>
                                   <| u_LastAccountingStopCause := a_TerminateCause req |> else u in
        at_now (fun m => UpsertAuthCache m u)
      end.

Definition delete_auth (mac imsi apn : string) : M unit :=
  let* _ := on_mgr (fun m => DeleteAuthCache m mac imsi apn) in ret tt.

Definition stop_received (t : RecoveryTombstone) : RecoveryTombstone :=
  if bool_decide (t_State t = RecoveryWaitingAccountingStop)
  then t <| t_State := RecoveryWaitingReauth |> <| t_LastAction := "accounting_stop_received" |> else t.

(** The detach of an Accounting-Stop, under the subscriber's lock. *)
Definition accounting_stop_locked (sess : Session) : M (option gerr) :=
  let* m := gets sv_mgr in
  match Get m (s_ID sess) with
  | None => ret None
  | Some latest =>
    if negb (accountingStopShouldDetach (s_State latest)) then ret None
    else
      let* (_, err) := detachSessionLocked latest in
      whenM (rat_ClearAuthCacheOnStop (rd_Accounting (cfg_Radius (v_cfg E))))
        (delete_auth (s_MACAddress latest) (s_IMSI latest) (s_APN latest)) ;;
      ret err
  end.

Definition accounting_stop (req : AccountingRequest) (sess : option Session) : M (option gerr) :=
  let acct := rd_Accounting (cfg_Radius (v_cfg E)) in
  match sess with
  | None =>
    let* entry := updateAuthCacheFromAccounting req None true in
    match entry with
    | Some e => whenM (rat_ClearAuthCacheOnStop acct) (delete_auth (e_MACAddress e) (e_IMSI e) (e_APN e))
    | None => ret tt
    end ;;
    ret None
  | Some sess =>
    let* _ := session_op (fun m => ApplyAccounting m (s_ID sess) (accounting_update req false (a_TerminateCause req))) in
    let* _ := updateAuthCacheFromAccounting req (Some sess) true in
    let* _ := UpdateRecovery_ (s_ID sess) stop_received in
    if negb (rat_ClearSessionOnStop acct) then ret None
    else if negb (accountingStopShouldDetach (s_State sess)) then ret None
    else with_lock (s_IMSI sess) (s_MACAddress sess) (s_APN sess) Some (accounting_stop_locked sess)
  end.

Definition HandleAccounting (req0 : AccountingRequest) : M (option gerr) :=
  let* t := now in
  let req := if IsZero (a_EventTimestamp req0) then req0 <| a_EventTimestamp := t |> else req0 in
  let* sess := findAccountingSession req in
  match a_StatusType req with
  | AccountingStart =>
    match sess with
    | Some s =>
      let* _ := session_op (fun m => ApplyAccounting m (s_ID s) (accounting_update req true "")) in
      let* _ := updateAuthCacheFromAccounting req (Some s) false in
      ret None
    | None => handleAccountingStartWithoutSession req
    end
  | AccountingInterimUpdate =>
    match sess with
    | Some s =>
      let* _ := session_op (fun m => ApplyAccounting m (s_ID s) (accounting_update req true "")) in ret None
    | None => ret None
    end
  | AccountingStop => accounting_stop req sess
  | AccountingOn | AccountingOff | AccountingOther _ => ret None
  end.

(** ** Network initiated releases *)

(** [MarkRecovering]: the session afterwards (unchanged when that fails). *)
Definition mark_recovering (sess : Session) (reason : string) : M Session :=
  let* r := session_op (fun m => MarkRecovering m (s_ID sess) reason) in
  ret (match r with Ok s => s | Err _ => sess end).

Definition tombstone_and_disconnect (sess : Session) (reason : string) : M unit :=
  let* ttl := recoveryTombstoneTTL sess in
  let* t := at_now (fun m => AddRecoveryTombstone m (Some sess) reason ttl) in
  match t with Some t => attemptDynamicAuthorization t | None => ret tt end.

Definition gtpu_error_locked (teid : Z) (sess : Session) : M (option gerr) :=
  let* m := gets sv_mgr in
  match Get m (s_ID sess) with
  | None => ret None
  | Some latest =>
    if negb (State.eqb (s_State latest) State.Active) then ret None
    else
      let reason := teid_reason teid in
      let* sess := mark_recovering latest reason in
      let rc := cfg_Recovery (v_cfg E) in
      whenM (rc_Enabled rc && rc_ReasonGTPUError rc)%bool (tombstone_and_disconnect sess reason) ;;
      let* (_, err) := detachSessionLocked sess in
      ret (match err with
           | Some e => if ge_contextNotFound e then None else Some e
           | None => None
           end)
  end.

Definition HandleGTPUErrorIndication (offendingTEID : Z) : M (option gerr) :=
  if offendingTEID =? 0 then ret None
  else
    let* found := over_ids (fun m ord => LookupByRemoteGTPUTEID m ord offendingTEID) in
    match found with
    | None => ret None
    | Some sess =>
      let* t := now in
      let* updated := session_op (fun m => RecordGTPUError m (s_ID sess) offendingTEID t) in
      let sess := match updated with Ok s => s | Err _ => sess end in
      if negb (State.eqb (s_State sess) State.Active) then ret None
      else with_lock (s_IMSI sess) (s_MACAddress sess) (s_APN sess) Some (gtpu_error_locked offendingTEID sess)
    end.

Definition HandlePGWInitiatedDelete (gtpcTEID : Z) : M unit :=
  let* m := gets sv_mgr in
  match LookupByTEID m gtpcTEID with
  | None => ret tt
  | Some sess =>
    if negb (State.eqb (s_State sess) State.Active) then ret tt
    else
      let reason := "PGW-initiated bearer/session deletion" in
      let* sess := mark_recovering sess reason in
      whenM (rc_Enabled (cfg_Recovery (v_cfg E))) (tombstone_and_disconnect sess reason) ;;
      let* _ := detachSessionLocked sess in ret tt
  end.

Definition HandleAAAInitiatedDisconnect (imsi sessionID : string) : M (option gerr) :=
  let* m := gets sv_mgr in
  let by_id := if nonempty sessionID then Get m sessionID else None in
  let sess := match by_id with
              | Some s => Some s
              | None => if nonempty imsi then LookupByIMSI m imsi else None
              end in
  match sess with
  | None => ret None
  | Some sess =>
    whenM (rc_Enabled (cfg_Recovery (v_cfg E)))
      (tombstone_and_disconnect sess "AAA-initiated session disconnect") ;;
    let* (_, err) := detachSessionLocked sess in ret err
  end.
End service.
