(* ===== verification/LifecycleFacts.v ===== *)
(** Reasoning about the lifecycle service: a weakest precondition for its
    handlers, the ledger of what each session holds in the other components
    (read off the trace), and the invariant that relates the ledger to the
    registry.  [Lifecycle.v] holds the handlers; the properties are at the end
    of this file and in [LifecycleProps.v]. *)
From S2P Require Import Prelude.
From S2P Require Import GoNet.
From S2P Require Import Config.
From S2P Require Import Session.
From S2P Require Import SessionFacts.
From S2P Require Import AuthCache.
From S2P Require Import Recovery.
From S2P Require Import GtpClient.
From S2P Require Import Ipam.
From S2P Require Import SessionMap.
From S2P Require Import Lifecycle.
Open Scope string_scope.
Open Scope Z_scope.
Open Scope life_scope.

(** * Weakest preconditions: the handler returns, and in a state with [Q] *)
Definition wp {A} (m : M A) (Q : A -> Service -> Prop) (w : Service) : Prop :=
  match m w with Some (w', a) => Q a w' | None => False end.

Lemma wp_ret {A} (a : A) (Q : A -> Service -> Prop) w : Q a w -> wp (ret a) Q w.
Proof. done. Qed.

Lemma wp_bind {A B} (m : M A) (k : A -> M B) Q w :
  wp m (fun a => wp (k a) Q) w -> wp (bind m k) Q w.
Proof. unfold wp, bind. by destruct (m w) as [[w' a]|]. Qed.

Lemma wp_mono {A} (m : M A) (P Q : A -> Service -> Prop) w :
  wp m P w -> (forall a w', P a w' -> Q a w') -> wp m Q w.
Proof. unfold wp. destruct (m w) as [[w' a]|]; eauto. Qed.

Lemma wp_gets {A} (f : Service -> A) (Q : A -> Service -> Prop) w : Q (f w) w -> wp (gets f) Q w.
Proof. done. Qed.

Lemma wp_result {A} (m : M A) Q w : wp m Q w -> exists w' a, m w = Some (w', a) /\ Q a w'.
Proof. unfold wp. destruct (m w) as [[w' a]|]; [eauto|done]. Qed.

(** * The ledger *)

(** What a call says of a resource of a session: acquired by an addition that
    succeeded, let go by a release, whatever the component answers: the
    service does not ask again. *)
Definition settles (e : event) (r : resource) (id : string) : option bool :=
  match e with
  | EvAdd r' s ok => if bool_decide (r' = r /\ s_ID s = id /\ ok = true) then Some true else None
  | EvRemove r' s _ => if bool_decide (r' = r /\ s_ID s = id) then Some false else None
  | _ => None
  end.

(** Whether the service has the resource on its books: it was acquired and no
    release was asked for since. *)
Fixpoint holds (tr : list event) (r : resource) (id : string) : bool :=
  match tr with
  | [] => false
  | e :: tr => match settles e r id with Some b => b | None => holds tr r id end
  end.

(** Whether the other component still has the resource, as far as its answers
    tell: it was acquired and no release was confirmed since. *)
Fixpoint possesses (tr : list event) (r : resource) (id : string) : bool :=
  match tr with
  | [] => false
  | e :: tr =>
    match e with
    | EvAdd r' s true => (bool_decide (r' = r /\ s_ID s = id) || possesses tr r id)%bool
    | EvRemove r' s true => (negb (bool_decide (r' = r /\ s_ID s = id)) && possesses tr r id)%bool
    | _ => possesses tr r id
    end
  end.

(** A resource whose release was refused: the service took it off its books
    and the component kept it. *)
Fixpoint kept_back (tr : list event) (r : resource) (id : string) : bool :=
  match tr with
  | [] => false
  | e :: tr' =>
    match e with
    | EvAdd r' s true | EvRemove r' s true => if bool_decide (r' = r /\ s_ID s = id) then false else kept_back tr' r id
    | EvRemove r' s false => if bool_decide (r' = r /\ s_ID s = id) then possesses tr' r id else kept_back tr' r id
    | _ => kept_back tr' r id
    end
  end.

(** The component has what is on the books and what it kept back, and these
    are disjoint. *)
Lemma possesses_split tr r id :
  possesses tr r id = orb (holds tr r id) (kept_back tr r id) /\
  andb (holds tr r id) (kept_back tr r id) = false.
Proof.
  induction tr as [|e tr [I1 I2]]; [done|]. cbn [possesses holds kept_back].
  destruct e as [r' s [|]|r' s [|]| | | |]; cbn [settles]; try done.
  - destruct (decide (r' = r /\ s_ID s = id)) as [H|H].
    + by rewrite !bool_decide_true by naive_solver.
    + by rewrite !bool_decide_false by naive_solver.
  - by rewrite bool_decide_false by naive_solver.
  - by destruct (bool_decide _).
  - by destruct (bool_decide _).
Qed.

Lemma kept_back_refused tr r id : kept_back tr r id = true -> exists s, s_ID s = id /\ EvRemove r s false ∈ tr.
Proof.
  induction tr as [|e tr IH]; [done|]. cbn [kept_back]. intros H.
  assert (Hc : kept_back tr r id = true \/ exists s, e = EvRemove r s false /\ s_ID s = id).
  { destruct e as [r' s [|]|r' s [|]| | | |]; try (by left);
      (case_bool_decide as Hb; [|by left]); try done. destruct Hb as [-> ?]. right. by exists s. }
  destruct Hc as [(s & Hs & He)%IH|(s & -> & Hs)]; exists s; split; try done; [by right|by left].
Qed.

Definition set_held (h : resource -> bool) (r : resource) (b : bool) : resource -> bool :=
  fun r' => if decide (r' = r) then b else h r'.

Definition nothing : resource -> bool := fun _ => false.

(** The resources an active session of this service has. *)
Definition present (E : Env) (r : resource) : bool :=
  match r with RPGW | RRoute => true | RUser => v_user E | RAccess => v_access E end.

Definition is_live (st : State.t) : bool :=
  match st with State.Active | State.Recovering => true | _ => false end.

(** What the user plane reads of a session, and a session that has none of it
    yet. *)
Definition tunnel (s : Session) : Z * Z * IP * IP :=
  (s_LocalGTPUTEID s, s_RemoteGTPUTEID s, s_PGWUserIP s, s_SubscriberIP s).

Definition blank (s : Session) : Prop := tunnel s = (0, 0, [], []).

(** The sessions that the user plane was given, as they were then. *)
Definition set_tunnel (e : event) (T : gmap string Session) : gmap string Session :=
  match e with
  | EvAdd RUser s true => <[s_ID s := s]> T
  | EvRemove RUser s _ => delete (s_ID s) T
  | _ => T
  end.

Fixpoint tunnels (tr : list event) : gmap string Session :=
  match tr with [] => ∅ | e :: tr => set_tunnel e (tunnels tr) end.

(** A session is added when the user plane does not have it; one is removed
    with the tunnel it was added with, or it never had one. *)
Definition tidy_event (T : gmap string Session) (e : event) : Prop :=
  match e with
  | EvAdd RUser s _ => T !! s_ID s = None
  | EvRemove RUser s _ =>
    match T !! s_ID s with Some s0 => tunnel s = tunnel s0 | None => blank s end
  | _ => True
  end.

Fixpoint tidy (tr : list event) : Prop :=
  match tr with [] => True | e :: tr => tidy_event (tunnels tr) e /\ tidy tr end.

Lemma tunnels_holds tr id : holds tr RUser id = true <-> is_Some (tunnels tr !! id).
Proof.
  induction tr as [|e tr IH]; cbn [holds tunnels]; [by split; [|intros [? H]; rewrite lookup_empty in H]|].
  destruct e as [r s ok|r s ok| | | |]; cbn [settles set_tunnel]; try exact IH.
  - destruct r, ok; (case_bool_decide as Hb; [|]); try (by destruct Hb as (? & ? & ?)); try exact IH.
    + destruct Hb as (_ & <- & _). by rewrite lookup_insert_eq.
    + rewrite lookup_insert_ne; [exact IH|]. intros ?. by apply Hb.
  - destruct r; (case_bool_decide as Hb; [|]); try (by destruct Hb as (? & ?)); try exact IH.
    + destruct Hb as (_ & <-). rewrite lookup_delete_eq. by split; [|intros [? ?]].
    + rewrite lookup_delete_ne; [exact IH|]. intros ?. by apply Hb.
Qed.

Lemma no_tunnel tr id : holds tr RUser id = false -> tunnels tr !! id = None.
Proof. intros H. apply eq_None_not_Some. intros I%tunnels_holds. congruence. Qed.

Lemma set_tunnel_add_other r s ok T k : k <> s_ID s -> set_tunnel (EvAdd r s ok) T !! k = T !! k.
Proof. intros Hk. destruct r, ok; try done. cbn. by rewrite lookup_insert_ne. Qed.

Lemma set_tunnel_remove_other r s ok T k : k <> s_ID s -> set_tunnel (EvRemove r s ok) T !! k = T !! k.
Proof. intros Hk. destruct r; try done. cbn. by rewrite lookup_delete_ne. Qed.

(** Two sessions of the same subscriber: their identities do not differ and
    they share the IMSI and the APN, or the MAC address. *)
Definition compat (f : string -> string) (a b : string) : bool :=
  negb (nonempty a && nonempty b && negb (String.eqb (f a) (f b))).

Definition same_user (a b : Session) : bool :=
  (compat id (s_IMSI a) (s_IMSI b) && compat normalizeMAC (s_MACAddress a) (s_MACAddress b)
   && compat ToLower (s_APN a) (s_APN b)
   && ((nonempty (s_IMSI a) && String.eqb (s_IMSI a) (s_IMSI b) && sameAPN (s_APN a) (s_APN b))
       || (macMatches (s_MACAddress a) (s_MACAddress b)
           && String.eqb (normalizeMAC (s_MACAddress a)) (normalizeMAC (s_MACAddress b)))))%bool.

(** What of a session the invariant reads. *)
Definition core (s : Session) : string * string * string * string * IP * State.t * (Z * Z * IP * IP) :=
  (s_ID s, s_IMSI s, s_MACAddress s, s_APN s, s_SubscriberIP s, s_State s, tunnel s).

Definition ident (s : Session) : string * string * string := (s_IMSI s, s_MACAddress s, s_APN s).

Definition get (w : Service) (id : string) : option Session := Get (sv_mgr w) id.

Lemma core_ident s s' : core s = core s' -> ident s = ident s' /\ s_State s = s_State s' /\
  s_SubscriberIP s = s_SubscriberIP s' /\ s_ID s = s_ID s' /\ tunnel s = tunnel s'.
Proof. unfold core, ident. intros H. split_and!; congruence. Qed.

Lemma same_user_ident a b a' b' :
  ident a = ident a' -> ident b = ident b' -> same_user a b = same_user a' b'.
Proof. intros [= H1 H2 H3] [= H4 H5 H6]. unfold same_user. by rewrite H1, H2, H3, H4, H5, H6. Qed.

Lemma eqb_sym' a b : String.eqb a b = String.eqb b a.
Proof. apply String.eqb_sym. Qed.

Lemma EqualFold_sym a b : EqualFold a b = EqualFold b a.
Proof. unfold EqualFold. apply String.eqb_sym. Qed.

Lemma compat_sym f a b : compat f a b = compat f b a.
Proof. unfold compat. rewrite (eqb_sym' (f a)). by destruct (nonempty a), (nonempty b). Qed.

Lemma macMatches_sym a b : macMatches a b = macMatches b a.
Proof.
  unfold macMatches. rewrite (eqb_sym' (Session.normalizeMAC a)). by destruct (nonempty a), (nonempty b).
Qed.

Lemma same_user_sym a b : same_user a b = same_user b a.
Proof.
  unfold same_user, sameAPN. rewrite (compat_sym id (s_IMSI a)), (compat_sym normalizeMAC (s_MACAddress a)),
    (compat_sym ToLower (s_APN a)), (EqualFold_sym (s_APN a)), (macMatches_sym (s_MACAddress a)),
    (eqb_sym' (normalizeMAC (s_MACAddress a))), (eqb_sym' (s_IMSI a)).
  assert (E : (nonempty (s_IMSI a) && String.eqb (s_IMSI b) (s_IMSI a) =
               nonempty (s_IMSI b) && String.eqb (s_IMSI b) (s_IMSI a))%bool).
  { destruct (String.eqb (s_IMSI b) (s_IMSI a)) eqn:E; [|by rewrite !andb_false_r]. bools. by rewrite E. }
  by rewrite E.
Qed.

(** Both fields are there and they differ. *)
Definition contradicts (f : string -> string) (a b : string) : Prop := a <> "" /\ b <> "" /\ f a <> f b.

Lemma compat_contradicts f a b : compat f a b = false -> contradicts f a b.
Proof.
  unfold compat, contradicts. intros H%negb_false_iff. apply andb_prop in H as [H Hf]. apply andb_prop in H as [Ha Hb].
  split_and!; [by intros -> |by intros -> |]. intros E. by rewrite E, String.eqb_refl in Hf.
Qed.

Lemma EqualFold_compat a b : EqualFold a b = true -> compat ToLower a b = true.
Proof. unfold EqualFold, compat. intros ->. by rewrite andb_false_r. Qed.

(** Sessions of one IMSI and APN are of two users only if their MAC addresses
    differ, sessions of one MAC address only if the IMSIs or the APNs do. *)
Lemma different_users a b : same_user a b = false ->
  (s_IMSI a = s_IMSI b -> s_IMSI a <> "" -> sameAPN (s_APN a) (s_APN b) = true ->
     contradicts normalizeMAC (s_MACAddress a) (s_MACAddress b)) /\
  (macMatches (s_MACAddress a) (s_MACAddress b) = true -> normalizeMAC (s_MACAddress a) = normalizeMAC (s_MACAddress b) ->
     contradicts id (s_IMSI a) (s_IMSI b) \/ contradicts ToLower (s_APN a) (s_APN b)).
Proof.
  intros H. split.
  - intros Ei Hi Ha. apply compat_contradicts. destruct (compat normalizeMAC (s_MACAddress a) (s_MACAddress b)) eqn:Em; [|done].
    revert H. unfold same_user. rewrite Em, (EqualFold_compat _ _ Ha), Ha, <- Ei, String.eqb_refl.
    unfold compat, id. rewrite String.eqb_refl, andb_false_r. destruct (s_IMSI a); [done|]. done.
  - intros Hm Em. destruct (compat id (s_IMSI a) (s_IMSI b)) eqn:Ei; [|left; by apply compat_contradicts].
    right. apply compat_contradicts. destruct (compat ToLower (s_APN a) (s_APN b)) eqn:Ea; [|done]. revert H. unfold same_user.
    rewrite Ei, Ea, Hm. unfold compat. by rewrite Em, String.eqb_refl, andb_false_r, orb_true_r.
Qed.

(** * Steps that leave the sessions other than [X] alone *)
Definition outside (X : option string) (k : string) : Prop := Some k <> X.

Record step (X : option string) (w w' : Service) : Prop := {
  st_ok : mgr_ok (sv_mgr w');
  st_next : next (sv_mgr w') = next (sv_mgr w);
  st_core : forall k, outside X k -> core <$> get w' k = core <$> get w k;
  st_holds : forall r k, outside X k -> holds (sv_trace w') r k = holds (sv_trace w) r k;
  st_locks : sv_locks w' = sv_locks w;
  st_tunnels : forall k, outside X k -> tunnels (sv_trace w') !! k = tunnels (sv_trace w) !! k;
  st_tidy : tidy (sv_trace w) -> tidy (sv_trace w')
}.

Lemma step_refl X w : mgr_ok (sv_mgr w) -> step X w w.
Proof. by intros H. Qed.

Lemma step_trans X w1 w2 w3 : step X w1 w2 -> step X w2 w3 -> step X w1 w3.
Proof.
  intros [A1 A2 A3 A4 A5 A6 A7] [B1 B2 B3 B4 B5 B6 B7]. split; [done|congruence| | |congruence| |by auto].
  - intros k Hk. by rewrite B3, A3.
  - intros r k Hk. by rewrite B4, A4.
  - intros k Hk. by rewrite B6, A6.
Qed.

Lemma step_weaken X w w' : step None w w' -> step X w w'.
Proof.
  intros [A1 A2 A3 A4 A5 A6 A7].
  split; [done..|intros; by apply A3|intros; by apply A4|done|intros; by apply A6|done].
Qed.

(** ** Quiet handlers: they change no session's core, no resource, no lock *)
Definition quiet {A} (m : M A) : Prop :=
  forall w, mgr_ok (sv_mgr w) -> wp m (fun _ w' => step None w w') w.

Lemma quiet_ret {A} (a : A) : quiet (ret a).
Proof. intros w H. by apply wp_ret, step_refl. Qed.

Lemma quiet_bind {A B} (m : M A) (k : A -> M B) : quiet m -> (forall a, quiet (k a)) -> quiet (bind m k).
Proof.
  intros Hm Hk w H. apply wp_bind. eapply wp_mono; [by apply Hm|]. intros a w1 S1.
  eapply wp_mono; [apply Hk, S1|]. intros b w2 S2. exact (step_trans _ _ _ _ S1 S2).
Qed.

Lemma quiet_gets {A} (f : Service -> A) : quiet (gets f).
Proof. intros w H. by apply wp_gets, step_refl. Qed.

Lemma quiet_ask {A} (q : nat -> A) : quiet (ask q).
Proof. by intros w H. Qed.

Lemma quiet_count f : quiet (count f).
Proof. by intros w H. Qed.

Lemma quiet_modify f :
  (forall w, sv_mgr (f w) = sv_mgr w /\ sv_trace (f w) = sv_trace w /\ sv_locks (f w) = sv_locks w) ->
  quiet (modify f).
Proof.
  intros Hf w H. destruct (Hf w) as (H1 & H2 & H3). unfold wp, modify.
  split; [by rewrite H1|by rewrite H1| | |done| |by rewrite H2].
  - intros k _. unfold get. by rewrite H1.
  - intros r k _. by rewrite H2.
  - intros k _. by rewrite H2.
Qed.

Lemma quiet_when (b : bool) m : quiet m -> quiet (whenM b m).
Proof. intros H. destruct b; [done|apply quiet_ret]. Qed.

Lemma quiet_emit e :
  (forall r k, settles e r k = None) -> (forall T, set_tunnel e T = T /\ tidy_event T e) -> quiet (emit e).
Proof.
  intros He Ht w H. split; try done.
  - intros r k _. cbn. by rewrite He.
  - intros k _. cbn. by rewrite (proj1 (Ht _)).
  - intros T. split; [apply Ht|exact T].
Qed.

Lemma quiet_on_mgr {A} (f : Manager -> Manager * A) :
  (forall m, mgr_ok m -> mgr_ok (fst (f m)) /\ next (fst (f m)) = next m /\
     forall k, core <$> Get (fst (f m)) k = core <$> Get m k) -> quiet (on_mgr f).
Proof.
  intros Hf w H. destruct (Hf _ H) as (H1 & H2 & H3). unfold on_mgr, wp, get in *.
  destruct (f (sv_mgr w)) as [m a]. cbn in *. split; try done. intros k _. apply H3.
Qed.

Lemma quiet_same {A} (f : Manager -> Manager * A) :
  (forall m, same_sessions m (fst (f m))) -> quiet (on_mgr f).
Proof.
  intros Hf. apply quiet_on_mgr. intros m Hm. pose proof (Hf m) as Hs.
  split; [by eapply same_sessions_ok|]. split; [apply Hs|]. intros k. by rewrite (same_sessions_Get m).
Qed.

Create HintDb quiet.
#[export] Hint Resolve quiet_ret quiet_gets quiet_ask quiet_count : quiet.

Ltac quiet := repeat
  lazymatch goal with
  | |- quiet (bind _ _) => apply quiet_bind
  | |- quiet (whenM _ _) => apply quiet_when
  | |- quiet (emit _) => apply quiet_emit
  | |- quiet _ => first [solve [eauto with quiet] | case_match]
  | |- forall _, _ => intro; cbv beta
  end.

Lemma op_spec_mgr m id r f can :
  mgr_ok m -> op_spec m id r f can ->
  mgr_ok (fst r) /\ next (fst r) = next m /\ forall k, k <> id -> Get (fst r) k = Get m k.
Proof.
  intros Hm. unfold op_spec. destruct (snd r) as [s'|e].
  - intros (s & _ & _ & _ & [H1 H2 H3]). split_and!; [done|done|]. intros k Hk. by rewrite H3, decide_False.
  - intros [-> _]. done.
Qed.

Section quiet.
Context (E : Env).

Lemma quiet_at_now {A} (f : Manager -> Time -> Manager * A) :
  (forall m t, same_sessions m (fst (f m t))) -> quiet (at_now E f).
Proof. intros Hf. unfold at_now, now. quiet. apply quiet_same. intros m. apply Hf. Qed.

Lemma quiet_over_ids {A} (f : Manager -> list (string * ptr) -> A) : quiet (over_ids E f).
Proof. unfold over_ids. quiet. Qed.

(** A session operation that keeps the core of its session. *)
Lemma quiet_session_op op f can id :
  (forall m t, mgr_ok m -> op_spec m id (op m t) (f t) can) -> (forall t s, core (f t s) = core s) ->
  quiet (session_op E op).
Proof.
  intros Hop Hf. unfold session_op, at_now, now. quiet. apply quiet_on_mgr. intros m Hm.
  specialize (Hop m a Hm). destruct (op_spec_mgr _ _ _ _ _ Hm Hop) as (H1 & H2 & H3).
  split_and!; [done|done|]. intros k. destruct (decide (k = id)) as [->|Hk]; [|by rewrite H3].
  unfold op_spec in Hop. destruct (snd (op m a)) as [s'|e].
  - destruct Hop as (s & HG & _ & -> & [_ _ Hg]). rewrite Hg, decide_True, HG by done. cbn. by rewrite Hf.
  - by destruct Hop as [-> _].
Qed.

Lemma quiet_UpdateRecovery id fn : quiet (UpdateRecovery_ E id fn).
Proof. unfold UpdateRecovery_. quiet. apply quiet_at_now. auto with same. Qed.

Lemma quiet_releaseIP id : quiet (releaseIP id).
Proof. unfold releaseIP. quiet. by apply quiet_modify. Qed.

Lemma quiet_releaseIP_ id : quiet (releaseIP_ id).
Proof. unfold releaseIP_. quiet. apply quiet_releaseIP. Qed.

Lemma quiet_accounting id u : quiet (session_op E (fun m => ApplyAccounting m id u)).
Proof. eapply quiet_session_op; [intros m t Hm; by apply ApplyAccounting_spec|done]. Qed.

Lemma quiet_gtpu_error id t a : quiet (session_op E (fun m => RecordGTPUError m id t a)).
Proof. eapply quiet_session_op; [intros m t' Hm; by apply RecordGTPUError_spec|done]. Qed.

Hint Resolve quiet_over_ids quiet_UpdateRecovery quiet_releaseIP quiet_releaseIP_ quiet_accounting
  quiet_gtpu_error : quiet.
Hint Extern 2 (quiet (at_now _ _)) => (apply quiet_at_now; solve [auto with same]) : quiet.
Hint Extern 2 (quiet (on_mgr _)) => (apply quiet_same; solve [auto with same]) : quiet.
Hint Extern 2 (quiet (now _)) => (unfold now) : quiet.

Lemma quiet_setRecoveryFallback t a e : quiet (setRecoveryFallback E t a e).
Proof. unfold setRecoveryFallback. quiet. Qed.
Hint Resolve quiet_setRecoveryFallback : quiet.

Lemma quiet_attemptDynamicAuthorization t : quiet (attemptDynamicAuthorization E t).
Proof. unfold attemptDynamicAuthorization. quiet; done. Qed.
Hint Resolve quiet_attemptDynamicAuthorization : quiet.

Lemma quiet_waitForAccountingStopTimeout id : quiet (waitForAccountingStopTimeout E id).
Proof. unfold waitForAccountingStopTimeout. quiet. Qed.

Lemma quiet_recoveryTombstoneTTL s : quiet (recoveryTombstoneTTL E s).
Proof. unfold recoveryTombstoneTTL, now. quiet. Qed.
Hint Resolve quiet_recoveryTombstoneTTL : quiet.

Lemma quiet_tombstone_and_disconnect s r : quiet (tombstone_and_disconnect E s r).
Proof. unfold tombstone_and_disconnect. quiet. Qed.

Lemma quiet_logRecovery req : quiet (logRecoveryAttachIfPresent E req).
Proof. unfold logRecoveryAttachIfPresent. quiet. Qed.

Lemma quiet_completeRecovery c r : quiet (completeRecovery E c r).
Proof. unfold completeRecovery. quiet. Qed.

Lemma quiet_completeIf t c r : quiet (completeIf E t c r).
Proof. unfold completeIf. destruct t; [apply quiet_completeRecovery|quiet]. Qed.

Lemma quiet_accept id req : quiet (updateAuthCacheFromAccessAccept E id req).
Proof. unfold updateAuthCacheFromAccessAccept, now. quiet. Qed.

Lemma quiet_begin e st : quiet (beginAuthCacheRecovery E e st).
Proof. unfold beginAuthCacheRecovery, now. quiet. by apply quiet_modify. Qed.

Lemma quiet_finish e : quiet (finishAuthCacheRecovery E e).
Proof. unfold finishAuthCacheRecovery, now. quiet. by apply quiet_modify. Qed.

Lemma quiet_lookup_auth mac imsi apn : quiet (lookup_auth E mac imsi apn).
Proof. unfold lookup_auth, now. quiet. Qed.

Lemma quiet_lookup_acct a n i : quiet (lookup_auth_acct E a n i).
Proof. unfold lookup_auth_acct, now. quiet. Qed.
Hint Resolve quiet_lookup_auth quiet_lookup_acct : quiet.

Lemma quiet_disconnectClient req : quiet (disconnectAccountingClient E req).
Proof. unfold disconnectAccountingClient, now. quiet; done. Qed.

Lemma quiet_findAccountingSession req : quiet (findAccountingSession E req).
Proof. unfold findAccountingSession. quiet. Qed.

Lemma quiet_updateFromAccounting req s b : quiet (updateAuthCacheFromAccounting E req s b).
Proof. unfold updateAuthCacheFromAccounting, now. quiet. Qed.

Lemma quiet_delete_auth mac imsi apn : quiet (delete_auth mac imsi apn).
Proof. unfold delete_auth. quiet. Qed.

Lemma quiet_validate s : quiet (validatePostActivation E s).
Proof. unfold validatePostActivation. quiet. Qed.
End quiet.

#[export] Hint Resolve quiet_over_ids quiet_UpdateRecovery quiet_releaseIP quiet_releaseIP_ quiet_accounting
  quiet_gtpu_error quiet_setRecoveryFallback quiet_attemptDynamicAuthorization
  quiet_waitForAccountingStopTimeout quiet_tombstone_and_disconnect quiet_logRecovery quiet_completeIf
  quiet_accept quiet_begin quiet_finish quiet_lookup_auth quiet_lookup_acct quiet_disconnectClient
  quiet_findAccountingSession quiet_updateFromAccounting quiet_delete_auth quiet_validate : quiet.
#[export] Hint Extern 2 (quiet (at_now _ _)) => (apply quiet_at_now; solve [auto with same]) : quiet.
#[export] Hint Extern 2 (quiet (now _)) => (unfold now) : quiet.

(** * The invariant

    [L] are the locks held and [N] bounds the number of sessions created.  In
    [Inv X], the session [X] is in flight: nothing is said about it. *)
Section invariant.
Context (E : Env).

Record Inv (L : list string) (N : Z) (X : option string) (w : Service) : Prop := {
  inv_mgr : mgr_ok (sv_mgr w);
  inv_next : next (sv_mgr w) <= N;
  inv_locks : sv_locks w = L;
  inv_holds : forall r k, outside X k ->
    holds (sv_trace w) r k = true <->
    present E r = true /\ exists s, get w k = Some s /\ is_live (s_State s) = true;
  inv_ip : forall k s, outside X k -> get w k = Some s -> is_live (s_State s) = true -> s_SubscriberIP s <> [];
  inv_one : forall k1 k2 s1 s2, outside X k1 -> outside X k2 -> k1 <> k2 ->
    get w k1 = Some s1 -> get w k2 = Some s2 ->
    is_live (s_State s1) = true -> is_live (s_State s2) = true -> same_user s1 s2 = false;
  inv_tidy : tidy (sv_trace w);
  inv_tunnel : forall k s s0, outside X k -> get w k = Some s -> tunnels (sv_trace w) !! k = Some s0 ->
    tunnel s0 = tunnel s;
  inv_blank : forall k s, outside X k -> get w k = Some s -> is_live (s_State s) = false ->
    validTransition (s_State s) State.Terminating = true -> blank s
}.

Lemma core_back w w' k s :
  core <$> get w' k = core <$> get w k -> get w' k = Some s -> exists s0, get w k = Some s0 /\ core s0 = core s.
Proof. intros H Hs. rewrite Hs in H. symmetry in H. apply fmap_Some in H as (s0 & H0 & Hc). eauto. Qed.

Lemma core_forth w w' k s :
  core <$> get w' k = core <$> get w k -> get w k = Some s -> exists s', get w' k = Some s' /\ core s' = core s.
Proof. intros H Hs. rewrite Hs in H. apply fmap_Some in H as (s0 & H0 & Hc). eauto. Qed.

Lemma Inv_step L N X w w' : Inv L N X w -> step X w w' -> Inv L N X w'.
Proof.
  intros [I1 I2 I3 I4 I5 I6 I7 I8 I9] [S1 S2 S3 S4 S5 S6 S7]. split; [done|lia|congruence| | | |by apply S7| |].
  - intros r k Hk. rewrite S4, I4 by done. split; intros (Hp & s & Hs & Hl); (split; [done|]).
    + destruct (core_forth w w' k s (S3 k Hk) Hs) as (s' & Hs' & Hc). exists s'.
      destruct (core_ident _ _ Hc) as (_ & -> & _). done.
    + destruct (core_back w w' k s (S3 k Hk) Hs) as (s' & Hs' & Hc). exists s'.
      destruct (core_ident _ _ Hc) as (_ & -> & _). done.
  - intros k s Hk Hs Hl. destruct (core_back w w' k s (S3 k Hk) Hs) as (s0 & Hs0 & Hc).
    destruct (core_ident _ _ Hc) as (_ & E1 & E2 & _). rewrite <- E2. apply (I5 k); [done..|by rewrite E1].
  - intros k1 k2 s1 s2 H1 H2 Hne Hs1 Hs2 L1 L2.
    destruct (core_back w w' k1 s1 (S3 k1 H1) Hs1) as (a & Ha & Ca).
    destruct (core_back w w' k2 s2 (S3 k2 H2) Hs2) as (b & Hb & Cb).
    destruct (core_ident _ _ Ca) as (Ia & Sa & _), (core_ident _ _ Cb) as (Ib & Sb & _).
    rewrite <- (same_user_ident a b s1 s2) by done. apply (I6 k1 k2); try done; congruence.
  - intros k s s0 Hk Hs. rewrite S6 by done. destruct (core_back w w' k s (S3 k Hk) Hs) as (a & Ha & Ca).
    destruct (core_ident _ _ Ca) as (_ & _ & _ & _ & Ta). rewrite <- Ta. by apply (I8 k).
  - intros k s Hk Hs Hl Hv. destruct (core_back w w' k s (S3 k Hk) Hs) as (a & Ha & Ca).
    destruct (core_ident _ _ Ca) as (_ & Sa & _ & _ & Ta). unfold blank. rewrite <- Ta.
    apply (I9 k a Hk Ha); by rewrite Sa.
Qed.

Lemma Inv_quiet {A} (m : M A) L N X w (Q : A -> Service -> Prop) :
  quiet m -> Inv L N X w -> (forall a w', step None w w' -> Inv L N X w' -> Q a w') -> wp m Q w.
Proof.
  intros Hm HI HQ. eapply wp_mono; [by apply Hm, HI|]. intros a w' S. apply HQ; [done|].
  eapply Inv_step; [done|by apply step_weaken].
Qed.

(** ** One session in flight

    The state [w0] in which the flight began, its session [os], what it holds, and, from the moment the overlap check has
    passed ([al]), that no other live session is of the same subscriber. *)
Section flight.
Context (w0 : Service).

Definition alone (w : Service) (id : string) (s : Session) : Prop :=
  forall k s', k <> id -> get w k = Some s' -> is_live (s_State s') = true -> same_user s s' = false.

Record Flight (L : list string) (N : Z) (id : string) (os : option Session) (h : resource -> bool)
    (al : bool) (w : Service) : Prop := {
  fl_inv : Inv L N (Some id) w;
  fl_step : step (Some id) w0 w;
  fl_get : get w id = os;
  fl_holds : forall r, holds (sv_trace w) r id = h r;
  fl_alone : al = true -> forall s, os = Some s -> alone w id s;
  fl_tunnel : forall s s0, os = Some s -> tunnels (sv_trace w) !! id = Some s0 -> tunnel s0 = tunnel s
}.

Lemma outside_Some id k : outside (Some id) k <-> k <> id.
Proof. unfold outside. naive_solver. Qed.

Lemma Inv_outside L N id w : Inv L N None w -> Inv L N (Some id) w.
Proof.
  intros [I1 I2 I3 I4 I5 I6 I7 I8 I9].
  split; [done|done|done|intros r k _; by apply I4|intros k s _; by apply I5|intros k1 k2 s1 s2 _ _; by apply I6|done
    |intros k s s0 _; by apply I8|intros k s _; by apply I9].
Qed.

Lemma alone_step w w' id s s' :
  step (Some id) w w' -> ident s' = ident s -> alone w id s -> alone w' id s'.
Proof.
  intros S Hi Ha k x Hk Hx Hl. destruct (core_back w w' k x) as (x0 & Hx0 & Hc).
  { apply (st_core _ _ _ S). by apply outside_Some. } { done. }
  destruct (core_ident _ _ Hc) as (Ix & Sx & _). rewrite (same_user_ident s' x s x0) by done.
  apply (Ha k); [done|done|congruence].
Qed.

(** A session that is not live takes off holding nothing. *)
Lemma take_off L N w id s :
  step (Some id) w0 w -> Inv L N None w -> get w id = Some s -> is_live (s_State s) = false ->
  Flight L N id (Some s) nothing false w.
Proof.
  intros HS HI Hs Hl.
  split; [by apply Inv_outside|done|done| |done|intros x s0 [= <-] H0; by apply (inv_tunnel _ _ _ _ HI id)].
  intros r. destruct (holds (sv_trace w) r id) eqn:Eh; [|done].
  apply (inv_holds _ _ _ _ HI) in Eh as (_ & s' & Hs' & Hl'); [|done]. congruence.
Qed.

(** A live session takes off with all its resources. *)
Lemma take_off_live L N w id s :
  step (Some id) w0 w -> Inv L N None w -> get w id = Some s -> is_live (s_State s) = true ->
  Flight L N id (Some s) (present E) false w.
Proof.
  intros HS HI Hs Hl.
  split; [by apply Inv_outside|done|done| |done|intros x s0 [= <-] H0; by apply (inv_tunnel _ _ _ _ HI id)].
  intros r. apply Bool.eq_true_iff_eq. rewrite (inv_holds _ _ _ _ HI) by done. split; [by intros [? _]|eauto].
Qed.

(** Landing: the session is live and holds everything it should, or it is not
    live (or gone) and holds nothing. *)
Lemma land L N id os h al w :
  Flight L N id os h al w ->
  match os with
  | Some s =>
    if is_live (s_State s) then (forall r, h r = present E r) /\ s_SubscriberIP s <> [] /\ alone w id s
    else (forall r, h r = false) /\ (validTransition (s_State s) State.Terminating = true -> blank s)
  | None => forall r, h r = false
  end -> Inv L N None w.
Proof.
  intros [[I1 I2 I3 I4 I5 I6 I7 I8 I9] _ Hg Hh _ Ht] Hos. split; [done..| | | |done| |].
  - intros r k _. destruct (decide (k = id)) as [->|Hk]; [|by apply I4, outside_Some].
    rewrite Hh. destruct os as [s|]; [destruct (is_live (s_State s)) eqn:El|].
    + destruct Hos as (-> & _). split; [|by intros [? _]]. intros Hp. split; [done|]. exists s. done.
    + rewrite (proj1 Hos). split; [done|]. intros (_ & s' & Hs' & Hl). congruence.
    + rewrite Hos. split; [done|]. intros (_ & s' & Hs' & Hl). congruence.
  - intros k s _ Hs Hl. destruct (decide (k = id)) as [->|Hk]; [|by apply (I5 k); [apply outside_Some|..]].
    rewrite Hg in Hs. rewrite Hs in Hos. cbv iota in Hos. rewrite Hl in Hos. apply Hos.
  - intros k1 k2 s1 s2 _ _ Hne H1 H2 L1 L2.
    destruct (decide (k1 = id)) as [->|N1]; [|destruct (decide (k2 = id)) as [->|N2]].
    + rewrite Hg in H1. rewrite H1 in Hos. cbv iota in Hos. rewrite L1 in Hos. by apply (proj2 (proj2 Hos) k2).
    + rewrite Hg in H2. rewrite H2 in Hos. cbv iota in Hos. rewrite L2 in Hos. rewrite same_user_sym. by apply (proj2 (proj2 Hos) k1).
    + by apply (I6 k1 k2); [apply outside_Some..|done| | |done|].
  - intros k s s0 _ Hs H0. destruct (decide (k = id)) as [->|Hk]; [|by apply (I8 k); [apply outside_Some|..]].
    apply Ht; [congruence|done].
  - intros k s _ Hs Hl Hv. destruct (decide (k = id)) as [->|Hk]; [|by apply (I9 k); [apply outside_Some|..]].
    rewrite Hg in Hs. rewrite Hs in Hos. cbv iota in Hos. rewrite Hl in Hos. by apply Hos.
Qed.

Lemma wp_session_op_trace op f can L N id s h al w (Q : result Session gerr -> Service -> Prop) :
  (forall m t, mgr_ok m -> op_spec m id (op m t) (f t) can) ->
  Flight L N id (Some s) h al w -> can s -> (al = true -> forall t, ident (f t s) = ident s) ->
  (h RUser = true -> forall t, tunnel (f t s) = tunnel s) ->
  (forall t w', sv_trace w' = sv_trace w -> Flight L N id (Some (f t s)) h al w' -> Q (Ok (f t s)) w') ->
  wp (session_op E op) Q w.
Proof.
  intros Hop [F1 F5 F2 F3 F4 F6] Hcan Hid Htu HQ. unfold session_op, at_now, now, wp, bind, ask, on_mgr. cbn.
  set (t := v_now E (sv_questions w)). specialize (Hop (sv_mgr w) t (inv_mgr _ _ _ _ F1)).
  destruct (op_spec_mgr _ _ _ _ _ (inv_mgr _ _ _ _ F1) Hop) as (H1 & H2 & H3).
  unfold op_spec, get in *. destruct (op (sv_mgr w) t) as [m' [s'|e]]; cbn in *.
  - destruct Hop as (s0 & HG & _ & -> & [_ _ Hg]). rewrite F2 in HG. injection HG as <-.
    set (w' := w <| sv_questions ::= S |> <| sv_mgr := m' |>) in *.
    assert (S' : step (Some id) w w').
    { split; try done. intros k Hk%outside_Some. unfold get. cbn. by rewrite H3. }
    apply HQ; [done|]. split; [by eapply Inv_step|by eapply step_trans|unfold get; cbn; by rewrite Hg, decide_True|exact F3| |].
    { intros Ha x [= <-]. apply (alone_step w w' id s _ S'); [by apply Hid|by apply F4]. }
    intros x s0 [= <-] H0. rewrite Htu; [by apply F6|]. rewrite <- F3. by apply tunnels_holds.
  - destruct Hop as [_ Hno]. by destruct (Hno s F2).
Qed.

Lemma wp_session_op op f can L N id s h al w (Q : result Session gerr -> Service -> Prop) :
  (forall m t, mgr_ok m -> op_spec m id (op m t) (f t) can) ->
  Flight L N id (Some s) h al w -> can s -> (al = true -> forall t, ident (f t s) = ident s) ->
  (h RUser = true -> forall t, tunnel (f t s) = tunnel s) ->
  (forall t w', Flight L N id (Some (f t s)) h al w' -> Q (Ok (f t s)) w') ->
  wp (session_op E op) Q w.
Proof. intros Hop HF Hc Hi Ht HQ. eapply wp_session_op_trace; [exact Hop|exact HF|done..|]. intros t w' _. apply HQ. Qed.

(** The operation fails: nothing changes. *)
Lemma wp_session_op_err op f can L N id w (Q : result Session gerr -> Service -> Prop) :
  (forall m t, mgr_ok m -> op_spec m id (op m t) (f t) can) ->
  Inv L N None w -> (forall s, get w id = Some s -> ~ can s) ->
  (forall e w', Inv L N None w' -> step None w w' -> sv_trace w' = sv_trace w -> Q (Err e) w') ->
  wp (session_op E op) Q w.
Proof.
  intros Hop HI Hno HQ. unfold session_op, at_now, now, wp, bind, ask, on_mgr. cbn.
  set (t := v_now E (sv_questions w)). specialize (Hop (sv_mgr w) t (inv_mgr _ _ _ _ HI)).
  unfold op_spec, get in *. destruct (op (sv_mgr w) t) as [m' [s'|e]]; cbn in *.
  - destruct Hop as (s0 & HG & Hc & _). by destruct (Hno s0 HG).
  - destruct Hop as [-> _].
    assert (S' : step None w (w <| sv_questions ::= S |> <| sv_mgr := sv_mgr w |>)) by (split; try done; apply HI).
    apply HQ; [by eapply Inv_step|done|done].
Qed.

(** ** Handlers that leave registry, trace and locks alone *)
Definition still {A} (m : M A) : Prop :=
  forall w, wp m (fun _ w' => sv_mgr w' = sv_mgr w /\ sv_trace w' = sv_trace w /\ sv_locks w' = sv_locks w) w.

Lemma still_bind {A B} (m : M A) (k : A -> M B) : still m -> (forall a, still (k a)) -> still (bind m k).
Proof.
  intros Hm Hk w. apply wp_bind. eapply wp_mono; [apply Hm|]. intros a w1 (A1 & A2 & A3).
  eapply wp_mono; [apply Hk|]. intros b w2 (B1 & B2 & B3). split_and!; congruence.
Qed.

Lemma still_over_ids {A} (f : Manager -> list (string * ptr) -> A) : still (over_ids E f).
Proof. done. Qed.

Lemma still_count f : still (count f).
Proof. done. Qed.

Lemma still_releaseIP_ id : still (releaseIP_ id).
Proof.
  intros w. unfold releaseIP_, releaseIP, wp, bind, gets, modify, ret. destruct (sv_ipam w); [|done].
  by destruct (Release _ _).
Qed.

Lemma still_validate s : still (validatePostActivation E s).
Proof. unfold validatePostActivation. destruct (negb _); [done|]. by apply still_bind. Qed.

Lemma wp_still {A} (m : M A) L N id os h al w (Q : A -> Service -> Prop) :
  still m -> Flight L N id os h al w ->
  (forall a w', Flight L N id os h al w' -> sv_mgr w' = sv_mgr w -> sv_trace w' = sv_trace w -> Q a w') -> wp m Q w.
Proof.
  intros Hm [F1 F5 F2 F3 F4 F6] HQ. eapply wp_mono; [apply Hm|]. intros a w' (A1 & A2 & A3).
  assert (S : step None w w').
  { split; rewrite ?A1; try done; [apply F1|..]; unfold get; intros; by rewrite ?A1, ?A2. }
  pose proof (step_weaken (Some id) _ _ S) as S'. apply HQ; [|done|done].
  split; [by eapply Inv_step|by eapply step_trans|unfold get in *; by rewrite A1|intros r; by rewrite A2| |by rewrite A2].
  intros Ha s Hs. by apply (alone_step w w' id s s S'); [|apply F4].
Qed.

(** Acquiring and releasing a resource for the session in flight. *)
Lemma Flight_emit L N id os h al w w' e h' :
  Flight L N id os h al w -> sv_mgr w' = sv_mgr w -> sv_locks w' = sv_locks w ->
  sv_trace w' = e :: sv_trace w -> (forall r k, k <> id -> settles e r k = None) ->
  (forall r, h' r = match settles e r id with Some b => b | None => h r end) ->
  (forall T k, k <> id -> set_tunnel e T !! k = T !! k) -> tidy_event (tunnels (sv_trace w)) e ->
  (forall s s0, os = Some s -> set_tunnel e (tunnels (sv_trace w)) !! id = Some s0 -> tunnel s0 = tunnel s) ->
  Flight L N id os h' al w'.
Proof.
  intros [F1 F5 F2 F3 F4 F6] Hm Hl Ht He Hh Hk Hy Hu.
  assert (S : step (Some id) w w').
  { split; rewrite ?Hm; try done; [apply F1| | | |].
    - intros k _. unfold get. by rewrite Hm.
    - intros r k Hr%outside_Some. rewrite Ht. cbn [holds]. by rewrite He.
    - intros k Hr%outside_Some. rewrite Ht. by apply Hk.
    - intros T. rewrite Ht. by split. }
  split; [by eapply Inv_step|by eapply step_trans|unfold get in *; by rewrite Hm| | |by rewrite Ht].
  - intros r. rewrite Ht. cbn [holds]. rewrite Hh. by destruct (settles e r id).
  - intros Ha s Hs. by apply (alone_step w w' id s s S); [|apply F4].
Qed.

Lemma settles_add_other r s ok r' k : k <> s_ID s -> settles (EvAdd r s ok) r' k = None.
Proof. intros Hk. cbn. rewrite bool_decide_false; [done|]. intros (_ & H & _). congruence. Qed.

Lemma settles_remove_other r s ok r' k : k <> s_ID s -> settles (EvRemove r s ok) r' k = None.
Proof. intros Hk. cbn. rewrite bool_decide_false; [done|]. intros (_ & H). congruence. Qed.

Lemma settles_add r s (ok : bool) (h : resource -> bool) r' :
  (if ok then set_held h r true else h) r' =
  match settles (EvAdd r s ok) r' (s_ID s) with Some b => b | None => h r' end.
Proof.
  cbn. unfold set_held. destruct ok; [|rewrite bool_decide_false; [done|naive_solver]].
  case_decide as Hr; [rewrite bool_decide_true by naive_solver|rewrite bool_decide_false by naive_solver]; done.
Qed.

Lemma settles_remove r s (ok : bool) (h : resource -> bool) r' :
  set_held h r false r' =
  match settles (EvRemove r s ok) r' (s_ID s) with Some b => b | None => h r' end.
Proof.
  cbn. unfold set_held. case_decide as Hr; [rewrite bool_decide_true by naive_solver|rewrite bool_decide_false by naive_solver]; done.
Qed.

Lemma wp_acquire r L N id os h al sess w (Q : option gerr -> Service -> Prop) :
  Flight L N id os h al w -> s_ID sess = id ->
  (r = RUser -> h RUser = false /\ forall s, os = Some s -> tunnel sess = tunnel s) ->
  (forall e w', Flight L N id os (if match e with None => true | Some _ => false end then set_held h r true else h) al w' ->
     Q e w') -> wp (acquire E r sess) Q w.
Proof.
  intros HF Hid Hu HQ. unfold acquire, wp, bind, ask, emit, modify, ret. apply HQ.
  eapply Flight_emit; [exact HF|done|done|done| | | | |].
  - intros r' k Hk. apply settles_add_other. congruence.
  - intros r'. rewrite <- Hid. apply settles_add.
  - intros T k Hk. apply set_tunnel_add_other. congruence.
  - destruct r; try done. apply no_tunnel. rewrite Hid, (fl_holds _ _ _ _ _ _ _ HF). by apply Hu.
  - intros s s0 Hs H0. destruct r; [..|destruct (v_add E _ RUser sess)|]; try (by eapply (fl_tunnel _ _ _ _ _ _ _ HF)).
    cbn in H0. rewrite Hid, lookup_insert_eq in H0. injection H0 as <-. by apply Hu.
Qed.

Lemma wp_create L N id os h al sess w (Q : result (option CreateSessionResult) gerr -> Service -> Prop) :
  Flight L N id os h al w -> s_ID sess = id ->
  (forall res w', Flight L N id os (if is_ok res then set_held h RPGW true else h) al w' -> Q res w') ->
  wp (pgw_create E sess) Q w.
Proof.
  intros HF Hid HQ. unfold pgw_create, wp, bind, ask, emit, modify, ret. apply HQ.
  eapply Flight_emit; [exact HF|done|done|done| | | |done|apply HF].
  - intros r' k Hk. apply settles_add_other. congruence.
  - intros r'. rewrite <- Hid. apply settles_add.
  - intros T k Hk. apply set_tunnel_add_other. congruence.
Qed.

(** What is given back to the user plane: the tunnel of the session in flight,
    or a session that has none. *)
Definition gives_back (os : option Session) (h : resource -> bool) (sess : Session) : Prop :=
  (exists s, os = Some s /\ tunnel sess = tunnel s) /\ (h RUser = false -> blank sess).

Lemma wp_release r L N id os h al sess w (Q : option gerr -> Service -> Prop) :
  Flight L N id os h al w -> s_ID sess = id -> (r = RUser -> gives_back os h sess) ->
  (forall e w', Flight L N id os (set_held h r false) al w' -> Q e w') -> wp (release E r sess) Q w.
Proof.
  intros HF Hid Hu HQ. unfold release, wp, bind, ask, emit, modify, ret. apply HQ.
  eapply Flight_emit; [exact HF|done|done|done| | | | |].
  - intros r' k Hk. apply settles_remove_other. congruence.
  - intros r'. rewrite <- Hid. apply settles_remove.
  - intros T k Hk. apply set_tunnel_remove_other. congruence.
  - destruct r; try done. destruct (Hu eq_refl) as ((s & -> & Ht) & Hb). cbn [tidy_event]. rewrite Hid.
    destruct (tunnels _ !! id) as [s0|] eqn:E0; [rewrite Ht; symmetry; by apply (fl_tunnel _ _ _ _ _ _ _ HF)|].
    apply Hb. rewrite <- (fl_holds _ _ _ _ _ _ _ HF RUser). apply not_true_is_false. intros [? ?]%tunnels_holds. congruence.
  - intros s s0 Hs H0. destruct r; try (by eapply (fl_tunnel _ _ _ _ _ _ _ HF)).
    cbn in H0. by rewrite Hid, lookup_delete_eq in H0.
Qed.

Lemma wp_release_ r L N id os h al sess w (Q : unit -> Service -> Prop) :
  Flight L N id os h al w -> s_ID sess = id -> (r = RUser -> gives_back os h sess) ->
  (forall w', Flight L N id os (set_held h r false) al w' -> Q tt w') -> wp (release_ E r sess) Q w.
Proof. intros HF Hid Hu HQ. apply wp_bind. eapply wp_release; [done..|]. intros e w' F. by apply HQ. Qed.

(** An undo removes the user plane binding only when there is one. *)
Fixpoint undo_held (h : resource -> bool) (rs : list resource) : Prop :=
  match rs with [] => True | r :: rs => (r = RUser -> h RUser = true) /\ undo_held (set_held h r false) rs end.

(** Undoing the resources of a list. *)
Lemma wp_undo rs L N id os h al sess w (Q : unit -> Service -> Prop) :
  Flight L N id os h al w -> s_ID sess = id ->
  (exists s, os = Some s /\ tunnel sess = tunnel s) -> undo_held h rs ->
  (forall w', Flight L N id os (fold_left (fun h r => set_held h r false) rs h) al w' -> Q tt w') ->
  wp (undo E rs sess) Q w.
Proof.
  intros HF Hid Hs Hu HQ. revert h w HF Hu HQ. induction rs as [|r rs IH]; intros h w HF Hu HQ; cbn [undo fold_right].
  - eapply wp_still; [apply still_releaseIP_|exact HF|]. intros [] w' F _ _. by apply HQ.
  - destruct Hu as [Hr Hu]. apply wp_bind.
    eapply wp_release_; [done|done|intros ->; split; [done|by rewrite Hr]|]. intros w' F. by apply (IH (set_held h r false)).
Qed.

(** ** Detach *)
Lemma wp_delete L N id s h al w (Q : option Session -> Service -> Prop) :
  Flight L N id (Some s) h al w -> s_State s = State.Terminating ->
  (forall x w', Flight L N id None h al w' -> s_ID x = s_ID s -> Q (Some x) w') ->
  wp (at_now E (fun m => Delete m id)) Q w.
Proof.
  intros [F1 F5 F2 F3 F4 F6] Hst HQ. unfold at_now, now, wp, bind, ask, on_mgr. cbn.
  destruct (Delete_spec (sv_mgr w) (inv_mgr _ _ _ _ F1) id (v_now E (sv_questions w)) s F2 Hst) as (H1 & H2 & H3 & H4).
  destruct (Delete (sv_mgr w) id _) as [m' r]. cbn in *. subst r.
  set (w' := w <| sv_questions ::= S |> <| sv_mgr := m' |>).
  assert (S' : step (Some id) w w').
  { split; try done. intros k Hk%outside_Some. unfold get. cbn. by rewrite H4, decide_False. }
  apply HQ; [|done].
  split; [by eapply Inv_step|by eapply step_trans|unfold get; cbn; by rewrite H4, decide_True|exact F3|done|done].
Qed.

(** Everything a session in flight can hold is present. *)
Definition within (h : resource -> bool) : Prop := forall r, h r = true -> present E r = true.

Lemma wp_release_if (b : bool) r L N id os h al sess w (Q : option gerr -> Service -> Prop) :
  Flight L N id os h al w -> s_ID sess = id -> (b = false -> h r = false) ->
  (b = true -> r = RUser -> gives_back os h sess) ->
  (forall e w', Flight L N id os (set_held h r false) al w' -> Q e w') ->
  wp (if b then release E r sess else ret None) Q w.
Proof.
  intros HF Hid Hb Hu HQ. destruct b; [eapply wp_release; [done|done|by apply Hu|done]|].
  apply HQ. destruct HF as [F1 F5 F2 F3 F4 F6].
  split; try done. intros r'. rewrite F3. unfold set_held. case_decide as Hr; [|done]. subst. by apply Hb.
Qed.

Lemma can_live st : is_live st = true -> validTransition st State.Terminating = true.
Proof. by destruct st. Qed.

Lemma wp_detach_flight L N id s h al sess w (Q : option DetachResponse * option gerr -> Service -> Prop) :
  Flight L N id (Some s) h al w -> s_ID sess = id -> s_ID s = id -> within h ->
  validTransition (s_State s) State.Terminating = true ->
  (v_user E = true -> h RUser = false -> blank s) ->
  (forall r w', Inv L N None w' -> step (Some id) w0 w' -> get w' id = None -> Q r w') ->
  wp (detachSessionLocked E sess) Q w.
Proof.
  intros HF Hid Hs Hw Hv Hb HQ. unfold detachSessionLocked. apply wp_bind.
  eapply (wp_session_op _ _ _ L N id s h al); [intros m t Hm; rewrite Hid; by apply MarkTerminating_spec|done|done|done|done|].
  intros t w1 F1. cbv beta in F1 |- *.
  set (s1 := s <| s_State := State.Terminating |> <| s_UpdatedAt := t |>) in *.
  assert (Hs1 : s_ID s1 = id) by exact Hs.
  apply wp_bind. eapply wp_release; [exact F1|done|done|]. intros e1 w2 F2.
  apply wp_bind. eapply wp_release; [exact F2|done|done|]. intros e2 w3 F3.
  apply wp_bind. eapply wp_release_if; [exact F3|done| |intros Hu _; split; [by exists s1|by apply Hb]|].
  { intros Hu. unfold set_held. repeat case_decide; try done. destruct (h RUser) eqn:Eh; [|done].
    apply Hw in Eh. cbn in Eh. congruence. }
  intros e3 w4 F4. apply wp_bind. eapply wp_release_if; [exact F4|done| |done|].
  { intros Hu. unfold set_held. repeat case_decide; try done. destruct (h RAccess) eqn:Eh; [|done].
    apply Hw in Eh. cbn in Eh. congruence. }
  intros e4 w5 F5. apply wp_bind.
  assert (Hst : still (releaseIP (s_ID s1))).
  { intros w'. unfold releaseIP, wp, bind, gets, modify, ret. destruct (sv_ipam w'); [|done].
    by destruct (Release _ _). }
  eapply wp_still; [exact Hst|exact F5|]. intros [b e5] w6 F6 _ _.
  apply wp_bind. rewrite Hs1. eapply wp_delete; [exact F6|done|]. intros x w7 F7 _. apply wp_ret.
  apply HQ; [|apply F7..]. apply (land _ _ _ _ _ _ _ F7). intros r. unfold set_held.
  destruct r; repeat case_decide; done.
Qed.

End flight.

(** A detach from a settled state. *)
Lemma wp_detach L N sess w (Q : option DetachResponse * option gerr -> Service -> Prop) :
  Inv L N None w ->
  (forall r w', Inv L N None w' -> step (Some (s_ID sess)) w w' ->
     (get w' (s_ID sess) = None \/ core <$> get w' (s_ID sess) = core <$> get w (s_ID sess)) -> Q r w') ->
  wp (detachSessionLocked E sess) Q w.
Proof.
  intros HI HQ. destruct (get w (s_ID sess)) as [s|] eqn:Hs.
  - destruct (validTransition (s_State s) State.Terminating) eqn:Hv.
    + assert (Hsid : s_ID s = s_ID sess) by (eapply Get_ID; [apply HI|exact Hs]).
      destruct (is_live (s_State s)) eqn:El.
      * eapply wp_detach_flight; [by apply (take_off_live w); [apply step_refl, HI|..]|done|done|by intros r|done|cbn; congruence|].
        intros r w' HI' HS' Hg.
        apply HQ; [done|done|by left].
      * eapply wp_detach_flight; [by apply (take_off w); [apply step_refl, HI|..]|done|done|by intros r|done
          |intros _ _; by apply (inv_blank _ _ _ _ HI (s_ID sess))|].
        intros r w' HI' HS' Hg.
        apply HQ; [done|done|by left].
    + unfold detachSessionLocked. apply wp_bind.
      eapply wp_session_op_err; [intros m t Hm; by apply MarkTerminating_spec|done| |].
      { intros s' Hs'. rewrite Hs in Hs'. injection Hs' as <-. by rewrite Hv. }
      intros e w' HI' S' _. apply wp_ret, HQ; [done|by apply step_weaken|]. right. rewrite <- Hs. by apply S'.
  - unfold detachSessionLocked. apply wp_bind.
    eapply wp_session_op_err; [intros m t Hm; by apply MarkTerminating_spec|done|congruence|].
    intros e w' HI' S' _. apply wp_ret, HQ; [done|by apply step_weaken|]. right. rewrite <- Hs. by apply S'.
Qed.

(** ** Activation *)

(** What an activation leaves: an active session and its response, or an
    error and a session that is not live. *)
Definition act_post (id : string) (r : option AttachResponse * option gerr) (w : Service) : Prop :=
  match r with
  | (_, Some _) => forall s, get w id = Some s -> is_live (s_State s) = false
  | (Some resp, None) =>
    exists s, get w id = Some s /\ s_State s = State.Active /\ resp = responseFromSession s
  | (None, None) => False
  end.

Definition landing (w0 : Service) L N id (Q : option AttachResponse * option gerr -> Service -> Prop) : Prop :=
  forall r w', Inv L N None w' -> step (Some id) w0 w' -> act_post id r w' -> Q r w'.

(** What the environment owes: the deployment has an access binder only
    together with a user plane, the PGW assigns the addresses, the AAA
    provider returns a result when it returns no error, and the order of a map
    iteration lists the map's entries. *)
Record env_ok : Prop := {
  eo_gtp : v_pgwIsGTP E = true;
  eo_access : v_access E = true -> v_user E = true;
  eo_auth : forall n q, fst (v_authenticate E n q) = None -> snd (v_authenticate E n q) <> None;
  eo_eap : forall n q, fst (v_exchangeEAP E n q) = None -> snd (v_exchangeEAP E n q) <> None;
  eo_ids : forall n m, v_ids E n m ≡ₚ map_to_list (byID m)
}.

Context (HE : env_ok).

Lemma wp_fail w0 L N id s h al w err Q :
  Flight w0 L N id (Some s) h al w -> (forall r, h r = false) ->
  validTransition (s_State s) State.Failed = true -> landing w0 L N id Q ->
  wp (fail_with E id err) Q w.
Proof.
  intros HF Hh Hv HQ. unfold fail_with. apply wp_bind.
  eapply (wp_session_op w0); [intros m t Hm; by apply MarkFailed_spec|exact HF|done|done|done|].
  intros t w1 F1. apply wp_ret, HQ; [|apply F1|].
  - apply (land _ _ _ _ _ _ _ _ F1). done.
  - cbn. intros s' Hs'. rewrite (fl_get _ _ _ _ _ _ _ _ F1) in Hs'. injection Hs' as <-. done.
Qed.

Lemma wp_undo_and_fail rs w0 L N id s h al sess w err Q :
  Flight w0 L N id (Some s) h al w -> s_ID sess = id -> tunnel sess = tunnel s -> undo_held h rs ->
  (forall r, fold_left (fun h r => set_held h r false) rs h r = false) ->
  validTransition (s_State s) State.Failed = true -> landing w0 L N id Q ->
  wp (undo_and_fail E rs sess err) Q w.
Proof.
  intros HF Hid Ht Hu Hh Hv HQ. unfold undo_and_fail. apply wp_bind.
  eapply wp_undo; [exact HF|done|by exists s|exact Hu|]. intros w' F'. rewrite Hid. by eapply wp_fail.
Qed.

(** The resources held before and after the access side is bound. *)
Definition before_access : resource -> bool := fun r =>
  match r with RAccess => false | r => present E r end.

Ltac held := intros r; unfold set_held, before_access, nothing; destruct r; cbn; repeat case_decide; try done; try congruence.

Lemma wp_activate_access w0 L N id s h w Q :
  Flight w0 L N id (Some s) h true w -> (forall r, h r = before_access r) -> s_ID s = id ->
  s_State s = State.Active -> s_SubscriberIP s <> [] -> landing w0 L N id Q ->
  wp (activate_access E s) Q w.
Proof.
  intros HF Hh Hid Hst Hip HQ. unfold activate_access. apply wp_bind.
  assert (Hend : forall h' w', Flight w0 L N id (Some s) h' true w' -> (forall r, h' r = present E r) ->
    wp (let* invalid := validatePostActivation E s in
        match invalid with
        | None => ret (Some (responseFromSession s), None)
        | Some err =>
          let action := pav_FailAction (lc_PostActivationValidation (cfg_Lifecycle (v_cfg E))) in
          if (String.eqb action "trigger_recovery" || String.eqb action "reject_access")%bool then
            let* _ := detachSessionLocked E s in ret (Some (responseFromSession s), Some err)
          else ret (Some (responseFromSession s), None)
        end) Q w').
  { intros h' w1 F1 Hh'. apply wp_bind. eapply wp_still; [apply still_validate|exact F1|].
    intros v w2 F2 _ _.
    assert (Hok : Q (Some (responseFromSession s), None) w2).
    { apply HQ; [|apply F2|].
      - apply (land _ _ _ _ _ _ _ _ F2). rewrite Hst. cbn. split_and!; [done|done|]. by apply F2.
      - exists s. by rewrite (fl_get _ _ _ _ _ _ _ _ F2). }
    destruct v as [err|]; [|done]. cbv zeta. destruct (_ || _)%bool; [|done].
    apply wp_bind. eapply wp_detach_flight; [exact F2|done|done| |by rewrite Hst| |].
    { intros r Hr. by rewrite Hh' in Hr. }
    { rewrite Hh'. cbn. congruence. }
    intros x w3 I3 S3 G3. apply wp_ret, HQ; [done|done|]. cbn. congruence. }
  destruct (v_access E) eqn:Ea.
  - pose proof (eo_access HE Ea) as Eu. eapply wp_acquire; [exact HF|done|done|]. intros e w1 F1. destruct e as [err|].
    + rewrite Eu.
      eapply wp_undo_and_fail; [exact F1|done|done| | |by rewrite Hst|done].
      { cbn. by rewrite Hh. }
      cbn. held; rewrite Hh; done.
    + eapply Hend; [exact F1|]. held; rewrite ?Hh; cbn; congruence.
  - apply wp_ret. eapply Hend; [exact HF|]. held; rewrite ?Hh; cbn; congruence.
Qed.

Lemma wp_activate_datapath w0 L N id s h w Q :
  Flight w0 L N id (Some s) h true w -> (forall r, h r = bool_decide (r = RPGW)) -> s_ID s = id ->
  s_State s = State.PGWPending -> landing w0 L N id Q ->
  wp (activate_datapath E s) Q w.
Proof.
  intros HF Hh Hid Hst HQ. unfold activate_datapath.
  destruct (negb (non_nil (s_SubscriberIP s))) eqn:Eip.
  { eapply wp_undo_and_fail; [exact HF|done|done|done| |by rewrite Hst|done]. cbn. held; rewrite Hh; done. }
  bools. apply non_nil_spec in Eip.
  apply wp_bind. eapply wp_acquire; [exact HF|done|done|]. intros e1 w1 F1. destruct e1 as [err|].
  { eapply wp_undo_and_fail; [exact F1|done|done|done| |by rewrite Hst|done]. cbn. held; rewrite Hh; done. }
  apply wp_bind.
  assert (Hend : forall h' w', Flight w0 L N id (Some s) h' true w' -> (forall r, h' r = before_access r) ->
    wp (let* r := session_op E (fun m => MarkActive m (s_ID s)) in
        match r with Err e => ret (None, Some e) | Ok active => activate_access E active end) Q w').
  { intros h' w2 F2 Hh'. apply wp_bind.
    eapply (wp_session_op w0); [intros m t Hm; rewrite Hid; by apply MarkActive_spec|exact F2|cbv beta; by rewrite Hst|done|done|].
    intros t w3 F3. eapply wp_activate_access; [exact F3|done|done|done|exact Eip|done]. }
  destruct (v_user E) eqn:Eu.
  - eapply wp_acquire; [exact F1|done| |].
    { intros _. split; [unfold set_held; by rewrite decide_False, Hh|by intros x [= <-]]. }
    intros e2 w2 F2. destruct e2 as [err|].
    + eapply wp_undo_and_fail; [exact F2|done|done|done| |by rewrite Hst|done]. cbn. held; rewrite Hh; done.
    + eapply Hend; [exact F2|]. held; rewrite ?Hh; cbn; done.
  - apply wp_ret. eapply Hend; [exact F1|]. held; rewrite ?Hh; cbn; done.
Qed.

Lemma wp_apply_pgw_result w0 L N id s h w res (Q : result Session gerr -> Service -> Prop) :
  Flight w0 L N id (Some s) h true w -> s_ID s = id -> h RUser = false ->
  (forall s' w', Flight w0 L N id (Some s') h true w' -> s_ID s' = id -> s_State s' = s_State s -> Q (Ok s') w') ->
  wp (apply_pgw_result E s res) Q w.
Proof.
  intros HF Hid Hu HQ. unfold apply_pgw_result. destruct res as [p|]; [|by apply wp_ret, HQ].
  apply wp_bind.
  assert (Hend : forall s1 w1, Flight w0 L N id (Some s1) h true w1 -> s_ID s1 = id -> s_State s1 = s_State s ->
    wp (if (non_nil (r_PGWControlIP p) || non_nil (r_PGWUserIP p) || negb (r_GTPCTEID p =? 0)
            || negb (r_LocalGTPUTEID p =? 0) || negb (r_RemoteGTPUTEID p =? 0))%bool
        then session_op E (fun m => ApplyPGWResult m (s_ID s1) (r_PGWControlIP p) (r_PGWUserIP p)
                                    (r_GTPCTEID p) (r_LocalGTPUTEID p) (r_RemoteGTPUTEID p))
        else ret (Ok s1)) Q w1).
  { intros s1 w1 F1 H1 H2. destruct (_ || _)%bool; [|by apply wp_ret, HQ].
    eapply (wp_session_op w0); [intros m t Hm; rewrite H1; by apply ApplyPGWResult_spec|exact F1|done|done|congruence|].
    intros t w2 F2. by apply HQ. }
  destruct (_ && _)%bool; [|by apply wp_ret, Hend].
  apply wp_bind. eapply wp_still; [|exact HF|].
  { destruct (non_nil (s_SubscriberIP s)); [apply still_releaseIP_|done]. }
  intros _ w1 F1 _ _.
  eapply (wp_session_op w0); [intros m t Hm; rewrite Hid; by apply UpdateSubscriberIP_spec|exact F1|done|done|congruence|].
  intros t w2 F2. by apply Hend.
Qed.

Lemma wp_activate_pgw w0 L N id s w Q :
  Flight w0 L N id (Some s) nothing true w -> s_ID s = id -> s_State s = State.PGWPending ->
  landing w0 L N id Q -> wp (activate_pgw E s) Q w.
Proof.
  intros HF Hid Hst HQ. unfold activate_pgw. apply wp_bind.
  eapply wp_create; [exact HF|done|]. intros [res|err] w1 F1.
  - apply wp_bind. eapply wp_apply_pgw_result; [exact F1|done|done|]. intros s' w2 F2 Hid' Hst'.
    eapply wp_activate_datapath; [exact F2| |done|congruence|done].
    intros r. cbn. unfold set_held, nothing. by destruct r.
  - apply wp_bind. eapply wp_still; [apply still_releaseIP_|exact F1|]. intros _ w2 F2 _ _.
    rewrite Hid. eapply wp_fail; [exact F2|done|by rewrite Hst|done].
Qed.

(** ** The overlap check *)
Lemma elem_of_filter_std {A} (f : A -> bool) l x : x ∈ List.filter f l <-> x ∈ l /\ f x = true.
Proof. by rewrite !list_elem_of_In, List.filter_In. Qed.

Lemma registered_sessions n m s :
  s ∈ map (fun '(_, l) => deref m l) (v_ids E n m) <-> exists k, Get m k = Some s.
Proof.
  rewrite list_elem_of_In, in_map_iff. unfold Get. split.
  - intros ([k l] & <- & Hin). apply list_elem_of_In in Hin. rewrite (eo_ids HE n m) in Hin.
    apply elem_of_map_to_list in Hin. exists k. by rewrite Hin.
  - intros (k & (l & Hl & ->)%fmap_Some). exists (k, l). split; [done|].
    apply list_elem_of_In. rewrite (eo_ids HE n m). by apply elem_of_map_to_list.
Qed.

Lemma same_user_candidate c s :
  same_user c s = true ->
  subscriberSame c s = true /\
  ((String.eqb (s_IMSI c) (s_IMSI s) && sameAPN (s_APN c) (s_APN s))%bool = true \/
   macMatches (s_MACAddress c) (s_MACAddress s) = true).
Proof.
  unfold same_user, compat, id. intros H.
  rewrite !andb_true_iff, orb_true_iff, !andb_true_iff, !negb_true_iff in H.
  destruct H as [[[H1 H2] H3] H4].
  unfold subscriberSame, EqualFold. rewrite H1, H2, H3. split.
  - apply orb_true_iff. rewrite !andb_true_iff. destruct H4 as [[[? ?] ?]|[Hm ?]]; [by left|right].
    split; [|done]. revert Hm. unfold macMatches. by destruct (nonempty (s_MACAddress c)).
  - rewrite andb_true_iff. destruct H4 as [[[? ?] ?]|[? ?]]; auto.
Qed.

Lemma macMatches_nonempty a b : macMatches a b = true -> nonempty b = true.
Proof. unfold macMatches. by destruct (nonempty a), (nonempty b). Qed.

(** The check finds a live session of the same subscriber, if there is one. *)
Lemma find_live_spec w sess :
  mgr_ok (sv_mgr w) ->
  wp (findLiveSessionDifferentFrom E sess)
    (fun r w' => sv_mgr w' = sv_mgr w /\ sv_trace w' = sv_trace w /\ sv_locks w' = sv_locks w /\
       (r = None <-> forall k c, get w k = Some c -> k <> s_ID sess -> isLivePGWOwner (s_State c) = true ->
          (String.eqb (s_IMSI c) (s_IMSI sess) && sameAPN (s_APN c) (s_APN sess))%bool = true \/
          macMatches (s_MACAddress c) (s_MACAddress sess) = true ->
          subscriberSame c sess = false)) w.
Proof.
  intros Hm. unfold findLiveSessionDifferentFrom, over_ids, wp, bind, gets, ask, ret. cbn.
  set (n := sv_questions w). set (p := fun c => (negb (String.eqb (s_ID c) (s_ID sess)) &&
    isLivePGWOwner (s_State c) && subscriberSame c sess)%bool).
  set (c1 := FindByIMSIAPN _ _ _ _).
  assert (Hgoal : forall c2, (forall x, x ∈ c2 <-> (exists k, get w k = Some x) /\
      macMatches (s_MACAddress x) (s_MACAddress sess) = true) ->
    (List.find p (c1 ++ c2)%list = None <-> forall k c, get w k = Some c -> k <> s_ID sess ->
       isLivePGWOwner (s_State c) = true ->
       (String.eqb (s_IMSI c) (s_IMSI sess) && sameAPN (s_APN c) (s_APN sess))%bool = true \/
       macMatches (s_MACAddress c) (s_MACAddress sess) = true -> subscriberSame c sess = false)).
  { intros c2 Hc2.
    assert (Hin : forall x, x ∈ (c1 ++ c2)%list <-> (exists k, get w k = Some x) /\
      ((String.eqb (s_IMSI x) (s_IMSI sess) && sameAPN (s_APN x) (s_APN sess))%bool = true \/
       macMatches (s_MACAddress x) (s_MACAddress sess) = true)).
    { intros x. rewrite elem_of_app, Hc2. unfold c1, FindByIMSIAPN.
      rewrite elem_of_filter_std, registered_sessions. unfold get. tauto. }
    split.
    - intros Hf k c Hc Hne Hl Hor. apply (List.find_none _ _) with (x := c) in Hf.
      + unfold p in Hf. rewrite Hl, (Get_ID _ Hm k c Hc) in Hf. rewrite (proj2 (String.eqb_neq _ _) Hne) in Hf. done.
      + apply list_elem_of_In, Hin. eauto.
    - intros Hall. destruct (List.find p _) as [c|] eqn:Ef; [|done]. apply List.find_some in Ef as [Hc Hp].
      apply list_elem_of_In, Hin in Hc as ((k & Hk) & Hor). unfold p in Hp. bools.
      rewrite (Hall k c) in *; try done. intros ->. by rewrite (Get_ID _ Hm _ _ Hk) in *. }
  destruct (nonempty (s_MACAddress sess)) eqn:En; (split; [done|split; [done|split; [done|]]]); apply Hgoal; intros x.
  - unfold FindByMAC. rewrite elem_of_filter_std, registered_sessions. done.
  - split; [by intros ?%elem_of_nil|]. intros [_ H%macMatches_nonempty]. congruence.
Qed.

(** A question that leaves registry, trace and locks alone leaves the flight. *)
Lemma Flight_same w0 L N id os h al w w' :
  Flight w0 L N id os h al w -> sv_mgr w' = sv_mgr w -> sv_trace w' = sv_trace w -> sv_locks w' = sv_locks w ->
  Flight w0 L N id os h al w'.
Proof.
  intros [G1 G2 G3 G4 G5 G6] M T K.
  assert (S : step None w w').
  { split; rewrite ?M; try done; [apply G1|..]; unfold get; intros; by rewrite ?M, ?T. }
  pose proof (step_weaken (Some id) _ _ S) as S'.
  split; [by eapply Inv_step|by eapply step_trans|unfold get in *; by rewrite M|intros r; by rewrite T| |by rewrite T].
  unfold alone, get in *. rewrite M. done.
Qed.

(** ** The whole activation *)
Lemma wp_activate L N sess auth w Q :
  Inv L N None w ->
  (forall s, get w (s_ID sess) = Some s -> s_State s = State.AuthPending) ->
  landing w L N (s_ID sess) Q -> wp (activateAuthorizedSession E sess auth) Q w.
Proof.
  intros HI Hpre HQ. unfold activateAuthorizedSession. apply wp_bind.
  destruct (get w (s_ID sess)) as [s|] eqn:Hs.
  2: { eapply wp_session_op_err; [intros m t Hm; by apply ApplyAuthResult_spec|done|congruence|].
       intros e w' HI' S' _. apply wp_ret, HQ; [done|by apply step_weaken|]. cbn. intros s Hs'.
       destruct (core_back _ _ _ _ (st_core _ _ _ S' (s_ID sess) ltac:(done)) Hs') as (s0 & H0 & _). congruence. }
  specialize (Hpre s eq_refl).
  assert (Hid : s_ID s = s_ID sess) by (eapply Get_ID; [apply HI|exact Hs]).
  assert (F0 : Flight w L N (s_ID sess) (Some s) nothing false w).
  { apply take_off; [apply step_refl, HI|done|done|by rewrite Hpre]. }
  eapply (wp_session_op w); [intros m t Hm; by apply ApplyAuthResult_spec|exact F0|cbv beta; by rewrite Hpre|done|done|].
  intros t w1 F1. match type of F1 with Flight _ _ _ _ (Some ?x) _ _ _ =>
    assert (Hid1 : s_ID x = s_ID sess); [|assert (Hst1 : s_State x = State.Authorized); [done|];
      revert F1 Hid1 Hst1; generalize x; intros s1 F1 Hid1 Hst1] end.
  { rewrite <- Hid. apply (auth_fields_keeps (au_IMSI auth) (au_MSISDN auth) (au_APN auth) (au_Reason auth) s). }
  apply wp_bind. unfold allocate_address. rewrite (eo_gtp HE). apply wp_ret.
  apply wp_bind. eapply (wp_session_op w); [intros m t' Hm; rewrite Hid1; by apply MarkPGWPending_spec|exact F1|cbv beta; by rewrite Hst1|done|done|].
  intros t' w2 F2. match type of F2 with Flight _ _ _ _ (Some ?x) _ _ _ =>
    assert (Hid2 : s_ID x = s_ID sess); [exact Hid1|assert (Hst2 : s_State x = State.PGWPending); [done|];
      revert F2 Hid2 Hst2; generalize x; intros s2 F2 Hid2 Hst2] end.
  apply wp_bind. eapply wp_mono; [apply find_live_spec, F2|]. intros live w3 (M3 & T3 & K3 & Hlive).
  assert (F3 : forall al, (al = true -> live = None) -> Flight w L N (s_ID sess) (Some s2) nothing al w3).
  { intros al Hal. destruct F2 as [G1 G2 G3 G4 G5 G6].
    assert (S : step None w2 w3).
    { split; rewrite ?M3; try done; [apply G1|..]; unfold get; intros; by rewrite ?M3, ?T3. }
    pose proof (step_weaken (Some (s_ID sess)) _ _ S) as S'.
    split; [by eapply Inv_step|by eapply step_trans|unfold get in *; by rewrite M3|intros r; by rewrite T3| |by rewrite T3].
    intros Ha x [= <-] k c Hk Hc Hl. pose proof (proj1 Hlive (Hal Ha)) as Hnone.
    destruct (same_user s2 c) eqn:Esu; [|done]. rewrite same_user_sym in Esu.
    apply same_user_candidate in Esu as [Esu Hor]. rewrite <- Esu.
    eapply Hnone; [unfold get in *; by rewrite <- M3|by rewrite Hid2| |exact Hor].
    by destruct (s_State c). }
  destruct live as [c|].
  - apply wp_bind. eapply wp_still; [apply still_count|by apply (F3 false)|]. intros _ w4 F4 _ _.
    apply wp_bind. eapply wp_still; [apply still_releaseIP_|exact F4|]. intros _ w5 F5 _ _.
    rewrite Hid2. eapply wp_fail; [exact F5|done|by rewrite Hst2|done].
  - eapply wp_activate_pgw; [by apply (F3 true)|done|done|done].
Qed.

(** ** Duplicate attaches *)
Lemma findBySubscriber_in m ord imsi mac apn act s :
  findBySubscriber m ord imsi mac apn act = Some s -> s ∈ map (fun '(_, l) => deref m l) ord.
Proof.
  induction ord as [|[k l] ord IH]; cbn [findBySubscriber map]; [done|].
  destruct (_ && _)%bool; [intros H; right; by apply IH|].
  destruct (negb _); [intros H; right; by apply IH|]. intros [= <-]. by left.
Qed.

Lemma find_existing_spec imsi mac apn w :
  mgr_ok (sv_mgr w) ->
  wp (findAttachExisting E imsi mac apn)
    (fun r w' => sv_mgr w' = sv_mgr w /\ sv_trace w' = sv_trace w /\ sv_locks w' = sv_locks w /\
       match r with Some s => get w (s_ID s) = Some s | None => True end) w.
Proof.
  intros Hm. unfold findAttachExisting, over_ids, wp, bind, gets, ask, ret. cbn.
  split; [done|split; [done|split; [done|]]].
  destruct (FindAnyBySubscriber _ _ _ _ _) as [s|] eqn:Ef; [|done]. destruct (_ || _)%bool; [done|].
  apply findBySubscriber_in, registered_sessions in Ef as (k & Hk).
  by rewrite (Get_ID _ Hm k s Hk).
Qed.

(** The pre-authorisation session of an attach, if it is still there. *)
Definition pre_auth (id : string) (w : Service) : Prop :=
  forall s, get w id = Some s -> s_State s = State.AuthPending.

Lemma pre_auth_step id k w w' :
  step (Some k) w w' -> (get w' k = None \/ core <$> get w' k = core <$> get w k) -> pre_auth id w -> pre_auth id w'.
Proof.
  intros S Hk Hp s Hs. assert (Hc : get w' id = None \/ core <$> get w' id = core <$> get w id).
  { destruct (decide (id = k)) as [->|Hne]; [done|]. right. by apply S, outside_Some. }
  destruct Hc as [Hc|Hc]; [congruence|]. destruct (core_back _ _ _ _ Hc Hs) as (s0 & H0 & Hcc).
  destruct (core_ident _ _ Hcc) as (_ & <- & _). by apply Hp.
Qed.

Lemma pre_auth_quiet id w w' : step None w w' -> pre_auth id w -> pre_auth id w'.
Proof. intros S. apply (pre_auth_step id id); [by apply step_weaken|right; by apply S]. Qed.

(** A response that describes an active session. *)
Definition good (resp : AttachResponse) (w : Service) : Prop :=
  exists s, get w (ar_SessionID resp) = Some s /\ s_State s = State.Active /\
    ar_SessionID resp = s_ID s /\ ar_State resp = State.Active /\ ar_IMSI resp = s_IMSI s /\
    ar_SubscriberIP resp = ipString (s_SubscriberIP s) /\ ar_APN resp = s_APN s.

Lemma good_response w s : get w (s_ID s) = Some s -> s_State s = State.Active -> good (responseFromSession s) w.
Proof. intros Hs Hst. exists s. by split_and!. Qed.

Lemma good_step resp w w' : step None w w' -> good resp w -> good resp w'.
Proof.
  intros S (s & Hs & Hst & R). destruct (core_forth w w' (ar_SessionID resp) s) as (s' & Hs' & Hc); [by apply S|done|].
  exists s'. unfold core in Hc. injection Hc as E1 E2 E3 E4 E5 E6. rewrite E1, E2, E4, E5, E6. done.
Qed.

Definition attach_post (r : option AttachResponse * option gerr) (w : Service) : Prop :=
  match r with
  | (Some resp, None) => good resp w
  | (None, None) => False
  | (_, Some _) => True
  end.

Lemma attach_post_step r w w' : step None w w' -> attach_post r w -> attach_post r w'.
Proof. intros S. destruct r as [[resp|] [e|]]; try done. by apply good_step. Qed.

Lemma wp_handleExisting L N ex req w (Q : option AttachResponse * bool * option gerr -> Service -> Prop) :
  Inv L N None w -> get w (s_ID ex) = Some ex ->
  (forall r w', Inv L N None w' -> (forall id, pre_auth id w -> pre_auth id w') ->
     match r with
     | (resp, false, None) => attach_post (resp, None) w'
     | (_, true, None) => True
     | (_, _, Some _) => True
     end -> Q r w') ->
  wp (handleExistingBeforeAttach E ex req) Q w.
Proof.
  intros HI Hex HQ. unfold handleExistingBeforeAttach.
  destruct (negb (isLivePGWOwner _)); [by apply wp_ret, HQ|].
  apply wp_bind. eapply Inv_quiet; [apply quiet_count|exact HI|]. intros _ w1 S1 I1.
  destruct (negb (shouldReplaceExisting E ex req)) eqn:Er.
  - apply wp_bind. eapply Inv_quiet; [apply quiet_count|exact I1|]. intros _ w2 S2 I2.
    assert (S12 : step None w w2) by (by eapply step_trans).
    apply wp_ret, HQ; [done|intros id; by apply pre_auth_quiet|]. cbn. apply (good_step _ w); [done|].
    apply good_response; [done|]. bools. unfold shouldReplaceExisting in Er.
    destruct (String.eqb _ "replace_existing"); [done|]. destruct (negb (State.eqb _ _)) eqn:Es; [done|].
    apply negb_false_iff in Es. by apply bool_decide_eq_true in Es.
  - apply wp_bind. eapply Inv_quiet; [apply quiet_count|exact I1|]. intros _ w2 S2 I2.
    assert (S12 : step None w w2) by (by eapply step_trans).
    apply wp_bind. unfold detachExistingBeforeAttach. apply wp_bind.
    eapply wp_detach; [exact I2|]. intros [d e] w3 I3 S3 G3.
    assert (Hpre : forall id, pre_auth id w -> pre_auth id w3).
    { intros id Hp. eapply pre_auth_step; [exact S3|exact G3|]. by eapply pre_auth_quiet. }
    apply wp_ret. destruct e as [e|]; [destruct (ge_contextNotFound e)|]; by apply wp_ret, HQ.
Qed.

Lemma wp_before_attach L N imsi mac apn req reuse recovering w
    (Q : option (option AttachResponse * option gerr) -> Service -> Prop) :
  Inv L N None w ->
  (forall w', Inv L N None w' -> (forall id, pre_auth id w -> pre_auth id w') -> wp reuse (fun _ w2 => Inv L N None w2 /\
     forall resp, good resp w' -> good resp w2) w') ->
  (forall r w', Inv L N None w' ->
     match r with Some x => attach_post x w' | None => forall id, pre_auth id w -> pre_auth id w' end -> Q r w') ->
  wp (before_attach E imsi mac apn req reuse recovering) Q w.
Proof.
  intros HI Hreuse HQ. unfold before_attach. apply wp_bind.
  eapply wp_mono; [apply find_existing_spec, HI|]. intros ex w1 (M1 & T1 & K1 & Hex).
  assert (S1 : step None w w1).
  { split; rewrite ?M1; try done; [apply HI|..]; unfold get; intros; by rewrite ?M1, ?T1. }
  assert (I1 : Inv L N None w1) by (by eapply Inv_step).
  destruct ex as [ex|]; [|apply wp_ret, HQ; [done|intros id; by apply pre_auth_quiet]].
  apply wp_bind. eapply wp_handleExisting; [exact I1|unfold get in *; by rewrite M1|].
  intros [[resp proceed] err] w2 I2 Hpre Hpost.
  destruct err as [e|]; [by apply wp_ret, HQ|]. destruct proceed.
  { apply wp_ret, HQ; [done|]. intros id Hp. apply Hpre. by eapply pre_auth_quiet. }
  apply wp_bind. eapply wp_mono.
  { apply (Hreuse w2 I2). intros id Hp. apply Hpre. by eapply pre_auth_quiet. }
  intros _ w3 [I3 H3].
  apply wp_bind. eapply Inv_quiet; [apply quiet_completeIf|exact I3|]. intros _ w4 S4 I4.
  apply wp_ret, HQ; [done|]. destruct resp as [resp|]; [|done]. cbn in *. apply (good_step _ w3); [done|]. by apply H3.
Qed.

Lemma wp_finish_attach L N sess auth req recovering w Q :
  Inv L N None w -> pre_auth (s_ID sess) w ->
  (forall r w', Inv L N None w' -> attach_post r w' -> Q r w') ->
  wp (finish_attach E sess auth req recovering) Q w.
Proof.
  intros HI Hp HQ. unfold finish_attach. apply wp_bind. eapply wp_activate; [done|exact Hp|].
  intros [resp err] w1 I1 S1 Hpost. destruct err as [e|]; [apply wp_ret, HQ; [done|by destruct resp]|].
  destruct resp as [resp|]; [|done]. destruct Hpost as (s & Hs & Hst & ->).
  assert (G1 : good (responseFromSession s) w1).
  { apply good_response; [|done]. by rewrite (Get_ID _ (inv_mgr _ _ _ _ I1) _ _ Hs). }
  apply wp_bind. eapply Inv_quiet; [apply quiet_completeIf|exact I1|]. intros _ w2 S2 I2.
  apply wp_bind. eapply Inv_quiet; [apply quiet_accept|exact I2|]. intros _ w3 S3 I3.
  apply wp_ret, HQ; [done|]. cbn. eapply good_step; [exact S3|]. by eapply good_step.
Qed.

(** ** Creation *)
Lemma new_session_blank id i t : blank (new_session id i t).
Proof. unfold new_session. by destruct (0 <? ci_TTL i). Qed.

Lemma wp_create_session L N i w (Q : Session -> Service -> Prop) :
  Inv L N None w -> N + 1 < 2 ^ 64 ->
  (forall s w', Inv L (N + 1) None w' -> get w' (s_ID s) = Some s -> s_State s = State.Pending -> Q s w') ->
  wp (at_now E (fun m => Create m i)) Q w.
Proof.
  intros [I1 I2 I3 I4 I5 I6 I7 I8 I9] HN HQ. unfold at_now, now, wp, bind, ask, on_mgr.
  change (sv_mgr (w <| sv_questions ::= S |>)) with (sv_mgr w). set (t := v_now E (sv_questions w)).
  destruct (Create_spec (sv_mgr w) I1 i t) as (H1 & H2 & [C1 C2 C3]); [lia|].
  destruct (Create (sv_mgr w) i t) as [m' s] eqn:Ec. cbn [fst snd] in *.
  set (w' := w <| sv_questions ::= S |> <| sv_mgr := m' |>).
  assert (Hget : forall k, get w' k = if decide (k = s_ID s) then Some s else get w k) by exact C3.
  assert (Hst : s_State s = State.Pending) by (rewrite H2; apply new_session_keys).
  apply HQ; [|by rewrite Hget, decide_True|done]. split; try done.
  - change (next m' <= N + 1). rewrite C2. cbn. lia.
  - intros r k Hk. change (sv_trace w') with (sv_trace w). rewrite I4 by done. rewrite Hget.
    case_decide as Ek; [|done]. subst k. unfold get at 1. rewrite H1. split; [by intros (_ & ? & ? & _)|].
    intros (_ & s' & [= <-] & Hl). by rewrite Hst in Hl.
  - intros k x Hk. rewrite Hget. case_decide as Ek; [|by apply I5]. intros [= <-] Hl. by rewrite Hst in Hl.
  - intros k1 k2 s1 s2 O1 O2 Hne. rewrite !Hget. case_decide; [|case_decide].
    + intros [= <-] _ Hl. by rewrite Hst in Hl.
    + intros _ [= <-] _ Hl. by rewrite Hst in Hl.
    + by apply I6.
  - intros k x s0 Hk. rewrite Hget. case_decide as Ek; [|by apply I8]. intros _ H0. subst k. exfalso.
    assert (Hh : holds (sv_trace w) RUser (s_ID s) = true) by by apply tunnels_holds; exists s0.
    apply I4 in Hh as (_ & x0 & Hx & _); [|done]. unfold get in Hx. by rewrite H1 in Hx.
  - intros k x Hk. rewrite Hget. case_decide as Ek; [|by apply I9]. intros [= <-] _ _. rewrite H2. apply new_session_blank.
Qed.

(** A session operation that keeps a session from being live. *)
Lemma wp_idle_op op f can L N id s w (Q : result Session gerr -> Service -> Prop) :
  (forall m t, mgr_ok m -> op_spec m id (op m t) (f t) can) ->
  Inv L N None w -> get w id = Some s -> is_live (s_State s) = false -> can s ->
  (forall t, is_live (s_State (f t s)) = false) ->
  (forall t, validTransition (s_State (f t s)) State.Terminating = true ->
     tunnel (f t s) = tunnel s /\ validTransition (s_State s) State.Terminating = true) ->
  (forall t w', Inv L N None w' -> get w' id = Some (f t s) -> step (Some id) w w' -> Q (Ok (f t s)) w') ->
  wp (session_op E op) Q w.
Proof.
  intros Hop HI Hs Hl Hc Hf Hb HQ.
  assert (F0 : Flight w L N id (Some s) nothing false w) by (apply take_off; [apply step_refl, HI|done..]).
  eapply (wp_session_op w); [exact Hop|exact F0|done|done|done|]. intros t w' F1.
  apply HQ; [|apply F1|apply F1]. apply (land _ _ _ _ _ _ _ _ F1). rewrite Hf. split; [done|].
  intros [Ht Hv]%Hb. unfold blank. rewrite Ht. by apply (inv_blank _ _ _ _ HI id).
Qed.

Lemma good_step_other id resp w w' :
  step (Some id) w w' -> pre_auth id w -> good resp w -> good resp w'.
Proof.
  intros S Hp (s & Hs & Hst & R).
  destruct (core_forth w w' (ar_SessionID resp) s) as (s' & Hs' & Hc); [|done|].
  { apply S, outside_Some. intros E0. rewrite E0 in Hs. apply Hp in Hs. congruence. }
  exists s'. unfold core in Hc. injection Hc as E1 E2 E3 E4 E5 E6. rewrite E1, E2, E4, E5, E6. done.
Qed.

Lemma wp_discard L N sess w (Q : unit -> Service -> Prop) :
  Inv L N None w -> pre_auth (s_ID sess) w ->
  (forall w', Inv L N None w' -> (forall resp, good resp w -> good resp w') -> Q tt w') ->
  wp (discardPreAuthSession E sess) Q w.
Proof.
  intros HI Hp HQ. unfold discardPreAuthSession. apply wp_bind.
  destruct (get w (s_ID sess)) as [s|] eqn:Hs.
  - assert (Hst : s_State s = State.AuthPending) by (by apply Hp).
    assert (Hid : s_ID s = s_ID sess) by (eapply Get_ID; [apply HI|exact Hs]).
    assert (F0 : Flight w L N (s_ID sess) (Some s) nothing false w)
      by (apply take_off; [apply step_refl, HI|done|done|by rewrite Hst]).
    eapply (wp_session_op w); [intros m t Hm; by apply MarkTerminating_spec|exact F0|cbv beta; by rewrite Hst|done|done|].
    intros t w1 F1. apply wp_bind. change (s_ID (s <| s_State := State.Terminating |> <| s_UpdatedAt := t |>)) with (s_ID s).
    rewrite Hid. eapply wp_delete; [exact F1|done|]. intros x w2 F2 _. apply wp_ret, HQ.
    + by apply (land _ _ _ _ _ _ _ _ F2).
    + intros resp. by apply (good_step_other (s_ID sess)); [apply F2|].
  - eapply wp_session_op_err; [intros m t Hm; by apply MarkTerminating_spec|done|congruence|].
    intros e w' HI' S' _. apply wp_ret, HQ; [done|]. intros resp. by apply good_step.
Qed.

(** ** Locks *)
Lemma Inv_relock L L' N X w w' :
  Inv L N X w -> sv_mgr w' = sv_mgr w -> (forall r k, holds (sv_trace w') r k = holds (sv_trace w) r k) ->
  sv_locks w' = L' -> tunnels (sv_trace w') = tunnels (sv_trace w) -> (tidy (sv_trace w) -> tidy (sv_trace w')) ->
  Inv L' N X w'.
Proof.
  intros [I1 I2 I3 I4 I5 I6 I7 I8 I9] Hm Ht Hl Hu Hy. unfold get in *.
  split; unfold get; rewrite ?Hm, ?Hu; try done; [|by apply Hy]. intros r k. rewrite Ht. apply I4.
Qed.

Lemma wp_lock L N key w (Q : option gerr -> Service -> Prop) :
  Inv L N None w ->
  (forall e w', sv_mgr w' = sv_mgr w ->
     match e with None => (key ∉ L) /\ Inv (key :: L) N None w' | Some _ => Inv L N None w' end -> Q e w') ->
  wp (lock E key) Q w.
Proof.
  intros HI HQ. unfold lock, wp, bind, gets, ask, ret, modify, emit. cbn.
  destruct (bool_decide (key ∈ sv_locks w)) eqn:Eb.
  { by apply HQ. }
  apply bool_decide_eq_false in Eb. rewrite (inv_locks _ _ _ _ HI) in Eb.
  destruct (v_lock E _ key) as [e|]; apply HQ; try done.
  - eapply Inv_relock; [exact HI|done|done|apply HI|done..].
  - split; [done|]. eapply Inv_relock; [exact HI|done|done| |done..]. cbn. by rewrite (inv_locks _ _ _ _ HI).
Qed.

Lemma filter_unlock key L : key ∉ L -> List.filter (fun k => negb (String.eqb k key)) (key :: L) = L.
Proof.
  intros Hk. cbn [List.filter]. rewrite String.eqb_refl. cbn [negb].
  induction L as [|k L IH]; [done|]. apply not_elem_of_cons in Hk as [Hne Hk]. cbn [List.filter].
  rewrite (proj2 (String.eqb_neq k key)) by congruence. cbn [negb]. by rewrite IH.
Qed.

Lemma wp_unlock L N key w (Q : unit -> Service -> Prop) :
  Inv (key :: L) N None w -> key ∉ L ->
  (forall w', sv_mgr w' = sv_mgr w -> Inv L N None w' -> Q tt w') -> wp (unlock key) Q w.
Proof.
  intros HI Hk HQ. unfold unlock, wp, bind, modify, emit. cbn. apply HQ; [done|].
  eapply Inv_relock; [exact HI|done|done| |done..]. cbn. rewrite (inv_locks _ _ _ _ HI). by apply filter_unlock.
Qed.

Lemma attach_post_same r w w' : sv_mgr w' = sv_mgr w -> attach_post r w -> attach_post r w'.
Proof. intros Hm. destruct r as [[resp|] [e|]]; try done. unfold attach_post, good, get. by rewrite Hm. Qed.

Lemma Inv_next L N N' X w : Inv L N X w -> N <= N' -> Inv L N' X w.
Proof. intros [I1 I2 I3 I4 I5 I6 I7 I8 I9] H. split; try done. lia. Qed.

(** ** The handlers *)
Definition kept L N (r : option AttachResponse * option gerr) (w : Service) : Prop :=
  Inv L N None w /\ attach_post r w.

(** [MarkAuthPending] of the session just created. *)
Lemma wp_auth_pending L N s w (Q : result Session gerr -> Service -> Prop) :
  Inv L N None w -> get w (s_ID s) = Some s -> s_State s = State.Pending ->
  (forall x w', Inv L N None w' -> pre_auth (s_ID s) w' -> Q (Ok x) w') ->
  wp (session_op E (fun m => MarkAuthPending m (s_ID s))) Q w.
Proof.
  intros HI Hs Hst HQ. eapply wp_idle_op; [intros m t Hm; by apply MarkAuthPending_spec|exact HI|exact Hs|by rewrite Hst| |done|by rewrite Hst|].
  { cbv beta. by rewrite Hst. }
  intros t w' I' G' _. apply HQ; [done|]. intros x Hx. rewrite G' in Hx. injection Hx as <-. done.
Qed.

Lemma wp_attach_authenticated L N req key sess auth recovering w :
  key ∉ L -> key = subscriberLockKey (q_IMSI req) (q_MACAddress req) (q_APN req) ->
  Inv (key :: L) N None w -> pre_auth (s_ID sess) w ->
  wp (attach_authenticated E req key sess auth recovering) (fun '(held, r) w' =>
    match held with Some k => (k ∉ L) /\ kept (k :: L) N r w' | None => kept L N r w' end) w.
Proof.
  intros Hk _ HI Hp. unfold attach_authenticated. destruct (String.eqb _ key).
  { apply wp_bind. eapply wp_finish_attach; [exact HI|exact Hp|]. intros r w1 I1 P1. by apply wp_ret. }
  apply wp_bind. eapply wp_unlock; [exact HI|exact Hk|]. intros w1 M1 I1.
  assert (Hp1 : pre_auth (s_ID sess) w1) by (unfold pre_auth, get in *; by rewrite M1).
  apply wp_bind. unfold lockSubscriber. eapply wp_lock; [exact I1|]. intros [e|] w2 M2 H2.
  { by apply wp_ret. }
  destruct H2 as [Hk2 I2]. assert (Hp2 : pre_auth (s_ID sess) w2) by (unfold pre_auth, get in *; by rewrite M2).
  apply wp_bind. eapply wp_before_attach; [exact I2| |].
  - intros w3 I3 H3. eapply wp_discard; [exact I3|by apply H3|]. intros w4 I4 H4. done.
  - intros [r|] w3 I3 H3; [by apply wp_ret|].
    apply wp_bind. eapply wp_finish_attach; [exact I3|by apply H3|]. intros r w4 I4 P4. by apply wp_ret.
Qed.

Lemma wp_attach_locked L N req key w :
  key ∉ L -> key = subscriberLockKey (q_IMSI req) (q_MACAddress req) (q_APN req) ->
  Inv (key :: L) N None w -> N + 1 < 2 ^ 64 ->
  wp (attach_locked E req key) (fun '(held, r) w' =>
    match held with Some k => (k ∉ L) /\ kept (k :: L) (N + 1) r w' | None => kept L (N + 1) r w' end) w.
Proof.
  intros Hk Ek HI HN. unfold attach_locked. apply wp_bind.
  eapply Inv_quiet; [apply quiet_logRecovery|exact HI|]. intros recovering w1 _ I1.
  apply wp_bind. eapply wp_before_attach; [exact I1|intros w' I' _; by apply wp_ret|].
  intros [r|] w2 I2 H2.
  { apply wp_ret. split; [done|]. split; [|done]. eapply Inv_next; [exact I2|lia]. }
  apply wp_bind. eapply wp_create_session; [exact I2|done|]. intros sess w3 I3 G3 St3.
  apply wp_bind. eapply wp_auth_pending; [exact I3|exact G3|exact St3|]. intros x w4 I4 P4.
  apply wp_bind. unfold wp at 1, ask.
  set (w5 := w4 <| sv_questions ::= S |>).
  set (q := mkAuthRequest _ _ _ _ _ _ _ _).
  assert (I5 : Inv (key :: L) (N + 1) None w5) by (eapply Inv_relock; [exact I4|done|done|apply I4|done..]).
  assert (P5 : pre_auth (s_ID sess) w5) by exact P4.
  pose proof (eo_auth HE (sv_questions w4) q) as Hauth.
  destruct (v_authenticate E (sv_questions w4) q) as [auth err]. cbn [fst snd] in Hauth.
  destruct err as [err|].
  - apply wp_bind.
    assert (Hend : forall r w', Inv (key :: L) (N + 1) None w' ->
      wp (ret (Some key, match r with
                         | Ok s => (Some (responseFromSession s), Some err)
                         | Err markErr => (None, Join [err; markErr])
                         end)) (fun '(held, r) w' =>
        match held with Some k => (k ∉ L) /\ kept (k :: L) (N + 1) r w' | None => kept L (N + 1) r w' end) w').
    { intros r w' I'. apply wp_ret. split; [done|]. by destruct r. }
    destruct (get w5 (s_ID sess)) as [s|] eqn:Hs.
    + eapply wp_idle_op; [intros m t Hm; by apply MarkFailed_spec|exact I5|exact Hs|by rewrite (P5 s Hs)| |done|done|].
      { cbv beta. by rewrite (P5 s Hs). }
      intros t w6 I6 _ _. by apply (Hend (Ok _)).
    + eapply wp_session_op_err; [intros m t Hm; by apply MarkFailed_spec|exact I5|congruence|].
      intros e w6 I6 _ _. by apply (Hend (Err _)).
  - destruct auth as [auth|]; [|by destruct Hauth]. by apply wp_attach_authenticated.
Qed.

Lemma wp_Attach L N req w :
  Inv L N None w -> N + 1 < 2 ^ 64 -> wp (Attach E req) (kept L (N + 1)) w.
Proof.
  intros HI HN. unfold Attach. apply wp_bind. unfold lockSubscriber. eapply wp_lock; [exact HI|].
  intros [e|] w1 _ H1.
  { apply wp_ret. split; [|done]. eapply Inv_next; [exact H1|lia]. }
  destruct H1 as [Hk I1]. apply wp_bind. eapply wp_mono; [by apply (wp_attach_locked L N)|].
  intros [held r] w2 H2. apply wp_bind. destruct held as [k|].
  - destruct H2 as [Hk2 [I2 P2]]. eapply wp_unlock; [exact I2|exact Hk2|]. intros w3 M3 I3.
    apply wp_ret. split; [done|]. by eapply attach_post_same.
  - apply wp_ret. by apply wp_ret.
Qed.

Lemma wp_with_lock {A} L N imsi mac apn (fail : gerr -> A) body w (P : A -> Service -> Prop) N' :
  Inv L N None w -> N <= N' ->
  (forall e w', Inv L N' None w' -> P (fail e) w') ->
  (forall w1, sv_mgr w1 = sv_mgr w -> forall key, key ∉ L -> Inv (key :: L) N None w1 ->
     wp body (fun r w' => Inv (key :: L) N' None w' /\ forall w'', sv_mgr w'' = sv_mgr w' -> Inv L N' None w'' -> P r w'') w1) ->
  wp (with_lock E imsi mac apn fail body) P w.
Proof.
  intros HI HN Hfail Hbody. unfold with_lock. apply wp_bind. unfold lockSubscriber.
  eapply wp_lock; [exact HI|]. intros [e|] w1 M1 H1.
  { apply wp_ret, Hfail. by eapply Inv_next. }
  destruct H1 as [Hk I1]. apply wp_bind. eapply wp_mono; [by apply Hbody|].
  intros r w2 [I2 H2]. apply wp_bind. eapply wp_unlock; [exact I2|exact Hk|]. intros w3 M3 I3.
  by apply wp_ret, H2.
Qed.

Lemma wp_attach_authorized_locked L N req auth w :
  Inv L N None w -> N + 1 < 2 ^ 64 -> wp (attach_authorized_locked E req auth) (kept L (N + 1)) w.
Proof.
  intros HI HN. unfold attach_authorized_locked. apply wp_bind.
  eapply Inv_quiet; [apply quiet_logRecovery|exact HI|]. intros recovering w1 _ I1.
  apply wp_bind. eapply wp_before_attach; [exact I1|intros w' I' _; by apply wp_ret|].
  intros [r|] w2 I2 H2.
  { apply wp_ret. split; [|done]. eapply Inv_next; [exact I2|lia]. }
  apply wp_bind. eapply wp_create_session; [exact I2|done|]. intros sess w3 I3 G3 St3.
  apply wp_bind. eapply wp_auth_pending; [exact I3|exact G3|exact St3|]. intros x w4 I4 P4.
  by eapply wp_finish_attach.
Qed.

Lemma wp_AttachAuthorized L N req auth w :
  Inv L N None w -> N + 1 < 2 ^ 64 -> wp (AttachAuthorized E req auth) (kept L (N + 1)) w.
Proof.
  intros HI HN. unfold AttachAuthorized. cbv zeta. destruct (negb _).
  { apply wp_ret. split; [|done]. eapply Inv_next; [exact HI|lia]. }
  eapply (wp_with_lock L N); [exact HI| |by intros e w' I'|]; [lia|].
  intros w1 _ key Hk I1. eapply wp_mono; [by apply wp_attach_authorized_locked|].
  intros r w2 [I2 P2]. split; [done|]. intros w3 M3 I3. split; [done|]. by eapply attach_post_same.
Qed.

(** What an EAP answer without an error says. *)
Definition eap_post (r : option EAPResponse * option gerr) (w : Service) : Prop :=
  match r with
  | (Some resp, None) =>
    pr_State resp = "challenge" \/
    (pr_State resp = "success" /\ exists s, get w (pr_SessionID resp) = Some s /\ s_State s = State.Active /\
       pr_SubscriberIP resp = ipString (s_SubscriberIP s) /\ s_SubscriberIP s <> [] /\
       pr_IMSI resp = s_IMSI s /\ pr_APN resp = s_APN s)
  | (None, None) => False
  | (_, Some _) => True
  end.

Lemma good_facts L N resp w :
  Inv L N None w -> good resp w ->
  ar_SessionID resp <> EmptyString /\
  exists s, get w (ar_SessionID resp) = Some s /\ s_State s = State.Active /\
    ar_SubscriberIP resp = ipString (s_SubscriberIP s) /\ s_SubscriberIP s <> [] /\
    ar_IMSI resp = s_IMSI s /\ ar_APN resp = s_APN s.
Proof.
  intros HI (s & Hs & Hst & R1 & R2 & R3 & R4 & R5).
  assert (Hid : ar_SessionID resp <> EmptyString).
  { rewrite R1. destruct (Get_live _ (inv_mgr _ _ _ _ HI) _ _ Hs) as (l & _ & Hl & _).
    destruct (inv_mgr _ _ _ _ HI) as (_ & [_ Hids] & _). destruct (Hids l s Hl) as (t & n & _ & ->). done. }
  split; [done|]. exists s. split_and!; try done.
  apply (inv_ip _ _ _ _ HI (ar_SessionID resp)); [done|done|by rewrite Hst].
Qed.

Lemma wp_ExchangeEAP L N req w :
  Inv L N None w -> N + 1 < 2 ^ 64 ->
  wp (ExchangeEAP E req) (fun r w' => Inv L (N + 1) None w' /\ eap_post r w') w.
Proof.
  intros HI HN. unfold ExchangeEAP. cbv zeta. set (rq := eapWithDefaults E req). apply wp_bind.
  unfold wp at 1, ask. set (w1 := w <| sv_questions ::= S |>). set (q := mkAAAEAPRequest _ _ _ _ _ _ _ _).
  assert (I1 : Inv L N None w1) by (eapply Inv_relock; [exact HI|done|done|apply HI|done..]).
  assert (I1' : Inv L (N + 1) None w1) by (eapply Inv_next; [exact I1|lia]).
  pose proof (eo_eap HE (sv_questions w) q) as Hq. destruct (v_exchangeEAP E (sv_questions w) q) as [res err].
  cbn [fst snd] in Hq. destruct res as [res|].
  2: { destruct err as [e|]; [by apply wp_ret|by destruct Hq]. }
  case_bool_decide as Hc.
  { apply wp_ret. split; [done|]. left. cbn. by rewrite Hc. }
  destruct err as [e|]; [by apply wp_ret|]. destruct (_ || _)%bool; [by apply wp_ret|].
  apply wp_bind. eapply wp_mono; [by apply (wp_AttachAuthorized L N)|]. intros [a e] w2 [I2 P2].
  destruct e as [e|]; [by apply wp_ret|]. destruct a as [a|]; [|done]. cbn in P2.
  destruct (good_facts _ _ _ _ I2 P2) as (Hid & s & Hs & Hst & Hip & Hne & Him & Hap).
  apply wp_ret. split; [done|]. right. cbn [pr_State pr_SessionID pr_SubscriberIP pr_IMSI pr_APN]. split; [done|].
  exists s. assert (Eid : coalesce [ar_SessionID a; er_SessionID res] = ar_SessionID a).
  { cbn. by rewrite (proj2 (nonempty_spec _) Hid). }
  by rewrite Eid.
Qed.

(** ** Release handlers *)
Lemma wp_detach_inv L N sess w : Inv L N None w -> wp (detachSessionLocked E sess) (fun _ w' => Inv L N None w') w.
Proof. intros HI. by eapply wp_detach; [exact HI|]. Qed.

Lemma wp_Detach L N req w : Inv L N None w -> wp (Detach E req) (fun _ w' => Inv L N None w') w.
Proof.
  intros HI. unfold Detach. apply wp_bind. unfold findDetachSession. apply wp_bind, wp_gets, wp_ret.
  destruct (if (_ && _ && _)%bool then _ else _) as [sess|e]; [|by apply wp_ret].
  apply (wp_with_lock L N) with (N' := N); [exact HI|lia|done|].
  intros w1 _ key Hk I1. eapply wp_mono; [by apply wp_detach_inv|]. intros r w2 I2. split; [done|]. by intros.
Qed.

Lemma wp_shutdown_loop L N ss w : Inv L N None w -> wp (shutdown_loop E ss) (fun _ w' => Inv L N None w') w.
Proof.
  revert w. induction ss as [|s ss IH]; intros w HI; cbn [shutdown_loop]; [done|].
  destruct (negb _); [by apply IH|]. apply wp_bind. eapply wp_mono; [by apply wp_Detach|].
  intros [d e] w1 I1. apply wp_bind. eapply wp_mono; [by apply IH|]. intros errs w2 I2. by apply wp_ret.
Qed.

Lemma wp_Shutdown L N w : Inv L N None w -> wp (Shutdown E) (fun _ w' => Inv L N None w') w.
Proof.
  intros HI. unfold Shutdown. apply wp_bind. eapply Inv_quiet; [apply quiet_over_ids|exact HI|].
  intros ss w1 _ I1. apply wp_bind. eapply wp_mono; [by apply wp_shutdown_loop|]. intros errs w2 I2. by apply wp_ret.
Qed.

(** [MarkRecovering] keeps the invariant: the session stays live. *)
Lemma wp_mark_recovering L N s reason w (Q : Session -> Service -> Prop) :
  Inv L N None w -> get w (s_ID s) = Some s -> s_State s = State.Active ->
  (forall x w', Inv L N None w' -> Q x w') -> wp (mark_recovering E s reason) Q w.
Proof.
  intros HI Hs Hst HQ. unfold mark_recovering. apply wp_bind.
  assert (F0 : Flight w L N (s_ID s) (Some s) (present E) true w).
  { destruct (take_off_live w L N w (s_ID s) s) as [G1 G2 G3 G4 _ G6];
      [apply step_refl, HI|exact HI|done|by rewrite Hst|].
    split; try done. intros _ x [= <-] k c Hk Hc Hl.
    apply (inv_one _ _ _ _ HI (s_ID s) k); try done. by rewrite Hst. }
  eapply (wp_session_op w); [intros m t Hm; by apply MarkRecovering_spec|exact F0|cbv beta; by rewrite Hst|done|done|].
  intros t w1 F1. apply wp_ret, HQ. apply (land _ _ _ _ _ _ _ _ F1). cbn. split_and!.
  - done.
  - apply (inv_ip _ _ _ _ HI (s_ID s)); [done|done|by rewrite Hst].
  - exact (fl_alone _ _ _ _ _ _ _ _ F1 eq_refl _ eq_refl).
Qed.

Lemma wp_gtpu_error_locked L N teid sess w :
  Inv L N None w -> wp (gtpu_error_locked E teid sess) (fun _ w' => Inv L N None w') w.
Proof.
  intros HI. unfold gtpu_error_locked. apply wp_bind, wp_gets.
  destruct (Get (sv_mgr w) (s_ID sess)) as [latest|] eqn:Hg; [|done].
  destruct (negb _) eqn:Es; [done|]. apply negb_false_iff, bool_decide_eq_true in Es. cbv zeta.
  assert (Hid : s_ID latest = s_ID sess) by (eapply Get_ID; [apply HI|exact Hg]).
  apply wp_bind. eapply wp_mark_recovering; [exact HI|unfold get; by rewrite Hid|done|]. intros s w1 I1.
  apply wp_bind. eapply Inv_quiet; [apply quiet_when, quiet_tombstone_and_disconnect|exact I1|]. intros _ w2 _ I2.
  apply wp_bind. eapply wp_mono; [by apply wp_detach_inv|]. intros [d e] w3 I3. by apply wp_ret.
Qed.

Lemma wp_HandleGTPUErrorIndication L N teid w :
  Inv L N None w -> wp (HandleGTPUErrorIndication E teid) (fun _ w' => Inv L N None w') w.
Proof.
  intros HI. unfold HandleGTPUErrorIndication. destruct (teid =? 0); [done|].
  apply wp_bind. eapply Inv_quiet; [apply quiet_over_ids|exact HI|]. intros found w1 _ I1.
  destruct found as [sess|]; [|by apply wp_ret].
  apply wp_bind. eapply Inv_quiet; [apply quiet_ask|exact I1|]. intros t w2 _ I2.
  apply wp_bind. eapply Inv_quiet; [apply quiet_gtpu_error|exact I2|]. intros u w3 _ I3. cbv zeta.
  destruct (negb _); [by apply wp_ret|].
  apply (wp_with_lock L N) with (N' := N); [exact I3|lia|done|]. intros w4 _ key Hk I4.
  eapply wp_mono; [by apply wp_gtpu_error_locked|]. intros r w5 I5. split; [done|]. by intros.
Qed.

Lemma look_get w k l : mgr_ok (sv_mgr w) -> look (sv_mgr w) k = Some l ->
  get w (s_ID (deref (sv_mgr w) l)) = Some (deref (sv_mgr w) l).
Proof. intros Hm Hk. by destruct (look_Get (sv_mgr w) k l (proj1 Hm) Hk). Qed.

Lemma wp_HandlePGWInitiatedDelete L N teid w :
  Inv L N None w -> wp (HandlePGWInitiatedDelete E teid) (fun _ w' => Inv L N None w') w.
Proof.
  intros HI. unfold HandlePGWInitiatedDelete. apply wp_bind, wp_gets.
  destruct (LookupByTEID (sv_mgr w) teid) as [sess|] eqn:Hl; [|by apply wp_ret].
  destruct (negb _) eqn:Es; [by apply wp_ret|]. apply negb_false_iff, bool_decide_eq_true in Es. cbv zeta.
  unfold LookupByTEID in Hl. apply fmap_Some in Hl as (l & Hl & ->).
  apply wp_bind. eapply wp_mark_recovering; [exact HI|apply (look_get w (KTEID teid)); [apply HI|done]|done|].
  intros s w1 I1. apply wp_bind.
  eapply Inv_quiet; [apply quiet_when, quiet_tombstone_and_disconnect|exact I1|]. intros _ w2 _ I2.
  apply wp_bind. eapply wp_mono; [by apply wp_detach_inv|]. intros d w3 I3. by apply wp_ret.
Qed.

Lemma wp_HandleAAAInitiatedDisconnect L N imsi id w :
  Inv L N None w -> wp (HandleAAAInitiatedDisconnect E imsi id) (fun _ w' => Inv L N None w') w.
Proof.
  intros HI. unfold HandleAAAInitiatedDisconnect. apply wp_bind, wp_gets.
  destruct (match (if nonempty id then _ else _) with Some s => _ | None => _ end) as [sess|]; [|by apply wp_ret].
  apply wp_bind. eapply Inv_quiet; [apply quiet_when, quiet_tombstone_and_disconnect|exact HI|]. intros _ w2 _ I2.
  apply wp_bind. eapply wp_mono; [by apply wp_detach_inv|]. intros [d e] w3 I3. by apply wp_ret.
Qed.

(** ** Recovery and accounting handlers *)
Lemma wp_recoverFromAuthCache L N entry req reason w :
  Inv L N None w -> N + 1 < 2 ^ 64 ->
  wp (recoverFromAuthCache E entry req reason) (fun _ w' => Inv L (N + 1) None w') w.
Proof.
  intros HI HN. assert (HI' : Inv L (N + 1) None w) by (eapply Inv_next; [exact HI|lia]).
  unfold recoverFromAuthCache. apply wp_bind. eapply Inv_quiet; [apply quiet_begin|exact HI|].
  intros ok w1 _ I1. destruct (negb ok); [apply wp_ret; eapply Inv_next; [exact I1|lia]|].
  apply wp_bind. eapply wp_mono; [by apply (wp_AttachAuthorized L N)|]. intros [resp err] w2 [I2 _].
  apply wp_bind. eapply Inv_quiet; [|exact I2|].
  { destruct err, resp; try apply quiet_ret. destruct (nonempty _); quiet. }
  intros _ w3 _ I3. apply wp_bind. eapply Inv_quiet; [apply quiet_finish|exact I3|]. intros _ w4 _ I4. by apply wp_ret.
Qed.

Lemma wp_handleAccountingStartWithoutSession L N req w :
  Inv L N None w -> N + 1 < 2 ^ 64 ->
  wp (handleAccountingStartWithoutSession E req) (fun _ w' => Inv L (N + 1) None w') w.
Proof.
  intros HI HN. unfold handleAccountingStartWithoutSession. cbv zeta.
  apply wp_bind. eapply Inv_quiet; [apply quiet_ask|exact HI|]. intros t w1 _ I1.
  apply wp_bind. eapply Inv_quiet; [eauto with quiet|exact I1|]. intros e1 w2 _ I2.
  apply wp_bind. eapply Inv_quiet; [quiet|exact I2|]. intros entry w3 _ I3.
  assert (Hend : wp (whenM (String.eqb (no_auth_action E (coalesce
     [rat_StartWithoutSessionAction (rd_Accounting (cfg_Radius (v_cfg E))); "recover_if_auth_valid"])) "disconnect")
     (disconnectAccountingClient E req) ;; ret (@None gerr)) (fun _ w' => Inv L (N + 1) None w') w3).
  { apply wp_bind. eapply Inv_quiet; [apply quiet_when, quiet_disconnectClient|exact I3|].
    intros _ w4 _ I4. apply wp_ret. eapply Inv_next; [exact I4|lia]. }
  destruct entry as [e|]; [|exact Hend]. destruct (String.eqb _ "recover_if_auth_valid"); [|exact Hend].
  apply wp_bind. eapply wp_mono; [by apply wp_recoverFromAuthCache|]. intros [r err] w4 I4. by apply wp_ret.
Qed.

Lemma wp_accounting_stop L N req sess w :
  Inv L N None w -> wp (accounting_stop E req sess) (fun _ w' => Inv L N None w') w.
Proof.
  intros HI. unfold accounting_stop. cbv zeta. destruct sess as [sess|].
  - apply wp_bind. eapply Inv_quiet; [apply quiet_accounting|exact HI|]. intros x w1 _ I1.
    apply wp_bind. eapply Inv_quiet; [apply quiet_updateFromAccounting|exact I1|]. intros y w2 _ I2.
    apply wp_bind. eapply Inv_quiet; [apply quiet_UpdateRecovery|exact I2|]. intros z w3 _ I3.
    destruct (negb _); [by apply wp_ret|]. destruct (negb _); [by apply wp_ret|].
    apply (wp_with_lock L N) with (N' := N); [exact I3|lia|done|]. intros w4 _ key Hk I4.
    assert (H4 : wp (accounting_stop_locked E sess) (fun _ w' => Inv (key :: L) N None w') w4).
    { unfold accounting_stop_locked. apply wp_bind, wp_gets.
      destruct (Get (sv_mgr w4) (s_ID sess)) as [latest|]; [|done]. destruct (negb _); [done|].
      apply wp_bind. eapply wp_mono; [by apply wp_detach_inv|]. intros [d e] w5 I5.
      apply wp_bind. eapply Inv_quiet; [apply quiet_when, quiet_delete_auth|exact I5|]. intros _ w6 _ I6.
      by apply wp_ret. }
    eapply wp_mono; [exact H4|]. intros r w5 I5. split; [done|]. by intros.
  - apply wp_bind. eapply Inv_quiet; [apply quiet_updateFromAccounting|exact HI|]. intros e w1 _ I1.
    apply wp_bind. eapply Inv_quiet; [quiet|exact I1|]. intros _ w2 _ I2. by apply wp_ret.
Qed.

Lemma wp_HandleAccounting L N req w :
  Inv L N None w -> N + 1 < 2 ^ 64 -> wp (HandleAccounting E req) (fun _ w' => Inv L (N + 1) None w') w.
Proof.
  intros HI HN. unfold HandleAccounting. apply wp_bind.
  eapply Inv_quiet; [apply quiet_ask|exact HI|]. intros t w1 _ I1. cbv zeta.
  set (rq := if IsZero (a_EventTimestamp req) then _ else req).
  apply wp_bind. eapply Inv_quiet; [apply quiet_findAccountingSession|exact I1|]. intros sess w2 _ I2.
  assert (I2' : Inv L (N + 1) None w2) by (eapply Inv_next; [exact I2|lia]).
  destruct (a_StatusType rq).
  - destruct sess as [s|]; [|by apply wp_handleAccountingStartWithoutSession].
    apply wp_bind. eapply Inv_quiet; [apply quiet_accounting|exact I2'|]. intros x w3 _ I3.
    apply wp_bind. eapply Inv_quiet; [apply quiet_updateFromAccounting|exact I3|]. intros y w4 _ I4. by apply wp_ret.
  - by apply wp_accounting_stop.
  - destruct sess as [s|]; [|by apply wp_ret].
    apply wp_bind. eapply Inv_quiet; [apply quiet_accounting|exact I2'|]. intros x w3 _ I3. by apply wp_ret.
  - by apply wp_ret.
  - by apply wp_ret.
  - by apply wp_ret.
Qed.

Lemma wp_HandleDHCPAuthCacheRecovery L N mac w :
  Inv L N None w -> N + 1 < 2 ^ 64 ->
  wp (HandleDHCPAuthCacheRecovery E mac) (fun _ w' => Inv L (N + 1) None w') w.
Proof.
  intros HI HN. unfold HandleDHCPAuthCacheRecovery. apply wp_bind.
  eapply Inv_quiet; [apply quiet_lookup_auth|exact HI|]. intros entry w1 _ I1.
  destruct entry as [e|]; [|apply wp_ret; eapply Inv_next; [exact I1|lia]].
  apply wp_bind. eapply Inv_quiet; [apply quiet_ask|exact I1|]. intros t w2 _ I2.
  apply wp_bind. eapply wp_mono; [by apply wp_recoverFromAuthCache|]. intros r w3 I3. by apply wp_ret.
Qed.

Lemma wp_RecoverFromTombstone L N t w :
  Inv L N None w -> N + 1 < 2 ^ 64 -> wp (RecoverFromTombstone E t) (kept L (N + 1)) w.
Proof.
  intros HI HN. assert (HI' : Inv L (N + 1) None w) by (eapply Inv_next; [exact HI|lia]).
  unfold RecoverFromTombstone. destruct t as [t|]; [|by apply wp_ret]. destruct (_ || _)%bool; [by apply wp_ret|].
  by apply wp_AttachAuthorized.
Qed.

(** * The service in operation *)
Inductive call :=
| CAttach (req : AttachRequest) | CAttachAuthorized (req : AttachRequest) (auth : option AuthResult)
| CExchangeEAP (req : EAPRequest) | CDetach (req : DetachRequest) | CShutdown
| CAccounting (req : AccountingRequest) | CGTPUError (teid : Z) | CPGWDelete (teid : Z)
| CAAADisconnect (imsi id : string) | CDHCPRecovery (mac : string)
| CTombstone (t : option RecoveryTombstone) | CStopTimeout (id : string).

Definition skip {A} (m : M A) : M unit := let* _ := m in ret tt.

Definition handle (c : call) : M unit :=
  match c with
  | CAttach req => skip (Attach E req)
  | CAttachAuthorized req auth => skip (AttachAuthorized E req auth)
  | CExchangeEAP req => skip (ExchangeEAP E req)
  | CDetach req => skip (Detach E req)
  | CShutdown => skip (Shutdown E)
  | CAccounting req => skip (HandleAccounting E req)
  | CGTPUError teid => skip (HandleGTPUErrorIndication E teid)
  | CPGWDelete teid => HandlePGWInitiatedDelete E teid
  | CAAADisconnect imsi id => skip (HandleAAAInitiatedDisconnect E imsi id)
  | CDHCPRecovery mac => HandleDHCPAuthCacheRecovery E mac
  | CTombstone t => skip (RecoverFromTombstone E t)
  | CStopTimeout id => waitForAccountingStopTimeout E id
  end.

Definition zeroCounters : lifecycleCounters := mkCounters 0 0 0 0 0 0 0.

(** [New] with the setters: an empty registry, nothing held, no lock. *)
Definition NewService (ipam : option MemoryIPAM) : Service :=
  mkService NewManager ipam zeroCounters ∅ [] [] 0.

(** The states of the service after some calls (fewer than [2^64]). *)
Inductive reached : Z -> Service -> Prop :=
| reached_new ipam : reached 0 (NewService ipam)
| reached_call n w c w' : reached n w -> n + 1 < 2 ^ 64 -> handle c w = Some (w', tt) -> reached (n + 1) w'.

Lemma wp_skip {A} (m : M A) (P : Service -> Prop) w : wp m (fun _ => P) w -> wp (skip m) (fun _ => P) w.
Proof. intros H. apply wp_bind. eapply wp_mono; [exact H|]. intros a w' Hp. by apply wp_ret. Qed.

Lemma wp_handle L N c w :
  Inv L N None w -> N + 1 < 2 ^ 64 -> wp (handle c) (fun _ w' => Inv L (N + 1) None w') w.
Proof.
  intros HI HN. assert (HI' : Inv L (N + 1) None w) by (eapply Inv_next; [exact HI|lia]).
  destruct c; cbn [handle]; lazymatch goal with |- wp (skip _) _ _ => apply wp_skip | _ => idtac end.
  - eapply wp_mono; [by apply (wp_Attach L N)|]. by intros ?? [? _].
  - eapply wp_mono; [by apply (wp_AttachAuthorized L N)|]. by intros ?? [? _].
  - eapply wp_mono; [by apply (wp_ExchangeEAP L N)|]. by intros ?? [? _].
  - by apply wp_Detach.
  - by apply wp_Shutdown.
  - by apply wp_HandleAccounting.
  - by apply wp_HandleGTPUErrorIndication.
  - by apply wp_HandlePGWInitiatedDelete.
  - by apply wp_HandleAAAInitiatedDisconnect.
  - by apply wp_HandleDHCPAuthCacheRecovery.
  - eapply wp_mono; [by apply (wp_RecoverFromTombstone L N)|]. by intros ?? [? _].
  - eapply Inv_quiet; [apply quiet_waitForAccountingStopTimeout|exact HI'|done].
Qed.

Lemma Inv_new ipam : Inv [] 0 None (NewService ipam).
Proof.
  split; [apply new_mgr_ok|done|done|..].
  - intros r k _. split; [done|]. by intros (_ & s & Hs & _).
  - done.
  - done.
  - done.
  - done.
  - done.
Qed.

Lemma reached_Inv n w : reached n w -> Inv [] n None w.
Proof.
  induction 1 as [ipam|n w c w' Hr IH Hn Hc]; [apply Inv_new|].
  pose proof (wp_handle [] n c w IH Hn) as Hw. unfold wp in Hw. by rewrite Hc in Hw.
Qed.
End invariant.
