(* ===== verification/LifecycleProps.v ===== *)
(** What the lifecycle service guarantees: the ledger of resources, one live
    session per subscriber as the service tells them apart, Access-Accept only
    for an active session; and two behaviours the ledger brings to light, the
    refused release and the two sessions of one IMSI.  All are about the service in operation ([reached]): any
    sequence of handler calls, any answers of the other components, any
    iteration order of the maps. *)
From S2P Require Import Prelude.
From S2P Require Import GoNet.
From S2P Require Import Config.
From S2P Require Import Session.
From S2P Require Import SessionFacts.
From S2P Require Import AuthCache.
From S2P Require Import Recovery.
From S2P Require Import GtpClient.
From S2P Require Import Ipam.
From S2P Require Import SessionMap.
From S2P Require Import Lifecycle.
From S2P Require Import LifecycleFacts.
Open Scope string_scope.
Open Scope Z_scope.
Open Scope life_scope.

(** * A service for the witnesses: everything answers, one subscriber *)
Definition demo_cfg : Config :=
  Default <| cfg_Subscriber := mkSubscriberConfig "internet" "realm.example" |>.

Definition demo_result : CreateSessionResult :=
  mkResult [10; 45; 0; 2] [] [192; 0; 2; 1] [192; 0; 2; 1] 0x11 0x22 0x33.

Definition demo_env : Env := {|
  v_cfg := demo_cfg; v_user := true; v_access := true; v_dynamic := true; v_pgwIsGTP := true;
  v_now := fun n => Z.of_nat n * Second;
  v_ids := fun _ m => map_to_list (byID m);
  v_rmac := fun _ m => map_to_list (recoveryByMAC m);
  v_rimsi := fun _ m => map_to_list (recoveryByIMSI m);
  v_lock := fun _ _ => None; v_ctxErr := fun _ => None;
  v_authenticate := fun _ q => (Some (mkAuthResult true (arq_IMSI q) (arq_MSISDN q) (arq_APN q) "" "ok" 2001), None);
  v_exchangeEAP := fun _ q =>
    (Some (mkEAPResult "eap-1" EAPStateSuccess true (erq_IMSI q) "" (erq_APN q) "" "ok" 2001 [3; 1; 0; 4] []), None);
  v_createSession := fun _ _ => Ok (Some demo_result);
  v_add := fun _ _ _ => None; v_remove := fun _ _ _ => None; v_disconnect := fun _ _ => None |}.

Lemma demo_env_ok : env_ok demo_env.
Proof. by split. Qed.

Definition after (c : call) (w : Service) : Service :=
  match handle demo_env c w with Some (w', _) => w' | None => w end.

Definition demo_req : AttachRequest :=
  zeroAttachRequest <| q_IMSI := "001010000000001" |> <| q_MACAddress := "02:00:00:00:00:01" |>.

Definition demo_w : Service := after (CAttach demo_req) (NewService None).

Lemma demo_reached : reached demo_env 1 demo_w.
Proof.
  apply (reached_call demo_env 0 (NewService None) (CAttach demo_req)); [apply reached_new|done|].
  vm_compute. reflexivity.
Qed.

(** The identifier of the session of [demo_w]. *)
Definition demo_sid : string := match map_to_list (byID (sv_mgr demo_w)) with (k, _) :: _ => k | [] => "" end.

(** * The ledger *)

(** C2: At every moment between two calls, and for every answer of the other
    components, the PGW session, route, user plane binding and access binding
    of a session are still with these components exactly when the session is
    registered and active or recovering (and the service has the part), or a
    component refused to release them.  What was refused belongs to a session
    that is no longer live, and the refusal is in the trace: so without a
    refused release nothing leaks and no active session lacks a resource.  On
    the books of the service, which lets go of what it asked to release
    whatever the answer, are exactly the resources of the live sessions.  A
    call that fails counts as not acquired, or not released. *)
Theorem resources_exact E n w r id :
  env_ok E -> reached E n w ->
  let live := present E r = true /\ exists s, get w id = Some s /\ is_live (s_State s) = true in
  (possesses (sv_trace w) r id = true <-> live \/ kept_back (sv_trace w) r id = true) /\
  (kept_back (sv_trace w) r id = true -> ~ live /\ exists s, s_ID s = id /\ EvRemove r s false ∈ sv_trace w) /\
  (holds (sv_trace w) r id = true <-> live).
Proof.
  intros HE HR%reached_Inv live; [|done].
  assert (Hh : holds (sv_trace w) r id = true <-> live) by (by apply (inv_holds _ _ _ _ _ HR)).
  destruct (possesses_split (sv_trace w) r id) as [Hp Hd]. split_and!; [|intros Hk; split|exact Hh].
  - rewrite Hp, orb_true_iff, Hh. done.
  - intros Hl%Hh. rewrite Hl, Hk in Hd. done.
  - by apply kept_back_refused.
Qed.

(** The session of [demo_w] leaves and the PGW refuses to delete it. *)
Definition refusing (r : resource) : Env :=
  let E := demo_env in
  mkEnv (v_cfg E) (v_user E) (v_access E) (v_dynamic E) (v_pgwIsGTP E) (v_now E) (v_ids E) (v_rmac E) (v_rimsi E)
    (v_lock E) (v_ctxErr E) (v_authenticate E) (v_exchangeEAP E) (v_createSession E) (v_add E)
    (fun _ r' _ => if bool_decide (r' = r) then Some (mkErr "refused" false false) else None) (v_disconnect E).

Lemma refusing_ok r : env_ok (refusing r).
Proof. by split. Qed.

Definition refused_w : Service :=
  match handle (refusing RPGW) (CDetach (mkDetachRequest demo_sid "" "")) demo_w with Some (w, _) => w | None => demo_w end.

Lemma refusing_reached r : reached (refusing r) 1 demo_w.
Proof.
  apply (reached_call (refusing r) 0 (NewService None) (CAttach demo_req)); [apply reached_new|done|].
  destruct r; vm_compute; reflexivity.
Qed.

Lemma refused_reached : reached (refusing RPGW) 2 refused_w.
Proof.
  apply (reached_call (refusing RPGW) 1 demo_w (CDetach (mkDetachRequest demo_sid "" ""))); [apply refusing_reached|done|].
  vm_compute. reflexivity.
Qed.

Lemma resources_exact_witness :
  possesses (sv_trace demo_w) RPGW demo_sid = true /\
  (exists s, get demo_w demo_sid = Some s /\ is_live (s_State s) = true) /\
  possesses (sv_trace refused_w) RPGW demo_sid = true /\ get refused_w demo_sid = None /\
  (exists s, s_ID s = demo_sid /\ EvRemove RPGW s false ∈ sv_trace refused_w).
Proof.
  assert (H1 : holds (sv_trace demo_w) RPGW demo_sid = true) by (vm_compute; reflexivity).
  assert (K2 : kept_back (sv_trace refused_w) RPGW demo_sid = true) by (vm_compute; reflexivity).
  destruct (resources_exact demo_env 1 demo_w RPGW demo_sid demo_env_ok demo_reached) as (P1 & _ & L1).
  destruct (resources_exact (refusing RPGW) 2 refused_w RPGW demo_sid (refusing_ok RPGW) refused_reached) as (P2 & R2 & _).
  split; [exact (proj2 P1 (or_introl (proj1 L1 H1)))|]. split; [exact (proj2 (proj1 L1 H1))|].
  split; [exact (proj2 P2 (or_intror K2))|]. split; [vm_compute; reflexivity|exact (proj2 (R2 K2))].
Defined.

(** The service forgets a session although a component keeps its resource:
    the detach reports the error and deregisters the session, and no later
    call asks again. *)
Example refused_release_leaks :
  get refused_w demo_sid = None /\
  map (fun r => possesses (sv_trace refused_w) r demo_sid) [RPGW; RRoute; RUser; RAccess] = [true; false; false; false].
Proof. split; vm_compute; reflexivity. Qed.

(** C5: Two registered sessions that are active or recovering are never the
    same subscriber to the service (no field contradicts and the IMSI or the
    MAC address agree): if they have one IMSI and one APN, they have two
    different MAC addresses, and if they have one MAC address, two different
    IMSIs or APNs.  An active session is authorised and has an address.  The
    rule of the README, one session per IMSI and APN whatever the MAC address,
    is not what the service keeps: [two_macs_two_sessions]. *)
Theorem one_live_session E n w k1 k2 s1 s2 :
  env_ok E -> reached E n w ->
  get w k1 = Some s1 -> get w k2 = Some s2 -> is_live (s_State s1) = true -> is_live (s_State s2) = true ->
  (k1 <> k2 -> same_user s1 s2 = false /\
     (s_IMSI s1 = s_IMSI s2 -> s_IMSI s1 <> "" -> sameAPN (s_APN s1) (s_APN s2) = true ->
        contradicts normalizeMAC (s_MACAddress s1) (s_MACAddress s2)) /\
     (macMatches (s_MACAddress s1) (s_MACAddress s2) = true ->
        normalizeMAC (s_MACAddress s1) = normalizeMAC (s_MACAddress s2) ->
        contradicts id (s_IMSI s1) (s_IMSI s2) \/ contradicts ToLower (s_APN s1) (s_APN s2))) /\
  s_Authorized s1 = true /\ s_SubscriberIP s1 <> [].
Proof.
  intros HE HR%reached_Inv H1 H2 L1 L2; [|done]. split_and!.
  - intros Hne. assert (Hs : same_user s1 s2 = false) by (by apply (inv_one _ _ _ _ _ HR k1 k2)).
    split; [exact Hs|]. by apply different_users.
  - apply (Get_flags (sv_mgr w) (inv_mgr _ _ _ _ _ HR) k1 s1 H1).
    unfold is_live in L1. by destruct (s_State s1).
  - by apply (inv_ip _ _ _ _ _ HR k1).
Qed.

Lemma one_live_session_witness :
  exists s, get demo_w demo_sid = Some s /\ s_Authorized s = true /\ s_SubscriberIP s <> [].
Proof.
  destruct (get demo_w demo_sid) as [s|] eqn:Hs; [|exfalso; vm_compute in Hs; discriminate Hs].
  assert (Hl : is_live (s_State s) = true).
  { assert (H : (fun x => is_live (s_State x)) <$> get demo_w demo_sid = Some true) by (vm_compute; reflexivity).
    rewrite Hs in H. by injection H. }
  exists s. split; [reflexivity|].
  exact (proj2 (one_live_session demo_env 1 demo_w demo_sid demo_sid s s demo_env_ok demo_reached Hs Hs Hl Hl)).
Defined.

(** One IMSI and one APN, two MAC addresses: two Create Sessions, two active
    sessions. *)
Definition two_macs_w : Service := after (CAttach (demo_req <| q_MACAddress := "02:00:00:00:00:02" |>)) demo_w.

Example two_macs_two_sessions :
  map (fun e => match e with EvAdd RPGW s ok => Some (s_IMSI s, s_APN s, s_MACAddress s, ok) | _ => None end)
      (List.filter (fun e => match e with EvAdd RPGW _ _ => true | _ => false end) (sv_trace two_macs_w)) =
    [Some ("001010000000001", "internet", "02:00:00:00:00:02", true);
     Some ("001010000000001", "internet", "02:00:00:00:00:01", true)] /\
  map (fun '(k, _) => (fun s => (s_IMSI s, s_APN s, s_MACAddress s, s_State s)) <$> get two_macs_w k)
      (map_to_list (byID (sv_mgr two_macs_w))) =
    [Some ("001010000000001", "internet", "02:00:00:00:00:01", State.Active);
     Some ("001010000000001", "internet", "02:00:00:00:00:02", State.Active)].
Proof. split; vm_compute; reflexivity. Qed.

(** C6: Every call ends without a panic and with the subscriber locks free
    again, however the other components answer (a nil user plane under an
    access binder excluded, see [LifecycleOrder.access_without_user_plane_panics]). *)
Theorem handlers_total E n w c :
  env_ok E -> reached E n w -> n + 1 < 2 ^ 64 ->
  exists w', handle E c w = Some (w', tt) /\ reached E (n + 1) w' /\ sv_locks w' = [].
Proof.
  intros HE HR Hn. pose proof (wp_handle E HE [] n c w (reached_Inv E HE n w HR) Hn) as Hw.
  destruct (wp_result _ _ _ Hw) as (w' & [] & Hc & HI). exists w'. split; [done|].
  split; [by eapply reached_call|apply HI].
Qed.

Lemma handlers_total_witness :
  exists w', handle demo_env (CDetach (mkDetachRequest demo_sid "" "")) demo_w = Some (w', tt) /\
    reached demo_env (1 + 1) w' /\ sv_locks w' = [].
Proof. exact (handlers_total demo_env 1 demo_w _ demo_env_ok demo_reached eq_refl). Defined.

(** * EAP *)

(** C10: An EAP exchange that the RADIUS server may answer without an error is
    a challenge or a success, and a success is backed by a registered active
    session of that identifier that has the announced address and holds its
    PGW session: Access-Accept is never sent before the data path is up. *)
Theorem accept_only_active E n w req w' resp :
  env_ok E -> reached E n w -> n + 1 < 2 ^ 64 ->
  ExchangeEAP E req w = Some (w', (Some resp, None)) ->
  pr_State resp = "challenge" \/
  (pr_State resp = "success" /\ exists s, get w' (pr_SessionID resp) = Some s /\ s_State s = State.Active /\
     pr_SubscriberIP resp = ipString (s_SubscriberIP s) /\ s_SubscriberIP s <> [] /\
     holds (sv_trace w') RPGW (pr_SessionID resp) = true).
Proof.
  intros HE HR%reached_Inv Hn Hx; [|done].
  pose proof (wp_ExchangeEAP E HE [] n req w HR Hn) as Hw. unfold wp in Hw. rewrite Hx in Hw.
  destruct Hw as [HI [Hc|(Hs & s & Hg & Hst & Hip & Hne & _)]]; [by left|right].
  split; [done|]. exists s. split_and!; try done. apply (inv_holds _ _ _ _ _ HI); [done|].
  split; [done|]. exists s. by rewrite Hst.
Qed.

Definition demo_eap : EAPRequest :=
  mkEAPRequest "" "001010000000001" "" "02:00:00:00:00:01" "" "" "" "" "" "" "" "" "" [] "" 0 [2; 1; 0; 5; 1].

Lemma accept_only_active_witness :
  exists w' resp, ExchangeEAP demo_env demo_eap (NewService None) = Some (w', (Some resp, None)) /\
    pr_SubscriberIP resp = "10.45.0.2" /\
    (pr_State resp = "challenge" \/
     (pr_State resp = "success" /\ exists s, get w' (pr_SessionID resp) = Some s /\ s_State s = State.Active /\
       pr_SubscriberIP resp = ipString (s_SubscriberIP s) /\ s_SubscriberIP s <> [] /\
       holds (sv_trace w') RPGW (pr_SessionID resp) = true)).
Proof.
  destruct (ExchangeEAP demo_env demo_eap (NewService None)) as [[w' [[resp|] [e|]]]|] eqn:Hx;
    try (exfalso; vm_compute in Hx; discriminate Hx).
  exists w', resp. split; [reflexivity|]. split.
  - assert (H : match ExchangeEAP demo_env demo_eap (NewService None) with
                | Some (_, (Some r, None)) => pr_SubscriberIP r = "10.45.0.2" | _ => False end)
      by (vm_compute; reflexivity).
    rewrite Hx in H. exact H.
  - exact (accept_only_active demo_env 0 (NewService None) demo_eap w' resp demo_env_ok
             (reached_new demo_env None) eq_refl Hx).
Defined.

(** * No second Create Session *)

(** While another session that [same_user] takes for the same subscriber
    (neither IMSI, MAC address nor APN contradict) is registered in any state
    but terminated and failed, the activation of a session stops at the
    overlap check: no call reaches the PGW (nor routing, user plane or access
    side), the session is failed with that reason, and the other session is
    as it was.  The state is any in which a handler may be at that point
    ([Inv], which every handler keeps). *)
Theorem create_blocked E L n w sess s auth k c :
  env_ok E -> Inv E L n None w -> get w (s_ID sess) = Some s -> s_State s = State.AuthPending ->
  get w k = Some c -> k <> s_ID sess -> isLivePGWOwner (s_State c) = true ->
  same_user c (auth_fields (au_IMSI auth) (au_MSISDN auth) (au_APN auth) (au_Reason auth) s) = true ->
  exists w' resp err, activateAuthorizedSession E sess auth w = Some (w', (Some resp, Some err)) /\
    ge_msg err = "live PGW session already exists for subscriber" /\
    sv_trace w' = sv_trace w /\ ar_State resp = State.Failed /\ core <$> get w' k = core <$> get w k.
Proof.
  intros HE HR Hs Hst Hc Hk Hl Hsu.
  set (P := fun (r : option AttachResponse * option gerr) w' => exists resp err, r = (Some resp, Some err) /\
    ge_msg err = "live PGW session already exists for subscriber" /\ sv_trace w' = sv_trace w /\
    ar_State resp = State.Failed /\ core <$> get w' k = core <$> get w k).
  assert (Hw : wp (activateAuthorizedSession E sess auth) P w).
  2: { apply wp_result in Hw as (w' & [r1 r2] & Hx & resp & err & [= -> ->] & H). eauto 8. }
  pose proof (inv_mgr _ _ _ _ _ HR) as Hm.
  assert (Hid : s_ID s = s_ID sess) by (eapply Get_ID; [exact Hm|exact Hs]).
  assert (F0 : Flight E w L n (s_ID sess) (Some s) nothing false w)
    by (apply take_off; [by apply step_refl|done|done|by rewrite Hst]).
  unfold activateAuthorizedSession. apply wp_bind.
  eapply (wp_session_op_trace E w); [intros m t Hm'; by apply ApplyAuthResult_spec|exact F0|cbv beta; by rewrite Hst|done|done|].
  intros t w1 T1 F1. match type of F1 with Flight _ _ _ _ _ (Some ?x) _ _ _ =>
    assert (Hx : s_ID x = s_ID sess /\ s_State x = State.Authorized /\ same_user c x = true);
      [|revert F1 Hx; generalize x; intros s1 F1 (Hid1 & Hst1 & Hsu1)] end.
  { split_and!; [rewrite <- Hid; apply (auth_fields_keeps (au_IMSI auth) (au_MSISDN auth) (au_APN auth) (au_Reason auth) s)|done|].
    rewrite <- Hsu. apply same_user_ident; reflexivity. }
  apply wp_bind. unfold allocate_address. rewrite (eo_gtp _ HE). apply wp_ret, wp_bind.
  eapply (wp_session_op_trace E w); [intros m t' Hm'; rewrite Hid1; by apply MarkPGWPending_spec|exact F1|cbv beta; by rewrite Hst1|done|done|].
  intros t' w2 T2 F2. match type of F2 with Flight _ _ _ _ _ (Some ?x) _ _ _ =>
    assert (Hx : s_ID x = s_ID sess /\ s_State x = State.PGWPending /\ same_user c x = true);
      [split; [exact Hid1|split; [done|rewrite <- Hsu1; by apply same_user_ident]]|];
      revert F2 Hx; generalize x; intros s2 F2 (Hid2 & Hst2 & Hsu2) end.
  apply wp_bind. eapply wp_mono; [apply (find_live_spec E HE), F2|]. intros live w3 (M3 & T3 & K3 & Hlive).
  destruct live as [x|].
  2: { exfalso. destruct (core_forth w w2 k c) as (c2 & Hc2 & Hcore); [|done|].
       { apply F2. by apply outside_Some. }
       destruct (core_ident _ _ Hcore) as (Ic & Sc & _).
       rewrite <- (same_user_ident c2 s2 c s2) in Hsu2 by done.
       apply same_user_candidate in Hsu2 as [Hsame Hor].
       rewrite (proj1 Hlive eq_refl k c2 Hc2) in Hsame; [done|by rewrite Hid2|by rewrite Sc|done]. }
  apply wp_bind. eapply wp_still; [apply still_count|eapply Flight_same; [exact F2|done..]|].
  intros _ w4 F4 _ T4. apply wp_bind. eapply wp_still; [apply still_releaseIP_|exact F4|].
  intros _ w5 F5 _ T5. rewrite Hid2. unfold fail_with. apply wp_bind.
  eapply (wp_session_op_trace E w); [intros m t2 Hm'; by apply MarkFailed_spec|exact F5|cbv beta; by rewrite Hst2|done|done|].
  intros t2 w6 T6 F6. apply wp_ret. eexists _, _. split_and!; [done|done|congruence|done|].
  apply F6. by apply outside_Some.
Qed.

(** The state in which another attach of the same subscriber has passed its
    authentication: [demo_w] with a second session waiting for the answer. *)
Definition rival_input : CreateInput :=
  attach_input demo_env "001010000000001" "" "internet" demo_req.
Definition pending (E : Env) (i : CreateInput) : M Session :=
  let* s := at_now E (fun m => Create m i) in
  let* _ := session_op E (fun m => MarkAuthPending m (s_ID s)) in
  ret s.
Definition rival_auth : AuthResult := mkAuthResult true "001010000000001" "" "internet" "" "ok" 2001.

Lemma pending_Inv E n w0 i w s :
  env_ok E -> reached E n w0 -> n + 1 < 2 ^ 64 -> pending E i w0 = Some (w, s) ->
  Inv E [] (n + 1) None w /\ pre_auth (s_ID s) w.
Proof.
  intros HE HR Hn H. assert (Hw : wp (pending E i) (fun s w' => Inv E [] (n + 1) None w' /\ pre_auth (s_ID s) w') w0).
  { unfold pending. apply wp_bind. eapply (wp_create_session E [] n); [exact (reached_Inv _ HE _ _ HR)|done|].
    intros s1 w1 I1 G1 S1. apply wp_bind. eapply wp_auth_pending; [exact I1|exact G1|exact S1|].
    intros x w2 I2 P2. by apply wp_ret. }
  apply wp_result in Hw as (w' & a & H' & HP). rewrite H in H'. by injection H' as <- <-.
Qed.

Lemma create_blocked_witness :
  exists w sess w' resp err,
    activateAuthorizedSession demo_env sess rival_auth w = Some (w', (Some resp, Some err)) /\
    ge_msg err = "live PGW session already exists for subscriber" /\
    sv_trace w' = sv_trace w /\ ar_State resp = State.Failed /\ core <$> get w' demo_sid = core <$> get w demo_sid.
Proof.
  destruct (pending demo_env rival_input demo_w) as [[w sess]|] eqn:Hr; [|exfalso; vm_compute in Hr; discriminate Hr].
  destruct (pending_Inv demo_env 1 demo_w rival_input w sess demo_env_ok demo_reached eq_refl Hr) as [HI HP].
  assert (Hall : match pending demo_env rival_input demo_w with
                 | Some (w, sess) => match get w (s_ID sess), get w demo_sid with
                   | Some s, Some c => (negb (String.eqb demo_sid (s_ID sess)) && isLivePGWOwner (s_State c)
                       && same_user c (auth_fields "001010000000001" "" "internet" "ok" s))%bool = true
                   | _, _ => False end
                 | None => False end) by (vm_compute; reflexivity).
  rewrite Hr in Hall. destruct (get w (s_ID sess)) as [s|] eqn:Hs; [|destruct Hall].
  destruct (get w demo_sid) as [c|] eqn:Hc; [|destruct Hall].
  apply andb_prop in Hall as [Hall Hsu]. apply andb_prop in Hall as [Hne Hl].
  exists w, sess.
  refine (create_blocked demo_env [] (1 + 1) w sess s rival_auth demo_sid c demo_env_ok HI Hs (HP s Hs) Hc _ Hl Hsu).
  intros Heq. rewrite (proj2 (String.eqb_eq _ _) Heq) in Hne. discriminate Hne.
Defined.
