(* ===== verification/LifecycleOrder.v ===== *)
(** The order in which the lifecycle service gives resources back, the reuse of
    a session by a duplicate attach, and two behaviours of the code that the
    model brings to light. *)
From S2P Require Import Prelude.
From S2P Require Import GoNet.
From S2P Require Import Config.
From S2P Require Import Session.
From S2P Require Import SessionFacts.
From S2P Require Import AuthCache.
From S2P Require Import Recovery.
From S2P Require Import GtpClient.
From S2P Require Import Ipam.
From S2P Require Import SessionMap.
From S2P Require Import Lifecycle.
From S2P Require Import LifecycleFacts.
From S2P Require Import LifecycleProps.
Open Scope string_scope.
Open Scope Z_scope.
Open Scope life_scope.

(** * The detach *)
Section detach.
Context (E : Env).

(** The parts of a detach, by what they do to the registry and the trace. *)
Definition ok_answer (e : option gerr) : bool := match e with None => true | Some _ => false end.

Lemma wp_asked r s w (Q : option gerr -> Service -> Prop) :
  (forall e w', sv_mgr w' = sv_mgr w -> sv_trace w' = EvRemove r s (ok_answer e) :: sv_trace w -> Q e w') ->
  wp (release E r s) Q w.
Proof. intros HQ. by apply HQ. Qed.

Lemma wp_asked_if (b : bool) r s w (Q : option gerr -> Service -> Prop) :
  (forall e w', sv_mgr w' = sv_mgr w ->
     sv_trace w' = ((if b then [EvRemove r s (ok_answer e)] else []) ++ sv_trace w)%list ->
     (b = false -> e = None) -> Q e w') ->
  wp (if b then release E r s else ret None) Q w.
Proof. intros HQ. destruct b; [|by apply HQ]. apply wp_asked. intros e w' M T. by apply HQ. Qed.

Lemma wp_releaseIP id w (Q : bool * option gerr -> Service -> Prop) :
  nonempty id = true ->
  (forall b w', sv_mgr w' = sv_mgr w -> sv_trace w' = sv_trace w -> Q (b, None) w') ->
  wp (releaseIP id) Q w.
Proof.
  intros Hid HQ. unfold releaseIP, wp, bind, gets, modify, ret. destruct (sv_ipam w) as [m|]; [|by apply HQ].
  unfold Release. rewrite Hid. cbn. destruct (i_leases m !! id); by apply HQ.
Qed.

Lemma wp_marked op f can id s w (Q : result Session gerr -> Service -> Prop) :
  mgr_ok (sv_mgr w) -> (forall m t, mgr_ok m -> op_spec m id (op m t) (f t) can) -> get w id = Some s -> can s ->
  (forall t w', sv_trace w' = sv_trace w -> changed (sv_mgr w) (sv_mgr w') id (f t s) -> Q (Ok (f t s)) w') ->
  wp (session_op E op) Q w.
Proof.
  intros Hm Hop Hs Hcan HQ. unfold session_op, at_now, now, wp, bind, ask, on_mgr. cbn.
  specialize (Hop (sv_mgr w) (v_now E (sv_questions w)) Hm). unfold op_spec, get in *.
  destruct (op (sv_mgr w) _) as [m' [s'|e]]; cbn in *.
  - destruct Hop as (s0 & HG & _ & -> & Hc). rewrite Hs in HG. injection HG as <-. by apply HQ.
  - destruct Hop as [_ Hno]. by destruct (Hno s Hs).
Qed.

Lemma session_id_nonempty m id s : mgr_ok m -> Get m id = Some s -> nonempty id = true.
Proof.
  intros Hm Hs. destruct (Get_live m Hm id s Hs) as (l & _ & Hh & <-). destruct Hm as (_ & Hi & _).
  destruct Hi as [_ Hi]. destruct (Hi l s Hh) as (t & n & _ & ->). done.
Qed.

(** What a detach makes of the session [s], in terms of the answers of the
    other components. *)
Definition detached (w : Service) (s : Session) (r : option DetachResponse * option gerr) (w' : Service) : Prop :=
  exists t t' e1 e2 e3 e4,
    let s' := s <| s_State := State.Terminating |> <| s_UpdatedAt := t |> in
    let removed r e := EvRemove r s' (ok_answer e) in
    r = (Some (responseFromSession (s' <| s_State := State.Terminated |> <| s_UpdatedAt := t' |>)),
         Join (List.filter (fun e => negb (nonFatalPGWDeleteError e)) (opt_list e1) ++ opt_list e2
               ++ (if v_user E then opt_list e3 else []) ++ (if v_access E then opt_list e4 else []))%list) /\
    rev (sv_trace w') = (rev (sv_trace w) ++ [removed RPGW e1; removed RRoute e2]
      ++ (if v_user E then [removed RUser e3] else []) ++ (if v_access E then [removed RAccess e4] else []))%list /\
    get w' (s_ID s) = None /\ (forall k, k <> s_ID s -> get w' k = get w k).

Lemma wp_detached L n w sess s :
  Inv E L n None w -> get w (s_ID sess) = Some s -> validTransition (s_State s) State.Terminating = true ->
  wp (detachSessionLocked E sess) (detached w s) w.
Proof.
  intros HI Hs Hv. pose proof (inv_mgr _ _ _ _ _ HI) as Hm.
  unfold detachSessionLocked. apply wp_bind.
  eapply wp_marked; [done|intros m t Hm'; by apply MarkTerminating_spec|exact Hs|exact Hv|].
  intros t w1 T1 C1. cbv beta in C1. set (s' := s <| s_State := State.Terminating |> <| s_UpdatedAt := t |>) in *.
  assert (Hid : s_ID s' = s_ID sess) by exact (Get_ID _ Hm _ _ Hs). assert (Hid0 : s_ID s = s_ID sess) by exact Hid.
  cbv beta iota. fold s'.
  apply wp_bind, wp_asked. intros e1 w2 M2 T2. apply wp_bind, wp_asked. intros e2 w3 M3 T3.
  apply wp_bind, wp_asked_if. intros e3 w4 M4 T4 H4. apply wp_bind, wp_asked_if. intros e4 w5 M5 T5 H5.
  apply wp_bind, wp_releaseIP; [rewrite Hid; by eapply session_id_nonempty|]. intros b w6 M6 T6.
  apply wp_bind. rewrite Hid.
  assert (Hmgr : sv_mgr w6 = sv_mgr w1) by congruence.
  destruct C1 as [C1 C2 C3].
  unfold at_now, now, wp, bind, ask, on_mgr, ret. cbn -[Delete Join]. rewrite Hmgr.
  destruct (Delete_spec (sv_mgr w1) C1 (s_ID sess) (v_now E (sv_questions w6)) s') as (D1 & D2 & D3 & D4);
    [by rewrite C3, decide_True|done|].
  destruct (Delete (sv_mgr w1) (s_ID sess) _) as [m' r]. cbn [fst snd] in *. subst r.
  exists t, (v_now E (sv_questions w6)), e1, e2, e3, e4. cbv zeta. fold s'. rewrite Hid0. split_and!.
  - assert (H4' : (if v_user E then opt_list e3 else []) = opt_list e3) by (destruct (v_user E); [done|by rewrite H4]).
    assert (H5' : (if v_access E then opt_list e4 else []) = opt_list e4) by (destruct (v_access E); [done|by rewrite H5]).
    rewrite H4', H5', app_nil_r. destruct e1 as [e1|]; [|done]. cbn [opt_list List.filter].
    by destruct (nonFatalPGWDeleteError e1).
  - cbv zeta. match goal with |- rev ?x = _ => change x with (sv_trace w6) end.
    rewrite T6, T5, T4, T3, T2, T1. destruct (v_user E), (v_access E); cbn; by rewrite <- ?app_assoc.
  - unfold get. cbn. by rewrite D4, decide_True.
  - intros k Hk. unfold get. cbn. by rewrite D4, decide_False, C3, decide_False.
Qed.

(** C11: Detaching a registered session that may terminate asks the PGW, then
    routing, then the user plane and the access side (when there are any) to
    let the session go, each once and in that order, whatever the earlier ones
    answer (the README has the kernel session removed before the routes; the
    code removes the route first, and the policy rules with the kernel
    session); then the session is deregistered, the others are untouched, the
    answer describes the terminated session, and the error joins exactly the
    refusals, a PGW that does not know the session or does not answer
    excepted. *)
Theorem detach_complete L n w sess s :
  Inv E L n None w -> get w (s_ID sess) = Some s -> validTransition (s_State s) State.Terminating = true ->
  exists w' t t' e1 e2 e3 e4,
    let s' := s <| s_State := State.Terminating |> <| s_UpdatedAt := t |> in
    let removed r e := EvRemove r s' (ok_answer e) in
    detachSessionLocked E sess w =
      Some (w', (Some (responseFromSession (s' <| s_State := State.Terminated |> <| s_UpdatedAt := t' |>)),
                 Join (List.filter (fun e => negb (nonFatalPGWDeleteError e)) (opt_list e1) ++ opt_list e2
                       ++ (if v_user E then opt_list e3 else []) ++ (if v_access E then opt_list e4 else []))%list)) /\
    rev (sv_trace w') = (rev (sv_trace w) ++ [removed RPGW e1; removed RRoute e2]
      ++ (if v_user E then [removed RUser e3] else []) ++ (if v_access E then [removed RAccess e4] else []))%list /\
    get w' (s_ID sess) = None /\ (forall k, k <> s_ID sess -> get w' k = get w k).
Proof.
  intros HI Hs Hv. destruct (wp_result _ _ _ (wp_detached _ _ _ _ _ HI Hs Hv)) as
    (w' & r & Hr & t & t' & e1 & e2 & e3 & e4 & -> & Ht & Hg).
  rewrite (Get_ID _ (inv_mgr _ _ _ _ _ HI) _ _ Hs) in Hg. by exists w', t, t', e1, e2, e3, e4.
Qed.
End detach.

Lemma detach_complete_witness :
  exists s w' resp, get demo_w demo_sid = Some s /\ get w' demo_sid = None /\
    detachSessionLocked demo_env s demo_w = Some (w', (Some resp, None)).
Proof.
  destruct (get demo_w demo_sid) as [s|] eqn:Hs; [|exfalso; vm_compute in Hs; discriminate Hs].
  assert (H : match get demo_w demo_sid with
    | Some s => s_ID s = demo_sid /\ validTransition (s_State s) State.Terminating = true /\
                match detachSessionLocked demo_env s demo_w with Some (_, (_, None)) => True | _ => False end
    | None => False end) by (vm_compute; split; [reflexivity|split; [reflexivity|exact I]]).
  rewrite Hs in H. destruct H as (Hid & Hv & He). rewrite <- Hid in Hs.
  destruct (detach_complete demo_env [] 1 demo_w s s (reached_Inv demo_env demo_env_ok 1 demo_w demo_reached) Hs Hv)
    as (w' & t & t' & e1 & e2 & e3 & e4 & Hd & _ & Hg & _).
  eexists s, w', _. split; [reflexivity|]. rewrite <- Hid. split; [exact Hg|].
  rewrite Hd in He |- *. destruct (Join _); [destruct He|reflexivity].
Defined.

(** * The shutdown *)
Section shutdown.
Context (E : Env) (HE : env_ok E).

(** No handler waits for a subscriber's lock in vain. *)
Definition locks_granted : Prop := forall n key, v_lock E n key = None.

Lemma wp_lock_answer n key w (Q : option gerr -> Service -> Prop) :
  Inv E [] n None w ->
  (forall e w', ~ locks_granted -> sv_mgr w' = sv_mgr w -> Inv E [] n None w' -> Q (Some e) w') ->
  (forall w', sv_mgr w' = sv_mgr w -> Inv E [key] n None w' -> Q None w') ->
  wp (lock E key) Q w.
Proof.
  intros HI He Hok. pose proof (inv_locks _ _ _ _ _ HI) as HL. unfold lock, wp, bind, gets, ask, ret, modify, emit. cbn.
  rewrite HL, bool_decide_eq_false_2 by apply not_elem_of_nil. destruct (v_lock E _ key) as [e|] eqn:El.
  - apply He; [intros H; by rewrite H in El|done|]. eapply Inv_relock; [exact HI|done..].
  - apply Hok; [done|]. eapply Inv_relock; [exact HI|done|done| |done..]. cbn. by rewrite HL.
Qed.

Lemma Join_none errs : Join errs = None -> errs = [].
Proof. by destruct errs. Qed.

(** A detach by identifier takes its session away, unless it does not get the
    lock; the other sessions stay. *)
Lemma wp_Detach_id n id s w : Inv E [] n None w -> get w id = Some s -> validTransition (s_State s) State.Terminating = true ->
  wp (Detach E (mkDetachRequest id "" "")) (fun r w' => Inv E [] n None w' /\ (forall k, k <> id -> get w' k = get w k) /\
    (locks_granted \/ snd r = None -> get w' id = None)) w.
Proof.
  intros HI Hs Hv. pose proof (Get_ID _ (inv_mgr _ _ _ _ _ HI) _ _ Hs) as Hid.
  unfold Detach. apply wp_bind. unfold findDetachSession. apply wp_bind, wp_gets, wp_ret. cbn [dr_SessionID dr_IMSI dr_MACAddress].
  unfold get in Hs. rewrite Hs, (session_id_nonempty _ _ _ (inv_mgr _ _ _ _ _ HI) Hs). cbn [negb andb].
  unfold with_lock. apply wp_bind. unfold lockSubscriber. apply wp_lock_answer with (n := n); [exact HI| |].
  - intros e w1 N M1 I1. apply wp_ret. split; [exact I1|]. unfold get. rewrite M1. split; [done|]. by intros [?|?].
  - intros w1 M1 I1. apply wp_bind.
    assert (Hw : wp (detachSessionLocked E s) (fun r w' => detached E w1 s r w' /\ Inv E [subscriberLockKey (s_IMSI s) (s_MACAddress s) (s_APN s)] n None w') w1).
    { pose proof (wp_detached E _ n w1 s s I1) as D. pose proof (wp_detach_inv E _ n s w1 I1) as D'.
      unfold get in D. rewrite M1, Hid in D. specialize (D Hs Hv). unfold wp in *.
      destruct (detachSessionLocked E s w1) as [[w2 r]|]; [by split|done]. }
    eapply wp_mono; [exact Hw|]. intros r w2 [(t & t' & e1 & e2 & e3 & e4 & -> & _ & Hg & Ho) I2]. apply wp_bind.
    eapply wp_unlock; [exact I2|apply not_elem_of_nil|]. intros w3 M3 I3. apply wp_ret. split; [exact I3|].
    unfold get in *. rewrite M3, M1, Hid in *. by split.
Qed.

Lemma shutdown_valid st : shutdownShouldDetach st = true -> validTransition st State.Terminating = true.
Proof. by destruct st. Qed.

Lemma wp_shutdown_gone n ss w : Inv E [] n None w -> NoDup (map s_ID ss) -> (forall s, s ∈ ss -> get w (s_ID s) = Some s) ->
  wp (shutdown_loop E ss) (fun errs w' => Inv E [] n None w' /\ (forall k, k ∉ map s_ID ss -> get w' k = get w k) /\
    (locks_granted \/ errs = [] -> forall k s, k ∈ map s_ID ss -> get w' k = Some s -> shutdownShouldDetach (s_State s) = false)) w.
Proof.
  revert w. induction ss as [|s ss IH]; intros w HI HN Hss; cbn [shutdown_loop map].
  { split; [done|]. split; [done|]. intros _ k s H. by apply elem_of_nil in H. }
  apply NoDup_cons in HN as [Hn HN]. pose proof (Hss s ltac:(by left)) as Hs.
  destruct (shutdownShouldDetach (s_State s)) eqn:Hd; cbn [negb].
  - apply wp_bind. eapply wp_mono; [by apply (wp_Detach_id n (s_ID s) s w HI Hs), shutdown_valid|].
    intros [d e] w1 (I1 & O1 & G1). apply wp_bind. cbn [snd] in G1. eapply wp_mono; [apply (IH w1 I1 HN)|].
    { intros x Hx. rewrite O1; [by apply Hss; right|]. intros Ex. apply Hn. rewrite <- Ex. by apply list_elem_of_fmap_2. }
    intros errs w2 (I2 & O2 & G2). apply wp_ret. split; [exact I2|]. split.
    + intros k [Hk1 Hk2]%not_elem_of_cons. by rewrite O2, O1.
    + intros Hl k x [->|Hk]%elem_of_cons Hx.
      * rewrite O2, G1 in Hx by (destruct e; naive_solver). done.
      * apply (G2 ltac:(destruct e; naive_solver) k x Hk Hx).
  - eapply wp_mono; [apply (IH w HI HN)|]; [intros x Hx; apply Hss; by right|].
    intros errs w2 (I2 & O2 & G2). split; [exact I2|]. split; [intros k [_ Hk]%not_elem_of_cons; by apply O2|].
    intros Hl k x [->|Hk]%elem_of_cons Hx; [|by apply (G2 Hl k)]. rewrite O2, Hs in Hx by done. congruence.
Qed.

(** The shutdown takes every session away that is active (or on its way to
    it), if it reports no error, or gets every lock it asks for. *)
Lemma wp_shutdown_detaches n w : Inv E [] n None w ->
  wp (Shutdown E) (fun e w' => Inv E [] n None w' /\
    (locks_granted \/ e = None -> forall k s, get w' k = Some s -> shutdownShouldDetach (s_State s) = false)) w.
Proof.
  intros HI. unfold Shutdown. apply wp_bind. unfold over_ids, wp, bind, gets, ask, ret. cbn. set (ord := v_ids E _ _).
  set (w1 := w <| sv_questions ::= _ |>). assert (I1 : Inv E [] n None w1) by (eapply Inv_relock; [exact HI|done|done|apply HI|done..]).
  pose proof (inv_mgr _ _ _ _ _ HI) as Hm. assert (HG : forall s, s ∈ List_ (sv_mgr w) ord <-> exists k, Get (sv_mgr w) k = Some s)
    by (intros s; by apply (registered_sessions E HE)).
  assert (Hid : map s_ID (List_ (sv_mgr w) ord) = map fst ord).
  { unfold List_. rewrite map_map. apply map_ext_in. intros [k l] Hin%list_elem_of_In. cbn. unfold ord in Hin.
    rewrite (eo_ids E HE) in Hin. apply elem_of_map_to_list in Hin.
    apply (Get_ID _ Hm k). unfold Get. by rewrite Hin. }
  assert (HN : NoDup (map s_ID (List_ (sv_mgr w) ord))).
  { rewrite Hid. assert (P : map fst ord ≡ₚ map fst (map_to_list (byID (sv_mgr w)))) by (apply Permutation_map, (eo_ids E HE)).
    rewrite P. apply NoDup_fst_map_to_list. }
  pose proof (wp_shutdown_gone n _ w1 I1 HN) as Hl. unfold wp in Hl.
  assert (Hss : forall s, s ∈ List_ (sv_mgr w) ord -> get w1 (s_ID s) = Some s).
  { intros s (k & Hk)%HG. unfold get. cbn. by rewrite (Get_ID _ Hm _ _ Hk). }
  specialize (Hl Hss). destruct (shutdown_loop E _ w1) as [[w2 errs]|]; [|done]. destruct Hl as (I2 & O2 & G2).
  split; [exact I2|]. intros Hl k s Hs. destruct (decide (k ∈ map s_ID (List_ (sv_mgr w) ord))) as [Hk|Hk].
  - apply (G2 ltac:(destruct Hl as [?|?%Join_none]; auto) k s Hk Hs).
  - exfalso. rewrite O2 in Hs by done. apply Hk. rewrite <- (Get_ID _ Hm k s Hs). apply list_elem_of_fmap_2, HG. by exists k.
Qed.
End shutdown.

(** * Duplicate attaches *)

(** Code that changes no session, calls no other component and leaves the
    locks alone. *)
Definition silent {A} (m : M A) : Prop :=
  forall w, wp m (fun _ w' => same_sessions (sv_mgr w) (sv_mgr w') /\ sv_trace w' = sv_trace w /\
                              sv_locks w' = sv_locks w) w.

Lemma silent_ret {A} (a : A) : silent (ret a).
Proof. by intros w. Qed.

Lemma silent_bind {A B} (m : M A) (k : A -> M B) : silent m -> (forall a, silent (k a)) -> silent (bind m k).
Proof.
  intros Hm Hk w. apply wp_bind. eapply wp_mono; [apply Hm|]. intros a w1 (M1 & T1 & L1).
  eapply wp_mono; [apply Hk|]. intros b w2 (M2 & T2 & L2). split; [by etransitivity|]. split; congruence.
Qed.

Lemma silent_at_now E {A} (f : Manager -> Time -> Manager * A) :
  (forall m t, same_sessions m (fst (f m t))) -> silent (at_now E f).
Proof.
  intros Hf w. unfold at_now, now, wp, bind, ask, on_mgr. cbn. specialize (Hf (sv_mgr w) (v_now E (sv_questions w))).
  by destruct (f (sv_mgr w) _).
Qed.

Lemma silent_logRecovery E req : silent (logRecoveryAttachIfPresent E req).
Proof.
  unfold logRecoveryAttachIfPresent. destruct (_ || _)%bool; [apply silent_ret|].
  apply silent_at_now. auto with same.
Qed.

Lemma silent_completeIf E t c r : silent (completeIf E t c r).
Proof.
  unfold completeIf, completeRecovery. destruct t; [|apply silent_ret]. destruct r as [r|]; [|apply silent_ret].
  apply silent_bind; [by intros w|]. intros m. case_match; [|apply silent_ret].
  apply silent_bind; [apply silent_at_now; intros; apply same_complete|intros _; apply silent_ret].
Qed.

Lemma findBySubscriber_find m ord imsi mac apn :
  FindAnyBySubscriber m ord imsi mac apn =
  List.find (fun s => subscriberMatches s imsi mac apn) (map (fun '(_, l) => deref m l) ord).
Proof.
  unfold FindAnyBySubscriber. induction ord as [|[k l] ord IH]; [done|]. cbn [findBySubscriber map List.find andb].
  rewrite IH. by destruct (subscriberMatches _ _ _ _).
Qed.

(** The only registered session of the subscriber is found. *)
Lemma find_only E n m s imsi mac apn :
  env_ok E -> mgr_ok m -> Get m (s_ID s) = Some s -> subscriberMatches s imsi mac apn = true ->
  (forall k x, Get m k = Some x -> subscriberMatches x imsi mac apn = true -> k = s_ID s) ->
  FindAnyBySubscriber m (v_ids E n m) imsi mac apn = Some s.
Proof.
  intros HE Hm Hs Hmt Honly. rewrite findBySubscriber_find.
  destruct (List.find _ _) as [x|] eqn:Ef.
  - apply List.find_some in Ef as [Hin Hx]. apply list_elem_of_In, (registered_sessions E HE n m x) in Hin as (k & Hk).
    rewrite (Honly k x Hk Hx) in Hk. congruence.
  - apply (List.find_none _ _) with (x := s) in Ef; [congruence|].
    apply list_elem_of_In, (registered_sessions E HE n m s). eauto.
Qed.

(** An active session without user-plane errors is kept, unless the policy
    says otherwise. *)
Lemma keep_existing E s req :
  lc_DuplicateAttachPolicy (cfg_Lifecycle (v_cfg E)) <> "replace_existing" ->
  s_State s = State.Active -> s_SubscriberIP s <> [] -> s_GTPUErrorCount s <= 0 ->
  subscriberMatches s (q_IMSI req) (q_MACAddress req) (q_APN req) = true ->
  shouldReplaceExisting E s req = false.
Proof.
  intros Hp%String.eqb_neq Hst Hip Hg Hm. unfold shouldReplaceExisting. rewrite Hp, Hst.
  assert (Hn : non_nil (s_SubscriberIP s) = true) by (by destruct (s_SubscriberIP s)).
  assert (Hz : (0 <? s_GTPUErrorCount s) = false) by (apply Z.ltb_ge; lia).
  rewrite Hn, Hz. cbn. unfold subscriberMatches in Hm.
  destruct (nonempty (q_APN req)), (nonempty (s_APN s)); try done. cbn in *.
  destruct (_ && _ && _)%bool in Hm; [done|]. destruct (_ && _ && _)%bool in Hm; [done|].
  unfold sameAPN in Hm. rewrite (EqualFold_sym (q_APN req)). by destruct (EqualFold (s_APN s) (q_APN req)).
Qed.

Lemma wp_free_lock E key w (Q : option gerr -> Service -> Prop) :
  sv_locks w = [] -> v_lock E (sv_questions w) key = None ->
  (forall w', sv_mgr w' = sv_mgr w -> sv_trace w' = EvLock key :: sv_trace w -> sv_locks w' = [key] -> Q None w') ->
  wp (lock E key) Q w.
Proof.
  intros HL Hk HQ. unfold lock, wp, bind, gets, ask, ret, modify, emit. cbn.
  rewrite HL, bool_decide_eq_false_2 by apply not_elem_of_nil. rewrite Hk. apply HQ; [done..|]. cbn. by rewrite HL.
Qed.

Lemma wp_only_unlock key w (Q : unit -> Service -> Prop) :
  sv_locks w = [key] ->
  (forall w', sv_mgr w' = sv_mgr w -> sv_trace w' = EvUnlock key :: sv_trace w -> sv_locks w' = [] -> Q tt w') ->
  wp (unlock key) Q w.
Proof.
  intros HL HQ. unfold unlock, wp, bind, modify, emit. apply HQ; [done..|]. cbn. rewrite HL. cbn.
  by rewrite String.eqb_refl.
Qed.

(** The reuse of the only session [s] of the subscriber. *)
Definition reusable (E : Env) (w : Service) (req : AttachRequest) (s : Session) : Prop :=
  lc_DuplicateAttachPolicy (cfg_Lifecycle (v_cfg E)) <> "replace_existing" /\
  get w (s_ID s) = Some s /\ s_State s = State.Active /\ s_GTPUErrorCount s <= 0 /\
  subscriberMatches s (q_IMSI req) (q_MACAddress req) (q_APN req) = true /\
  forall k x, get w k = Some x -> subscriberMatches x (q_IMSI req) (q_MACAddress req) (q_APN req) = true -> k = s_ID s.

Lemma wp_find_only E m0 s imsi mac apn w :
  env_ok E -> mgr_ok (sv_mgr w) -> same_sessions m0 (sv_mgr w) ->
  Get m0 (s_ID s) = Some s -> s_State s = State.Active -> subscriberMatches s imsi mac apn = true ->
  (forall k x, Get m0 k = Some x -> subscriberMatches x imsi mac apn = true -> k = s_ID s) ->
  wp (findAttachExisting E imsi mac apn) (fun r w' => r = Some s /\ sv_mgr w' = sv_mgr w /\
    sv_trace w' = sv_trace w /\ sv_locks w' = sv_locks w) w.
Proof.
  intros HE Hm Hsame Hs Hst Hmt Honly. pose proof (same_sessions_Get _ _ Hsame) as HG.
  pose proof (find_only E (sv_questions w) (sv_mgr w) s imsi mac apn HE Hm) as Hf.
  rewrite HG in Hf. specialize (Hf Hs Hmt). unfold findAttachExisting, over_ids, wp, bind, gets, ask, ret. cbn.
  rewrite Hf; [by rewrite Hst|]. intros k x. rewrite HG. apply Honly.
Qed.

Lemma wp_keep E s req w :
  isLivePGWOwner (s_State s) = true -> shouldReplaceExisting E s req = false ->
  wp (handleExistingBeforeAttach E s req) (fun r w' => r = (Some (responseFromSession s), false, None) /\
    sv_mgr w' = sv_mgr w /\ sv_trace w' = sv_trace w /\ sv_locks w' = sv_locks w) w.
Proof. intros Hl Hr. unfold handleExistingBeforeAttach. rewrite Hl, Hr. done. Qed.

Lemma wp_reuse E req key s w :
  env_ok E -> mgr_ok (sv_mgr w) -> s_SubscriberIP s <> [] -> reusable E w req s ->
  wp (attach_locked E req key) (fun r w' => r = (Some key, (Some (responseFromSession s), None)) /\
    same_sessions (sv_mgr w) (sv_mgr w') /\ sv_trace w' = sv_trace w /\ sv_locks w' = sv_locks w) w.
Proof.
  intros HE Hm Hip (Hpol & Hs & Hst & Hg & Hmt & Honly).
  unfold attach_locked. apply wp_bind. eapply wp_mono; [apply silent_logRecovery|]. intros t w1 (M1 & T1 & L1).
  apply wp_bind. unfold before_attach. apply wp_bind.
  eapply wp_mono; [by eapply wp_find_only; [|by eapply same_sessions_ok|..]|].
  intros r w2 (-> & M2 & T2 & L2). apply wp_bind.
  eapply wp_mono; [apply wp_keep; [by rewrite Hst|by apply keep_existing]|]. intros r w3 (-> & M3 & T3 & L3).
  apply wp_bind, wp_ret. cbv beta iota. apply wp_bind.
  eapply wp_mono; [apply silent_completeIf|]. intros _ w4 (M4 & T4 & L4). apply wp_ret. cbv beta iota. apply wp_ret.
  split; [done|]. split; [|split; congruence]. etransitivity; [exact M1|]. by rewrite <- M2, <- M3.
Qed.

(** C17: A duplicate attach of a subscriber whose only registered session is
    active, has no user-plane errors and is not to be replaced by policy is
    answered with that session: the lock is taken and freed, and nothing else
    happens, no other component is called and no session changes. *)
Theorem duplicate_attach_reuses E n w req0 s :
  let req := withDefaults E req0 in
  let key := subscriberLockKey (q_IMSI req) (q_MACAddress req) (q_APN req) in
  env_ok E -> reached E n w -> v_lock E (sv_questions w) key = None -> reusable E w req s ->
  exists w', Attach E req0 w = Some (w', (Some (responseFromSession s), None)) /\
    sv_trace w' = EvUnlock key :: EvLock key :: sv_trace w /\ (forall k, get w' k = get w k) /\ sv_locks w' = [].
Proof.
  intros req key HE HR%reached_Inv Hlock Hre; [|done].
  pose proof Hre as (_ & Hs & Hst & _).
  assert (Hip : s_SubscriberIP s <> []) by (apply (inv_ip _ _ _ _ _ HR (s_ID s) s); [done..|by rewrite Hst]).
  set (P := fun (r : option AttachResponse * option gerr) w' => r = (Some (responseFromSession s), None) /\
    sv_trace w' = EvUnlock key :: EvLock key :: sv_trace w /\ (forall k, get w' k = get w k) /\ sv_locks w' = []).
  assert (Hw : wp (Attach E req0) P w).
  2: { apply wp_result in Hw as (w' & r & Hr & -> & H). by exists w'. }
  unfold Attach. fold req. fold key. apply wp_bind. unfold lockSubscriber. fold key.
  apply wp_free_lock; [by apply HR|done|]. intros w1 M1 T1 L1. apply wp_bind.
  eapply wp_mono; [apply wp_reuse; [done|rewrite M1; by apply HR|exact Hip|unfold reusable, get in *; by rewrite M1]|].
  intros r w2 (-> & M2 & T2 & L2). cbv beta iota. apply wp_bind. apply wp_only_unlock; [congruence|].
  intros w3 M3 T3 L3. apply wp_ret. split; [done|]. split; [congruence|]. split; [|done].
  intros k. unfold get. by rewrite M3, (same_sessions_Get _ _ M2), M1.
Qed.

Lemma duplicate_attach_reuses_witness :
  exists s w', get demo_w demo_sid = Some s /\
    Attach demo_env demo_req demo_w = Some (w', (Some (responseFromSession s), None)) /\ sv_locks w' = [].
Proof.
  destruct (get demo_w demo_sid) as [s|] eqn:Hs; [|exfalso; vm_compute in Hs; discriminate Hs].
  assert (H : match get demo_w demo_sid with
    | Some s => s_ID s = demo_sid /\ s_State s = State.Active /\ s_GTPUErrorCount s = 0 /\
      subscriberMatches s "001010000000001" "02:00:00:00:00:01" "internet" = true
    | None => False end) by (vm_compute; repeat split; reflexivity).
  assert (Hone : map fst (map_to_list (byID (sv_mgr demo_w))) = [demo_sid]) by (vm_compute; reflexivity).
  rewrite Hs in H. destruct H as (Hid & Hst & Hg & Hmt). exists s.
  assert (Hre : reusable demo_env demo_w (withDefaults demo_env demo_req) s).
  { split; [discriminate|]. split; [rewrite Hid; exact Hs|]. split; [exact Hst|].
    split; [rewrite Hg; reflexivity || discriminate|]. split; [exact Hmt|].
    intros k x (l & Hl & _)%fmap_Some _. apply elem_of_map_to_list in Hl.
    assert (Hk : k ∈ map fst (map_to_list (byID (sv_mgr demo_w)))) by (apply list_elem_of_fmap; exists (k, l); auto).
    rewrite Hone in Hk. apply list_elem_of_singleton in Hk. congruence. }
  destruct (duplicate_attach_reuses demo_env 1 demo_w demo_req s demo_env_ok demo_reached eq_refl Hre) as (w' & Ha & _ & _ & Hl).
  exists w'. split; [reflexivity|]. split; [exact Ha|exact Hl].
Defined.

(** * Two behaviours of the code *)

(** Without a user plane, a refusal of the access side makes the cleanup call
    a method of a nil interface: the handler panics. *)
Definition no_user_plane : Env := {|
  v_cfg := demo_cfg; v_user := false; v_access := true; v_dynamic := false; v_pgwIsGTP := true;
  v_now := v_now demo_env; v_ids := v_ids demo_env; v_rmac := v_rmac demo_env; v_rimsi := v_rimsi demo_env;
  v_lock := v_lock demo_env; v_ctxErr := v_ctxErr demo_env; v_authenticate := v_authenticate demo_env;
  v_exchangeEAP := v_exchangeEAP demo_env; v_createSession := v_createSession demo_env;
  v_add := fun _ r _ => match r with RAccess => Some (errorf "no access session") | _ => None end;
  v_remove := v_remove demo_env; v_disconnect := v_disconnect demo_env |}.

Example access_without_user_plane_panics : Attach no_user_plane demo_req (NewService None) = None.
Proof. vm_compute. reflexivity. Qed.

(** A request that names only a MAC address, of a subscriber whose IMSI the
    AAA server supplies: the lock moves to the IMSI, the search for an existing
    session finds the session of this very attach, which is terminated, and
    the attach fails. *)
Definition supplies_imsi : Env := {|
  v_cfg := demo_cfg; v_user := true; v_access := true; v_dynamic := false; v_pgwIsGTP := true;
  v_now := v_now demo_env; v_ids := v_ids demo_env; v_rmac := v_rmac demo_env; v_rimsi := v_rimsi demo_env;
  v_lock := v_lock demo_env; v_ctxErr := v_ctxErr demo_env;
  v_authenticate := fun _ q => (Some (mkAuthResult true "001010000000001" "" (arq_APN q) "" "ok" 2001), None);
  v_exchangeEAP := v_exchangeEAP demo_env; v_createSession := v_createSession demo_env;
  v_add := v_add demo_env; v_remove := v_remove demo_env; v_disconnect := v_disconnect demo_env |}.

Example attach_terminates_itself :
  match Attach supplies_imsi (zeroAttachRequest <| q_MACAddress := "02:00:00:00:00:01" |>) (NewService None) with
  | Some (w', (_, Some e)) => ge_msg e = "session " +:+ quote "twag-3000000000-1" +:+ " not found" /\ map_to_list (byID (sv_mgr w')) = []
  | _ => False
  end.
Proof. vm_compute. split; reflexivity. Qed.
