(* ===== verification/Pgw.v ===== *)
(** The package [internal/pgw]: the GTP-C client behind the interface that
    the lifecycle service calls, and what the service can tell of its errors.

    [why] is what [ctx.Err()] returns once the context of the call has ended,
    [sock] the text of a socket error. *)
From S2P Require Import Prelude.
From S2P Require Import GoNet.
From S2P Require Import Config.
From S2P Require Import Session.
From S2P Require Import SessionFacts.
From S2P Require Import Gtpv2.
From S2P Require Import GtpClient.
From S2P Require Import GtpRun.
From S2P Require Import Lifecycle.
Open Scope string_scope.
Open Scope Z_scope.

Definition ModeGTP : string := "gtp".

Inductive CtxErr := Canceled | DeadlineExceeded.

Definition ctx_text (e : CtxErr) : string :=
  match e with Canceled => "context canceled" | DeadlineExceeded => "context deadline exceeded" end.

(** * The texts of the errors *)
Definition hex2 (z : Z) : string :=
  let n := Z.to_N (z mod 256) in String (hex_digit (n / 16)%N) (String (hex_digit (n mod 16)%N) EmptyString).

Definition gtp_err_text (e : gtp_err) : string :=
  match e with
  | ErrSequenceRange s => "gtpv2 sequence " +:+ pretty s +:+ " outside StarOS-compatible range 0x000001-0x7fffff"
  | ErrTooLarge n => "gtpv2 message too large: " +:+ pretty n
  | ErrTooShort n => "gtpv2 message too short: " +:+ pretty n
  | ErrVersion flags => "unsupported gtp version flags 0x" +:+ hex2 flags
  | ErrLength field actual => "gtpv2 length " +:+ pretty field +:+ " does not match packet length " +:+ pretty actual
  | ErrTEIDTooShort n => "gtpv2 teid message too short: " +:+ pretty n
  | ErrIEHeader => "gtpv2 IE header truncated"
  | ErrIELength typ l remaining => "gtpv2 IE " +:+ pretty typ +:+ " length " +:+ pretty l +:+ " exceeds remaining " +:+ pretty remaining
  end.

Definition GTPError_Error (operation : string) (cause : Z) (message : string) : string :=
  operation +:+ " rejected with cause " +:+ pretty cause +:+ (if nonempty message then ": " +:+ message else "").

(** [kind] names the request whose response was expected. *)
Definition gtpc_text (kind sock : string) (why : CtxErr) (e : gtpc_error) : string :=
  match e with
  | GTPError operation cause message => GTPError_Error operation cause message
  | ECodec e => gtp_err_text e
  | EClosed => "GTP-C client closed"
  | EDuplicateSequence seq => "duplicate GTP-C sequence " +:+ pretty seq
  | ESend => "send GTP-C message: " +:+ sock
  | ETypeMismatch d seq got want => d +:+ " response type mismatch for sequence " +:+ pretty seq +:+ ": got "
      +:+ pretty got +:+ " want " +:+ pretty want
  | ETimeout d seq => d +:+ " timeout waiting for response sequence " +:+ pretty seq
  | ECanceled d seq => d +:+ " canceled waiting for response sequence " +:+ pretty seq +:+ ": " +:+ ctx_text Canceled
  | EContext => ctx_text why
  | ENoSession => "session is required"
  | ENoControlTEID => "session has no PGW control TEID"
  | EUnexpectedType t => "expected GTPv2 " +:+ kind +:+ " Response, got message type " +:+ pretty t
  end.

(** What [pgw.IsContextNotFound] and [errors.Is] find: only [ctx.Err()] itself
    is the sentinel; the timeout of a transaction does not wrap it. *)
Definition of_gtpc (kind sock : string) (why : CtxErr) (e : gtpc_error) : gerr :=
  mkErr (gtpc_text kind sock why e) (IsContextNotFound e)
    (match e, why with EContext, DeadlineExceeded => true | _, _ => false end).

(** * The client *)
Record PGWClient := mkPGWClient { inner : GTPClient }.

Definition pgw_NewGTP (cfg gtpCfg : GTPConfig) (now : Z) (rnd : option (list Z)) : option PGWClient :=
  mkPGWClient <$> NewGTP cfg (gt_ControlEcho gtpCfg) now rnd.

Definition NewClient (cfg : GTPConfig) (now : Z) (rnd : option (list Z)) : option PGWClient := pgw_NewGTP cfg cfg now rnd.

Definition pgw_Type (c : PGWClient) : string := ModeGTP.

Definition pgw_Close (c : PGWClient) : PGWClient := mkPGWClient (Close (inner c)).

Definition pgw_StartEchoWatchdog (c : PGWClient) : PGWClient * bool :=
  let '(i, started) := StartEchoWatchdog (inner c) in (mkPGWClient i, started).

Definition pgw_SetNetworkDeleteHandler (c : PGWClient) : PGWClient := mkPGWClient (SetNetworkDeleteHandler (inner c)).

Definition pgw_Probe (c : PGWClient) (x : exchange) (latency : Z) (now : Time) (sock : string) (why : CtxErr)
  : go (PGWClient * list output * option gerr) :=
  '(i, outs, e) ← Probe (inner c) x latency now;
  Some (mkPGWClient i, outs, option_map (of_gtpc "Echo" sock why) e).

(** The result is copied field by field. *)
Definition copy_result (r : CreateSessionResult) : CreateSessionResult :=
  mkResult (r_SubscriberIP r) (r_GatewayIP r) (r_PGWControlIP r) (r_PGWUserIP r) (r_GTPCTEID r) (r_LocalGTPUTEID r)
    (r_RemoteGTPUTEID r).

Definition pgw_CreateSession (c : PGWClient) (ctx : bool) (sess : option Session) (x : exchange) (sock : string) (why : CtxErr)
  : go (PGWClient * list output * result CreateSessionResult gerr) :=
  '(i, outs, r) ← CreateSession (inner c) ctx sess x;
  Some (mkPGWClient i, outs, match r with
                             | Ok r => Ok (copy_result r)
                             | Err e => Err (of_gtpc "Create Session" sock why e)
                             end).

Definition pgw_DeleteSession (c : PGWClient) (ctx : bool) (sess : option Session) (x : exchange) (sock : string) (why : CtxErr)
  : go (PGWClient * list output * option gerr) :=
  '(i, outs, e) ← DeleteSession (inner c) ctx sess x;
  Some (mkPGWClient i, outs, option_map (of_gtpc "Delete Session" sock why) e).

(** * What the service learns from a Delete Session *)

(** The cause of a response, as [DeleteSession] reads it. *)
Definition response_cause (m : gtpv2Message) : option Z :=
  match decodeIEs (g_Payload m) with
  | Some (Ok ies) => parseCause ies
  | _ => None
  end.

(** The answer to the request with the client's next sequence number. *)
Definition delete_answer (c : GTPClient) (x : exchange) : option gtpv2Message :=
  match ex_wakeup x with
  | WResponse => head (omap (answer_to (cl_remote c) (next_sequence (cl_seq c)) gtpv2DeleteSessionResp) (heard (ex_during x)))
  | _ => None
  end.

Lemma deleteSessionFinish_spec m :
  bytes_ok (g_Payload m) -> g_Type m = gtpv2DeleteSessionResp ->
  exists e, deleteSessionFinish (Ok m) = Some e /\ (e = None <-> response_cause m = Some causeRequestAccepted) /\
    forall g, e = Some g -> g <> EContext /\ (IsContextNotFound g = true <-> response_cause m = Some GTPv2CauseContextNotFound).
Proof.
  intros B T. unfold deleteSessionFinish, response_cause. rewrite T, Z.eqb_refl. cbn [negb].
  destruct (decodeIEs_loop_total (length (g_Payload m)) (g_Payload m) [] B) as [r Hr]; [lia|].
  fold (decodeIEs (g_Payload m)) in Hr. rewrite Hr. cbn [mbind option_bind]. destruct r as [ies|e].
  - unfold parseCause. destruct (parseCauseInfo_total ies) as [ci ->]. cbn [mbind option_bind].
    destruct (c_Cause ci =? causeRequestAccepted) eqn:E; cbn [negb]; bools; eexists; (split; [done|]); split.
    + split; [intros _; by rewrite E|done].
    + done.
    + split; [done|]. intros [= H]. congruence.
    + intros g [= <-]. split; [done|]. cbn [IsContextNotFound]. rewrite Z.eqb_eq. split; [by intros ->|by intros [= ->]].
  - eexists. split; [done|]. split; [done|]. by intros g [= <-].
Qed.

(** The failures that a waiting transaction hears are no answers. *)
Lemma failure_kind remote seq t d ops e :
  head (omap (failure_of remote seq t d) ops) = Some e -> IsContextNotFound e = false /\ e <> EContext.
Proof.
  intros H. assert (I : e ∈ omap (failure_of remote seq t d) ops) by (destruct (omap _ _); [done|]; injection H as ->; by left).
  apply list_elem_of_omap in I as (op & _ & Ho). revert Ho. unfold failure_of.
  destruct op; try (by intros [= <-]); destruct (response_msg _ _) as [m|]; cbn [mbind option_bind]; try done;
    destruct (_ && _)%bool; by intros [= <-].
Qed.

Lemma mailbox_cases remote seq t d x :
  match (match ex_wakeup x with WResponse => head (omap (answer_to remote seq t) (heard (ex_during x))) | _ => None end) with
  | Some m => mailbox_result remote seq t d x = Ok m
  | None => exists e, mailbox_result remote seq t d x = Err e /\ IsContextNotFound e = false /\ e <> EContext
  end.
Proof.
  unfold mailbox_result. destruct (ex_wakeup x); [destruct (head (omap (answer_to _ _ _) _)); [done|]| | |].
  - eexists. by split.
  - destruct (head (omap (failure_of _ _ _ _) _)) as [g|] eqn:Eg; [|eexists; by split].
    exists g. split; [done|]. by eapply failure_kind.
  - eexists. by split.
  - eexists. by split.
Qed.

(** Success is cause 16; harmless is cause 64. *)
Definition delete_outcome (c : PGWClient) (x : exchange) (e : option gerr) : Prop :=
  (e = None <-> exists m, delete_answer (inner c) x = Some m /\ response_cause m = Some causeRequestAccepted) /\
  forall g, e = Some g -> nonFatalPGWDeleteError g = true <->
    exists m, delete_answer (inner c) x = Some m /\ response_cause m = Some GTPv2CauseContextNotFound.

Lemma delete_unanswered c x kind sock why e :
  delete_answer (inner c) x = None -> IsContextNotFound e = false -> e <> EContext ->
  delete_outcome c x (Some (of_gtpc kind sock why e)).
Proof.
  intros D N C. unfold delete_outcome. rewrite D. split; [split; [done|by intros (? & ? & _)]|].
  intros g [= <-]. unfold nonFatalPGWDeleteError, of_gtpc. cbn [ge_contextNotFound ge_deadline]. rewrite N.
  split; [by destruct e|by intros (? & ? & _)].
Qed.

Lemma delete_answered c x kind sock why m e :
  delete_answer (inner c) x = Some m -> (e = None <-> response_cause m = Some causeRequestAccepted) ->
  (forall g, e = Some g -> g <> EContext /\ (IsContextNotFound g = true <-> response_cause m = Some GTPv2CauseContextNotFound)) ->
  delete_outcome c x (option_map (of_gtpc kind sock why) e).
Proof.
  intros D Hn Hf. unfold delete_outcome. rewrite D. destruct e as [g|]; cbn [option_map].
  - split; [split; [done|intros (m' & [= <-] & Hm); by apply Hn in Hm]|].
    intros g' [= <-]. destruct (Hf g eq_refl) as [X Y]. unfold nonFatalPGWDeleteError, of_gtpc. cbn [ge_contextNotFound ge_deadline].
    rewrite orb_true_iff, Y. split; [|by intros (m' & [= <-] & ?); left].
    intros [H|H]; [by exists m|]. by destruct g.
  - split; [|done]. split; [intros _; exists m; split; [done|by apply Hn]|done].
Qed.

(** C14: deleting a session at the PGW.  When the request goes out, the call
    returns, and it succeeds exactly when the PGW answered it with cause 16.
    An error counts as harmless for the local cleanup exactly when the PGW
    answered with cause 64, context not found: a timeout of the transaction
    does not, although [nonFatalPGWDeleteError] asks for an exceeded
    deadline, because the error of a timeout does not wrap it. *)
Theorem delete_session_outcome c sess x sock why c1 h b req :
  creachable (inner c) -> arrives_ok (ex_during x) -> ex_ctx x = false -> ex_sent x = true ->
  deleteSessionRequest sess = Ok req ->
  beginTransaction (inner c) req gtpv2DeleteSessionResp "Delete Session" true = (c1, Ok (h, b)) ->
  all_fair c1 h (ex_during x) ->
  exists c' outs e, pgw_DeleteSession c false (Some sess) x sock why = Some (c', OSend b (cl_remote (inner c)) :: outs, e) /\
    delete_outcome c x e.
Proof.
  intros O A Hc Hs Hr B F.
  destruct (exchange_result (inner c) req _ _ x c1 h b (creachable_ok _ O) Hc Hs B F) as (c3 & outs & E & _).
  unfold pgw_DeleteSession, DeleteSession. rewrite Hr, E. cbn [mbind option_bind].
  pose proof (mailbox_cases (cl_remote (inner c)) (next_sequence (cl_seq (inner c))) gtpv2DeleteSessionResp "Delete Session" x) as D.
  fold (delete_answer (inner c) x) in D.
  destruct (delete_answer (inner c) x) as [m|] eqn:Em.
  - rewrite D. assert (Eh : head (omap (answer_to (cl_remote (inner c)) (next_sequence (cl_seq (inner c)))
        gtpv2DeleteSessionResp) (heard (ex_during x))) = Some m) by (revert Em; unfold delete_answer; by destruct (ex_wakeup x)).
    destruct (answer_is_datagram _ _ _ _ _ Eh) as (packet & peer & sent & I & _ & _ & Dm & _ & T).
    destruct (deleteSessionFinish_spec m) as (e & -> & Hn & Hf); [eapply decode_payload_bytes; [by eapply A|exact Dm]|done|].
    cbn [mbind option_bind]. do 3 eexists. split; [done|]. by eapply delete_answered.
  - destruct D as (e & -> & N & C). cbn [deleteSessionFinish mbind option_bind option_map].
    do 3 eexists. split; [done|]. by apply delete_unanswered.
Qed.

Definition demo_pgw : PGWClient := mkPGWClient demo_client.

Definition demo_bound : Session := demo_lost_session <| s_GTPCTEID := 77 |>.

Definition cause_packet (cause : Z) : list Z :=
  match encode (mkMsg gtpv2DeleteSessionResp 1 true 8 (ie_encode (mkIE ieCause 0 [cause; 0]))) with
  | Ok b => b
  | Err _ => []
  end.

(** The PGW has lost the context; the PGW does not answer. *)
Definition lost_context : exchange := mkExchange false true [OpIncoming (cause_packet 64) demo_peer true] WResponse.
Definition silent_pgw : exchange := mkExchange false true [] WDeadline.

Definition begins_well (c : GTPClient) (sess : Session) : bool :=
  match deleteSessionRequest sess with
  | Ok req => match snd (beginTransaction c req gtpv2DeleteSessionResp "Delete Session" true) with Ok _ => true | Err _ => false end
  | Err _ => false
  end.

Lemma begins_well_spec c sess : begins_well c sess = true -> exists c1 h b req, deleteSessionRequest sess = Ok req /\
  beginTransaction c req gtpv2DeleteSessionResp "Delete Session" true = (c1, Ok (h, b)).
Proof.
  unfold begins_well. destruct (deleteSessionRequest sess) as [req|]; [|done].
  destruct (beginTransaction c req _ _ _) as [c1 [[h b]|]] eqn:E; cbn [snd]; [|done]. intros _. by exists c1, h, b, req.
Qed.

Lemma demo_delete_begins : begins_well demo_client demo_bound = true.
Proof. vm_compute. reflexivity. Qed.

Lemma demo_lost_cause : (delete_answer demo_client lost_context ≫= response_cause) = Some GTPv2CauseContextNotFound.
Proof. vm_compute. reflexivity. Qed.

Lemma delete_session_outcome_witness :
  (exists c' outs g, pgw_DeleteSession demo_pgw false (Some demo_bound) lost_context "" DeadlineExceeded = Some (c', outs, Some g) /\
     nonFatalPGWDeleteError g = true) /\
  (exists c' outs g, pgw_DeleteSession demo_pgw false (Some demo_bound) silent_pgw "" DeadlineExceeded = Some (c', outs, Some g) /\
     nonFatalPGWDeleteError g = false).
Proof.
  destruct (begins_well_spec _ _ demo_delete_begins) as (c1 & h & b & req & Hr & B). split.
  - destruct (delete_session_outcome demo_pgw demo_bound lost_context "" DeadlineExceeded c1 h b req demo_client_reachable)
      as (c' & outs & e & E & Hn & Hf); [|done|done|exact Hr|exact B|split; [exact I|intros; exact I]|].
    + intros packet peer sent Hi. unfold lost_context in Hi. cbn [ex_during] in Hi.
      apply list_elem_of_singleton in Hi. injection Hi as -> _ _. repeat constructor; vm_compute; congruence.
    + assert (D : exists m, delete_answer demo_client lost_context = Some m /\ response_cause m = Some GTPv2CauseContextNotFound)
        by (pose proof demo_lost_cause as L; by destruct (delete_answer demo_client lost_context) as [m|]; [exists m|]).
      destruct e as [g|]; [|destruct D as (m & D1 & D2); destruct (proj1 Hn eq_refl) as (m' & D3 & D4);
        cbn [inner demo_pgw] in D3; rewrite D1 in D3; injection D3 as <-; rewrite D2 in D4; discriminate D4].
      exists c', (OSend b (cl_remote demo_client) :: outs), g. split; [exact E|]. apply Hf; [done|exact D].
  - destruct (delete_session_outcome demo_pgw demo_bound silent_pgw "" DeadlineExceeded c1 h b req demo_client_reachable)
      as (c' & outs & e & E & Hn & Hf); [|done|done|exact Hr|exact B|exact I|].
    + intros packet peer sent Hi. by apply not_elem_of_nil in Hi.
    + destruct e as [g|]; [|destruct (proj1 Hn eq_refl) as (m & D & _); discriminate D].
      exists c', (OSend b (cl_remote demo_client) :: outs), g. split; [exact E|].
      destruct (nonFatalPGWDeleteError g) eqn:N; [|done]. apply Hf in N as (m & D & _); [discriminate D|done].
Defined.
