(* ===== verification/RecoveryRate.v ===== *)
(** The rate limit of accounting-driven recoveries, per subscriber key
    ([beginAuthCacheRecovery] and [finishAuthCacheRecovery] of
    lifecycle/service.go). *)
From S2P Require Import Prelude.
From S2P Require Import GoNet.
From S2P Require Import Config.
From S2P Require Import Session.
From S2P Require Import AuthCache.
From S2P Require Import Lifecycle.
From S2P Require Import LifecycleFacts.
Open Scope string_scope.
Open Scope Z_scope.
Open Scope life_scope.

(** * Runs: starts and ends of recoveries of any entries, at any times *)
Inductive recovery_op := RBegin (entry : AuthCacheEntry) (state : string) | RFinish (entry : AuthCacheEntry).

(** What the operations return: the starts that were allowed, with the key and
    the clock reading of each. *)
Definition recovery_step (E : Env) (o : recovery_op) : M (list (string * Time)) :=
  match o with
  | RBegin e st =>
    let* n := gets sv_questions in
    let* ok := beginAuthCacheRecovery E e st in
    ret (if ok : bool then [(authCacheRecoveryKey e, v_now E n)] else [])
  | RFinish e => finishAuthCacheRecovery E e ;; ret []
  end.

Fixpoint recovery_run (E : Env) (ops : list recovery_op) : M (list (string * Time)) :=
  match ops with
  | [] => ret []
  | o :: rest => let* l := recovery_step E o in let* r := recovery_run E rest in ret (l ++ r)%list
  end.

(** The starts of one key. *)
Definition starts_of (key : string) (l : list (string * Time)) : list Time :=
  map snd (List.filter (fun p => String.eqb (fst p) key) l).

(** The starts in the minute that ends at [t]. *)
Definition in_minute (t : Time) (l : list Time) : list Time :=
  List.filter (fun s => (t - Minute <? s) && (s <=? t))%bool l.

(** Consecutive starts are at least the cooldown apart. *)
Fixpoint spaced (gap : Z) (l : list Time) : Prop :=
  match l with
  | a :: (b :: _) as rest => gap <= b - a /\ spaced gap rest
  | _ => True
  end.

(** * One entry of the table *)
Lemma filter_le {A} (f g : A -> bool) l :
  (forall x, f x = true -> g x = true) -> (length (List.filter f l) <= length (List.filter g l))%nat.
Proof.
  intros H. induction l as [|x l IH]; [done|]. cbn. specialize (H x).
  destruct (f x); [rewrite H by done|destruct (g x)]; cbn; lia.
Qed.

Lemma filter_filter {A} (f g : A -> bool) l :
  (forall x, f x = true -> g x = true) -> List.filter f (List.filter g l) = List.filter f l.
Proof.
  intros H. induction l as [|x l IH]; [done|]. cbn. specialize (H x).
  destruct (g x), (f x) eqn:Ef; cbn; rewrite ?Ef, ?IH; try done. by specialize (H eq_refl).
Qed.

Lemma spaced_snoc gap l t : spaced gap l -> (forall s, last l = Some s -> gap <= t - s) -> spaced gap (l ++ [t]).
Proof.
  induction l as [|a l IH]; intros Hs Hl; [done|]. destruct l as [|b l]; [cbn; split; [by apply Hl|done]|].
  destruct Hs as [Hab Hs]. cbn [app spaced]. split; [done|]. apply IH; [done|]. intros s Hs'. by apply Hl.
Qed.

Section rate.
Context (cfg : AccountingStartRecoveryConfig).
Let limit : Z := Z.max 0 (asr_MaxAttemptsPerMinute cfg).
Let gap : Z := asr_CooldownSeconds cfg * Second.

(** What an entry remembers of the starts [l] so far, at time [t]. *)
Record remembers (rec : authCacheRecoveryState) (l : list Time) (t : Time) : Prop := {
  rm_past : forall s, s ∈ l -> zeroTime < s <= t;
  rm_attempts : exists p, p <= t - Minute /\ rs_attempts rec = List.filter (fun a => p <? a) l;
  rm_last : forall s, last l = Some s -> s <= rs_lastAt rec;
  rm_rate : forall T, Z.of_nat (length (in_minute T l)) <= limit;
  rm_spaced : spaced gap l
}.

Lemma remembers_none rec t : rs_attempts rec = [] -> remembers rec [] t.
Proof.
  intros Ha. split; [by intros s ?%elem_of_nil|exists (t - Minute); by rewrite Ha|done| |done].
  intros T. cbn. unfold limit. lia.
Qed.

Lemma remembers_later rec l t t' : t <= t' -> remembers rec l t -> remembers rec l t'.
Proof.
  intros Ht [H1 (p & Hp & Ha) H3 H4 H5]. split; [intros s Hs; specialize (H1 s Hs); lia|exists p; split; [lia|done]|done..].
Qed.

Lemma remembers_finish rec l t : remembers rec l t -> remembers (finish_recovery t rec) l t.
Proof.
  intros [H1 H2 H3 H4 H5]. split; try done. intros s Hs. cbn. apply H1.
  apply last_Some in Hs as [l' ->]. apply elem_of_app. right. by left.
Qed.

(** A start that is allowed keeps the rate and the distance. *)
Lemma remembers_start rec l t state :
  zeroTime < t -> remembers rec l t ->
  (negb (IsZero (rs_lastAt rec)) && (t - rs_lastAt rec <? gap))%bool = false ->
  Z.of_nat (length (List.filter (fun a => t - Minute <? a) (rs_attempts rec))) < asr_MaxAttemptsPerMinute cfg ->
  remembers (mkRecState state t (List.filter (fun a => t - Minute <? a) (rs_attempts rec) ++ [t])) (l ++ [t]) t.
Proof.
  intros Hz [H1 (p & Hp & Ha) H3 H4 H5] Hcool Hmax.
  assert (Hf : List.filter (fun a => t - Minute <? a) (rs_attempts rec) = List.filter (fun a => t - Minute <? a) l).
  { rewrite Ha. apply filter_filter. intros x Hx. bools. lia. }
  rewrite Hf in *. split.
  - intros s [Hs|Hs]%elem_of_app; [by apply H1|]. apply list_elem_of_singleton in Hs as ->. lia.
  - exists (t - Minute). split; [done|]. rewrite List.filter_app. cbn.
    assert (Hlt : (t - Minute <? t) = true) by (unfold Minute, Second in *; bools; lia). by rewrite Hlt.
  - intros s. rewrite last_snoc. intros [= <-]. cbn. lia.
  - intros T. unfold in_minute. rewrite List.filter_app, length_app, Nat2Z.inj_add. cbn.
    destruct ((T - Minute <? t) && (t <=? T))%bool eqn:Et; [|specialize (H4 T); unfold in_minute in H4; cbn; lia].
    cbn. enough (length (in_minute T l)
                 <= length (List.filter (fun a => (t - Minute <? a)%Z) l))%nat as Hle by (unfold in_minute in Hle; unfold limit; lia).
    apply filter_le. intros x Hx. bools. lia.
  - apply spaced_snoc; [done|]. intros s Hs. pose proof (H3 s Hs).
    assert (zeroTime < s <= t) by (apply H1; apply last_Some in Hs as [l' ->]; apply elem_of_app; right; by left).
    unfold IsZero in Hcool. destruct (Z.eqb_spec (rs_lastAt rec) zeroTime); [lia|]. cbn in Hcool. bools. lia.
Qed.

Lemma remembers_begin rec l t state :
  zeroTime < t -> remembers rec l t ->
  let (rec', ok) := begin_recovery cfg state t rec in remembers rec' (l ++ if ok then [t] else [])%list t.
Proof.
  intros Hz Hrm. unfold begin_recovery. destruct (HasSuffix _ _); [by rewrite app_nil_r|].
  destruct (_ && _)%bool eqn:Hcool; [by rewrite app_nil_r|].
  destruct (_ <=? _) eqn:Hmax.
  - rewrite app_nil_r. destruct Hrm as [H1 (p & Hp & Ha) H3 H4 H5]. split; try done.
    exists (t - Minute). split; [done|]. cbn. rewrite Ha. apply filter_filter. intros x Hx. bools. lia.
  - cbn in Hmax. bools. by apply remembers_start.
Qed.

End rate.

(** * Any sequence of starts and ends *)
Section runs.
Context (E : Env).
Context (clock_mono : forall n m, (n <= m)%nat -> v_now E n <= v_now E m) (clock_set : zeroTime < v_now E 0).
Let cfg : AccountingStartRecoveryConfig := rc_AccountingStartRecovery (cfg_Recovery (v_cfg E)).

Definition recalls (l : list (string * Time)) (w : Service) : Prop :=
  forall key, remembers cfg (default zeroRecState (sv_recoveryByKey w !! key)) (starts_of key l)
                (v_now E (sv_questions w)).

Lemma clock_pos n : zeroTime < v_now E n.
Proof using clock_mono clock_set. pose proof (clock_mono 0 n). lia. Qed.

Lemma starts_of_app key l1 l2 : starts_of key (l1 ++ l2) = (starts_of key l1 ++ starts_of key l2)%list.
Proof. unfold starts_of. by rewrite List.filter_app, map_app. Qed.

(** The entry of one key changes and the clock advances. *)
Lemma recalls_update l l' w w' key rec :
  recalls l w -> sv_questions w' = S (sv_questions w) -> sv_recoveryByKey w' = <[key := rec]> (sv_recoveryByKey w) ->
  remembers cfg rec (starts_of key l ++ starts_of key l')%list (v_now E (sv_questions w)) ->
  (forall k, k <> key -> starts_of k l' = []) -> recalls (l ++ l')%list w'.
Proof using clock_mono.
  intros Hr Hq Ht Hrec Hother k. rewrite Hq, Ht, starts_of_app.
  apply (remembers_later _ _ _ (v_now E (sv_questions w))); [apply clock_mono; lia|].
  destruct (decide (k = key)) as [->|Hk].
  - by rewrite lookup_insert_eq.
  - rewrite lookup_insert_ne, Hother, app_nil_r by done. apply Hr.
Qed.

Lemma wp_recovery_step o l w :
  recalls l w -> wp (recovery_step E o) (fun l' w' => recalls (l ++ l')%list w') w.
Proof using clock_mono clock_set.
  intros Hr. destruct o as [e st|e]; unfold recovery_step.
  - unfold beginAuthCacheRecovery, wp, bind, gets. fold cfg.
    destruct (negb (asr_Enabled cfg)); [cbn; by rewrite app_nil_r|].
    cbn. set (key := authCacheRecoveryKey e). set (t := v_now E (sv_questions w)).
    pose proof (remembers_begin cfg _ _ t st (clock_pos _) (Hr key)) as Hb.
    destruct (begin_recovery _ _ _ _) as [rec ok]. cbn.
    eapply (recalls_update l _ w); [done|done|done| |].
    + replace (starts_of key (if ok then [(key, t)] else [])) with (if ok then [t] else []); [exact Hb|].
      unfold starts_of. destruct ok; [|done]. cbn. by rewrite String.eqb_refl.
    + intros k Hk. unfold starts_of. destruct ok; [|done]. change (fst (key, t)) with key. cbn. unfold key. destruct (String.eqb_spec (authCacheRecoveryKey e) k); [by subst k|done].
  - unfold finishAuthCacheRecovery, wp, bind, gets, ret. set (key := authCacheRecoveryKey e).
    destruct (sv_recoveryByKey w !! key) as [rec|] eqn:Hk; [|cbn; by rewrite app_nil_r].
    cbn. eapply (recalls_update l [] w); [done|done|done| |done].
    rewrite app_nil_r. apply remembers_finish. specialize (Hr key). by rewrite Hk in Hr.
Qed.

Lemma wp_recovery_run ops l w :
  recalls l w -> wp (recovery_run E ops) (fun l' w' => recalls (l ++ l')%list w') w.
Proof using clock_mono clock_set.
  revert l w. induction ops as [|o ops IH]; intros l w Hr; [apply wp_ret; by rewrite app_nil_r|].
  cbn [recovery_run]. apply wp_bind. eapply wp_mono; [by apply wp_recovery_step|]. intros l1 w1 H1.
  apply wp_bind. eapply wp_mono; [apply (IH (l ++ l1)%list), H1|]. intros l2 w2 H2. apply wp_ret. by rewrite app_assoc.
Qed.
End runs.

(** C18: However the starts and ends of accounting-driven recoveries of any
    subscribers are interleaved, at a clock that does not go back, a subscriber
    gets no more starts within any minute than the configured maximum, and two
    consecutive ones are at least the cooldown apart. *)
Theorem recovery_rate_limited E ops w key :
  (forall n m, (n <= m)%nat -> v_now E n <= v_now E m) -> zeroTime < v_now E 0 -> sv_recoveryByKey w = ∅ ->
  let cfg := rc_AccountingStartRecovery (cfg_Recovery (v_cfg E)) in
  exists w' l, recovery_run E ops w = Some (w', l) /\
    (forall t, Z.of_nat (length (in_minute t (starts_of key l))) <= Z.max 0 (asr_MaxAttemptsPerMinute cfg)) /\
    spaced (asr_CooldownSeconds cfg * Second) (starts_of key l).
Proof.
  intros Hmono Hset Hw cfg.
  assert (Hr : recalls E [] w) by (intros k; rewrite Hw, lookup_empty; by apply remembers_none).
  pose proof (wp_recovery_run E Hmono Hset ops [] w Hr) as H. apply wp_result in H as (w' & l & Hx & Hl).
  exists w', l. split; [done|]. specialize (Hl key). split; [apply Hl|apply Hl].
Qed.

Lemma recovery_rate_limited_witness :
  exists E entry w' l, let ops := [RBegin entry "radius_accounting_start"; RFinish entry; RBegin entry "radius_accounting_start"] in
    recovery_run E ops (NewService None) = Some (w', l) /\ length l = 1%nat /\
    spaced (asr_CooldownSeconds (rc_AccountingStartRecovery (cfg_Recovery (v_cfg E))) * Second)
      (starts_of (authCacheRecoveryKey entry) l).
Proof.
  set (E := {|
    v_cfg := Default; v_user := true; v_access := true; v_dynamic := true; v_pgwIsGTP := true;
    v_now := fun n => Z.of_nat n * Second;
    v_ids := fun _ m => map_to_list (byID m);
    v_rmac := fun _ m => map_to_list (recoveryByMAC m); v_rimsi := fun _ m => map_to_list (recoveryByIMSI m);
    v_lock := fun _ _ => None; v_ctxErr := fun _ => None;
    v_authenticate := fun _ _ => (None, None); v_exchangeEAP := fun _ _ => (None, None);
    v_createSession := fun _ _ => Ok None; v_add := fun _ _ _ => None; v_remove := fun _ _ _ => None;
    v_disconnect := fun _ _ => None |}).
  set (entry := zeroAuthCacheEntry <| e_IMSI := "001010000000001" |>).
  set (ops := [RBegin entry "radius_accounting_start"; RFinish entry; RBegin entry "radius_accounting_start"]).
  assert (Hmono : forall n m, (n <= m)%nat -> v_now E n <= v_now E m) by (intros n m H; cbn; unfold Second; lia).
  destruct (recovery_rate_limited E ops (NewService None) (authCacheRecoveryKey entry) Hmono eq_refl eq_refl)
    as (w' & l & Hx & _ & Hs).
  exists E, entry, w', l. split; [exact Hx|]. split; [|exact Hs].
  assert (Hl : match recovery_run E ops (NewService None) with Some (_, l) => length l = 1%nat | None => False end)
    by (vm_compute; reflexivity).
  rewrite Hx in Hl. exact Hl.
Defined.
