(* ===== verification/Crypto.v ===== *)
(** The cryptographic functions of Go's standard library that the program
    calls: AES-128 on one block (crypto/aes), SHA-1 (crypto/sha1), MD5
    (crypto/md5) and HMAC (crypto/hmac) over them.  They are executable and
    checked against published test vectors; what the development uses of them
    elsewhere is the length and the range of their output. *)
From S2P Require Import Prelude.
Open Scope string_scope.
Open Scope Z_scope.

(** * Bytes and 32 bit words *)
Definition xor_bytes (a b : list Z) : list Z := zip_with Z.lxor a b.

Definition w32 (z : Z) : Z := z mod 2 ^ 32.
Definition add32 (a b : Z) : Z := w32 (a + b).
Definition not32 (a : Z) : Z := Z.lxor a 0xffffffff.
Definition rotl32 (k x : Z) : Z := Z.lor (w32 (Z.shiftl x k)) (Z.shiftr x (32 - k)).

(** The chunks of [n] elements of a list. *)
Fixpoint chunks (fuel n : nat) (l : list Z) : list (list Z) :=
  match fuel with
  | O => []
  | S fuel => match l with [] => [] | _ => take n l :: chunks fuel n (drop n l) end
  end.

(** Little endian words. *)
Definition le4 (z : Z) : list Z := rev (be 4 z).
Definition le_dec (l : list Z) : Z := be_dec (rev l).

(** * AES-128, encryption of one block *)
Definition sbox : list Z :=
  [0x63; 0x7c; 0x77; 0x7b; 0xf2; 0x6b; 0x6f; 0xc5; 0x30; 0x01; 0x67; 0x2b; 0xfe; 0xd7; 0xab; 0x76;
   0xca; 0x82; 0xc9; 0x7d; 0xfa; 0x59; 0x47; 0xf0; 0xad; 0xd4; 0xa2; 0xaf; 0x9c; 0xa4; 0x72; 0xc0;
   0xb7; 0xfd; 0x93; 0x26; 0x36; 0x3f; 0xf7; 0xcc; 0x34; 0xa5; 0xe5; 0xf1; 0x71; 0xd8; 0x31; 0x15;
   0x04; 0xc7; 0x23; 0xc3; 0x18; 0x96; 0x05; 0x9a; 0x07; 0x12; 0x80; 0xe2; 0xeb; 0x27; 0xb2; 0x75;
   0x09; 0x83; 0x2c; 0x1a; 0x1b; 0x6e; 0x5a; 0xa0; 0x52; 0x3b; 0xd6; 0xb3; 0x29; 0xe3; 0x2f; 0x84;
   0x53; 0xd1; 0x00; 0xed; 0x20; 0xfc; 0xb1; 0x5b; 0x6a; 0xcb; 0xbe; 0x39; 0x4a; 0x4c; 0x58; 0xcf;
   0xd0; 0xef; 0xaa; 0xfb; 0x43; 0x4d; 0x33; 0x85; 0x45; 0xf9; 0x02; 0x7f; 0x50; 0x3c; 0x9f; 0xa8;
   0x51; 0xa3; 0x40; 0x8f; 0x92; 0x9d; 0x38; 0xf5; 0xbc; 0xb6; 0xda; 0x21; 0x10; 0xff; 0xf3; 0xd2;
   0xcd; 0x0c; 0x13; 0xec; 0x5f; 0x97; 0x44; 0x17; 0xc4; 0xa7; 0x7e; 0x3d; 0x64; 0x5d; 0x19; 0x73;
   0x60; 0x81; 0x4f; 0xdc; 0x22; 0x2a; 0x90; 0x88; 0x46; 0xee; 0xb8; 0x14; 0xde; 0x5e; 0x0b; 0xdb;
   0xe0; 0x32; 0x3a; 0x0a; 0x49; 0x06; 0x24; 0x5c; 0xc2; 0xd3; 0xac; 0x62; 0x91; 0x95; 0xe4; 0x79;
   0xe7; 0xc8; 0x37; 0x6d; 0x8d; 0xd5; 0x4e; 0xa9; 0x6c; 0x56; 0xf4; 0xea; 0x65; 0x7a; 0xae; 0x08;
   0xba; 0x78; 0x25; 0x2e; 0x1c; 0xa6; 0xb4; 0xc6; 0xe8; 0xdd; 0x74; 0x1f; 0x4b; 0xbd; 0x8b; 0x8a;
   0x70; 0x3e; 0xb5; 0x66; 0x48; 0x03; 0xf6; 0x0e; 0x61; 0x35; 0x57; 0xb9; 0x86; 0xc1; 0x1d; 0x9e;
   0xe1; 0xf8; 0x98; 0x11; 0x69; 0xd9; 0x8e; 0x94; 0x9b; 0x1e; 0x87; 0xe9; 0xce; 0x55; 0x28; 0xdf;
   0x8c; 0xa1; 0x89; 0x0d; 0xbf; 0xe6; 0x42; 0x68; 0x41; 0x99; 0x2d; 0x0f; 0xb0; 0x54; 0xbb; 0x16].

Definition sub_byte (b : Z) : Z := nth (Z.to_nat b) sbox 0.
Definition sub_bytes (s : list Z) : list Z := map sub_byte s.

(** The state is kept column by column. *)
Definition shift_rows (s : list Z) : list Z :=
  map (fun i => nth i s 0) [0; 5; 10; 15; 4; 9; 14; 3; 8; 13; 2; 7; 12; 1; 6; 11]%nat.

Definition xtime (b : Z) : Z := if b <? 128 then 2 * b else Z.lxor (2 * b - 256) 0x1b.

Definition mix_byte (a b c d : Z) : Z := Z.lxor (Z.lxor (xtime a) (Z.lxor (xtime b) b)) (Z.lxor c d).

Fixpoint mix_columns (s : list Z) : list Z :=
  match s with
  | a :: b :: c :: d :: rest =>
    mix_byte a b c d :: mix_byte b c d a :: mix_byte c d a b :: mix_byte d a b c :: mix_columns rest
  | _ => []
  end.

(** The next round key. *)
Definition key_word (i : nat) (k : list Z) : list Z := take 4 (drop (4 * i) k).
Definition rot_word (l : list Z) : list Z := match l with a :: rest => (rest ++ [a])%list | [] => [] end.

Definition next_key (rcon : Z) (k : list Z) : list Z :=
  let t := xor_bytes (sub_bytes (rot_word (key_word 3 k))) [rcon; 0; 0; 0] in
  let w0 := xor_bytes (key_word 0 k) t in
  let w1 := xor_bytes (key_word 1 k) w0 in
  let w2 := xor_bytes (key_word 2 k) w1 in
  let w3 := xor_bytes (key_word 3 k) w2 in
  (w0 ++ w1 ++ w2 ++ w3)%list.

Fixpoint aes_rounds (rcons : list Z) (k s : list Z) : list Z :=
  match rcons with
  | [] => s
  | rcon :: rest =>
    let k' := next_key rcon k in
    let t := shift_rows (sub_bytes s) in
    match rest with
    | [] => xor_bytes t k'
    | _ => aes_rounds rest k' (xor_bytes (mix_columns t) k')
    end
  end.

Definition aes_encrypt (key block : list Z) : list Z :=
  aes_rounds [0x01; 0x02; 0x04; 0x08; 0x10; 0x20; 0x40; 0x80; 0x1b; 0x36] key (xor_bytes block key).

(** * SHA-1 *)
Definition Ch (x y z : Z) : Z := Z.lxor (Z.land x y) (Z.land (not32 x) z).
Definition Parity (x y z : Z) : Z := Z.lxor (Z.lxor x y) z.
Definition Maj (x y z : Z) : Z := Z.lxor (Z.lxor (Z.land x y) (Z.land x z)) (Z.land y z).

Definition sha1_f (t : nat) : Z -> Z -> Z -> Z :=
  if (t <? 20)%nat then Ch else if (t <? 40)%nat then Parity else if (t <? 60)%nat then Maj else Parity.
Definition sha1_K (t : nat) : Z :=
  if (t <? 20)%nat then 0x5a827999 else if (t <? 40)%nat then 0x6ed9eba1
  else if (t <? 60)%nat then 0x8f1bbcdc else 0xca62c1d6.

(** The message schedule: [n] more words after [w]. *)
Fixpoint sha1_schedule (n : nat) (w : list Z) : list Z :=
  match n with
  | O => w
  | S n =>
    let t := length w in
    let x i := nth (t - i) w 0 in
    sha1_schedule n (w ++ [rotl32 1 (Z.lxor (Z.lxor (Z.lxor (x 3%nat) (x 8%nat)) (x 14%nat)) (x 16%nat))])
  end.

Record sha1_state := mkSha { h_a : Z; h_b : Z; h_c : Z; h_d : Z; h_e : Z }.

Definition sha1_step (f : Z -> Z -> Z -> Z) (k w : Z) (s : sha1_state) : sha1_state :=
  mkSha (add32 (add32 (add32 (add32 (rotl32 5 (h_a s)) (f (h_b s) (h_c s) (h_d s))) (h_e s)) k) w)
        (h_a s) (rotl32 30 (h_b s)) (h_c s) (h_d s).

Fixpoint sha1_steps (t : nat) (w : list Z) (s : sha1_state) : sha1_state :=
  match w with [] => s | x :: w => sha1_steps (S t) w (sha1_step (sha1_f t) (sha1_K t) x s) end.

Definition sha1_compress (h : sha1_state) (block : list Z) : sha1_state :=
  let s := sha1_steps 0 (sha1_schedule 64 (map be_dec (chunks 16 4 block))) h in
  mkSha (add32 (h_a h) (h_a s)) (add32 (h_b h) (h_b s)) (add32 (h_c h) (h_c s)) (add32 (h_d h) (h_d s))
        (add32 (h_e h) (h_e s)).

Definition sha1_iv : sha1_state := mkSha 0x67452301 0xefcdab89 0x98badcfe 0x10325476 0xc3d2e1f0.

Definition sha1_digest (h : sha1_state) : list Z :=
  (be 4 (h_a h) ++ be 4 (h_b h) ++ be 4 (h_c h) ++ be 4 (h_d h) ++ be 4 (h_e h))%list.

(** The padding of SHA-1 and MD5: a bit, zeros and the length in bits. *)
Definition md_pad (len8 : list Z) (msg : list Z) : list Z :=
  (msg ++ [0x80] ++ zeros ((119 - length msg mod 64) mod 64) ++ len8)%list.

Definition sha1 (msg : list Z) : list Z :=
  let padded := md_pad (be 8 (8 * Z.of_nat (length msg))) msg in
  sha1_digest (fold_left sha1_compress (chunks (length padded) 64 padded) sha1_iv).

(** * MD5 *)
Definition md5_K : list Z :=
  [0xd76aa478; 0xe8c7b756; 0x242070db; 0xc1bdceee; 0xf57c0faf; 0x4787c62a; 0xa8304613; 0xfd469501;
   0x698098d8; 0x8b44f7af; 0xffff5bb1; 0x895cd7be; 0x6b901122; 0xfd987193; 0xa679438e; 0x49b40821;
   0xf61e2562; 0xc040b340; 0x265e5a51; 0xe9b6c7aa; 0xd62f105d; 0x02441453; 0xd8a1e681; 0xe7d3fbc8;
   0x21e1cde6; 0xc33707d6; 0xf4d50d87; 0x455a14ed; 0xa9e3e905; 0xfcefa3f8; 0x676f02d9; 0x8d2a4c8a;
   0xfffa3942; 0x8771f681; 0x6d9d6122; 0xfde5380c; 0xa4beea44; 0x4bdecfa9; 0xf6bb4b60; 0xbebfbc70;
   0x289b7ec6; 0xeaa127fa; 0xd4ef3085; 0x04881d05; 0xd9d4d039; 0xe6db99e5; 0x1fa27cf8; 0xc4ac5665;
   0xf4292244; 0x432aff97; 0xab9423a7; 0xfc93a039; 0x655b59c3; 0x8f0ccc92; 0xffeff47d; 0x85845dd1;
   0x6fa87e4f; 0xfe2ce6e0; 0xa3014314; 0x4e0811a1; 0xf7537e82; 0xbd3af235; 0x2ad7d2bb; 0xeb86d391].
Definition md5_S : list Z :=
  [7; 12; 17; 22; 7; 12; 17; 22; 7; 12; 17; 22; 7; 12; 17; 22;
   5; 9; 14; 20; 5; 9; 14; 20; 5; 9; 14; 20; 5; 9; 14; 20;
   4; 11; 16; 23; 4; 11; 16; 23; 4; 11; 16; 23; 4; 11; 16; 23;
   6; 10; 15; 21; 6; 10; 15; 21; 6; 10; 15; 21; 6; 10; 15; 21].

Record md5_state := mkMd5 { m_a : Z; m_b : Z; m_c : Z; m_d : Z }.

Definition md5_mix (i : nat) (b c d : Z) : Z * nat :=
  if (i <? 16)%nat then (Z.lor (Z.land b c) (Z.land (not32 b) d), i)
  else if (i <? 32)%nat then (Z.lor (Z.land d b) (Z.land (not32 d) c), (5 * i + 1) mod 16)%nat
  else if (i <? 48)%nat then (Z.lxor (Z.lxor b c) d, (3 * i + 5) mod 16)%nat
  else (Z.lxor c (Z.lor b (not32 d)), (7 * i) mod 16)%nat.

Fixpoint md5_steps (i : nat) (ks ss m : list Z) (s : md5_state) : md5_state :=
  match ks, ss with
  | k :: ks, r :: ss =>
    let '(f, g) := md5_mix i (m_b s) (m_c s) (m_d s) in
    let x := add32 (add32 (add32 f (m_a s)) k) (nth g m 0) in
    md5_steps (S i) ks ss m (mkMd5 (m_d s) (add32 (m_b s) (rotl32 r x)) (m_b s) (m_c s))
  | _, _ => s
  end.

Definition md5_compress (h : md5_state) (block : list Z) : md5_state :=
  let s := md5_steps 0 md5_K md5_S (map le_dec (chunks 16 4 block)) h in
  mkMd5 (add32 (m_a h) (m_a s)) (add32 (m_b h) (m_b s)) (add32 (m_c h) (m_c s)) (add32 (m_d h) (m_d s)).

Definition md5 (msg : list Z) : list Z :=
  let len := 8 * Z.of_nat (length msg) in
  let padded := md_pad (le4 (w32 len) ++ le4 (Z.shiftr len 32)) msg in
  let h := fold_left md5_compress (chunks (length padded) 64 padded) (mkMd5 0x67452301 0xefcdab89 0x98badcfe 0x10325476) in
  (le4 (m_a h) ++ le4 (m_b h) ++ le4 (m_c h) ++ le4 (m_d h))%list.

(** * HMAC, with blocks of 64 bytes *)
Definition hmac (hash : list Z -> list Z) (key msg : list Z) : list Z :=
  let key := if (64 <? length key)%nat then hash key else key in
  let k := (key ++ zeros (64 - length key))%list in
  hash (map (Z.lxor 0x5c) k ++ hash (map (Z.lxor 0x36) k ++ msg))%list.

Definition hmac_sha1 : list Z -> list Z -> list Z := hmac sha1.
Definition hmac_md5 : list Z -> list Z -> list Z := hmac md5.

(** * Test vectors (FIPS 197, FIPS 180, RFC 1321, RFC 2202) *)
Example aes_vector :
  be_dec (aes_encrypt (be 16 0x000102030405060708090a0b0c0d0e0f) (be 16 0x00112233445566778899aabbccddeeff))
  = 0x69c4e0d86a7b0430d8cdb78070b4c55a.
Proof. vm_compute. reflexivity. Qed.

Example sha1_vector : be_dec (sha1 (bytes_of_string "abc")) = 0xa9993e364706816aba3e25717850c26c9cd0d89d.
Proof. vm_compute. reflexivity. Qed.

Example sha1_vector_two_blocks :
  be_dec (sha1 (bytes_of_string "abcdbcdecdefdefgefghfghighijhijkijkljklmklmnlmnomnopnopq"))
  = 0x84983e441c3bd26ebaae4aa1f95129e5e54670f1.
Proof. vm_compute. reflexivity. Qed.

Example md5_vector : be_dec (md5 (bytes_of_string "message digest")) = 0xf96b697d7cb7938d525a2f31aaf161d0.
Proof. vm_compute. reflexivity. Qed.

Example hmac_md5_vector :
  be_dec (hmac_md5 (bytes_of_string "Jefe") (bytes_of_string "what do ya want for nothing?"))
  = 0x750c783e6ab0b503eaa86e310a5db738.
Proof. vm_compute. reflexivity. Qed.

Example hmac_sha1_vector :
  be_dec (hmac_sha1 (bytes_of_string "Jefe") (bytes_of_string "what do ya want for nothing?"))
  = 0xeffcdf6ae5eb2fa2d27416d5f184df9c259a7c79.
Proof. vm_compute. reflexivity. Qed.

(** * Lengths and ranges *)
Lemma lxor_byte a b : byte_ok a -> byte_ok b -> byte_ok (Z.lxor a b).
Proof.
  unfold byte_ok. intros Ha Hb. assert (0 <= Z.lxor a b) by (apply Z.lxor_nonneg; lia). split; [done|].
  destruct (Z.eq_dec (Z.lxor a b) 0) as [->|Hz]; [done|]. change 256 with (2 ^ 8). apply Z.log2_lt_pow2; [lia|].
  pose proof (Z.log2_lxor a b ltac:(lia) ltac:(lia)).
  assert (forall x, 0 <= x < 256 -> Z.log2 x < 8).
  { intros x Hx. destruct (Z.eq_dec x 0) as [->|]; [done|]. apply Z.log2_lt_pow2; lia. }
  pose proof (H1 a Ha). pose proof (H1 b Hb). lia.
Qed.

Lemma xor_bytes_ok a b : bytes_ok a -> bytes_ok b -> bytes_ok (xor_bytes a b).
Proof.
  intros Ha. revert b. induction Ha as [|x a Hx Ha IH]; intros b Hb; [constructor|].
  destruct Hb as [|y b Hy Hb]; [constructor|]. cbn. constructor; [by apply lxor_byte|]. by apply IH.
Qed.

Lemma length_xor_bytes a b : length a = length b -> length (xor_bytes a b) = length a.
Proof. intros H. unfold xor_bytes. rewrite length_zip_with. lia. Qed.

Definition block_ok (b : list Z) : Prop := length b = 16%nat /\ bytes_ok b.

Lemma xor_block a b : block_ok a -> block_ok b -> block_ok (xor_bytes a b).
Proof. intros [La Ba] [Lb Bb]. split; [rewrite length_xor_bytes; congruence|by apply xor_bytes_ok]. Qed.

Lemma sub_byte_ok b : byte_ok (sub_byte b).
Proof.
  unfold sub_byte. destruct (nth_in_or_default (Z.to_nat b) sbox 0) as [H| ->]; [|done].
  assert (Hall : Forall byte_ok sbox).
  { apply List.Forall_forall. intros x Hx. assert (Hb : forallb (fun x => (0 <=? x) && (x <? 256)) sbox = true)
      by (vm_compute; reflexivity). rewrite forallb_forall in Hb. specialize (Hb x Hx). unfold byte_ok. bools. lia. }
  rewrite List.Forall_forall in Hall. by apply Hall.
Qed.

Lemma nth_byte i s : bytes_ok s -> byte_ok (nth i s 0).
Proof.
  intros Hs. destruct (nth_in_or_default i s 0) as [H| ->]; [|done]. unfold bytes_ok in Hs.
  rewrite List.Forall_forall in Hs. by apply Hs.
Qed.

Lemma sub_block s : length s = 16%nat -> block_ok (sub_bytes s).
Proof.
  intros L. split; [unfold sub_bytes; by rewrite length_map|]. clear L.
  induction s; constructor; [apply sub_byte_ok|done].
Qed.

Lemma shift_block s : bytes_ok s -> block_ok (shift_rows s).
Proof. intros Hs. split; [done|]. unfold shift_rows. cbn [map]. repeat (constructor; [by apply nth_byte|]). constructor. Qed.

Lemma xtime_ok b : byte_ok b -> byte_ok (xtime b).
Proof.
  unfold xtime. intros Hb. destruct (Z.ltb_spec b 128); [unfold byte_ok in *; lia|].
  apply lxor_byte; unfold byte_ok in *; lia.
Qed.

Lemma mix_byte_ok a b c d : byte_ok a -> byte_ok b -> byte_ok c -> byte_ok d -> byte_ok (mix_byte a b c d).
Proof. intros. unfold mix_byte. auto using lxor_byte, xtime_ok. Qed.

Lemma mix_block s : block_ok s -> block_ok (mix_columns s).
Proof.
  intros [L B]. do 16 (destruct s as [|? s]; [done|]). destruct s; [|done].
  unfold bytes_ok in B. rewrite !Forall_cons in B. split; [done|]. cbn [mix_columns].
  destruct B as (? & ? & ? & ? & ? & ? & ? & ? & ? & ? & ? & ? & ? & ? & ? & ? & _).
  repeat (constructor; [by apply mix_byte_ok|]). constructor.
Qed.

Lemma word_ok i k : (i < 4)%nat -> block_ok k -> length (key_word i k) = 4%nat /\ bytes_ok (key_word i k).
Proof. intros Hi [L B]. unfold key_word. split; [rewrite length_take, length_drop; lia|auto with bytes]. Qed.

Lemma next_key_block rcon k : byte_ok rcon -> block_ok k -> block_ok (next_key rcon k).
Proof.
  intros Hr Hk. unfold next_key. cbv zeta.
  assert (Hw : forall i, (i < 4)%nat -> length (key_word i k) = 4%nat /\ bytes_ok (key_word i k)) by (intros i Hi; by apply word_ok).
  assert (Hx : forall a b, length a = 4%nat /\ bytes_ok a -> length b = 4%nat /\ bytes_ok b ->
            length (xor_bytes a b) = 4%nat /\ bytes_ok (xor_bytes a b)).
  { intros a b [La Ba] [Lb Bb]. split; [rewrite length_xor_bytes; congruence|by apply xor_bytes_ok]. }
  match goal with |- context [xor_bytes (key_word 0 k) ?x] => set (t := x) end.
  assert (Ht : length t = 4%nat /\ bytes_ok t).
  { apply Hx.
    - destruct (Hw 3%nat) as [L B]; [lia|]. destruct (key_word 3 k) as [|a [|b [|c [|d [|]]]]]; try done.
      split; [done|]. repeat (constructor; [apply sub_byte_ok|]). constructor.
    - split; [done|]. repeat constructor; done || apply Hr. }
  clearbody t. pose proof (Hx _ _ (Hw 0%nat ltac:(lia)) Ht) as H0.
  pose proof (Hx _ _ (Hw 1%nat ltac:(lia)) H0) as H1. pose proof (Hx _ _ (Hw 2%nat ltac:(lia)) H1) as H2.
  pose proof (Hx _ _ (Hw 3%nat ltac:(lia)) H2) as H3.
  destruct H0 as [L0 B0], H1 as [L1 B1], H2 as [L2 B2], H3 as [L3 B3].
  split; [rewrite !length_app; lia|]. by rewrite !bytes_ok_app.
Qed.

Lemma aes_rounds_block rcons k s : Forall byte_ok rcons -> block_ok k -> block_ok s -> block_ok (aes_rounds rcons k s).
Proof.
  intros Hr. revert k s. induction Hr as [|rcon rcons Hrc Hr IH]; intros k s Hk Hs; [done|].
  cbn [aes_rounds]. pose proof (next_key_block rcon k Hrc Hk) as Hk'.
  pose proof (shift_block (sub_bytes s) (proj2 (sub_block s (proj1 Hs)))) as Ht.
  destruct rcons; [by apply xor_block|]. apply IH; [done|]. apply xor_block; [by apply mix_block|done].
Qed.

Lemma aes_block key b : block_ok key -> block_ok b -> block_ok (aes_encrypt key b).
Proof.
  intros Hk Hb. apply aes_rounds_block; [|done|by apply xor_block]. repeat constructor; cbv; discriminate || done.
Qed.

Lemma length_sha1_digest h : length (sha1_digest h) = 20%nat.
Proof. unfold sha1_digest. len. Qed.

Lemma sha1_digest_ok h : bytes_ok (sha1_digest h).
Proof. unfold sha1_digest. rewrite !bytes_ok_app. auto 10 with bytes. Qed.

Lemma length_sha1 m : length (sha1 m) = 20%nat.
Proof. apply length_sha1_digest. Qed.

Lemma length_md5 m : length (md5 m) = 16%nat.
Proof. unfold md5, le4. rewrite !length_app, !length_rev. len. Qed.

Lemma md5_ok m : bytes_ok (md5 m).
Proof. unfold md5, le4. rewrite !bytes_ok_app. split_and!; apply Forall_rev, be_bytes_ok. Qed.
