(* ===== verification/Diameter.v ===== *)
(** The Diameter codec: [internal/diameter/message.go].  Decoders run in the
    [go] monad, where [None] is a run-time panic or a loop that did not end:
    the theorems show that neither happens. *)
From S2P Require Import Prelude.
From S2P Require Import GoNet.
Open Scope string_scope.
Open Scope Z_scope.

(** * Constants *)
Definition flagRequest : Z := 0x80.
Definition flagProxiable : Z := 0x40.
Definition flagVendorAVP : Z := 0x80.
Definition flagMandatory : Z := 0x40.
Definition diameterVer : Z := 1.
Definition headerLen : nat := 20.
Definition commandCER : Z := 257.
Definition commandASR : Z := 274.
Definition commandSTR : Z := 275.
Definition commandDER : Z := 268.
Definition commandDWR : Z := 280.
Definition commandDPR : Z := 282.
Definition commandRTR : Z := 304.
Definition commandPPR : Z := 305.
Definition avpUserName : Z := 1.
Definition avpHostIPAddress : Z := 257.
Definition avpAuthApplicationID : Z := 258.
Definition avpVendorSpecificApplicationID : Z := 260.
Definition avpSessionID : Z := 263.
Definition avpOriginHost : Z := 264.
Definition avpSupportedVendorID : Z := 265.
Definition avpVendorID : Z := 266.
Definition avpFirmwareRevision : Z := 267.
Definition avpResultCode : Z := 268.
Definition avpProductName : Z := 269.
Definition avpAuthRequestType : Z := 274.
Definition avpAuthSessionState : Z := 277.
Definition avpOriginStateID : Z := 278.
Definition avpFailedAVP : Z := 279.
Definition avpDestinationRealm : Z := 283.
Definition avpDestinationHost : Z := 293.
Definition avpOriginRealm : Z := 296.
Definition avpExperimentalResult : Z := 297.
Definition avpExperimentalResultCode : Z := 298.
Definition avpInbandSecurityID : Z := 299.
Definition avpEAPPayload : Z := 462.
Definition avpEAPMasterSessionKey : Z := 464.
Definition avpServiceSelection : Z := 493.
Definition vendor3GPP : Z := 10415.
Definition inbandNoSec : Z := 0.
Definition firmwareRevOne : Z := 1.

(** * Data *)
Record avp := mkAVP { v_Code : Z; v_VendorID : Z; v_Flags : Z; v_Data : list Z }.
#[global] Instance avp_eta : Eta avp := fun a => mkAVP (v_Code a) (v_VendorID a) (v_Flags a) (v_Data a).

Record message := mkMessage {
  d_Flags : Z; d_CommandCode : Z; d_AppID : Z; d_HopByHop : Z; d_EndToEnd : Z; d_AVPs : list avp
}.

Inductive dia_err :=
| DEOF | DUnexpectedEOF | DVersion (v : Z) | DTooShort (n : Z)
| DHeaderTruncated | DVendorTruncated | DAVPLength | DPadding.

Definition isRequest (m : message) : bool := negb (Z.land (d_Flags m) flagRequest =? 0).

Definition pad4 (n : nat) : nat :=
  let rem := (n mod 4)%nat in if (rem =? 0)%nat then n else (n + 4 - rem)%nat.

(** * Encoding *)

(** [avp.encode]: the header, the vendor when there is one, the data and the
    padding.  The 24 bit length wraps. *)
Definition avp_encode (a : avp) : list Z :=
  let vendor := negb (v_VendorID a =? 0) in
  let flags := if vendor then Z.lor (v_Flags a) flagVendorAVP else v_Flags a in
  let length := ((if vendor then 12 else 8) + length (v_Data a))%nat in
  (be 4 (v_Code a) ++ [flags] ++ be 3 (Z.of_nat length)
   ++ (if vendor then be 4 (v_VendorID a) else []) ++ v_Data a ++ zeros (pad4 length - length))%list.

Definition encode_avps (l : list avp) : list Z := concat (map avp_encode l).

Definition dia_encode (m : message) : list Z :=
  let payload := encode_avps (d_AVPs m) in
  let totalLen := (headerLen + length payload)%nat in
  ([diameterVer] ++ be 3 (Z.of_nat totalLen) ++ [d_Flags m] ++ be 3 (d_CommandCode m) ++ be 4 (d_AppID m)
   ++ be 4 (d_HopByHop m) ++ be 4 (d_EndToEnd m) ++ payload)%list.

(** * Decoding *)

(** The loop of [decodeAVPs]; each turn consumes at least 8 bytes. *)
Fixpoint decodeAVPs_loop (fuel : nat) (data : list Z) (out : list avp) : go (result (list avp) dia_err) :=
  match data with
  | [] => Some (Ok out)
  | _ :: _ =>
    match fuel with
    | O => None
    | S fuel =>
      if (length data <? 8)%nat then Some (Err DHeaderTruncated)
      else
        c ← go_slice data 0 4;
        flags ← go_idx data 4;
        l ← go_slice data 5 8;
        let len := Z.to_nat (read24 l) in
        let vendor := negb (Z.land flags flagVendorAVP =? 0) in
        let headerSize := if vendor then 12%nat else 8%nat in
        if (vendor && (length data <? headerSize)%nat)%bool then Some (Err DVendorTruncated)
        else
          vendorID ← (if vendor then v ← go_slice data 8 12; Some (be_dec v) else Some 0);
          if ((len <? headerSize)%nat || (length data <? len)%nat)%bool then Some (Err DAVPLength)
          else
            payload ← go_slice data headerSize len;
            let out := (out ++ [mkAVP (be_dec c) vendorID flags payload])%list in
            let step := pad4 len in
            if (length data <? step)%nat then Some (Err DPadding)
            else rest ← go_from data step; decodeAVPs_loop fuel rest out
    end
  end.

Definition decodeAVPs (data : list Z) : go (result (list avp) dia_err) := decodeAVPs_loop (length data) data [].

(** [io.ReadFull] of [n] bytes from a stream that ends after [r]: the bytes
    and the rest of the stream. *)
Definition read_full (n : nat) (r : list Z) : result (list Z * list Z) dia_err :=
  if (n <=? length r)%nat then Ok (take n r, drop n r)
  else if non_nil r then Err DUnexpectedEOF else Err DEOF.

(** [decodeMessage]: the message and what the stream still holds. *)
Definition decodeMessage (r : list Z) : go (result (message * list Z) dia_err) :=
  match read_full 4 r with
  | Err e => Some (Err e)
  | Ok (prefix, r) =>
    p0 ← go_idx prefix 0;
    if negb (p0 =? diameterVer) then Some (Err (DVersion p0))
    else
      l ← go_slice prefix 1 4;
      let length := Z.to_nat (read24 l) in
      if (length <? headerLen)%nat then Some (Err (DTooShort (Z.of_nat length)))
      else
        match read_full (length - 4) r with
        | Err e => Some (Err e)
        | Ok (rest, r) =>
          let full := (prefix ++ rest)%list in
          flags ← go_idx full 4;
          cmd ← go_slice full 5 8;
          app ← go_slice full 8 12;
          hop ← go_slice full 12 16;
          e2e ← go_slice full 16 20;
          payload ← go_from full headerLen;
          avps ← decodeAVPs payload;
          Some (match avps with
                | Err e => Err e
                | Ok avps => Ok (mkMessage flags (read24 cmd) (be_dec app) (be_dec hop) (be_dec e2e) avps, r)
                end)
        end
  end.

(** * Building and reading AVPs *)
Definition utf8AVPFlags (code vendor flags : Z) (value : string) : avp :=
  mkAVP code vendor flags (bytes_of_string value).
Definition utf8AVP (code vendor : Z) (value : string) : avp := utf8AVPFlags code vendor flagMandatory value.

Definition uint32AVPFlags (code vendor flags value : Z) : avp := mkAVP code vendor flags (be 4 value).
Definition uint32AVP (code vendor value : Z) : avp := uint32AVPFlags code vendor flagMandatory value.

Definition groupedAVP (code vendor : Z) (children : list avp) : avp :=
  mkAVP code vendor flagMandatory (encode_avps children).

Definition addressAVP (code : Z) (ip4 : list Z) : avp := mkAVP code 0 flagMandatory ([0; 1] ++ ip4).

Definition findAVP (avps : list avp) (code vendor : Z) : option avp :=
  List.find (fun a => (v_Code a =? code) && (v_VendorID a =? vendor))%bool avps.

Definition avpString (avps : list avp) (code vendor : Z) : string :=
  match findAVP avps code vendor with Some a => string_of_bytes (v_Data a) | None => "" end.

Definition avpUint32 (avps : list avp) (code vendor : Z) : option Z :=
  match findAVP avps code vendor with
  | Some a => if (length (v_Data a) <? 4)%nat then None else Some (be_dec (take 4 (v_Data a)))
  | None => None
  end.

Definition experimentalResultCode (avps : list avp) : go (option Z) :=
  match findAVP avps avpExperimentalResult 0 with
  | None => Some None
  | Some a =>
    children ← decodeAVPs (v_Data a);
    Some (match children with Ok l => avpUint32 l avpExperimentalResultCode 0 | Err _ => None end)
  end.

(** * Lemmas *)
Lemma pad4_spec n : (n <= pad4 n < n + 4)%nat /\ (pad4 n mod 4 = 0)%nat.
Proof.
  unfold pad4. pose proof (Nat.mod_upper_bound n 4). pose proof (Nat.div_mod_eq n 4).
  destruct (Nat.eqb_spec (n mod 4) 0); [lia|].
  split; [lia|]. replace (n + 4 - n mod 4)%nat with ((n / 4 + 1) * 4)%nat by lia. apply Nat.Div0.mod_mul.
Qed.

(** The flag bit of a vendor AVP. *)
Lemma vendor_bit f : byte_ok f ->
  Z.land (Z.lor f flagVendorAVP) flagVendorAVP = flagVendorAVP /\ byte_ok (Z.lor f flagVendorAVP).
Proof.
  intros Hf. split.
  - rewrite Z.land_lor_distr_l. change (Z.land flagVendorAVP flagVendorAVP) with flagVendorAVP.
    rewrite Z.lor_comm. apply Z.bits_inj'. intros n Hn. rewrite Z.lor_spec, Z.land_spec.
    by destruct (Z.testbit flagVendorAVP n), (Z.testbit f n).
  - unfold byte_ok in *. assert (0 <= Z.lor f flagVendorAVP) by (apply Z.lor_nonneg; unfold flagVendorAVP; lia).
    split; [done|]. destruct (Z.eq_dec (Z.lor f flagVendorAVP) 0) as [->|Hz]; [done|].
    change 256 with (2 ^ 8). apply Z.log2_lt_pow2; [lia|]. rewrite Z.log2_lor by (unfold flagVendorAVP; lia).
    apply Z.max_lub_lt; [|done]. destruct (Z.eq_dec f 0) as [->|]; [done|]. apply Z.log2_lt_pow2; lia.
Qed.

(** An AVP whose fields are in range; the V flag belongs to the vendor. *)
Definition avp_ok (a : avp) : Prop :=
  u_ok 32 (v_Code a) /\ u_ok 32 (v_VendorID a) /\ byte_ok (v_Flags a) /\
  (v_VendorID a = 0 -> Z.land (v_Flags a) flagVendorAVP = 0) /\ bytes_ok (v_Data a) /\
  Z.of_nat (length (v_Data a)) + 12 < 2 ^ 24.

(** What an AVP is after a transmission: the V flag is set for a vendor. *)
Definition sent (a : avp) : avp :=
  if v_VendorID a =? 0 then a else a <| v_Flags ::= fun f => Z.lor f flagVendorAVP |>.

Definition avp_header (a : avp) : nat := if v_VendorID a =? 0 then 8%nat else 12%nat.

(** The encoding in terms of its parts. *)
Lemma avp_encode_eq a :
  avp_encode a =
  (be 4 (v_Code a) ++ [v_Flags (sent a)] ++ be 3 (Z.of_nat (avp_header a + length (v_Data a)))
   ++ (if v_VendorID a =? 0 then [] else be 4 (v_VendorID a)) ++ v_Data a
   ++ zeros (pad4 (avp_header a + length (v_Data a)) - (avp_header a + length (v_Data a))))%list.
Proof. unfold avp_encode, avp_header, sent. by destruct (v_VendorID a =? 0). Qed.

Lemma length_avp_encode a : length (avp_encode a) = pad4 (avp_header a + length (v_Data a)).
Proof.
  rewrite avp_encode_eq. destruct (pad4_spec (avp_header a + length (v_Data a))) as [Hn _].
  len. unfold avp_header in *. destruct (v_VendorID a =? 0); len.
Qed.

Lemma decodeAVPs_loop_step fuel a rest acc :
  avp_ok a ->
  decodeAVPs_loop (S fuel) (avp_encode a ++ rest)%list acc = decodeAVPs_loop fuel rest (acc ++ [sent a])%list.
Proof.
  intros (Hc & Hv & Hf & Hbit & Hd & Hlen). set (n := (avp_header a + length (v_Data a))%nat).
  assert (Hn : (8 <= avp_header a <= n)%nat /\ Z.of_nat n < 2 ^ 24)
    by (unfold n, avp_header in *; destruct (v_VendorID a =? 0); lia).
  destruct (pad4_spec n) as [Hp _]. pose proof (length_avp_encode a) as Hle. fold n in Hle.
  set (b := (avp_encode a ++ rest)%list).
  assert (Hlb : length b = (pad4 n + length rest)%nat) by (unfold b; by rewrite length_app, Hle).
  assert (Hb : b = (be 4 (v_Code a) ++ [v_Flags (sent a)] ++ be 3 (Z.of_nat n)
    ++ (if v_VendorID a =? 0 then [] else be 4 (v_VendorID a)) ++ v_Data a ++ zeros (pad4 n - n) ++ rest)%list).
  { unfold b. rewrite avp_encode_eq. by rewrite <- !app_assoc. }
  assert (Hbit' : negb (Z.land (v_Flags (sent a)) flagVendorAVP =? 0) = negb (v_VendorID a =? 0)).
  { unfold sent. destruct (Z.eqb_spec (v_VendorID a) 0) as [E|E]; [by rewrite Hbit|].
    cbn. by rewrite (proj1 (vendor_bit _ Hf)). }
  cbn [decodeAVPs_loop]. destruct b as [|b0 br] eqn:Eb; [cbn in Hlb; lia|]. rewrite <- Eb in *. clear Eb b0 br.
  rewrite (proj2 (Nat.ltb_ge _ _)) by lia.
  replace (go_slice b 0 4) with (Some (be 4 (v_Code a))) by (rewrite Hb; symmetry; apply (go_slice_app []); len).
  replace (go_idx b 4) with (Some (v_Flags (sent a))) by (by rewrite Hb).
  replace (go_slice b 5 8) with (Some (be 3 (Z.of_nat n)))
    by (rewrite Hb; symmetry; rewrite (app_assoc (be 4 _)); apply go_slice_app; len).
  cbn [mbind option_bind]. rewrite <- (app_nil_r (be 3 _)), read24_be, Nat2Z.id, Hbit' by lia.
  assert (Hhd : (if negb (v_VendorID a =? 0) then 12%nat else 8%nat) = avp_header a)
    by (unfold avp_header; by destruct (_ =? 0)).
  rewrite Hhd, (proj2 (Nat.ltb_ge (length b) (avp_header a))), andb_false_r by lia.
  replace (if negb (v_VendorID a =? 0) then _ else _) with (Some (v_VendorID a)).
  2: { destruct (Z.eqb_spec (v_VendorID a) 0) as [E|E]; cbn [negb]; [by rewrite E|].
       rewrite Hb, !(app_assoc _ _ (be 4 (v_VendorID a) ++ _)), (go_slice_app _ (be 4 (v_VendorID a))) by len.
       cbn [mbind option_bind]. by rewrite be_dec_be_small by (unfold u_ok in *; lia). }
  cbn [mbind option_bind].
  rewrite (proj2 (Nat.ltb_ge n (avp_header a))), (proj2 (Nat.ltb_ge (length b) n)) by lia. cbn [orb].
  replace (go_slice b (avp_header a) n) with (Some (v_Data a)).
  2: { rewrite Hb, !(app_assoc _ _ (v_Data a ++ _)). symmetry. apply go_slice_app; unfold avp_header, n; len;
       unfold avp_header; destruct (v_VendorID a =? 0); len. }
  cbn [mbind option_bind]. rewrite (proj2 (Nat.ltb_ge (length b) (pad4 n))) by lia.
  replace (go_from b (pad4 n)) with (Some rest) by (unfold b; symmetry; apply go_from_app; by rewrite Hle).
  cbn [mbind option_bind]. do 4 f_equal. rewrite be_dec_be_small by (unfold u_ok in *; lia).
  unfold sent. by destruct a, (_ =? 0).
Qed.

Lemma length_avp_encode_pos a : (8 <= length (avp_encode a))%nat.
Proof.
  rewrite length_avp_encode. destruct (pad4_spec (avp_header a + length (v_Data a))) as [H _].
  unfold avp_header in *. destruct (v_VendorID a =? 0); lia.
Qed.

Lemma decodeAVPs_loop_encode l fuel acc :
  Forall avp_ok l -> (length (encode_avps l) <= fuel)%nat ->
  decodeAVPs_loop fuel (encode_avps l) acc = Some (Ok (acc ++ map sent l)%list).
Proof.
  intros Hok. revert fuel acc. induction Hok as [|a l Ha _ IH]; intros fuel acc Hf.
  - cbn. rewrite app_nil_r. by destruct fuel.
  - unfold encode_avps in *. cbn [map concat] in *. pose proof (length_avp_encode_pos a) as Hp.
    rewrite length_app in Hf. destruct fuel as [|fuel]; [lia|].
    rewrite decodeAVPs_loop_step, IH by (done || lia). by rewrite <- app_assoc.
Qed.

Lemma decodeAVPs_encode l : Forall avp_ok l -> decodeAVPs (encode_avps l) = Some (Ok (map sent l)).
Proof. intros H. by apply (decodeAVPs_loop_encode l _ []). Qed.

(** The loop ends without a panic, on any bytes. *)
Lemma decodeAVPs_loop_total fuel p acc :
  bytes_ok p -> (length p <= fuel)%nat -> exists r, decodeAVPs_loop fuel p acc = Some r.
Proof.
  revert p acc. induction fuel as [|fuel IH]; intros p acc Hp Hf.
  { destruct p; [by eexists|]. cbn in Hf. lia. }
  destruct p as [|x p']; [by eexists|]. set (p := x :: p') in *. cbn [decodeAVPs_loop].
  change (match p with [] => Some (Ok acc) | _ :: _ => ?e end) with e.
  destruct (length p <? 8)%nat eqn:E1; [by eexists|]. apply Nat.ltb_ge in E1.
  rewrite (go_slice_Some p 0 4), (go_slice_Some p 5 8), (go_idx_Some p 4) by lia. cbn [mbind option_bind].
  set (n := Z.to_nat (read24 _)). set (vendor := negb (Z.land _ _ =? 0)).
  destruct (vendor && _)%bool eqn:E2; [by eexists|].
  assert (Hv : exists v, (if vendor then v ← go_slice p 8 12; Some (be_dec v) else Some 0) = Some v).
  { destruct vendor; [|by eexists]. cbn [andb] in E2. apply Nat.ltb_ge in E2.
    rewrite (go_slice_Some p 8 12) by lia. by eexists. }
  destruct Hv as [v ->]. cbn [mbind option_bind].
  destruct ((n <? _) || (_ <? n))%nat%bool eqn:E3; [by eexists|].
  apply orb_false_iff in E3 as [E3%Nat.ltb_ge E4%Nat.ltb_ge].
  rewrite (go_slice_Some p _ n) by done. cbn [mbind option_bind].
  destruct (length p <? pad4 n)%nat eqn:E5; [by eexists|]. apply Nat.ltb_ge in E5.
  rewrite (go_from_Some p (pad4 n)) by lia. cbn [mbind option_bind].
  apply IH; [by apply bytes_ok_drop|]. rewrite length_drop. destruct (pad4_spec n) as [Hn _].
  assert (8 <= n)%nat by (revert E3; destruct vendor; lia). lia.
Qed.

Lemma decodeAVPs_total p : bytes_ok p -> exists r, decodeAVPs p = Some r.
Proof. intros H. by apply decodeAVPs_loop_total. Qed.

(** * The codec *)
Definition message_ok (m : message) : Prop :=
  byte_ok (d_Flags m) /\ u_ok 24 (d_CommandCode m) /\ u_ok 32 (d_AppID m) /\ u_ok 32 (d_HopByHop m) /\
  u_ok 32 (d_EndToEnd m) /\ Forall avp_ok (d_AVPs m) /\
  Z.of_nat (headerLen + length (encode_avps (d_AVPs m))) < 2 ^ 24.

Definition received (m : message) : message :=
  mkMessage (d_Flags m) (d_CommandCode m) (d_AppID m) (d_HopByHop m) (d_EndToEnd m) (map sent (d_AVPs m)).

(** The encoding as a header of 20 bytes and the AVPs. *)
Lemma dia_encode_eq m :
  dia_encode m =
  ([diameterVer] ++ be 3 (Z.of_nat (headerLen + length (encode_avps (d_AVPs m)))) ++ [d_Flags m]
   ++ be 3 (d_CommandCode m) ++ be 4 (d_AppID m) ++ be 4 (d_HopByHop m) ++ be 4 (d_EndToEnd m)
   ++ encode_avps (d_AVPs m))%list.
Proof. done. Qed.

Lemma length_dia_encode m : length (dia_encode m) = (headerLen + length (encode_avps (d_AVPs m)))%nat.
Proof. rewrite dia_encode_eq. unfold headerLen. len. Qed.

Lemma read_full_app l r n : n = length l -> read_full n (l ++ r) = Ok (l, r).
Proof.
  intros ->. unfold read_full. rewrite length_app, (proj2 (Nat.leb_le _ _)) by lia.
  by rewrite take_app_length, drop_app_length.
Qed.

(** A message in range decodes to itself, the V flags of its vendor AVPs set,
    and the decoder stops exactly behind it. *)
Lemma decodeMessage_encode m rest :
  message_ok m -> decodeMessage (dia_encode m ++ rest)%list = Some (Ok (received m, rest)).
Proof.
  intros (Hf & Hc & Ha & Hh & He & Hok & Hlen). set (n := (headerLen + length (encode_avps (d_AVPs m)))%nat) in *.
  set (prefix := ([diameterVer] ++ be 3 (Z.of_nat n))%list).
  set (body := ([d_Flags m] ++ be 3 (d_CommandCode m) ++ be 4 (d_AppID m) ++ be 4 (d_HopByHop m)
                ++ be 4 (d_EndToEnd m) ++ encode_avps (d_AVPs m))%list).
  assert (Hsplit : (dia_encode m ++ rest = prefix ++ body ++ rest)%list)
    by (rewrite dia_encode_eq; unfold prefix, body; by rewrite <- !app_assoc).
  assert (Hn : (n = 20 + length (encode_avps (d_AVPs m)))%nat) by done.
  assert (Hbody : length body = (n - 4)%nat) by (unfold body; rewrite Hn; len).
  unfold decodeMessage. rewrite Hsplit, read_full_app by done.
  change (go_idx prefix 0) with (Some diameterVer). cbn [mbind option_bind].
  replace (go_slice prefix 1 4) with (Some (be 3 (Z.of_nat n)))
    by (unfold prefix; rewrite <- (app_nil_r (be 3 _)); symmetry; apply (go_slice_app [_]); len).
  cbn [mbind option_bind]. rewrite Z.eqb_refl. cbn [negb].
  rewrite <- (app_nil_r (be 3 _)), read24_be, Nat2Z.id by lia.
  rewrite (proj2 (Nat.ltb_ge n headerLen)) by (unfold headerLen; lia).
  rewrite read_full_app by done. set (full := (prefix ++ body)%list).
  assert (Hfull : full = (prefix ++ [d_Flags m] ++ be 3 (d_CommandCode m) ++ be 4 (d_AppID m) ++ be 4 (d_HopByHop m)
                ++ be 4 (d_EndToEnd m) ++ encode_avps (d_AVPs m))%list) by done.
  assert (Hp : length prefix = 4%nat) by done.
  replace (go_idx full 4) with (Some (d_Flags m)) by done.
  replace (go_slice full 5 8) with (Some (be 3 (d_CommandCode m)))
    by (rewrite Hfull, (app_assoc prefix); symmetry; apply go_slice_app; len).
  replace (go_slice full 8 12) with (Some (be 4 (d_AppID m)))
    by (rewrite Hfull, (app_assoc prefix), (app_assoc (prefix ++ _)%list); symmetry; apply go_slice_app; len).
  replace (go_slice full 12 16) with (Some (be 4 (d_HopByHop m)))
    by (rewrite Hfull, !(app_assoc _ _ (be 4 (d_HopByHop m) ++ _)); symmetry; apply go_slice_app; len).
  replace (go_slice full 16 20) with (Some (be 4 (d_EndToEnd m)))
    by (rewrite Hfull, !(app_assoc _ _ (be 4 (d_EndToEnd m) ++ _)); symmetry; apply go_slice_app; len).
  replace (go_from full headerLen) with (Some (encode_avps (d_AVPs m)))
    by (rewrite Hfull, !(app_assoc _ _ (encode_avps _)); symmetry; apply go_from_app; unfold headerLen; len).
  cbn [mbind option_bind]. rewrite decodeAVPs_encode by done. cbn [mbind option_bind].
  rewrite <- (app_nil_r (be 3 (d_CommandCode m))), read24_be by (unfold u_ok in *; lia).
  by rewrite !be_dec_be_small by (unfold u_ok in *; lia).
Qed.

(** Reading a stream: one message after the other. *)
Fixpoint decode_many (n : nat) (s : list Z) : go (result (list message * list Z) dia_err) :=
  match n with
  | O => Some (Ok ([], s))
  | S n =>
    r ← decodeMessage s;
    match r with
    | Err e => Some (Err e)
    | Ok (m, s) => rs ← decode_many n s;
                   Some (match rs with Err e => Err e | Ok (ms, s) => Ok (m :: ms, s) end)
    end
  end.

(** C29: A stream of messages in range is read back message by message, exactly
    as sent (the V flags of vendor AVPs set), and what follows it is left in
    the stream. *)
Theorem diameter_roundtrip ms rest :
  Forall message_ok ms ->
  decode_many (length ms) (concat (map dia_encode ms) ++ rest) = Some (Ok (map received ms, rest)).
Proof.
  induction 1 as [|m ms Hm _ IH]; [done|]. cbn [length decode_many map concat].
  rewrite <- app_assoc, decodeMessage_encode by done. cbn [mbind option_bind]. by rewrite IH.
Qed.

Definition demo_message : message :=
  mkMessage 0xc0 268 16777250 7 9
    [utf8AVP avpSessionID 0 "twag;1;2"; uint32AVP avpAuthApplicationID 0 16777250;
     groupedAVP avpExperimentalResult 0 [uint32AVP 266 0 vendor3GPP; uint32AVP avpExperimentalResultCode 0 5004];
     mkAVP 1400 vendor3GPP flagMandatory [1; 2; 3; 4; 5]].

Ltac in_range := repeat first [constructor | progress intros]; vm_compute; first [reflexivity | discriminate | done].

Lemma demo_message_ok : message_ok demo_message.
Proof. unfold message_ok, u_ok, byte_ok. split_and!; in_range. Qed.

Lemma diameter_roundtrip_witness :
  decode_many 2 (concat (map dia_encode [demo_message; demo_message]) ++ [1; 0]) =
    Some (Ok ([received demo_message; received demo_message], [1; 0])) /\
  experimentalResultCode (d_AVPs (received demo_message)) = Some (Some 5004).
Proof.
  split; [|vm_compute; reflexivity].
  refine (diameter_roundtrip [demo_message; demo_message] [1; 0] _).
  repeat (apply Forall_cons; split); [exact demo_message_ok..|constructor].
Defined.

Lemma read_full_cases n r :
  (exists e, read_full n r = Err e) \/ (n <= length r)%nat /\ read_full n r = Ok (take n r, drop n r).
Proof.
  unfold read_full. destruct (Nat.leb_spec n (length r)); [by right|left]. destruct (non_nil r); by eexists.
Qed.

(** The decoder returns on every stream, without a panic: it refuses the
    stream or takes from its front exactly the message that the length field
    announces, at least a header. *)
Theorem diameter_decode_total s :
  bytes_ok s ->
  (exists e, decodeMessage s = Some (Err e)) \/
  exists m pre rest, decodeMessage s = Some (Ok (m, rest)) /\ s = (pre ++ rest)%list /\
    (headerLen <= length pre)%nat /\ Z.of_nat (length pre) = be_dec (take 3 (drop 1 s)) /\
    nth 0 s 0 = diameterVer.
Proof.
  intros Hs. unfold decodeMessage.
  destruct (read_full_cases 4 s) as [[e ->]|[H4 ->]]; [left; by eexists|].
  destruct s as [|a [|b [|c [|d s]]]]; cbn [length] in H4; try lia. cbn [take drop]. rewrite !take_0, !drop_0.
  apply bytes_ok_cons in Hs as [Ha Hs]. apply bytes_ok_cons in Hs as [Hb Hs].
  apply bytes_ok_cons in Hs as [Hc Hs]. apply bytes_ok_cons in Hs as [Hd Hs].
  change (go_idx [a; b; c; d] 0) with (Some a). change (go_slice [a; b; c; d] 1 4) with (Some [b; c; d]).
  cbn [mbind option_bind]. destruct (negb (a =? diameterVer)) eqn:Ev; [left; by eexists|]. bools. subst a.
  rewrite read24_be_dec by done. set (n := Z.to_nat (be_dec [b; c; d])).
  assert (Hn : 0 <= be_dec [b; c; d]) by (apply be_dec_bound; unfold bytes_ok; by rewrite !Forall_cons, Forall_nil).
  destruct (n <? headerLen)%nat eqn:El; [left; by eexists|]. apply Nat.ltb_ge in El.
  destruct (read_full_cases (n - 4) s) as [[e ->]|[Hm ->]]; [left; by eexists|].
  set (full := ([diameterVer; b; c; d] ++ take (n - 4) s)%list). unfold headerLen in *.
  assert (Hf : length full = n) by (unfold full; len). assert (Hok : bytes_ok full).
  { unfold full. apply bytes_ok_app. split; [|auto with bytes]. unfold bytes_ok. by rewrite !Forall_cons, Forall_nil. }
  rewrite (go_idx_Some full 4), !go_slice_Some, go_from_Some by lia. cbn [mbind option_bind].
  destruct (decodeAVPs_total (drop 20 full)) as [r ->]; [auto with bytes|]. cbn [mbind option_bind].
  destruct r as [avps|e]; [right|left; by eexists]. eexists _, full, _. split; [done|]. split_and!.
  - unfold full. cbn [app]. by rewrite take_drop.
  - lia.
  - rewrite Hf. unfold n. by rewrite Z2Nat.id.
  - done.
Qed.

Lemma diameter_decode_total_witness :
  (exists e, decodeMessage [1; 0; 0; 19; 0] = Some (Err e)) \/
  exists m pre rest, decodeMessage [1; 0; 0; 19; 0] = Some (Ok (m, rest)) /\ [1; 0; 0; 19; 0] = (pre ++ rest)%list /\
    (headerLen <= length pre)%nat /\ Z.of_nat (length pre) = be_dec (take 3 (drop 1 [1; 0; 0; 19; 0])) /\
    nth 0 [1; 0; 0; 19; 0] 0 = diameterVer.
Proof. apply (diameter_decode_total [1; 0; 0; 19; 0]). in_range. Defined.
