(* ===== verification/EapAka.v ===== *)
(** EAP-AKA on the client side: [internal/diameter/eap_aka.go], the parser of
    challenges, Milenage (3GPP TS 35.206), the key derivation of RFC 4187 and
    the challenge response. *)
From S2P Require Import Prelude.
From S2P Require Import GoNet.
From S2P Require Import Crypto.
From S2P Require Import Diameter.
Open Scope string_scope.
Open Scope Z_scope.

(** * Constants and data *)
Definition eapCodeRequest : Z := 1.
Definition eapCodeResponse : Z := 2.
Definition eapCodeSuccess : Z := 3.
Definition eapCodeFailure : Z := 4.
Definition eapTypeIdentity : Z := 1.
Definition eapTypeAKA : Z := 23.
Definition eapTypeAKAPrime : Z := 50.
Definition eapAKASubtypeChallenge : Z := 1.
Definition eapAKAAttrRAND : Z := 1.
Definition eapAKAAttrAUTN : Z := 2.
Definition eapAKAAttrRES : Z := 3.
Definition eapAKAAttrMAC : Z := 11.

Record akaChallenge := mkChallenge { c_Identifier : Z; c_RAND : list Z; c_AUTN : list Z }.
Record akaKeys := mkKeys { k_RES : list Z; k_CK : list Z; k_IK : list Z }.

Inductive aka_err :=
| AShort | ANotChallenge | ALength | ATruncated | AAttrLength | ARandShort | AAutnShort
| ANoRand | ANoAutn | AHex (name : string) | AHexLength (name : string) | AMac.

(** * The challenge *)

(** The attribute loop of [parseAKAChallenge]; each turn consumes at least
    4 bytes. *)
Fixpoint aka_attrs (fuel : nat) (attrs : list Z) (out : akaChallenge) : go (result akaChallenge aka_err) :=
  match attrs with
  | [] => Some (Ok out)
  | _ :: _ =>
    match fuel with
    | O => None
    | S fuel =>
      if (length attrs <? 4)%nat then Some (Err ATruncated)
      else
        attrType ← go_idx attrs 0;
        l ← go_idx attrs 1;
        let attrLen := (Z.to_nat l * 4)%nat in
        if ((attrLen <? 4)%nat || (length attrs <? attrLen)%nat)%bool then Some (Err AAttrLength)
        else
          value ← go_slice attrs 4 attrLen;
          let short := (length value <? 16)%nat in
          if ((attrType =? eapAKAAttrRAND) && short)%bool then Some (Err ARandShort)
          else if ((attrType =? eapAKAAttrAUTN) && short)%bool then Some (Err AAutnShort)
          else
            let out :=
              if attrType =? eapAKAAttrRAND then mkChallenge (c_Identifier out) (take 16 value) (c_AUTN out)
              else if attrType =? eapAKAAttrAUTN then mkChallenge (c_Identifier out) (c_RAND out) (take 16 value)
              else out in
            rest ← go_from attrs attrLen;
            aka_attrs fuel rest out
    end
  end.

Definition parseAKAChallenge (payload : list Z) : go (result akaChallenge aka_err) :=
  if (length payload <? 8)%nat then Some (Err AShort)
  else
    p0 ← go_idx payload 0; p1 ← go_idx payload 1; p2 ← go_idx payload 2; p3 ← go_idx payload 3;
    p4 ← go_idx payload 4; p5 ← go_idx payload 5;
    if (negb (p0 =? eapCodeRequest) || negb (p4 =? eapTypeAKA) || negb (p5 =? eapAKASubtypeChallenge))%bool
    then Some (Err ANotChallenge)
    else
      let length_ := Z.to_nat (Z.lor (Z.shiftl p2 8) p3) in
      if ((length_ <? 8)%nat || (length payload <? length_)%nat)%bool then Some (Err ALength)
      else
        attrs ← go_slice payload 8 length_;
        r ← aka_attrs (length attrs) attrs (mkChallenge p1 (zeros 16) (zeros 16));
        Some (match r with
              | Err e => Err e
              | Ok out =>
                if decide (c_RAND out = zeros 16) then Err ANoRand
                else if decide (c_AUTN out = zeros 16) then Err ANoAutn
                else Ok out
              end).

(** * Milenage on arrays of 16 bytes *)
Definition xor16 (a b : list Z) : list Z := xor_bytes a b.

Definition rotateLeft128 (b : list Z) (n : nat) : list Z :=
  if (n =? 0)%nat then b else map (fun i => nth ((i + n) mod 16) b 0) (seq 0 16).

Definition aesEncryptBlock (key plaintext : list Z) : list Z := aes_encrypt key plaintext.

Definition milenageC (index : nat) : list Z :=
  if (1 <? index)%nat then (zeros 15 ++ [wrap 8 (Z.shiftl 1 (Z.of_nat (index - 2)))])%list else zeros 16.

Definition milenageFN (ki opc temp c : list Z) (rotateBytes : nat) : list Z :=
  let input := xor16 (rotateLeft128 (xor16 temp opc) rotateBytes) c in
  xor16 (aesEncryptBlock ki input) opc.

Definition milenageF1 (ki opc temp sqn amf : list Z) : list Z :=
  let in1 := (sqn ++ amf ++ sqn ++ amf)%list in
  let out := aesEncryptBlock ki (xor16 temp (rotateLeft128 (xor16 in1 opc) 8)) in
  take 8 (xor16 out opc).

(** RES, CK, IK and AK. *)
Definition milenageF2345 (ki opc temp : list Z) : list Z * list Z * list Z * list Z :=
  let out2 := milenageFN ki opc temp (milenageC 2) 0 in
  let ck := milenageFN ki opc temp (milenageC 3) 4 in
  let ik := milenageFN ki opc temp (milenageC 4) 8 in
  (take 8 (drop 8 out2), ck, ik, take 6 out2).

(** [hex.DecodeString] *)
Fixpoint hex_decode (l : list ascii) : option (list Z) :=
  match l with
  | [] => Some []
  | [_] => None
  | a :: b :: rest => hi ← hexval a; lo ← hexval b; r ← hex_decode rest; Some ((hi * 16 + lo) :: r)
  end.

Definition decode16Hex (value name : string) : result (list Z) aka_err :=
  match hex_decode (String.list_ascii_of_string value) with
  | None => Err (AHex name)
  | Some raw => if (length raw =? 16)%nat then Ok raw else Err (AHexLength name)
  end.

Definition milenageAKA (kiHex opcHex : string) (randB autn : list Z) : result akaKeys aka_err :=
  match decode16Hex kiHex "Ki" with
  | Err e => Err e
  | Ok ki =>
    match decode16Hex opcHex "OPc" with
    | Err e => Err e
    | Ok opc =>
      let temp := aesEncryptBlock ki (xor16 randB opc) in
      let '(xres, ck, ik, ak) := milenageF2345 ki opc temp in
      let sqn := xor_bytes (take 6 autn) ak in
      let amf := take 2 (drop 6 autn) in
      let macA := milenageF1 ki opc temp sqn amf in
      if decide (macA = take 8 (drop 8 autn)) then Ok (mkKeys xres ck ik) else Err AMac
    end
  end.

(** * Key derivation (RFC 4187, FIPS 186-2) *)

(** The minimal big endian bytes of a [big.Int]. *)
Definition int_bytes (x : Z) : list Z := if x =? 0 then [] else be (Z.to_nat (Z.log2 x / 8 + 1)) x.

Definition eapAKANextXVAL (xval w : list Z) : list Z :=
  let x := (be_dec xval + be_dec w + 1) mod 2 ^ 160 in
  let out := int_bytes x in
  if (20 <=? length out)%nat then drop (length out - 20) out else (zeros (20 - length out) ++ out)%list.

Definition bitsRotateLeft32 (x k : Z) : Z := Z.lor (wrap 32 (Z.shiftl x k)) (Z.shiftr x (32 - k)).

(** The message schedule: the words [w[16]] to [w[79]], one per step. *)
Fixpoint dss_schedule (n : nat) (w : list Z) : list Z :=
  match n with
  | O => w
  | S n =>
    let i := length w in
    let x k := nth (i - k) w 0 in
    dss_schedule n (w ++ [bitsRotateLeft32 (Z.lxor (Z.lxor (Z.lxor (x 3%nat) (x 8%nat)) (x 14%nat)) (x 16%nat)) 1])
  end.

Definition dss_fk (i : nat) (b c d : Z) : Z * Z :=
  if (i <? 20)%nat then (Z.lor (Z.land b c) (Z.land (Z.lxor b 0xffffffff) d), 0x5A827999)
  else if (i <? 40)%nat then (Z.lxor (Z.lxor b c) d, 0x6ED9EBA1)
  else if (i <? 60)%nat then (Z.lor (Z.lor (Z.land b c) (Z.land b d)) (Z.land c d), 0x8F1BBCDC)
  else (Z.lxor (Z.lxor b c) d, 0xCA62C1D6).

(** The 80 rounds over [a, b, c, d, e]. *)
Fixpoint dss_rounds (i : nat) (w : list Z) (a b c d e : Z) : Z * Z * Z * Z * Z :=
  match w with
  | [] => (a, b, c, d, e)
  | x :: w =>
    let '(f, k) := dss_fk i b c d in
    dss_rounds (S i) w (wrap 32 (bitsRotateLeft32 a 5 + f + e + k + x)) a (bitsRotateLeft32 b 30) c d
  end.

(** One block; the five words of the hash are updated. *)
Definition dss_block (h : Z * Z * Z * Z * Z) (block : list Z) : Z * Z * Z * Z * Z :=
  let '(h0, h1, h2, h3, h4) := h in
  let w := dss_schedule 64 (map (fun i => be_dec (take 4 (drop (i * 4) block))) (seq 0 16)) in
  let '(a, b, c, d, e) := dss_rounds 0 w h0 h1 h2 h3 h4 in
  (wrap 32 (h0 + a), wrap 32 (h1 + b), wrap 32 (h2 + c), wrap 32 (h3 + d), wrap 32 (h4 + e)).

(** The loop over the blocks: a rest of fewer than 64 bytes panics. *)
Fixpoint dss_blocks (fuel : nat) (padded : list Z) (h : Z * Z * Z * Z * Z) : go (Z * Z * Z * Z * Z) :=
  match padded with
  | [] => Some h
  | _ :: _ =>
    match fuel with
    | O => None
    | S fuel =>
      block ← go_slice padded 0 64; rest ← go_from padded 64;
      dss_blocks fuel rest (dss_block h block)
    end
  end.

Definition sha1DSS (data : list Z) : go (list Z) :=
  let padded := (data ++ zeros 44)%list in
  '(h0, h1, h2, h3, h4) ← dss_blocks (length padded) padded
    (0x67452301, 0xEFCDAB89, 0x98BADCFE, 0x10325476, 0xC3D2E1F0);
  Some (be 4 h0 ++ be 4 h1 ++ be 4 h2 ++ be 4 h3 ++ be 4 h4)%list.

(** The loop of [eapAKAPRF]; each turn adds 40 bytes. *)
Fixpoint prf_loop (fuel length_ : nat) (xval result : list Z) : go (list Z) :=
  if (length_ <=? length result)%nat then Some (take length_ result)
  else
    match fuel with
    | O => None
    | S fuel =>
      w0 ← sha1DSS xval;
      let x1 := eapAKANextXVAL xval w0 in
      w1 ← sha1DSS x1;
      prf_loop fuel length_ (eapAKANextXVAL x1 w1) (result ++ w0 ++ w1)%list
    end.

Definition eapAKAPRF (mk : list Z) (length_ : nat) : go (list Z) := prf_loop length_ length_ mk [].

Definition deriveEAPAKAKeys (identity ik ck : list Z) : go (list Z * list Z) :=
  let mk := sha1 (identity ++ ik ++ ck) in
  keymat ← eapAKAPRF mk 160;
  kEncr ← go_slice keymat 0 16; kAut ← go_slice keymat 16 32; Some (kEncr, kAut).

(** * The response *)
Definition eapAKAAttrRESValue (res : list Z) : list Z :=
  let valueLen := (2 + length res)%nat in
  let attrLen := (4 + pad4 valueLen)%nat in
  ([eapAKAAttrRES; wrap 8 (Z.of_nat (attrLen / 4))] ++ be 2 (Z.of_nat (length res * 8)) ++ res
   ++ zeros (attrLen - 4 - length res))%list.

(** The MAC is computed over the message with a zero MAC and replaces it. *)
Definition eapAKAChallengeResponse (identifier : Z) (res kAut : list Z) : list Z :=
  let resAttr := eapAKAAttrRESValue res in
  let macAttr := ([eapAKAAttrMAC; 5; 0; 0] ++ zeros 16)%list in
  let length_ := Z.of_nat (8 + length resAttr + length macAttr) in
  let out := ([eapCodeResponse; identifier; wrap 8 (Z.shiftr length_ 8); wrap 8 length_; eapTypeAKA;
               eapAKASubtypeChallenge; 0; 0] ++ resAttr ++ macAttr)%list in
  put_at out (length out - 16) (take 16 (hmac_sha1 kAut out)).

Definition etf_atom (name : string) : list Z :=
  ([119; wrap 8 (Z.of_nat (String.length name))] ++ bytes_of_string name)%list.

Definition osmoAAAAuthCompletePayload (identifier : Z) : list Z :=
  ([131; 116; 0; 0; 0; 2] ++ etf_atom "sta_auth_complete" ++ etf_atom "true" ++ etf_atom "eap_identifier"
   ++ [97; identifier])%list.

Definition buildEAPAKAChallengeResponse (identity : string) (challengePayload : list Z) (kiHex opcHex : string)
  : go (result (list Z) aka_err) :=
  c ← parseAKAChallenge challengePayload;
  match c with
  | Err e => Some (Err e)
  | Ok challenge =>
    match milenageAKA kiHex opcHex (c_RAND challenge) (c_AUTN challenge) with
    | Err e => Some (Err e)
    | Ok keys =>
      '(_, kAut) ← deriveEAPAKAKeys (bytes_of_string identity) (k_IK keys) (k_CK keys);
      Some (Ok (eapAKAChallengeResponse (c_Identifier challenge) (k_RES keys) kAut))
    end
  end.

(** The test set of the program's own tests. *)
Example milenage_test_set_1 :
  milenageAKA "465b5ce8b199b49faa5f0a2ee238a6bc" "cd63cb71954a9f4e48a5994e37a02baf"
    (be 16 0x23553cbe9637a89d218ae64dae47bf35) (be 16 0x55f328b43577b9b94a9ffac354dfafb3)
  = Ok (mkKeys (be 8 0xa54211d5e3ba50bf) (be 16 0xb40ba9a3c58b2a05bbf0d987b21bf8cb)
               (be 16 0xf769bcd751044604127672711c6d3441)).
Proof. vm_compute. reflexivity. Qed.
