(* ===== verification/AkaFacts.v ===== *)
(** EAP-AKA: Milenage against the bit level definitions of 3GPP TS 35.206,
    the key derivation against SHA-1, the parser and the response. *)
From S2P Require Import Prelude.
From S2P Require Import GoNet.
From S2P Require Import Crypto.
From S2P Require Import Diameter.
From S2P Require Import EapAka.
Open Scope string_scope.
Open Scope Z_scope.

(** * Byte arrays as numbers *)
Lemma testbit_concat x r k n : 0 <= r < 2 ^ k -> 0 <= k -> 0 <= n ->
  Z.testbit (x * 2 ^ k + r) n = if n <? k then Z.testbit r n else Z.testbit x (n - k).
Proof.
  intros Hr Hk Hn. destruct (Z.ltb_spec n k).
  - rewrite <- (Z.mod_pow2_bits_low (x * 2 ^ k + r) k) by lia. f_equal.
    rewrite Z.add_comm, Z.mod_add by lia. by apply Z.mod_small.
  - replace n with (n - k + k) at 1 by lia. rewrite <- Z.div_pow2_bits by lia. f_equal.
    rewrite Z.add_comm, Z.div_add by lia. rewrite Z.div_small by lia. lia.
Qed.

Lemma lxor_concat x y r s k : 0 <= r < 2 ^ k -> 0 <= s < 2 ^ k -> 0 <= k ->
  0 <= Z.lxor r s < 2 ^ k ->
  Z.lxor (x * 2 ^ k + r) (y * 2 ^ k + s) = Z.lxor x y * 2 ^ k + Z.lxor r s.
Proof.
  intros Hr Hs Hk Hrs. apply Z.bits_inj'. intros n Hn.
  rewrite Z.lxor_spec, !testbit_concat by lia. destruct (n <? k); by rewrite Z.lxor_spec.
Qed.

Lemma pow256 n : 256 ^ Z.of_nat n = 2 ^ (8 * Z.of_nat n).
Proof. change 256 with (2 ^ 8). rewrite <- Z.pow_mul_r by lia. done. Qed.

Lemma be_dec_xor a b :
  bytes_ok a -> bytes_ok b -> length a = length b -> be_dec (xor_bytes a b) = Z.lxor (be_dec a) (be_dec b).
Proof.
  intros Ha. revert b. induction Ha as [|x a Hx Ha IH]; intros b Hb Hl; destruct Hb as [|y b Hy Hb]; try done.
  cbn in Hl. injection Hl as Hl. change (xor_bytes (x :: a) (y :: b)) with (Z.lxor x y :: xor_bytes a b).
  rewrite !be_dec_cons, IH, length_xor_bytes, <- Hl, pow256 by done.
  pose proof (be_dec_bound a Ha) as Ba. pose proof (be_dec_bound b Hb) as Bb.
  pose proof (be_dec_bound _ (xor_bytes_ok a b Ha Hb)) as Bx.
  rewrite IH, length_xor_bytes in Bx by done. rewrite <- Hl in Bb. rewrite pow256 in *. by rewrite lxor_concat by lia.
Qed.

Lemma be_dec_list_app l1 l2 : be_dec (l1 ++ l2) = be_dec l1 * 256 ^ Z.of_nat (length l2) + be_dec l2.
Proof. unfold be_dec at 1. rewrite fold_left_app. apply fold_be_shift. Qed.

(** The first [n] bytes of a block are its high bits, the others its low bits. *)
Lemma be_dec_take_drop n b : bytes_ok b -> (n <= length b)%nat ->
  be_dec (take n b) = be_dec b / 256 ^ Z.of_nat (length b - n) /\
  be_dec (drop n b) = be_dec b mod 256 ^ Z.of_nat (length b - n).
Proof.
  intros Hb Hn. assert (Heq : be_dec b = be_dec (take n b) * 256 ^ Z.of_nat (length b - n) + be_dec (drop n b))
    by (rewrite <- length_drop, <- be_dec_list_app; by rewrite take_drop).
  pose proof (be_dec_bound (drop n b) (bytes_ok_drop n b Hb)) as Bd. rewrite length_drop in Bd.
  assert (0 < 256 ^ Z.of_nat (length b - n)) by (apply Z.pow_pos_nonneg; lia).
  rewrite Heq, Z.add_comm, Z.div_add, Z.mod_add, Z.div_small, Z.mod_small by lia. split; lia.
Qed.

Lemma block_be b : block_ok b -> be 16 (be_dec b) = b.
Proof. intros [L B]. rewrite <- L. by apply be_be_dec. Qed.

Lemma part_be n b : bytes_ok b -> length b = n -> b = be n (be_dec b).
Proof. intros B <-. symmetry. by apply be_be_dec. Qed.

(** * Milenage as TS 35.206 defines it *)
Module TS35206.
Definition E (k x : Z) : Z := be_dec (aes_encrypt (be 16 k) (be 16 x)).
Definition rot (x r : Z) : Z := (x * 2 ^ r) mod 2 ^ 128 + x / 2 ^ (128 - r).
Definition TEMP (k opc rand : Z) : Z := E k (Z.lxor rand opc).
Definition OUT (k opc rand r c : Z) : Z := Z.lxor (E k (Z.lxor (rot (Z.lxor (TEMP k opc rand) opc) r) c)) opc.
Definition IN1 (sqn amf : Z) : Z := sqn * 2 ^ 80 + amf * 2 ^ 64 + sqn * 2 ^ 16 + amf.
Definition f1 (k opc rand sqn amf : Z) : Z :=
  Z.lxor (E k (Z.lxor (TEMP k opc rand) (rot (Z.lxor (IN1 sqn amf) opc) 64))) opc / 2 ^ 64.
Definition f2 (k opc rand : Z) : Z := OUT k opc rand 0 1 mod 2 ^ 64.
Definition f3 (k opc rand : Z) : Z := OUT k opc rand 32 2.
Definition f4 (k opc rand : Z) : Z := OUT k opc rand 64 4.
Definition f5 (k opc rand : Z) : Z := OUT k opc rand 0 1 / 2 ^ 80.
End TS35206.
Import TS35206.

Lemma rotate_eq b n : length b = 16%nat -> n ∈ [0; 4; 8]%nat -> rotateLeft128 b n = (drop n b ++ take n b)%list.
Proof.
  intros L Hn. do 16 (destruct b as [|? b]; [done|]). destruct b; [|done].
  repeat (apply elem_of_cons in Hn as [->|Hn]; [done|]). by apply elem_of_nil in Hn.
Qed.

Lemma rotate_block b n : block_ok b -> n ∈ [0; 4; 8]%nat -> block_ok (rotateLeft128 b n).
Proof.
  intros [L B] Hn. rewrite rotate_eq by done. split; [|apply bytes_ok_app; auto with bytes].
  rewrite length_app, length_take, length_drop. lia.
Qed.

Lemma dec_rotate b n : block_ok b -> n ∈ [0; 4; 8]%nat ->
  be_dec (rotateLeft128 b n) = rot (be_dec b) (8 * Z.of_nat n).
Proof.
  intros [L B] Hn. rewrite rotate_eq, be_dec_list_app by done.
  assert (Hn' : (n <= 16)%nat) by (repeat (apply elem_of_cons in Hn as [->|Hn]; [lia|]); by apply elem_of_nil in Hn).
  destruct (be_dec_take_drop n b) as [-> ->]; [done|lia|]. rewrite L, length_take, L, Nat.min_l, !pow256 by lia.
  unfold rot. replace (8 * Z.of_nat (16 - n)) with (128 - 8 * Z.of_nat n) by lia. f_equal.
  replace (2 ^ 128) with (2 ^ (128 - 8 * Z.of_nat n) * 2 ^ (8 * Z.of_nat n))
    by (rewrite <- Z.pow_add_r by lia; f_equal; lia).
  rewrite Z.mul_mod_distr_r; lia.
Qed.

Lemma dec_aes k x : block_ok k -> block_ok x -> be_dec (aesEncryptBlock k x) = E (be_dec k) (be_dec x).
Proof. intros Hk Hx. unfold E, aesEncryptBlock. by rewrite !block_be. Qed.

Lemma dec_xor a b : block_ok a -> block_ok b -> be_dec (xor16 a b) = Z.lxor (be_dec a) (be_dec b).
Proof. intros [La Ba] [Lb Bb]. apply be_dec_xor; congruence || done. Qed.

Lemma xor16_block a b : block_ok a -> block_ok b -> block_ok (xor16 a b).
Proof. apply xor_block. Qed.

Lemma aesE_block k x : block_ok k -> block_ok x -> block_ok (aesEncryptBlock k x).
Proof. apply aes_block. Qed.

Create HintDb block discriminated.
#[export] Hint Resolve xor16_block aesE_block rotate_block : block.

Lemma C_block i : i ∈ [2; 3; 4]%nat -> block_ok (milenageC i) /\ be_dec (milenageC i) = 2 ^ (Z.of_nat i - 2).
Proof.
  intros Hi. repeat (apply elem_of_cons in Hi as [->|Hi]; [|]); [..|by apply elem_of_nil in Hi];
    (split; [split; [done|repeat constructor; done]|done]).
Qed.

Lemma FN_block ki opc temp i n :
  block_ok ki -> block_ok opc -> block_ok temp -> i ∈ [2; 3; 4]%nat -> n ∈ [0; 4; 8]%nat ->
  block_ok (milenageFN ki opc temp (milenageC i) n) /\
  be_dec (milenageFN ki opc temp (milenageC i) n) =
    Z.lxor (E (be_dec ki) (Z.lxor (rot (Z.lxor (be_dec temp) (be_dec opc)) (8 * Z.of_nat n)) (2 ^ (Z.of_nat i - 2)))) (be_dec opc).
Proof.
  intros Hk Ho Ht Hi Hn. destruct (C_block i Hi) as [Cb <-]. unfold milenageFN. split.
  - auto 10 with block.
  - rewrite dec_xor by auto 10 with block.
    by rewrite dec_aes, dec_xor, dec_rotate, dec_xor by auto 10 with block.
Qed.

Lemma hex_decode_ok n l r : (length l <= n)%nat -> hex_decode l = Some r -> bytes_ok r.
Proof.
  revert l r. induction n as [|n IH]; intros [|a [|b l]] r Hn; cbn; try (by intros [= <-]; constructor) || (cbn in *; lia).
  destruct (hexval a) as [hi|] eqn:Ea; [|done]. destruct (hexval b) as [lo|] eqn:Eb; [|done]. cbn.
  destruct (hex_decode l) as [r'|] eqn:Er; [|done]. cbn. intros [= <-].
  apply hexval_range in Ea, Eb. constructor; [unfold byte_ok; lia|]. apply (IH l); [cbn in Hn; lia|done].
Qed.

Lemma decode16Hex_block s name b : decode16Hex s name = Ok b -> block_ok b.
Proof.
  unfold decode16Hex. destruct (hex_decode _) as [raw|] eqn:Er; [|done].
  destruct (Nat.eqb_spec (length raw) 16); [|done]. intros [= <-]. split; [done|]. by eapply hex_decode_ok.
Qed.

(** The keys and the acceptance in terms of the standard's functions. *)
Definition network_autn (k opc rand sqn amf : Z) : list Z :=
  (be 6 (Z.lxor sqn (f5 k opc rand)) ++ be 2 amf ++ be 8 (f1 k opc rand sqn amf))%list.

Lemma dec_parts b : block_ok b ->
  be_dec (take 6 b) = be_dec b / 2 ^ 80 /\ be_dec (take 8 b) = be_dec b / 2 ^ 64 /\
  be_dec (drop 8 b) = be_dec b mod 2 ^ 64.
Proof.
  intros [L B]. destruct (be_dec_take_drop 6 b) as [-> _]; [done|lia|].
  destruct (be_dec_take_drop 8 b) as [-> ->]; [done|lia|]. by rewrite L.
Qed.

Lemma indices : (2%nat ∈ [2; 3; 4]%nat /\ 3%nat ∈ [2; 3; 4]%nat /\ 4%nat ∈ [2; 3; 4]%nat) /\
  (0%nat ∈ [0; 4; 8]%nat /\ 4%nat ∈ [0; 4; 8]%nat /\ 8%nat ∈ [0; 4; 8]%nat).
Proof. set_solver. Qed.

#[local] Opaque aes_encrypt E rot aesEncryptBlock xor16 rotateLeft128.

Section keys.
Context (ki opc rand : list Z) (Hk : block_ok ki) (Ho : block_ok opc) (Hr : block_ok rand).
Let temp := aesEncryptBlock ki (xor16 rand opc).
Let k := be_dec ki.
Let o := be_dec opc.
Let r := be_dec rand.

Lemma temp_block : block_ok temp.
Proof using Hk Ho Hr. unfold temp. auto with block. Qed.

Lemma dec_temp : be_dec temp = TEMP k o r.
Proof using Hk Ho Hr. unfold temp, TEMP. rewrite dec_aes, dec_xor; auto with block. Qed.

Lemma F2345_spec :
  milenageF2345 ki opc temp = (be 8 (f2 k o r), be 16 (f3 k o r), be 16 (f4 k o r), be 6 (f5 k o r)).
Proof using Hk Ho Hr.
  pose proof temp_block as Ht. unfold milenageF2345.
  assert (HFN : forall i n, i ∈ [2; 3; 4]%nat -> n ∈ [0; 4; 8]%nat ->
    block_ok (milenageFN ki opc temp (milenageC i) n) /\
    be_dec (milenageFN ki opc temp (milenageC i) n) = OUT k o r (8 * Z.of_nat n) (2 ^ (Z.of_nat i - 2))).
  { intros i n Hi Hn. destruct (FN_block ki opc temp i n Hk Ho Ht Hi Hn) as [B ->].
    rewrite dec_temp. unfold OUT. fold k o. exact (conj B eq_refl). }
  destruct indices as ((I2 & I3 & I4) & J0 & J4 & J8).
  destruct (HFN 2%nat 0%nat I2 J0) as [B2 D2]. destruct (HFN 3%nat 4%nat I3 J4) as [B3 D3].
  destruct (HFN 4%nat 8%nat I4 J8) as [B4 D4]. clear HFN.
  change (8 * Z.of_nat 0) with 0 in D2. change (2 ^ (Z.of_nat 2 - 2)) with 1 in D2.
  change (8 * Z.of_nat 4) with 32 in D3. change (2 ^ (Z.of_nat 3 - 2)) with 2 in D3.
  change (8 * Z.of_nat 8) with 64 in D4. change (2 ^ (Z.of_nat 4 - 2)) with 4 in D4.
  set (out2 := milenageFN _ _ _ (milenageC 2) 0) in *. destruct (dec_parts out2 B2) as (P6 & P8 & Q8).
  destruct B2 as [L2 B2]. rewrite D2 in *.
  rewrite <- (block_be _ B3), <- (block_be _ B4), D3, D4.
  assert (E8 : take 8 (drop 8 out2) = be 8 (f2 k o r)).
  { rewrite take_ge by (rewrite length_drop; lia). unfold f2. rewrite <- Q8. apply part_be; [auto with bytes|].
    rewrite length_drop. lia. }
  assert (E6 : take 6 out2 = be 6 (f5 k o r)).
  { unfold f5. rewrite <- P6. apply part_be; [auto with bytes|]. rewrite length_take. lia. }
  by rewrite E8, E6.
Qed.

Lemma F1_spec sqn amf :
  bytes_ok sqn -> length sqn = 6%nat -> bytes_ok amf -> length amf = 2%nat ->
  milenageF1 ki opc temp sqn amf = be 8 (f1 k o r (be_dec sqn) (be_dec amf)).
Proof using Hk Ho Hr.
  intros Bs Ls Ba La. pose proof temp_block as Ht. unfold milenageF1.
  set (in1 := (sqn ++ amf ++ sqn ++ amf)%list).
  assert (Hin : block_ok in1) by (split; [unfold in1; rewrite !length_app; lia|unfold in1; by rewrite !bytes_ok_app]).
  assert (Din : be_dec in1 = IN1 (be_dec sqn) (be_dec amf)).
  { unfold in1, IN1. rewrite !be_dec_list_app, !length_app, Ls, La. generalize (be_dec sqn) (be_dec amf). intros S A.
    change (256 ^ Z.of_nat (2 + (6 + 2))) with (2 ^ 80). change (256 ^ Z.of_nat (6 + 2)) with (2 ^ 64).
    change (256 ^ Z.of_nat 2) with (2 ^ 16). lia. }
  destruct indices as (_ & _ & _ & H8). pose proof dec_temp as Dt. clearbody in1 temp.
  match goal with |- take 8 ?x = _ => set (out := x) end.
  assert (Hout : block_ok out) by (unfold out; auto 10 with block).
  assert (Dout : be_dec out = Z.lxor (E k (Z.lxor (TEMP k o r) (rot (Z.lxor (IN1 (be_dec sqn) (be_dec amf)) o) 64))) o).
  { unfold out. rewrite dec_xor by auto 10 with block.
    rewrite dec_aes, dec_xor, dec_rotate, dec_xor by auto 10 with block. by rewrite Dt, Din. }
  destruct (dec_parts out Hout) as (_ & P8 & _). 
  assert (Ef : f1 k o r (be_dec sqn) (be_dec amf) = be_dec (take 8 out)) by (rewrite P8, Dout; reflexivity).
  rewrite Ef.
  destruct Hout as [L B]. apply part_be; [auto with bytes|]. rewrite length_take. lia.
Qed.

Lemma f5_bound : 0 <= f5 k o r < 2 ^ 48.
Proof using Hk Ho Hr.
  pose proof F2345_spec as H. unfold milenageF2345 in H. injection H as _ _ _ H6.
  destruct indices as ((I2 & _) & J0 & _).
  destruct (FN_block ki opc temp 2 0 Hk Ho temp_block I2 J0) as [B D].
  destruct (dec_parts _ B) as (P6 & _). destruct B as [L B].
  assert (Ef : f5 k o r = be_dec (take 6 (milenageFN ki opc temp (milenageC 2) 0))).
  { rewrite P6, D, dec_temp. reflexivity. }
  rewrite Ef. pose proof (be_dec_bound (take 6 (milenageFN ki opc temp (milenageC 2) 0)) ltac:(auto with bytes)) as Hb.
  rewrite length_take, L in Hb. exact Hb.
Qed.
End keys.

(** C28: The client's Milenage over byte arrays is that of TS 35.206 over
    128 bit numbers: a challenge is accepted exactly when the MAC part of AUTN
    is f1 of the sequence number that f5 reveals, and then RES, CK and IK are
    f2, f3 and f4. *)
Theorem milenage_equivalence kiHex opcHex ki opc rand autn :
  decode16Hex kiHex "Ki" = Ok ki -> decode16Hex opcHex "OPc" = Ok opc -> block_ok rand -> block_ok autn ->
  let k := be_dec ki in let o := be_dec opc in let r := be_dec rand in
  let sqn := Z.lxor (be_dec (take 6 autn)) (f5 k o r) in
  let amf := be_dec (take 2 (drop 6 autn)) in
  milenageAKA kiHex opcHex rand autn =
    if decide (take 8 (drop 8 autn) = be 8 (f1 k o r sqn amf))
    then Ok (mkKeys (be 8 (f2 k o r)) (be 16 (f3 k o r)) (be 16 (f4 k o r))) else Err AMac.
Proof.
  intros Ek Eo Hr [La Ba] k o r sqn amf.
  pose proof (decode16Hex_block _ _ _ Ek) as Hk. pose proof (decode16Hex_block _ _ _ Eo) as Ho.
  unfold milenageAKA. rewrite Ek, Eo. cbv zeta. rewrite (F2345_spec ki opc rand Hk Ho Hr).
  fold k o r. pose proof (f5_bound ki opc rand Hk Ho Hr) as H5. fold k o r in H5.
  assert (B6 : bytes_ok (take 6 autn) /\ length (take 6 autn) = 6%nat)
    by (split; [auto with bytes|rewrite length_take; lia]).
  assert (Hs : bytes_ok (xor_bytes (take 6 autn) (be 6 (f5 k o r))) /\
               length (xor_bytes (take 6 autn) (be 6 (f5 k o r))) = 6%nat)
    by (split; [apply xor_bytes_ok; [apply B6|auto with bytes]|rewrite length_xor_bytes; [apply B6|rewrite length_be; apply B6]]).
  assert (Ds : be_dec (xor_bytes (take 6 autn) (be 6 (f5 k o r))) = sqn).
  { rewrite be_dec_xor, be_dec_be_small; [done|exact H5|apply B6|auto with bytes|rewrite length_be; apply B6]. }
  rewrite (F1_spec ki opc rand Hk Ho Hr _ _ (proj1 Hs) (proj2 Hs)).
  2: { auto with bytes. } 2: { rewrite length_take, length_drop. lia. }
  rewrite Ds. fold k o r amf. repeat case_decide; congruence.
Qed.

Lemma milenage_equivalence_witness :
  milenageAKA "465b5ce8b199b49faa5f0a2ee238a6bc" "cd63cb71954a9f4e48a5994e37a02baf"
    (be 16 0x23553cbe9637a89d218ae64dae47bf35) (be 16 0x55f328b43577b9b94a9ffac354dfafb4) = Err AMac.
Proof.
  refine (eq_trans (milenage_equivalence "465b5ce8b199b49faa5f0a2ee238a6bc" "cd63cb71954a9f4e48a5994e37a02baf" (be 16 0x465b5ce8b199b49faa5f0a2ee238a6bc)
    (be 16 0xcd63cb71954a9f4e48a5994e37a02baf) _ _ eq_refl eq_refl _ _) _).
  - split; [apply length_be|apply be_bytes_ok].
  - split; [apply length_be|apply be_bytes_ok].
  - vm_compute. reflexivity.
Defined.

(** The challenge the network builds for a sequence number is accepted. *)
Lemma network_challenge_accepted kiHex opcHex ki opc rand sqn amf :
  decode16Hex kiHex "Ki" = Ok ki -> decode16Hex opcHex "OPc" = Ok opc -> block_ok rand ->
  0 <= sqn < 2 ^ 48 -> 0 <= amf < 2 ^ 16 ->
  let k := be_dec ki in let o := be_dec opc in let r := be_dec rand in
  milenageAKA kiHex opcHex rand (network_autn k o r sqn amf) =
    Ok (mkKeys (be 8 (f2 k o r)) (be 16 (f3 k o r)) (be 16 (f4 k o r))).
Proof.
  intros Ek Eo Hr Hsqn Hamf k o r. set (autn := network_autn k o r sqn amf).
  pose proof (decode16Hex_block _ _ _ Ek) as Hk. pose proof (decode16Hex_block _ _ _ Eo) as Ho.
  pose proof (f5_bound ki opc rand Hk Ho Hr) as H5. fold k o r in H5.
  assert (Hb : block_ok autn).
  { split; [unfold autn, network_autn; len|unfold autn, network_autn; rewrite !bytes_ok_app; auto with bytes]. }
  rewrite (milenage_equivalence kiHex opcHex ki opc rand autn Ek Eo Hr Hb). fold k o r.
  assert (E6 : take 6 autn = be 6 (Z.lxor sqn (f5 k o r))) by done.
  assert (E2 : take 2 (drop 6 autn) = be 2 amf) by done.
  assert (E8 : take 8 (drop 8 autn) = be 8 (f1 k o r sqn amf)) by done.
  rewrite E6, E2, E8. rewrite (be_dec_be_small 2) by done.
  rewrite be_dec_be_small.
  - rewrite Z.lxor_assoc, Z.lxor_nilpotent, Z.lxor_0_r. by rewrite decide_True.
  - assert (0 <= Z.lxor sqn (f5 k o r)) by (apply Z.lxor_nonneg; lia). split; [done|].
    destruct (Z.eq_dec (Z.lxor sqn (f5 k o r)) 0) as [->|Hz]; [done|].
    change (256 ^ Z.of_nat 6) with (2 ^ 48). apply Z.log2_lt_pow2; [lia|].
    pose proof (Z.log2_lxor sqn (f5 k o r) ltac:(lia) ltac:(lia)).
    assert (Hlog : forall x, 0 <= x < 2 ^ 48 -> Z.log2 x < 48).
    { intros x Hx. destruct (Z.eq_dec x 0) as [->|]; [done|]. apply Z.log2_lt_pow2; lia. }
    pose proof (Hlog _ Hsqn). pose proof (Hlog _ H5). lia.
Qed.

(** * The pseudo-random function *)
Lemma not32_bit b n : u_ok 32 b -> 0 <= n -> Z.testbit b n = true -> Z.testbit (not32 b) n = false.
Proof.
  intros Hb Hn Ht. unfold not32. rewrite Z.lxor_spec, Ht.
  assert (n < 32). { destruct (Z.lt_ge_cases n 32); [done|]. rewrite Z.bits_above_log2 in Ht; [done|unfold u_ok in Hb; lia|].
    destruct (Z.eq_dec b 0) as [->|]; [by rewrite Z.bits_0 in Ht|]. enough (Z.log2 b < 32) by lia.
    apply Z.log2_lt_pow2; unfold u_ok in Hb; lia. }
  change 0xffffffff with (Z.ones 32). by rewrite Z.ones_spec_low by lia.
Qed.

Lemma Ch_or b c d : u_ok 32 b -> Z.lor (Z.land b c) (Z.land (Z.lxor b 0xffffffff) d) = Ch b c d.
Proof.
  intros Hb. unfold Ch. fold (not32 b). apply Z.bits_inj'. intros n Hn.
  rewrite Z.lor_spec, Z.lxor_spec, !Z.land_spec. destruct (Z.testbit b n) eqn:E.
  - rewrite (not32_bit b n) by done. by destruct (Z.testbit c n), (Z.testbit d n).
  - by destruct (Z.testbit c n), (Z.testbit (not32 b) n), (Z.testbit d n).
Qed.

Lemma Maj_or b c d : Z.lor (Z.lor (Z.land b c) (Z.land b d)) (Z.land c d) = Maj b c d.
Proof.
  unfold Maj. apply Z.bits_inj'. intros n Hn. rewrite !Z.lor_spec, !Z.lxor_spec, !Z.land_spec.
  by destruct (Z.testbit b n), (Z.testbit c n), (Z.testbit d n).
Qed.

Lemma dss_fk_eq i b c d : u_ok 32 b -> dss_fk i b c d = (sha1_f i b c d, sha1_K i).
Proof.
  intros Hb. unfold dss_fk, sha1_f, sha1_K. destruct (i <? 20)%nat; [by rewrite Ch_or|].
  destruct (i <? 40)%nat; [done|]. destruct (i <? 60)%nat; [by rewrite Maj_or|done].
Qed.

Lemma dss_schedule_eq n w : dss_schedule n w = sha1_schedule n w.
Proof. revert w. induction n as [|n IH]; intros w; [done|]. cbn [dss_schedule sha1_schedule]. by rewrite IH. Qed.

Lemma add32_sum r f e k x : wrap 32 (r + f + e + k + x) = add32 (add32 (add32 (add32 r f) e) k) x.
Proof.
  assert (H : forall a b, w32 (w32 a + b) = w32 (a + b)) by (intros a b; unfold w32; by rewrite Z.add_mod_idemp_l by lia).
  unfold add32. by rewrite (H (r + f)), (H (r + f + e)), (H (r + f + e + k)).
Qed.

Lemma w32_ok z : u_ok 32 (w32 z).
Proof. unfold u_ok, w32. apply Z.mod_pos_bound. lia. Qed.

Lemma rotl32_ok k x : 0 <= k <= 32 -> u_ok 32 x -> u_ok 32 (rotl32 k x).
Proof.
  intros Hk Hx. unfold rotl32. assert (Ha := w32_ok (Z.shiftl x k)).
  assert (Hb : u_ok 32 (Z.shiftr x (32 - k))).
  { unfold u_ok in *. rewrite Z.shiftr_div_pow2 by lia. assert (0 < 2 ^ (32 - k)) by (apply Z.pow_pos_nonneg; lia).
    split; [apply Z.div_pos; lia|]. apply Z.div_lt_upper_bound; nia. }
  unfold u_ok in *. assert (0 <= Z.lor (w32 (Z.shiftl x k)) (Z.shiftr x (32 - k))) by (apply Z.lor_nonneg; lia).
  split; [done|]. destruct (Z.eq_dec (Z.lor (w32 (Z.shiftl x k)) (Z.shiftr x (32 - k))) 0) as [->|]; [done|].
  apply Z.log2_lt_pow2; [lia|]. rewrite Z.log2_lor by lia.
  assert (Hlog : forall y, 0 <= y < 2 ^ 32 -> Z.log2 y < 32).
  { intros y Hy. destruct (Z.eq_dec y 0) as [->|]; [done|]. apply Z.log2_lt_pow2; lia. }
  apply Z.max_lub_lt; by apply Hlog.
Qed.

Definition sha_ok (s : sha1_state) : Prop := u_ok 32 (h_a s) /\ u_ok 32 (h_b s).

Lemma dss_rounds_eq i w a b c d e :
  u_ok 32 a -> u_ok 32 b ->
  dss_rounds i w a b c d e =
    let s := sha1_steps i w (mkSha a b c d e) in (h_a s, h_b s, h_c s, h_d s, h_e s).
Proof.
  revert i a b c d e. induction w as [|x w IH]; intros i a b c d e Ha Hb; [done|].
  cbn [dss_rounds sha1_steps]. rewrite dss_fk_eq by done.
  rewrite IH; [|rewrite add32_sum; apply w32_ok|done].
  unfold sha1_step. cbn [h_a h_b h_c h_d h_e]. by rewrite add32_sum.
Qed.

Lemma chunks_eq n b : length b = (4 * n)%nat ->
  chunks n 4 b = map (fun i => take 4 (drop (i * 4) b)) (seq 0 n).
Proof.
  revert b. induction n as [|n IH]; intros b L; [done|].
  cbn [chunks seq map]. rewrite <- seq_shift, map_map, IH by (rewrite length_drop; lia).
  assert (Hb : b <> []) by (by destruct b). destruct b as [|x b']; [done|]. rewrite drop_0. f_equal.
  apply map_ext. intros i. by rewrite drop_drop.
Qed.

(** [sha1DSS] of 20 bytes is the compression function of SHA-1 on one zero
    padded block, from the initial value: the function G of FIPS 186-2. *)
Definition G (x : list Z) : list Z := sha1_digest (sha1_compress sha1_iv (x ++ zeros 44)).

Lemma dss_rounds_schedule n words h :
  u_ok 32 (h_a h) -> u_ok 32 (h_b h) ->
  (let '(a, b, c, d, e) := dss_rounds 0 (dss_schedule n words) (h_a h) (h_b h) (h_c h) (h_d h) (h_e h) in
   (wrap 32 (h_a h + a), wrap 32 (h_b h + b), wrap 32 (h_c h + c), wrap 32 (h_d h + d), wrap 32 (h_e h + e))) =
  (let s := sha1_steps 0 (sha1_schedule n words) h in
   (add32 (h_a h) (h_a s), add32 (h_b h) (h_b s), add32 (h_c h) (h_c s), add32 (h_d h) (h_d s), add32 (h_e h) (h_e s))).
Proof.
  intros Ha Hb. rewrite dss_schedule_eq, dss_rounds_eq by done. destruct h as [a b c d e]. cbn [h_a h_b h_c h_d h_e].
  by generalize (sha1_steps 0 (sha1_schedule n words) (mkSha a b c d e)).
Qed.

Lemma dss_block_eq h block : length block = 64%nat -> u_ok 32 (h_a h) -> u_ok 32 (h_b h) ->
  dss_block (h_a h, h_b h, h_c h, h_d h, h_e h) block =
  let s := sha1_compress h block in (h_a s, h_b s, h_c s, h_d s, h_e s).
Proof.
  intros L Ha Hb. unfold dss_block, sha1_compress. rewrite (chunks_eq 16) by done. rewrite map_map.
  cbn [h_a h_b h_c h_d h_e]. by apply dss_rounds_schedule.
Qed.

Lemma sha1DSS_eq x : length x = 20%nat -> sha1DSS x = Some (G x).
Proof.
  intros L. unfold sha1DSS, G. set (b := (x ++ zeros 44)%list).
  assert (Lb : length b = 64%nat) by (unfold b; rewrite length_app, L; done).
  rewrite Lb. destruct b as [|b0 br] eqn:Eb; [done|]. cbn [dss_blocks]. rewrite <- Eb in *. clear Eb b0 br.
  rewrite go_slice_Some, go_from_Some by lia. cbn [mbind option_bind].
  rewrite drop_ge, drop_0, take_ge by lia. cbn [dss_blocks].
  change (0x67452301, 0xEFCDAB89, 0x98BADCFE, 0x10325476, 0xC3D2E1F0)
    with (h_a sha1_iv, h_b sha1_iv, h_c sha1_iv, h_d sha1_iv, h_e sha1_iv).
  by rewrite dss_block_eq by (done || (unfold u_ok, sha1_iv; cbn; lia)).
Qed.

Lemma be_zeros n k z : (k <= n)%nat -> 0 <= z < 256 ^ Z.of_nat k -> be n z = (zeros (n - k) ++ be k z)%list.
Proof.
  intros Hk Hz. induction n as [|n IH]; [assert (k = 0%nat) as -> by lia; done|].
  destruct (decide (k = S n)) as [->|Hne]; [by rewrite Nat.sub_diag|].
  rewrite Nat.sub_succ_l by lia. cbn [be zeros repeat app]. rewrite IH by lia. f_equal.
  rewrite Z.shiftr_div_pow2, <- pow256 by lia. rewrite Z.div_small; [done|].
  split; [lia|]. apply Z.lt_le_trans with (256 ^ Z.of_nat k); [lia|]. apply Z.pow_le_mono_r; lia.
Qed.

Lemma int_bytes_be x : 0 <= x < 2 ^ 160 ->
  (length (int_bytes x) <= 20)%nat /\ be 20 x = (zeros (20 - length (int_bytes x)) ++ int_bytes x)%list.
Proof.
  intros Hx. unfold int_bytes. destruct (Z.eqb_spec x 0) as [->|Hne]; [by split; [cbn; lia|]|].
  rewrite length_be. pose proof (Z.log2_nonneg x). pose proof (Z.log2_spec x ltac:(lia)) as [Hl Hu].
  assert (Hlog : Z.log2 x < 160) by (apply Z.log2_lt_pow2; lia).
  assert (Hk : 0 <= Z.log2 x / 8 < 20) by (split; [apply Z.div_pos; lia|apply Z.div_lt_upper_bound; lia]).
  split; [lia|]. apply be_zeros; [lia|]. rewrite Z2Nat.id by lia. split; [lia|].
  apply Z.lt_le_trans with (1 := Hu). change 256 with (2 ^ 8). rewrite <- Z.pow_mul_r by lia.
  apply Z.pow_le_mono_r; [lia|]. pose proof (Z.div_mod (Z.log2 x) 8 ltac:(lia)).
  pose proof (Z.mod_pos_bound (Z.log2 x) 8 ltac:(lia)). lia.
Qed.

Definition next_key (xkey : Z) (w : list Z) : Z := (xkey + be_dec w + 1) mod 2 ^ 160.

(** The generator of FIPS 186-2 with the change notice: blocks of 20 bytes,
    the state taken modulo [2 ^ 160]. *)
Fixpoint fips_prf (n : nat) (xkey : Z) : list Z :=
  match n with
  | O => []
  | S n => let w := G (be 20 xkey) in (w ++ fips_prf n (next_key xkey w))%list
  end.

Lemma next_key_ok xkey w : 0 <= next_key xkey w < 2 ^ 160.
Proof. apply Z.mod_pos_bound. lia. Qed.

Lemma eapAKANextXVAL_eq xval w : eapAKANextXVAL xval w = be 20 (next_key (be_dec xval) w).
Proof.
  unfold eapAKANextXVAL. assert (Hx : (be_dec xval + be_dec w + 1) mod 2 ^ 160 = next_key (be_dec xval) w) by reflexivity.
  rewrite Hx. generalize (next_key_ok (be_dec xval) w). generalize (next_key (be_dec xval) w). intros x Hb.
  destruct (int_bytes_be x Hb) as [Hl ->].
  destruct (Nat.leb_spec 20 (length (int_bytes x))); [|done].
  replace (length (int_bytes x) - 20)%nat with 0%nat by lia.
  by replace (20 - length (int_bytes x))%nat with 0%nat by lia.
Qed.

Lemma length_G x : length (G x) = 20%nat.
Proof. apply length_sha1_digest. Qed.

#[local] Opaque G sha1DSS.

Lemma be_dec_20 x : 0 <= x < 2 ^ 160 -> be_dec (be 20 x) = x.
Proof. intros Hx. rewrite be_dec_be. by apply Z.mod_small. Qed.

Lemma prf_unfold fuel n xval acc : (length acc < n)%nat ->
  prf_loop (S fuel) n xval acc =
    (w0 ← sha1DSS xval; w1 ← sha1DSS (eapAKANextXVAL xval w0);
     prf_loop fuel n (eapAKANextXVAL (eapAKANextXVAL xval w0) w1) (acc ++ w0 ++ w1)%list).
Proof. intros Hn. cbn [prf_loop]. by rewrite (proj2 (Nat.leb_gt n (length acc))). Qed.
Lemma prf_turn0 fuel n xval acc : length xval = 20%nat -> (length acc < n)%nat ->
  prf_loop (S fuel) n xval acc =
  prf_loop fuel n (eapAKANextXVAL (eapAKANextXVAL xval (G xval)) (G (eapAKANextXVAL xval (G xval))))
    (acc ++ G xval ++ G (eapAKANextXVAL xval (G xval)))%list.
Proof. intros L Hn. rewrite prf_unfold by done. rewrite sha1DSS_eq by done. cbn [mbind option_bind].
rewrite sha1DSS_eq; [done|]. rewrite eapAKANextXVAL_eq. apply length_be. Qed.

Lemma next20 x w : 0 <= x < 2 ^ 160 -> eapAKANextXVAL (be 20 x) w = be 20 (next_key x w).
Proof. intros Hx. by rewrite eapAKANextXVAL_eq, be_dec_20. Qed.

Lemma prf_turn fuel n xkey acc : 0 <= xkey < 2 ^ 160 -> (length acc < n)%nat ->
  prf_loop (S fuel) n (be 20 xkey) acc =
  prf_loop fuel n (be 20 (next_key (next_key xkey (G (be 20 xkey))) (G (be 20 (next_key xkey (G (be 20 xkey)))))))
    (acc ++ G (be 20 xkey) ++ G (be 20 (next_key xkey (G (be 20 xkey)))))%list.
Proof.
  intros Hx Hn. rewrite prf_turn0 by (done || apply length_be).
  by rewrite next20, next20 by (done || apply next_key_ok).
Qed.

Lemma fips_prf_two n x :
  fips_prf (S (S n)) x = (G (be 20 x) ++ G (be 20 (next_key x (G (be 20 x)))) ++
    fips_prf n (next_key (next_key x (G (be 20 x))) (G (be 20 (next_key x (G (be 20 x)))))))%list.
Proof. reflexivity. Qed.

Lemma prf_loop_eq n m fuel xkey acc :
  0 <= xkey < 2 ^ 160 -> (n <= fuel)%nat -> (length acc + 40 * n = m)%nat ->
  prf_loop fuel m (be 20 xkey) acc = Some (acc ++ fips_prf (2 * n) xkey)%list.
Proof.
  revert fuel xkey acc. induction n as [|n IH]; intros fuel xkey acc Hx Hf Hl.
  - cbn [fips_prf Nat.mul]. rewrite app_nil_r. destruct fuel; cbn [prf_loop];
      rewrite (proj2 (Nat.leb_le m (length acc))) by lia; by rewrite take_ge by lia.
  - destruct fuel as [|fuel]; [lia|]. rewrite prf_turn by lia.
    rewrite IH; [|apply next_key_ok|lia|rewrite !length_app, !length_G; lia].
    replace (2 * S n)%nat with (S (S (2 * n))) by lia. by rewrite fips_prf_two, <- !app_assoc.
Qed.

Lemma length_fips_prf n x : length (fips_prf n x) = (20 * n)%nat.
Proof. revert x. induction n as [|n IH]; intros x; [done|]. cbn [fips_prf]. rewrite length_app, length_G, IH. lia. Qed.

Lemma eapAKAPRF_eq n mk : (40 * n = 160)%nat -> length mk = 20%nat -> bytes_ok mk ->
  eapAKAPRF mk 160 = Some (fips_prf (2 * n) (be_dec mk)).
Proof.
  intros Hn L B. pose proof (be_dec_bound mk B) as Hb. rewrite L in Hb.
  pose proof (be_be_dec mk B) as Hmk. rewrite L in Hmk. unfold eapAKAPRF. rewrite <- Hmk at 1.
  rewrite (prf_loop_eq n 160); [done|exact Hb|lia|cbn [length]; lia].
Qed.

Lemma derive_eq identity ik ck :
  let stream := fips_prf 8 (be_dec (sha1 (identity ++ ik ++ ck))) in
  deriveEAPAKAKeys identity ik ck = Some (take 16 stream, take 16 (drop 16 stream)).
Proof.
  unfold deriveEAPAKAKeys. rewrite (eapAKAPRF_eq 4) by (done || apply length_sha1 || apply sha1_digest_ok).
  cbn [mbind option_bind]. change (2 * 4)%nat with 8%nat.
  generalize (length_fips_prf 8 (be_dec (sha1 (identity ++ ik ++ ck)))).
  generalize (fips_prf 8 (be_dec (sha1 (identity ++ ik ++ ck)))). intros st L.
  rewrite !go_slice_Some by lia. by rewrite drop_0.
Qed.

(** The EAP-AKA keys are derived as RFC 4187 says: the first and second
    16 bytes of the FIPS 186-2 generator seeded with the SHA-1 hash of
    identity, IK and CK; the derivation always ends. *)
Theorem eap_aka_keys identity ik ck :
  let stream := fips_prf 8 (be_dec (sha1 (identity ++ ik ++ ck))) in
  length stream = 160%nat /\
  deriveEAPAKAKeys identity ik ck = Some (take 16 stream, take 16 (drop 16 stream)).
Proof. intros stream. split; [apply length_fips_prf|apply derive_eq]. Qed.

(** * The exchange *)

(** One attribute of [n] words, value included. *)
Lemma aka_attr_step fuel t n v rest out :
  length v = (4 * n - 4)%nat -> (1 <= n < 64)%nat ->
  (t = eapAKAAttrRAND \/ t = eapAKAAttrAUTN -> (16 <= length v)%nat) ->
  forall x y,
  aka_attrs (S fuel) ([t; Z.of_nat n; x; y] ++ v ++ rest)%list out =
  aka_attrs fuel rest
    (if t =? eapAKAAttrRAND then mkChallenge (c_Identifier out) (take 16 v) (c_AUTN out)
     else if t =? eapAKAAttrAUTN then mkChallenge (c_Identifier out) (c_RAND out) (take 16 v) else out).
Proof.
  intros Lv Hn Hs x y. set (b := ([t; Z.of_nat n; x; y] ++ v ++ rest)%list).
  assert (Lb : length b = (4 * n + length rest)%nat) by (unfold b; rewrite !length_app; cbn [length]; lia).
  assert (Hg : go_slice b 4 (4 * n) = Some v) by (unfold b; apply go_slice_app; cbn [length]; lia).
  assert (Hf : go_from b (4 * n) = Some rest)
    by (unfold b; rewrite app_assoc; apply go_from_app; rewrite length_app; cbn [length]; lia).
  assert (H0 : go_idx b 0 = Some t /\ go_idx b 1 = Some (Z.of_nat n)) by done. destruct H0 as [H0 H1].
  destruct b as [|b0 br] eqn:Eb; [done|]. cbn [aka_attrs]. rewrite <- Eb in *. clear Eb b0 br.
  rewrite (proj2 (Nat.ltb_ge (length b) 4)), H0, H1 by lia. cbn [mbind option_bind]. rewrite Nat2Z.id.
  rewrite (Nat.mul_comm n 4), (proj2 (Nat.ltb_ge (4 * n) 4)), (proj2 (Nat.ltb_ge (length b) (4 * n))) by lia.
  cbn [orb]. rewrite Hg. cbn [mbind option_bind].
  assert (Hshort : forall c, c = eapAKAAttrRAND \/ c = eapAKAAttrAUTN ->
    ((t =? c) && (length v <? 16)%nat)%bool = false).
  { intros c Hc. destruct (Z.eqb_spec t c) as [->|]; [|done]. cbn [andb]. apply Nat.ltb_ge. by apply Hs. }
  rewrite !Hshort by auto. by rewrite Hf.
Qed.

(** The challenge a network sends (RFC 4187, 9.3). *)
Definition challenge_bytes (id : Z) (rand autn mac : list Z) : list Z :=
  ([eapCodeRequest; id; 0; 68; eapTypeAKA; eapAKASubtypeChallenge; 0; 0]
   ++ ([eapAKAAttrRAND; 5; 0; 0] ++ rand) ++ ([eapAKAAttrAUTN; 5; 0; 0] ++ autn)
   ++ ([eapAKAAttrMAC; 5; 0; 0] ++ mac))%list.

Lemma parse_challenge id rand autn mac :
  length rand = 16%nat -> length autn = 16%nat -> length mac = 16%nat -> rand <> zeros 16 -> autn <> zeros 16 ->
  parseAKAChallenge (challenge_bytes id rand autn mac) = Some (Ok (mkChallenge id rand autn)).
Proof.
  intros Lr La Lm Hr Ha. set (b := challenge_bytes id rand autn mac).
  assert (Lb : length b = 68%nat) by (unfold b, challenge_bytes; rewrite !length_app; cbn [length]; lia).
  assert (Hg : go_slice b 8 68 = Some (([eapAKAAttrRAND; 5; 0; 0] ++ rand) ++ ([eapAKAAttrAUTN; 5; 0; 0] ++ autn)
     ++ ([eapAKAAttrMAC; 5; 0; 0] ++ mac))%list).
  { rewrite go_slice_Some by lia. rewrite take_ge by (rewrite length_drop; lia). done. }
  unfold parseAKAChallenge. rewrite Lb. cbn [Nat.ltb Nat.leb].
  change (go_idx b 0) with (Some eapCodeRequest). change (go_idx b 1) with (Some id).
  change (go_idx b 2) with (Some 0). change (go_idx b 3) with (Some 68).
  change (go_idx b 4) with (Some eapTypeAKA). change (go_idx b 5) with (Some eapAKASubtypeChallenge).
  cbn [mbind option_bind]. rewrite !Z.eqb_refl. cbn [negb orb].
  change (Z.to_nat (Z.lor (Z.shiftl 0 8) 68)) with 68%nat. cbn [Nat.ltb Nat.leb orb]. rewrite Hg.
  cbn [mbind option_bind].
  match goal with |- context [aka_attrs ?n ?l _] => assert (Hn : n = S (S (S (n - 3)))) by
    (rewrite !length_app; cbn [length]; lia); rewrite Hn; generalize (n - 3)%nat; clear Hn; intros fuel end.
  rewrite <- (app_assoc [eapAKAAttrRAND; _; _; _]), <- (app_assoc [eapAKAAttrAUTN; _; _; _]).
  rewrite (aka_attr_step _ eapAKAAttrRAND 5 rand) by (lia || (intros; lia)).
  rewrite (aka_attr_step _ eapAKAAttrAUTN 5 autn) by (lia || (intros; lia)).
  rewrite <- (app_nil_r mac), (aka_attr_step _ eapAKAAttrMAC 5 mac)
    by (lia || (unfold eapAKAAttrMAC, eapAKAAttrRAND, eapAKAAttrAUTN; lia)).
  cbn [Z.eqb eapAKAAttrRAND eapAKAAttrAUTN eapAKAAttrMAC Pos.eqb c_Identifier c_RAND c_AUTN].
  rewrite !take_ge by lia.
  replace (aka_attrs fuel [] _) with (Some (@Ok _ aka_err (mkChallenge id rand autn))) by (by destruct fuel).
  cbn [mbind option_bind c_RAND c_AUTN]. by rewrite !decide_False.
Qed.

Lemma aka_attrs_total fuel attrs out : bytes_ok attrs -> (length attrs <= fuel)%nat ->
  exists r, aka_attrs fuel attrs out = Some r.
Proof.
  revert attrs out. induction fuel as [|fuel IH]; intros p out Hp Hf.
  { destruct p; [by eexists|]. cbn in Hf. lia. }
  destruct p as [|x p']; [by eexists|]. set (p := x :: p') in *. cbn [aka_attrs].
  change (match p with [] => Some (Ok out) | _ :: _ => ?e end) with e.
  destruct (length p <? 4)%nat eqn:E1; [by eexists|]. apply Nat.ltb_ge in E1.
  rewrite (go_idx_Some p 0), (go_idx_Some p 1) by lia. cbn [mbind option_bind].
  set (n := (Z.to_nat (nth 1 p 0%Z) * 4)%nat).
  destruct ((n <? 4) || (length p <? n))%nat%bool eqn:E2; [by eexists|].
  apply orb_false_iff in E2 as [E2%Nat.ltb_ge E3%Nat.ltb_ge].
  rewrite (go_slice_Some p 4 n), (go_from_Some p n) by lia. cbn [mbind option_bind].
  destruct (_ && _)%bool; [by eexists|]. destruct (_ && _)%bool; [by eexists|].
  apply IH; [by apply bytes_ok_drop|]. rewrite length_drop. lia.
Qed.

(** The parser of challenges returns on every packet, without a panic. *)
Lemma aka_parse_total p : bytes_ok p -> exists r, parseAKAChallenge p = Some r.
Proof.
  intros Hp. unfold parseAKAChallenge. destruct (length p <? 8)%nat eqn:E1; [by eexists|]. apply Nat.ltb_ge in E1.
  rewrite !go_idx_Some by lia. cbn [mbind option_bind]. destruct (_ || _)%bool; [by eexists|].
  set (n := Z.to_nat _). destruct ((n <? 8) || (length p <? n))%nat%bool eqn:E2; [by eexists|].
  apply orb_false_iff in E2 as [E2%Nat.ltb_ge E3%Nat.ltb_ge]. rewrite go_slice_Some by done. cbn [mbind option_bind].
  destruct (aka_attrs_total (length (take (n - 8) (drop 8 p))) (take (n - 8) (drop 8 p))
    (mkChallenge (nth 1 p 0) (zeros 16) (zeros 16))) as [r ->]; [auto with bytes|done|]. by eexists.
Qed.

(** The answer, up to its MAC. *)
Definition response_prefix (id : Z) (res : list Z) : list Z :=
  ([eapCodeResponse; id; 0; 44; eapTypeAKA; eapAKASubtypeChallenge; 0; 0]
   ++ [eapAKAAttrRES; 4; 0; 64] ++ res ++ zeros 4 ++ [eapAKAAttrMAC; 5; 0; 0])%list.

Lemma response_eq id res kAut : length res = 8%nat ->
  eapAKAChallengeResponse id res kAut =
  (response_prefix id res ++ take 16 (hmac_sha1 kAut (response_prefix id res ++ zeros 16)))%list.
Proof.
  intros L. do 8 (destruct res as [|? res]; [done|]). destruct res; [|done].
  unfold eapAKAChallengeResponse. cbv zeta.
  set (out := ([eapCodeResponse; _; _; _; _; _; _; _] ++ _ ++ _)%list).
  assert (Hout : out = (response_prefix id [z; z0; z1; z2; z3; z4; z5; z6] ++ zeros 16)%list) by reflexivity.
  rewrite Hout. unfold put_at. rewrite !length_app, length_zeros.
  assert (Lp : length (response_prefix id [z; z0; z1; z2; z3; z4; z5; z6]) = 28%nat) by reflexivity.
  rewrite Lp. change (28 + 16 - 16)%nat with 28%nat.
  set (b := (response_prefix id [z; z0; z1; z2; z3; z4; z5; z6] ++ zeros 16)%list) in *.
  assert (Lh : length (take 16 (hmac_sha1 kAut b)) = 16%nat)
    by (rewrite length_take; unfold hmac_sha1, hmac; by rewrite length_sha1).
  revert Lh. generalize (take 16 (hmac_sha1 kAut b)). intros mac Lh. rewrite Lh.
  rewrite (drop_ge b) by (unfold b; rewrite length_app, Lp, length_zeros; lia). rewrite app_nil_r. by f_equal.
Qed.

(** Against a challenge built by a network for the subscriber's keys, with
    any sequence number, the client answers with RES = f2 and a MAC, under
    the key derived from identity, IK = f4 and CK = f3, over the answer with
    a zero MAC. *)
Theorem aka_exchange identity kiHex opcHex ki opc rand sqn amf id mac :
  decode16Hex kiHex "Ki" = Ok ki -> decode16Hex opcHex "OPc" = Ok opc -> block_ok rand -> length mac = 16%nat ->
  0 <= sqn < 2 ^ 48 -> 0 <= amf < 2 ^ 16 -> rand <> zeros 16 ->
  let k := be_dec ki in let o := be_dec opc in let r := be_dec rand in
  let autn := network_autn k o r sqn amf in
  autn <> zeros 16 ->
  let stream := fips_prf 8 (be_dec (sha1 (bytes_of_string identity ++ be 16 (f4 k o r) ++ be 16 (f3 k o r)))) in
  let prefix := response_prefix id (be 8 (f2 k o r)) in
  buildEAPAKAChallengeResponse identity (challenge_bytes id rand autn mac) kiHex opcHex =
    Some (Ok (prefix ++ take 16 (hmac_sha1 (take 16 (drop 16 stream)) (prefix ++ zeros 16)))%list).
Proof.
  intros Ek Eo Hr Hm Hs Ha Hrand k o r autn Hautn stream prefix.
  unfold buildEAPAKAChallengeResponse. rewrite parse_challenge; [|by apply Hr|unfold autn, network_autn; len|done..].
  cbn [mbind option_bind c_RAND c_AUTN c_Identifier]. unfold autn.
  pose proof (network_challenge_accepted kiHex opcHex ki opc rand sqn amf Ek Eo Hr Hs Ha) as Hn.
  cbv zeta in Hn. fold k o r in Hn. rewrite Hn. cbn [k_RES k_CK k_IK].
  rewrite derive_eq. cbv zeta. cbn [mbind option_bind]. fold stream. rewrite response_eq by apply length_be. done.
Qed.

(** The subscriber of the test set: sequence number and AMF of its AUTN. *)
Lemma aka_exchange_witness :
  exists resp,
    buildEAPAKAChallengeResponse "0001010000000001@realm"
      (challenge_bytes 7 (be 16 0x23553cbe9637a89d218ae64dae47bf35)
         (network_autn 0x465b5ce8b199b49faa5f0a2ee238a6bc 0xcd63cb71954a9f4e48a5994e37a02baf
            0x23553cbe9637a89d218ae64dae47bf35 0xff9bb4d0b607 0xb9b9) (zeros 16))
      "465b5ce8b199b49faa5f0a2ee238a6bc" "cd63cb71954a9f4e48a5994e37a02baf" = Some (Ok resp) /\
    take 20 resp = [2; 7; 0; 44; 23; 1; 0; 0; 3; 4; 0; 64; 0xa5; 0x42; 0x11; 0xd5; 0xe3; 0xba; 0x50; 0xbf].
Proof.
  eexists. split.
  - apply (aka_exchange "0001010000000001@realm" "465b5ce8b199b49faa5f0a2ee238a6bc" "cd63cb71954a9f4e48a5994e37a02baf"
      (be 16 0x465b5ce8b199b49faa5f0a2ee238a6bc) (be 16 0xcd63cb71954a9f4e48a5994e37a02baf)
      (be 16 0x23553cbe9637a89d218ae64dae47bf35) 0xff9bb4d0b607 0xb9b9 7 (zeros 16)).
    + vm_compute. reflexivity.
    + vm_compute. reflexivity.
    + split; [apply length_be|apply be_bytes_ok].
    + reflexivity.
    + lia.
    + lia.
    + discriminate.
    + intros H. assert (Hv : network_autn (be_dec (be 16 0x465b5ce8b199b49faa5f0a2ee238a6bc)) (be_dec (be 16 0xcd63cb71954a9f4e48a5994e37a02baf))
        (be_dec (be 16 0x23553cbe9637a89d218ae64dae47bf35)) 0xff9bb4d0b607 0xb9b9 = be 16 0x55f328b43577b9b94a9ffac354dfafb3)
        by (vm_compute; reflexivity).
      rewrite Hv in H. discriminate H.
  - vm_compute. reflexivity.
Defined.
