(* ===== verification/Netlink.v ===== *)
(** The kernel as the program drives it: links, routes, rules, GTP contexts
    and sysctl files, through [github.com/vishvananda/netlink] and [os].  The
    calls are a record of functions on an unknown state; what the program
    relies on of them is the class [KernelTables], which says what a call does
    to the tables.  [table_kernel] is a kernel that obeys it. *)
From S2P Require Import Prelude.
From S2P Require Import GoNet.
Open Scope string_scope.
Open Scope Z_scope.

(** * Errors *)
Inductive nl_error :=
| LinkNotFound | NL_ENOENT | NL_ESRCH | NL_EEXIST | NL_EPERM | NL_EINVAL | NL_EOPNOTSUPP | NL_ENODEV | NL_ENETDOWN
| NLOther (msg : string).

Definition isNotFound (e : nl_error) : bool :=
  match e with LinkNotFound | NL_ENOENT | NL_ESRCH => true | _ => false end.

Definition isExists (e : nl_error) : bool := match e with NL_EEXIST => true | _ => false end.

(** An error of the program; [errors.Is] looks at the wrapped cause. *)
Record kerr := mkKErr { ke_msg : string; ke_cause : option nl_error }.
Definition kmsg (msg : string) : kerr := mkKErr msg None.
Definition kwrap (msg : string) (e : nl_error) : kerr := mkKErr msg (Some e).
Definition err_is (P : nl_error -> bool) (e : kerr) : bool := match ke_cause e with Some c => P c | None => false end.

(** * Objects *)
Record Link := mkLink { lk_Index : Z; lk_Type : string }.

Record Route := mkRoute { rt_LinkIndex : Z; rt_Table : Z; rt_Dst : IPNet; rt_Scope : Z }.
Definition SCOPE_UNIVERSE : Z := 0.
Definition SCOPE_LINK : Z := 253.

(** [netlink.NewRule()] with the fields the program sets. *)
Record Rule := mkRule { ru_Family : Z; ru_Src : IPNet; ru_Table : Z; ru_Priority : Z }.
Definition FAMILY_V4 : Z := 2.

(** The attributes of the GTP generic netlink family and its commands. *)
Inductive pdp_attr :=
| GTP_VERSION (v : Z) | GTP_NET_NS_FD (fd : Z) | GTP_LINK (index : Z) | GTP_PEER_ADDRESS (b : list Z)
| GTP_MS_ADDRESS (b : list Z) | GTP_I_TEI (v : Z) | GTP_O_TEI (v : Z).

Inductive genl_cmd := GTP_CMD_NEWPDP | GTP_CMD_DELPDP | GTP_CMD_ECHOREQ.
Record genl := mkGenl { ge_cmd : genl_cmd; ge_excl : bool; ge_attrs : list pdp_attr }.

(** A GTP netdev to create. *)
Record GTPLink := mkGTPLink { gl_Name : string; gl_NsFd : Z; gl_FD0 : Z; gl_FD1 : Z }.

#[export] Instance IPNet_eq_dec : EqDecision IPNet.
Proof. solve_decision. Defined.
#[export] Instance IPNet_countable : Countable IPNet.
Proof. refine (inj_countable' (fun n => (net_ip n, net_mask n)) (fun '(i, m) => mkIPNet i m) _). by intros []. Defined.
#[export] Instance Route_eq_dec : EqDecision Route.
Proof. solve_decision. Defined.
#[export] Instance Rule_eq_dec : EqDecision Rule.
Proof. solve_decision. Defined.
#[export] Instance Rule_countable : Countable Rule.
Proof.
  refine (inj_countable' (fun r => (ru_Family r, ru_Src r, ru_Table r, ru_Priority r))
            (fun '(f, s, t, p) => mkRule f s t p) _). by intros [].
Defined.

(** * Calls *)
Record kernel (K : Type) := mkKernel {
  k_NewHandle : K -> option nl_error;
  k_LinkByName : string -> K -> result Link nl_error;
  k_LinkAdd : GTPLink -> K -> K * option nl_error;
  k_LinkSetUp : Link -> K -> K * option nl_error;
  k_LinkDel : string -> K -> K * option nl_error;
  k_RouteReplace : Route -> K -> K * option nl_error;
  k_RouteDel : Route -> K -> K * option nl_error;
  k_RuleAdd : Rule -> K -> K * option nl_error;
  k_RuleDel : Rule -> K -> K * option nl_error;
  k_GenlFamilyGet : K -> option nl_error;
  k_Execute : genl -> K -> K * option nl_error;
  k_WriteFile : string -> string -> K -> K * option nl_error
}.
Arguments k_NewHandle {K}. Arguments k_LinkByName {K}. Arguments k_LinkAdd {K}. Arguments k_LinkSetUp {K}.
Arguments k_LinkDel {K}. Arguments k_RouteReplace {K}. Arguments k_RouteDel {K}. Arguments k_RuleAdd {K}.
Arguments k_RuleDel {K}. Arguments k_GenlFamilyGet {K}. Arguments k_Execute {K}. Arguments k_WriteFile {K}.

(** * Tables *)

(** A GTP context; its key is the netdev and the local TEID. *)
Record Context := mkContext { cx_Peer : list Z; cx_MS : list Z; cx_OTEI : Z }.

Record tables := mkTables {
  tb_links : gmap string Link;
  tb_routes : gmap (Z * IPNet) Route;
  tb_rules : gset Rule;
  tb_contexts : gmap (Z * Z) Context;
  tb_files : gmap string string
}.
#[export] Instance tables_eta : Eta tables := fun x =>
  mkTables (tb_links x) (tb_routes x) (tb_rules x) (tb_contexts x) (tb_files x).

(** The main table is 254, which 0 stands for; one route per table and
    destination, as all are added with one metric. *)
Definition route_key (r : Route) : Z * IPNet := (if rt_Table r =? 0 then 254 else rt_Table r, rt_Dst r).

(** What a request says of its context. *)
Record pdp_request := mkPdpRequest {
  pr_link : option Z; pr_tei : option Z; pr_ms : option (list Z); pr_peer : option (list Z); pr_otei : option Z
}.
#[export] Instance pdp_request_eta : Eta pdp_request := fun x =>
  mkPdpRequest (pr_link x) (pr_tei x) (pr_ms x) (pr_peer x) (pr_otei x).

Definition add_attr (q : pdp_request) (a : pdp_attr) : pdp_request :=
  match a with
  | GTP_LINK i => q <| pr_link := Some i |>
  | GTP_I_TEI t => q <| pr_tei := Some t |>
  | GTP_MS_ADDRESS b => q <| pr_ms := Some b |>
  | GTP_PEER_ADDRESS b => q <| pr_peer := Some b |>
  | GTP_O_TEI t => q <| pr_otei := Some t |>
  | GTP_VERSION _ | GTP_NET_NS_FD _ => q
  end.

Definition read_attrs (l : list pdp_attr) : pdp_request := foldl add_attr (mkPdpRequest None None None None None) l.

(** The context of the request that a deletion names: by the subscriber's
    address when it is given, by the local TEID otherwise. *)
Definition names (q : pdp_request) (e : (Z * Z) * Context) : Prop :=
  pr_link q = Some (fst (fst e)) /\
  match pr_ms q with Some b => cx_MS (snd e) = b | None => pr_tei q = Some (snd (fst e)) end.

(** The context with which an addition collides. *)
Definition collides (q : pdp_request) (e : (Z * Z) * Context) : Prop :=
  pr_link q = Some (fst (fst e)) /\ (pr_ms q = Some (cx_MS (snd e)) \/ pr_tei q = Some (snd (fst e))).

#[export] Instance names_dec q e : Decision (names q e).
Proof. unfold names. destruct (pr_ms q); apply _. Defined.
#[export] Instance collides_dec q e : Decision (collides q e).
Proof. unfold collides. apply _. Defined.

Definition free_of (P : (Z * Z) * Context -> Prop) (m : gmap (Z * Z) Context) : Prop :=
  forall k x, m !! k = Some x -> ~ P (k, x).

Definition complete (q : pdp_request) (link tei : Z) (x : Context) : Prop :=
  q = mkPdpRequest (Some link) (Some tei) (Some (cx_MS x)) (Some (cx_Peer x)) (Some (cx_OTEI x)).

(** What the program relies on: a call that succeeds does to the tables what
    its name says, a call that fails leaves them alone, and "exists" and "not
    found" are told truthfully. *)
Class KernelTables {K : Type} (nl : kernel K) := {
  seen : K -> tables;
  kt_link : forall name k, match k_LinkByName nl name k with
    | Ok l => tb_links (seen k) !! name = Some l
    | Err e => isNotFound e = true -> tb_links (seen k) !! name = None end;
  kt_link_add : forall g k k' e, k_LinkAdd nl g k = (k', e) -> match e with
    | None => exists i, tb_links (seen k) !! gl_Name g = None /\
        seen k' = seen k <| tb_links ::= <[gl_Name g := mkLink i "gtp"]> |>
    | Some _ => seen k' = seen k end;
  kt_link_up : forall l k k' e, k_LinkSetUp nl l k = (k', e) -> seen k' = seen k;
  kt_link_del : forall name k k' e, k_LinkDel nl name k = (k', e) -> match e with
    | None => seen k' = seen k <| tb_links ::= delete name |>
    | Some e => seen k' = seen k /\ (isNotFound e = true -> tb_links (seen k) !! name = None) end;
  kt_replace : forall r k k' e, k_RouteReplace nl r k = (k', e) -> match e with
    | None => seen k' = seen k <| tb_routes ::= <[route_key r := r]> |>
    | Some _ => seen k' = seen k end;
  kt_route_del : forall r k k' e, k_RouteDel nl r k = (k', e) -> match e with
    | None => rt_LinkIndex <$> tb_routes (seen k) !! route_key r = Some (rt_LinkIndex r) /\
        seen k' = seen k <| tb_routes ::= delete (route_key r) |>
    | Some e => seen k' = seen k /\ (isNotFound e = true -> tb_routes (seen k) !! route_key r <> Some r) end;
  kt_rule_add : forall r k k' e, k_RuleAdd nl r k = (k', e) -> match e with
    | None => seen k' = seen k <| tb_rules ::= union {[r]} |>
    | Some e => seen k' = seen k /\ (isExists e = true -> r ∈ tb_rules (seen k)) end;
  kt_rule_del : forall r k k' e, k_RuleDel nl r k = (k', e) -> match e with
    | None => seen k' = seen k <| tb_rules ::= fun s => s ∖ {[r]} |>
    | Some e => seen k' = seen k /\ (isNotFound e = true -> r ∉ tb_rules (seen k)) end;
  kt_new_pdp : forall q k k' e, ge_cmd q = GTP_CMD_NEWPDP -> ge_excl q = true -> k_Execute nl q k = (k', e) -> match e with
    | None => free_of (collides (read_attrs (ge_attrs q))) (tb_contexts (seen k)) /\
        forall l t x, complete (read_attrs (ge_attrs q)) l t x ->
          seen k' = seen k <| tb_contexts ::= <[(l, t) := x]> |>
    | Some e => seen k' = seen k /\
        (isExists e = true -> ~ free_of (collides (read_attrs (ge_attrs q))) (tb_contexts (seen k))) end;
  kt_del_pdp : forall q k k' e, ge_cmd q = GTP_CMD_DELPDP -> k_Execute nl q k = (k', e) -> match e with
    | None => seen k' = seen k <| tb_contexts ::= filter (fun kx => ~ names (read_attrs (ge_attrs q)) kx) |>
    | Some e => seen k' = seen k /\
        (isNotFound e = true -> free_of (names (read_attrs (ge_attrs q))) (tb_contexts (seen k))) end;
  kt_family : forall k e, k_GenlFamilyGet nl k = Some e ->
    isExists e = false /\ (isNotFound e = true -> tb_contexts (seen k) = ∅);
  kt_echo : forall q k k' e, ge_cmd q = GTP_CMD_ECHOREQ -> k_Execute nl q k = (k', e) -> seen k' = seen k;
  kt_write : forall path text k k' e, k_WriteFile nl path text k = (k', e) -> match e with
    | None => seen k' = seen k <| tb_files ::= <[path := text]> |>
    | Some _ => seen k' = seen k end
}.

(** Deletions of what is there succeed and the GTP family is present. *)
Class KernelReliable {K : Type} (nl : kernel K) `{!KernelTables nl} : Prop := {
  kr_family : forall k, k_GenlFamilyGet nl k = None;
  kr_link_del : forall name k, tb_links (seen k) !! name <> None -> snd (k_LinkDel nl name k) = None;
  kr_del_pdp : forall q k, ge_cmd q = GTP_CMD_DELPDP ->
    ~ free_of (names (read_attrs (ge_attrs q))) (tb_contexts (seen k)) -> snd (k_Execute nl q k) = None
}.

(** * A kernel of tables *)

(** The next free link index is one above the number of links. *)
Definition table_kernel : kernel tables := {|
  k_NewHandle := fun _ => None;
  k_LinkByName := fun name k => match tb_links k !! name with Some l => Ok l | None => Err LinkNotFound end;
  k_LinkAdd := fun g k => match tb_links k !! gl_Name g with
    | Some _ => (k, Some NL_EEXIST)
    | None => (k <| tb_links ::= <[gl_Name g := mkLink (Z.of_nat (size (tb_links k)) + 1) "gtp"]> |>, None) end;
  k_LinkSetUp := fun _ k => (k, None);
  k_LinkDel := fun name k => match tb_links k !! name with
    | Some _ => (k <| tb_links ::= delete name |>, None) | None => (k, Some NL_ENODEV) end;
  k_RouteReplace := fun r k => (k <| tb_routes ::= <[route_key r := r]> |>, None);
  k_RouteDel := fun r k =>
    if bool_decide (rt_LinkIndex <$> tb_routes k !! route_key r = Some (rt_LinkIndex r))
    then (k <| tb_routes ::= delete (route_key r) |>, None) else (k, Some NL_ESRCH);
  k_RuleAdd := fun r k =>
    if bool_decide (r ∈ tb_rules k) then (k, Some NL_EEXIST) else (k <| tb_rules ::= union {[r]} |>, None);
  k_RuleDel := fun r k =>
    if bool_decide (r ∈ tb_rules k) then (k <| tb_rules ::= fun s => s ∖ {[r]} |>, None) else (k, Some NL_ENOENT);
  k_GenlFamilyGet := fun _ => None;
  k_Execute := fun q k =>
    let a := read_attrs (ge_attrs q) in
    match ge_cmd q with
    | GTP_CMD_NEWPDP =>
      match filter (fun kx => collides a kx) (map_to_list (tb_contexts k)) with
      | _ :: _ => (k, Some NL_EEXIST)
      | [] => match a with
              | mkPdpRequest (Some l) (Some t) (Some ms) (Some peer) (Some o) =>
                (k <| tb_contexts ::= <[(l, t) := mkContext peer ms o]> |>, None)
              | _ => (k, Some NL_EINVAL) end
      end
    | GTP_CMD_DELPDP =>
      match filter (fun kx => names a kx) (map_to_list (tb_contexts k)) with
      | [] => (k, Some NL_ENOENT)
      | _ => (k <| tb_contexts ::= filter (fun kx => ~ names a kx) |>, None)
      end
    | GTP_CMD_ECHOREQ => (k, None)
    end;
  k_WriteFile := fun path text k => (k <| tb_files ::= <[path := text]> |>, None)
|}.

Lemma filter_nil_free (P : (Z * Z) * Context -> Prop) `{!forall x, Decision (P x)} m :
  filter P (map_to_list m) = [] -> free_of P m.
Proof.
  intros E k x Hk HP. assert (Hin : (k, x) ∈ filter P (map_to_list m))
    by (apply list_elem_of_filter; split; [done|by apply elem_of_map_to_list]).
  rewrite E in Hin. by apply not_elem_of_nil in Hin.
Qed.

Lemma filter_cons_clash (P : (Z * Z) * Context -> Prop) `{!forall x, Decision (P x)} m y l :
  filter P (map_to_list m) = y :: l -> ~ free_of P m.
Proof.
  intros E Hf. assert (Hy : y ∈ filter P (map_to_list m)) by (rewrite E; constructor).
  destruct y as [k x]. apply list_elem_of_filter in Hy as [HP Hy].
  apply elem_of_map_to_list in Hy. by apply (Hf k x).
Qed.

#[export] Instance table_kernel_ok : KernelTables table_kernel.
Proof.
  refine {| seen := fun k => k |}; cbn.
  - intros name k. by destruct (tb_links k !! name).
  - intros g k k' e. destruct (tb_links k !! gl_Name g) eqn:E; intros [= <- <-]; [done|]. eauto.
  - by intros l k k' e [= <- _].
  - intros name k k' e. destruct (tb_links k !! name) eqn:E; intros [= <- <-]; done.
  - by intros r k k' e [= <- <-].
  - intros r k k' e. case_bool_decide as E; intros [= <- <-]; [done|]. split; [done|]. intros _ E'.
    by rewrite E' in E.
  - intros r k k' e. case_bool_decide; intros [= <- <-]; done.
  - intros r k k' e. case_bool_decide; intros [= <- <-]; done.
  - intros q k k' e -> _. destruct (filter _ _) eqn:E.
    + apply filter_nil_free in E. destruct (read_attrs _) as [[l|] [t|] [ms|] [peer|] [o|]]; intros [= <- <-]; try done.
      split; [done|]. intros l' t' x [= <- <- -> -> ->]. by destruct x.
    + apply filter_cons_clash in E. by intros [= <- <-].
  - intros q k k' e ->. destruct (filter _ _) eqn:E; intros [= <- <-]; [|done].
    apply filter_nil_free in E. done.
  - done.
  - by intros q k k' e -> [= <- _].
  - by intros path text k k' e [= <- <-].
Defined.

#[export] Instance table_kernel_reliable : KernelReliable table_kernel.
Proof.
  split; [done| |].
  - intros name k. cbn. by destruct (tb_links k !! name).
  - intros q k. cbn. intros -> H. destruct (filter _ _) eqn:E; [|done]. by destruct (H (filter_nil_free _ _ E)).
Qed.
