(* ===== verification/Routing.v ===== *)
(** The access routes: [internal/routing/routing.go].  [K] is the kernel's
    state; the manager's netlink handle is open or nil. *)
From S2P Require Import Prelude.
From S2P Require Import GoNet.
From S2P Require Import Config.
From S2P Require Import Session.
From S2P Require Import Netlink.
Open Scope string_scope.
Open Scope Z_scope.

Record RoutingManager := mkRouting { rm_cfg : RoutingConfig; rm_nl : bool; rm_procSys : string }.

Definition NewRouting (cfg : RoutingConfig) : RoutingManager := mkRouting cfg false "/proc/sys".

Definition accessRoute (link : Link) (ip : IP) : Route :=
  mkRoute (lk_Index link) 0 (mkIPNet (To4 ip) (CIDRMask 32 4)) SCOPE_LINK.

Definition ip_forward : string := "net/ipv4/ip_forward".
Definition rp_filters : list string := ["net/ipv4/conf/all/rp_filter"; "net/ipv4/conf/default/rp_filter"].

Section Routing.
Context {K : Type} (nl : kernel K).

(** [filepath.Join] of the root and a relative path. *)
Definition writeSysctl (m : RoutingManager) (path value : string) (k : K) : K * option nl_error :=
  k_WriteFile nl (rm_procSys m +:+ "/" +:+ path) value k.

(** Writes in turn until one fails. *)
Fixpoint write_all (m : RoutingManager) (paths : list string) (value : string) (k : K) : K * option kerr :=
  match paths with
  | [] => (k, None)
  | path :: rest =>
    match writeSysctl m path value k with
    | (k, Some e) => (k, Some (kwrap ("disable rp_filter " +:+ path) e))
    | (k, None) => write_all m rest value k
    end
  end.

Definition open_handle (m : RoutingManager) (k : K) : RoutingManager * option kerr :=
  if rm_nl m then (m, None)
  else match k_NewHandle nl k with
       | Some e => (m, Some (kwrap "open routing netlink handle" e))
       | None => (mkRouting (rm_cfg m) true (rm_procSys m), None)
       end.

(** [ctx] is the error of the context, if any. *)
Definition routing_Start (m : RoutingManager) (ctx : option string) (k : K) : RoutingManager * K * option kerr :=
  match ctx with
  | Some e => (m, k, Some (kmsg e))
  | None =>
    let '(k, e) := if ro_EnableIPForwarding (rm_cfg m)
                   then let '(k, e) := writeSysctl m ip_forward "1
" k in (k, kwrap "enable linux ip forwarding" <$> e)
                   else (k, None) in
    match e with
    | Some e => (m, k, Some e)
    | None =>
      let '(k, e) := if ro_DisableRPFilter (rm_cfg m) then write_all m rp_filters "0
" k else (k, None) in
      match e with
      | Some e => (m, k, Some e)
      | None => if ro_InstallRoutes (rm_cfg m) then let '(m, e) := open_handle m k in (m, k, e) else (m, k, None)
      end
    end
  end.

Definition Install (m : RoutingManager) (sess : option Session) (k : K) : RoutingManager * K * option kerr :=
  match sess with
  | None => (m, k, Some (kmsg "session is required"))
  | Some sess =>
    if negb (non_nil (s_SubscriberIP sess)) then (m, k, Some (kmsg "subscriber ip is required for routing install"))
    else if negb (ro_InstallRoutes (rm_cfg m)) then (m, k, None)
    else if negb (nonempty (s_AccessInterface sess))
    then (m, k, Some (kmsg "access interface is required for subscriber route install"))
    else
      let '(m, e) := open_handle m k in
      match e with
      | Some e => (m, k, Some e)
      | None =>
        match k_LinkByName nl (s_AccessInterface sess) k with
        | Err e => (m, k, Some (kwrap "lookup access interface" e))
        | Ok link =>
          let '(k, e) := k_RouteReplace nl (accessRoute link (s_SubscriberIP sess)) k in
          (m, k, kwrap "install subscriber access route" <$> e)
        end
      end
  end.

Definition Remove (m : RoutingManager) (sess : option Session) (k : K) : K * option kerr :=
  match sess with
  | None => (k, Some (kmsg "session is required"))
  | Some sess =>
    if negb (non_nil (s_SubscriberIP sess)) then (k, Some (kmsg "subscriber ip is required for routing remove"))
    else if negb (ro_InstallRoutes (rm_cfg m)) then (k, None)
    else if negb (nonempty (s_AccessInterface sess))
    then (k, Some (kmsg "access interface is required for subscriber route remove"))
    else if negb (rm_nl m) then (k, None)
    else match k_LinkByName nl (s_AccessInterface sess) k with
         | Err e => (k, Some (kwrap "lookup access interface" e))
         | Ok link =>
           let '(k, e) := k_RouteDel nl (accessRoute link (s_SubscriberIP sess)) k in
           match e with
           | Some e => if isNotFound e then (k, None) else (k, Some (kwrap "remove subscriber access route" e))
           | None => (k, None)
           end
         end
  end.
End Routing.
