(* ===== verification/UserPlane.v ===== *)
(** The kernel GTP user plane: [internal/userplane/userplane.go].  A session is
    a GTP context of the kernel, a route and, with policy routing, a rule; the
    user echo is a probe of the PGW with a health record.  [K] is the state of
    the kernel, the UDP sockets are the list of their ports, channels are
    positions in a store. *)
From S2P Require Import Prelude.
From S2P Require Import GoNet.
From S2P Require Import Config.
From S2P Require Import Session.
From S2P Require Import Gtpu.
From S2P Require Import Netlink.
Open Scope string_scope.
Open Scope Z_scope.

Definition ModeKernelGTP : string := "kernel_gtp".
Definition gtpUEchoModeKernelNetlink : string := "kernel_netlink".
Definition gtpUEchoModeKernelSocket : string := "kernel_registered_socket".
Definition gtpUPort : Z := 2152.

Record userEchoObservation := mkObservation { ob_Peer : UDPAddr; ob_Sequence : Z; ob_At : Time }.

Record UserEchoHealthStatus := mkEchoHealth {
  eh_Health : string; eh_ConsecutiveFailures : Z; eh_LastSuccess : Time; eh_LastFailure : Time; eh_LastLatency : Z;
  eh_KernelSupported : bool; eh_Mode : string
}.

(** The fields of [KernelGTP]; [kg_nsFD] is the descriptor of [nsFile], 0 for
    nil; [kg_gtp] are the descriptors of the two sockets. *)
Record KernelGTP := mkKernelGTP {
  kg_iface : string; kg_pgw : GTPConfig; kg_echo : GTPUserEchoConfig; kg_routing : RoutingConfig;
  kg_link : option Link; kg_handle : bool; kg_nsFD : Z; kg_gtp : option (Z * Z); kg_created : bool; kg_handler : bool;
  kg_chans : list (option userEchoObservation); kg_pending : option nat; kg_sequence : Z; kg_started : bool;
  kg_health : string; kg_supported : bool; kg_disabled : bool; kg_reason : string;
  kg_failures : Z; kg_lastSuccess : Time; kg_lastFailure : Time; kg_lastLatency : Z
}.
#[export] Instance KernelGTP_eta : Eta KernelGTP := fun x =>
  mkKernelGTP (kg_iface x) (kg_pgw x) (kg_echo x) (kg_routing x) (kg_link x) (kg_handle x) (kg_nsFD x) (kg_gtp x)
    (kg_created x) (kg_handler x) (kg_chans x) (kg_pending x) (kg_sequence x) (kg_started x) (kg_health x)
    (kg_supported x) (kg_disabled x) (kg_reason x) (kg_failures x) (kg_lastSuccess x) (kg_lastFailure x)
    (kg_lastLatency x).

Definition normalizeUserEchoConfig (cfg : GTPUserEchoConfig) : GTPUserEchoConfig :=
  let cfg := if nonempty (ue_Mode cfg) then cfg else cfg <| ue_Mode := gtpUEchoModeKernelNetlink |> in
  let cfg := if ((ue_IntervalSeconds cfg =? 0) || ((0 <? ue_IntervalSeconds cfg)
                 && (ue_IntervalSeconds cfg <? MinGTPEchoIntervalSeconds)))%bool
             then cfg <| ue_IntervalSeconds := MinGTPEchoIntervalSeconds |> else cfg in
  let cfg := if ue_TimeoutSeconds cfg =? 0 then cfg <| ue_TimeoutSeconds := 5 |> else cfg in
  if ue_MaxFailures cfg =? 0 then cfg <| ue_MaxFailures := 3 |> else cfg.

Definition NewKernelGTP (iface : string) (pgw : GTPConfig) (routing : RoutingConfig) : KernelGTP :=
  mkKernelGTP iface pgw (normalizeUserEchoConfig (gt_UserEcho pgw)) routing None false 0 None false false
    [] None 0 false "unknown" false false "" 0 zeroTime zeroTime 0.

Definition NewUserPlane (cfg : Config) : KernelGTP :=
  NewKernelGTP (gt_KernelInterface (cfg_GTP cfg)) (cfg_GTP cfg) (cfg_Routing cfg).

Definition SetErrorIndicationHandler (k : KernelGTP) (h : bool) : KernelGTP := k <| kg_handler := h |>.

(** * Objects given to the kernel *)
Definition hostNet (ip : IP) : IPNet := mkIPNet (To4 ip) (CIDRMask 32 4).
Definition defaultIPv4Net : IPNet := mkIPNet IPv4zero (CIDRMask 0 4).

Definition kernelRoute (link : Link) (ip : IP) : Route := mkRoute (lk_Index link) 0 (hostNet ip) SCOPE_UNIVERSE.

Definition kernelPolicyDefaultRoute (link : Link) (table : Z) : Route :=
  mkRoute (lk_Index link) table defaultIPv4Net SCOPE_UNIVERSE.

Definition kernelPolicyRule (ip : IP) (table priority : Z) : Rule := mkRule FAMILY_V4 (hostNet ip) table priority.

(** [netlink.PDP] *)
Record PDP := mkPDP { pd_Version : Z; pd_PeerAddress : IP; pd_MSAddress : IP; pd_ITEI : Z; pd_OTEI : Z }.

Definition addPDPCommonAttrs (k : KernelGTP) (link : Link) (pdp : PDP) : list pdp_attr :=
  ([GTP_VERSION (pd_Version pdp); GTP_NET_NS_FD (wrap 32 (kg_nsFD k)); GTP_LINK (wrap 32 (lk_Index link))]
   ++ (if non_nil (pd_PeerAddress pdp) then [GTP_PEER_ADDRESS (To4 (pd_PeerAddress pdp))] else [])
   ++ (if non_nil (pd_MSAddress pdp) then [GTP_MS_ADDRESS (To4 (pd_MSAddress pdp))] else [])
   ++ [GTP_I_TEI (pd_ITEI pdp)])%list.

Definition up_firstIP (values : list IP) : IP := default [] (List.find non_nil values).

Definition validateKernelSession (sess : option Session) : result Session kerr :=
  match sess with
  | None => Err (kmsg "session is required")
  | Some sess =>
    if negb (non_nil (s_SubscriberIP sess)) then Err (kmsg ("session " +:+ s_ID sess +:+ " has no subscriber IP"))
    else if s_LocalGTPUTEID sess =? 0 then Err (kmsg ("session " +:+ s_ID sess +:+ " has no local GTP-U TEID"))
    else if s_RemoteGTPUTEID sess =? 0 then Err (kmsg ("session " +:+ s_ID sess +:+ " has no remote GTP-U TEID"))
    else Ok sess
  end.

Section UserPlane.
Context {K : Type} (nl : kernel K).

Definition currentLink (k : KernelGTP) (s : K) : KernelGTP * result Link kerr :=
  if negb (kg_handle k) then (k, Err (kmsg "kernel GTP netlink handle is not open"))
  else match k_LinkByName nl (kg_iface k) s with
  | Err e => (k, Err (kwrap ("lookup current kernel GTP interface " +:+ kg_iface k) e))
  | Ok link =>
    if negb (String.eqb (lk_Type link) "gtp")
    then (k, Err (kmsg ("kernel GTP interface " +:+ kg_iface k +:+ " has type " +:+ lk_Type link)))
    else (k <| kg_link := Some link |>, Ok link)
  end.

Definition gtpPDPAdd (k : KernelGTP) (link : Link) (pdp : PDP) (s : K) : K * option nl_error :=
  match k_GenlFamilyGet nl s with
  | Some e => (s, Some e)
  | None => k_Execute nl (mkGenl GTP_CMD_NEWPDP true (addPDPCommonAttrs k link pdp ++ [GTP_O_TEI (pd_OTEI pdp)])) s
  end.

Definition gtpPDPDel (k : KernelGTP) (link : Link) (pdp : PDP) (s : K) : K * option nl_error :=
  match k_GenlFamilyGet nl s with
  | Some e => (s, Some e)
  | None => k_Execute nl (mkGenl GTP_CMD_DELPDP true (addPDPCommonAttrs k link pdp)) s
  end.

Definition installPolicyRouting (k : KernelGTP) (link : Link) (sess : Session) (s : K) : K * option kerr :=
  let r := kg_routing k in
  if negb (ro_PolicyRouting r) then (s, None)
  else match k_RouteReplace nl (kernelPolicyDefaultRoute link (ro_PolicyTable r)) s with
  | (s, Some e) => (s, Some (kwrap "install kernel GTP policy default route" e))
  | (s, None) =>
    match k_RuleAdd nl (kernelPolicyRule (s_SubscriberIP sess) (ro_PolicyTable r) (ro_PolicyPriority r)) s with
    | (s, Some e) => if isExists e then (s, None) else (s, Some (kwrap "install kernel GTP policy rule" e))
    | (s, None) => (s, None)
    end
  end.

Definition removePolicyRouting (k : KernelGTP) (sess : Session) (s : K) : K * option kerr :=
  let r := kg_routing k in
  if negb (ro_PolicyRouting r) then (s, None)
  else match k_RuleDel nl (kernelPolicyRule (s_SubscriberIP sess) (ro_PolicyTable r) (ro_PolicyPriority r)) s with
  | (s, Some e) => if isNotFound e then (s, None) else (s, Some (kwrap "remove kernel GTP policy rule" e))
  | (s, None) => (s, None)
  end.

Definition session_peer (k : KernelGTP) (sess : Session) : IP :=
  up_firstIP [s_PGWUserIP sess; ParseIP (gt_RemotePGWGTPUIP (kg_pgw k))].

Definition session_pdp (peer : IP) (sess : Session) : PDP :=
  mkPDP 1 peer (s_SubscriberIP sess) (s_LocalGTPUTEID sess) (s_RemoteGTPUTEID sess).

(** [&netlink.PDP{Version: 1, ITEI: sess.LocalGTPUTEID}] *)
Definition undo_pdp (sess : Session) : PDP := mkPDP 1 [] [] (s_LocalGTPUTEID sess) 0.

(** [ctx] is the error of the context, if any. *)
Definition up_AddSession (k : KernelGTP) (ctx : option string) (sess : option Session) (s : K)
  : KernelGTP * K * option kerr :=
  match ctx with
  | Some e => (k, s, Some (kmsg e))
  | None =>
    match validateKernelSession sess with
    | Err e => (k, s, Some e)
    | Ok sess =>
      match kg_link k with
      | None => (k, s, Some (kmsg "kernel GTP user plane is not started"))
      | Some _ =>
        let '(k, l) := currentLink k s in
        match l with
        | Err e => (k, s, Some e)
        | Ok link =>
          let peer := session_peer k sess in
          if negb (non_nil peer) then (k, s, Some (kmsg ("session " +:+ s_ID sess +:+ " has no PGW user-plane IP")))
          else
            let '(s, e) := gtpPDPAdd k link (session_pdp peer sess) s in
            match (match e with Some e => if isExists e then None else Some e | None => None end) with
            | Some e => (k, s, Some (kwrap "add kernel GTP PDP" e))
            | None =>
              let '(s, e) := if negb (ro_PolicyRouting (kg_routing k))
                             then k_RouteReplace nl (kernelRoute link (s_SubscriberIP sess)) s else (s, None) in
              match e with
              | Some e =>
                let '(s, _) := gtpPDPDel k link (undo_pdp sess) s in
                (k, s, Some (kwrap "install kernel GTP route" e))
              | None =>
                let installedMainRoute := negb (ro_PolicyRouting (kg_routing k)) in
                let '(s, e) := installPolicyRouting k link sess s in
                match e with
                | Some e =>
                  let s := if installedMainRoute
                           then fst (k_RouteDel nl (kernelRoute link (s_SubscriberIP sess)) s) else s in
                  let '(s, _) := gtpPDPDel k link (undo_pdp sess) s in
                  (k, s, Some e)
                | None => (k, s, None)
                end
              end
            end
        end
      end
    end
  end.

(** The routing part of [RemoveSession]. *)
Definition remove_routing (k : KernelGTP) (link : Link) (sess : Session) (s : K) : K * option kerr :=
  if negb (non_nil (s_SubscriberIP sess)) then (s, None)
  else match removePolicyRouting k sess s with
  | (s, Some e) => (s, Some e)
  | (s, None) =>
    if ro_PolicyRouting (kg_routing k) then (s, None)
    else match k_RouteDel nl (kernelRoute link (s_SubscriberIP sess)) s with
    | (s, Some e) => if isNotFound e then (s, None) else (s, Some (kwrap "remove kernel GTP route" e))
    | (s, None) => (s, None)
    end
  end.

Definition remove_pdp (k : KernelGTP) (link : Link) (sess : Session) (s : K) : K * option kerr :=
  if s_LocalGTPUTEID sess =? 0 then (s, None)
  else match gtpPDPDel k link (mkPDP 1 (session_peer k sess) (s_SubscriberIP sess) (s_LocalGTPUTEID sess) 0) s with
  | (s, Some e) => if isNotFound e then (s, None) else (s, Some (kwrap "remove kernel GTP PDP" e))
  | (s, None) => (s, None)
  end.

Definition up_RemoveSession (k : KernelGTP) (ctx : option string) (sess : option Session) (s : K)
  : KernelGTP * K * option kerr :=
  match ctx, sess with
  | Some e, _ => (k, s, Some (kmsg e))
  | None, None => (k, s, None)
  | None, Some sess =>
    let '(k, l) := currentLink k s in
    match l with
    | Err e => if err_is isNotFound e then (k, s, None) else (k, s, Some e)
    | Ok link =>
      match remove_routing k link sess s with
      | (s, Some e) => (k, s, Some e)
      | (s, None) => let '(s, e) := remove_pdp k link sess s in (k, s, e)
      end
    end
  end.

(** * Start and stop *)

(** What the operating system answers: opening the namespace file (its
    descriptor), the two [net.ListenUDP], the two descriptors of the sockets,
    and whether the GTP header names the echo command. *)
Record host := mkHost {
  ho_nsFile : result Z string; ho_listen : Z -> option string; ho_fd : Z -> result Z string; ho_header : bool
}.
Context (h : host).

(** [listenKernelGTPUDP]; [ps] are the ports with an open socket. *)
Definition listenKernelGTPUDP (port : Z) (ps : list Z) : list Z * option kerr :=
  match ho_listen h port with
  | Some e => (ps, Some (kmsg e))
  | None => (port :: ps, None)
  end.

Definition close_port (port : Z) (ps : list Z) : list Z := List.remove Z.eq_dec port ps.

(** The netdev part of [createLink], the two sockets being open. *)
Definition createDevice (k : KernelGTP) (fd0 fd1 : Z) (s : K) : KernelGTP * K * option kerr :=
  match k_LinkAdd nl (mkGTPLink (kg_iface k) (kg_nsFD k) fd0 fd1) s with
  | (s, Some e) => (k, s, Some (kwrap "create kernel GTP interface" e))
  | (s, None) =>
    match k_LinkByName nl (kg_iface k) s with
    | Err e => (k, fst (k_LinkDel nl (kg_iface k) s), Some (kwrap "lookup created kernel GTP interface" e))
    | Ok created =>
      match k_LinkSetUp nl created s with
      | (s, Some e) => (k, fst (k_LinkDel nl (kg_iface k) s), Some (kwrap "set kernel GTP interface up" e))
      | (s, None) => (k <| kg_gtp := Some (fd0, fd1) |> <| kg_link := Some created |> <| kg_created := true |>, s, None)
      end
    end
  end.

Definition createLink (k : KernelGTP) (s : K) (ps : list Z) : KernelGTP * K * list Z * option kerr :=
  let '(ps, e) := listenKernelGTPUDP 3386 ps in
  match e with
  | Some e => (k, s, ps, Some e)
  | None =>
    let '(ps, e) := listenKernelGTPUDP gtpUPort ps in
    match e with
    | Some e => (k, s, close_port 3386 ps, Some e)
    | None =>
      let closed := close_port gtpUPort (close_port 3386 ps) in
      match ho_fd h 3386 with
      | Err e => (k, s, closed, Some (kmsg e))
      | Ok fd0 =>
        match ho_fd h gtpUPort with
        | Err e => (k, s, closed, Some (kmsg e))
        | Ok fd1 =>
          match createDevice k fd0 fd1 s with
          | (k, s, Some e) => (k, s, closed, Some e)
          | (k, s, None) => (k, s, ps, None)
          end
        end
      end
    end
  end.

Definition echo_unsupported : string := "GTP_CMD_ECHOREQ not supported by running kernel".

Definition detectUserEchoSupport (k : KernelGTP) (s : K) : KernelGTP * option kerr :=
  if negb (ue_Enabled (kg_echo k)) then (k, None)
  else if negb (String.eqb (ue_Mode (kg_echo k)) gtpUEchoModeKernelNetlink)
  then (k, Some (kmsg ("unsupported GTP-U echo mode " +:+ ue_Mode (kg_echo k))))
  else
    let supported := (ho_header h && (negb (kg_handle k)
                      || match k_GenlFamilyGet nl s with Some _ => false | None => true end))%bool in
    if negb supported then
      (k <| kg_supported := false |> <| kg_disabled := true |> <| kg_reason := echo_unsupported |>,
       if ue_RequireKernelSupport (kg_echo k)
       then Some (kmsg ("GTP-U echo kernel support unavailable: " +:+ echo_unsupported)) else None)
    else (k <| kg_supported := true |>, None).

Definition up_Start (k : KernelGTP) (ctx : option string) (s : K) (ps : list Z)
  : KernelGTP * K * list Z * option kerr :=
  match ctx with
  | Some e => (k, s, ps, Some (kmsg e))
  | None =>
    match k_NewHandle nl s with
    | Some e => (k, s, ps, Some (kwrap "open netlink handle for kernel GTP" e))
    | None =>
      let k := k <| kg_handle := true |> in
      match ho_nsFile h with
      | Err e => (k, s, ps, Some (kmsg e))
      | Ok fd =>
        let k := k <| kg_nsFD := fd |> in
        match k_LinkByName nl (kg_iface k) s with
        | Ok _ => (k, s, ps, Some (kmsg ("kernel GTP interface " +:+ kg_iface k +:+ " already exists")))
        | Err e =>
          if negb (isNotFound e) then (k, s, ps, Some (kwrap "lookup kernel GTP interface" e))
          else match createLink k s ps with
          | (k, s, ps, Some e) => (k, s, ps, Some e)
          | (k, s, ps, None) => let '(k, e) := detectUserEchoSupport k s in (k, s, ps, e)
          end
        end
      end
    end
  end.

(** [Stop], the readers having ended; closing descriptors is taken to succeed. *)
Definition up_Stop (k : KernelGTP) (s : K) (ps : list Z) : K * list Z * option kerr :=
  let '(s, e) := match kg_created k, kg_link k with
                 | true, Some _ => k_LinkDel nl (kg_iface k) s
                 | _, _ => (s, None)
                 end in
  (s, match kg_gtp k with Some _ => close_port gtpUPort (close_port 3386 ps) | None => ps end,
   match e with Some e => if isNotFound e then None else Some (kwrap "delete link" e) | None => None end).
End UserPlane.

(** * User echo *)
Definition UserEchoHealth (k : KernelGTP) : UserEchoHealthStatus :=
  mkEchoHealth (kg_health k) (kg_failures k) (kg_lastSuccess k) (kg_lastFailure k) (kg_lastLatency k)
    (kg_supported k) (ue_Mode (kg_echo k)).

Definition recordUserEchoSuccess (k : KernelGTP) (latency : Z) (now : Time) : KernelGTP :=
  k <| kg_health := "healthy" |> <| kg_failures := 0 |> <| kg_lastSuccess := now |> <| kg_lastLatency := latency |>.

(** The client, the failures in a row and whether the peer is unhealthy now
    and was not before. *)
Definition recordUserEchoFailure (k : KernelGTP) (now : Time) : KernelGTP * Z * bool :=
  let k := k <| kg_failures ::= Z.add 1 |> <| kg_lastFailure := now |> in
  if ((ue_MaxFailures (kg_echo k) <=? kg_failures k) && negb (String.eqb (kg_health k) "unhealthy"))%bool
  then (k <| kg_health := "unhealthy" |>, kg_failures k, true)
  else (k, kg_failures k, false).

Definition isKernelEchoUnsupportedError (e : kerr) : bool :=
  err_is (fun c => match c with NL_EINVAL | NL_EOPNOTSUPP | NL_ENODEV | NL_ENETDOWN => true | _ => false end) e.

Definition disableUserEchoOnKernelReject (k : KernelGTP) (e : kerr) : KernelGTP * bool :=
  if (ue_RequireKernelSupport (kg_echo k) || negb (isKernelEchoUnsupportedError e))%bool then (k, false)
  else (k <| kg_disabled := true |> <| kg_supported := false |> <| kg_reason := ke_msg e |>, true).

Definition userEchoUnavailable (k : KernelGTP) : bool := (kg_disabled k || negb (kg_supported k))%bool.

Definition nextUserEchoSequence (k : KernelGTP) : KernelGTP * Z :=
  let n := wrap 16 (kg_sequence k + 1) in
  let n := if n =? 0 then 1 else n in
  (k <| kg_sequence := n |>, n).

(** A channel of capacity one, filed as the pending one. *)
Definition ensureUserEchoPending (k : KernelGTP) : KernelGTP * nat :=
  let ch := length (kg_chans k) in
  (k <| kg_chans ::= fun l => (l ++ [None])%list |> <| kg_pending := Some ch |>, ch).

Definition clearUserEchoPending (k : KernelGTP) (ch : nat) : KernelGTP :=
  if bool_decide (kg_pending k = Some ch) then k <| kg_pending := None |> else k.

Definition observeUserEchoResponse (k : KernelGTP) (peer : UDPAddr) (sequence : Z) (now : Time) : KernelGTP :=
  let expected := ParseIP (gt_RemotePGWGTPUIP (kg_pgw k)) in
  if (non_nil expected && negb (IPEqual (a_IP peer) expected))%bool then k
  else match kg_pending k with
  | None => k
  | Some ch =>
    match kg_chans k !! ch with
    | Some None => k <| kg_chans ::= <[ch := Some (mkObservation peer sequence now)]> |>
    | _ => k
    end
  end.

Section Echo.
Context {K : Type} (nl : kernel K).

Definition triggerUserEchoRequestNetlink (k : KernelGTP) (s : K) : KernelGTP * K * option kerr :=
  if negb (kg_handle k) then (k, s, Some (kmsg "kernel GTP netlink handle is not open"))
  else
    let '(k, l) := currentLink nl k s in
    match l with
    | Err e => (k, s, Some e)
    | Ok link =>
      match k_GenlFamilyGet nl s with
      | Some e => (k, s, Some (kwrap "lookup GTP generic netlink family" e))
      | None =>
        let peer := To4 (ParseIP (gt_RemotePGWGTPUIP (kg_pgw k))) in
        let local := To4 (ParseIP (gt_LocalGTPUIP (kg_pgw k))) in
        if negb (non_nil peer) then (k, s, Some (kmsg "remote PGW GTP-U IP is invalid"))
        else if negb (non_nil local) then (k, s, Some (kmsg "local GTP-U IP is invalid"))
        else
          let '(s, e) := k_Execute nl (mkGenl GTP_CMD_ECHOREQ false
            [GTP_VERSION 1; GTP_NET_NS_FD (wrap 32 (kg_nsFD k)); GTP_LINK (wrap 32 (lk_Index link));
             GTP_PEER_ADDRESS peer; GTP_MS_ADDRESS local]) s in
          (k, s, kwrap "trigger kernel GTP-U Echo Request" <$> e)
      end
    end.

(** The datagram that is sent on the socket, and [write_err] the outcome. *)
Definition triggerUserEchoRequestSocket (k : KernelGTP) (write_err : option nl_error)
  : KernelGTP * result Z kerr * option (list Z * UDPAddr) :=
  match kg_gtp k with
  | None => (k, Err (kmsg "kernel-associated GTP-U socket is not open"), None)
  | Some _ =>
    let peer := ParseIP (gt_RemotePGWGTPUIP (kg_pgw k)) in
    if negb (non_nil (To4 peer)) then (k, Err (kmsg "remote PGW GTP-U IP is invalid"), None)
    else
      let '(k, sequence) := nextUserEchoSequence k in
      (k, match write_err with
          | Some e => Err (kwrap "send GTP-U Echo Request on kernel-associated socket" e)
          | None => Ok sequence end, Some (EncodeEchoRequest sequence, mkAddr peer gtpUPort))
  end.

Definition triggerUserEchoRequest (k : KernelGTP) (s : K) (write_err : option nl_error)
  : KernelGTP * K * result Z kerr * option (list Z * UDPAddr) :=
  let '(k, s, e) := triggerUserEchoRequestNetlink k s in
  match e with
  | None => (k, s, Ok 0, None)
  | Some e =>
    if negb (isKernelEchoUnsupportedError e) then (k, s, Err e, None)
    else let '(k, r, out) := triggerUserEchoRequestSocket k write_err in (k, s, r, out)
  end.

(** [runUserEchoProbe] up to its wait: the channel and the sequence number it
    waits for, or how it ended. *)
Definition probe_begin (k : KernelGTP) (s : K) (write_err : option nl_error) (now : Time)
  : KernelGTP * K * (nat * Z + option kerr) * option (list Z * UDPAddr) :=
  let '(k, ch) := ensureUserEchoPending k in
  let '(k, s, r, out) := triggerUserEchoRequest k s write_err in
  match r with
  | Ok sequence => (k, s, inl (ch, sequence), out)
  | Err e =>
    let '(k, disabled) := disableUserEchoOnKernelReject k e in
    if disabled then (clearUserEchoPending k ch, s, inr None, out)
    else let '(k, _, _) := recordUserEchoFailure k now in (clearUserEchoPending k ch, s, inr (Some e), out)
  end.

(** The rest of it: [canceled] is the error of the context when its branch of
    the [select] is taken; without it the observation is received. *)
Definition probe_end (k : KernelGTP) (ch : nat) (start : Time) (canceled : option string) (now : Time)
  : option (KernelGTP * option kerr) :=
  match canceled with
  | Some e => let '(k, _, _) := recordUserEchoFailure k now in Some (clearUserEchoPending k ch, Some (kmsg e))
  | None =>
    match kg_chans k !! ch with
    | Some (Some obs) =>
      let k := k <| kg_chans ::= <[ch := None]> |> in
      Some (clearUserEchoPending (recordUserEchoSuccess k (ob_At obs - start) now) ch, None)
    | _ => None
    end
  end.

(** [ProbeUserEcho]: no probe, an error, or the probe. *)
Definition ProbeUserEcho (k : KernelGTP) (s : K) (write_err : option nl_error) (now : Time)
  : KernelGTP * K * (nat * Z + option kerr) * option (list Z * UDPAddr) :=
  if (negb (ue_Enabled (kg_echo k)) || kg_disabled k)%bool then (k, s, inr None, None)
  else if negb (kg_supported k) then (k, s, inr (Some (kmsg "kernel GTP-U Echo support unavailable")), None)
  else probe_begin k s write_err now.
End Echo.

(** The client and whether the watchdog is started. *)
Definition StartUserEchoWatchdog (k : KernelGTP) : KernelGTP * bool :=
  if (negb (ue_Enabled (kg_echo k)) || kg_disabled k || negb (kg_supported k))%bool then (k, false)
  else if kg_started k then (k, false) else (k <| kg_started := true |>, true).

(** The end of [runUserEchoWatchdog]. *)
Definition watchdogEnded (k : KernelGTP) : KernelGTP := k <| kg_started := false |>.

(** One datagram of [readControlLoop]; the aliased buffer is copied into an
    indication before the next read. *)
Definition control_step (k : KernelGTP) (packet : list Z) (peer : UDPAddr) (now : Time)
  : go (KernelGTP * list uoutput) :=
  d ← DecodeControlPacket packet;
  Some match d with
  | Err _ => (k, [])
  | Ok msg =>
    if cm_Type msg =? msgTypeEchoRequest then (k, [USend (EncodeEchoResponse (cm_Sequence msg)) peer])
    else if cm_Type msg =? msgTypeEchoResponse then (observeUserEchoResponse k peer (cm_Sequence msg) now, [])
    else if cm_Type msg =? msgTypeErrorIndication
    then (k, if kg_handler k then [UIndication peer (cm_OffendingTEID msg) (cm_Payload msg)] else [])
    else (k, [])
  end.
