(* ===== verification/DataPath.v ===== *)
(** The data path in the kernel: the access routes ([Routing.v]) and the kernel
    GTP user plane ([UserPlane.v]) on one set of kernel tables.  A session is
    installed as a whole or not at all, removal restores the tables, and the
    two components agree on the subscriber's main route only with policy
    routing. *)
From S2P Require Import Prelude.
From S2P Require Import GoNet.
From S2P Require Import Config.
From S2P Require Import Session.
From S2P Require Import Netlink.
From S2P Require Import Routing.
From S2P Require Import UserPlane.
Open Scope string_scope.
Open Scope Z_scope.

Lemma filter_fresh (P : (Z * Z) * Context -> Prop) `{!forall x, Decision (P x)} m key x :
  free_of P m -> m !! key = None -> P (key, x) -> filter (fun kx => ~ P kx) (<[key := x]> m) = m.
Proof.
  intros Hf Hn HP. rewrite map_filter_insert_False by (intros Hq; by apply Hq).
  rewrite delete_id by done. apply map_filter_id. intros k y Hk Hp. by apply (Hf k y).
Qed.

Section DataPath.
Context {K : Type} (nl : kernel K) `{!KernelTables nl}.

(** * Contexts *)
Definition pdp_request_of (k : KernelGTP) (link : Link) (pdp : PDP) (otei : option Z) : pdp_request :=
  mkPdpRequest (Some (wrap 32 (lk_Index link))) (Some (pd_ITEI pdp))
    (if non_nil (pd_MSAddress pdp) then Some (To4 (pd_MSAddress pdp)) else None)
    (if non_nil (pd_PeerAddress pdp) then Some (To4 (pd_PeerAddress pdp)) else None) otei.

Lemma read_common k link pdp : read_attrs (addPDPCommonAttrs k link pdp) = pdp_request_of k link pdp None.
Proof. unfold addPDPCommonAttrs, pdp_request_of. by destruct (non_nil (pd_PeerAddress pdp)), (non_nil (pd_MSAddress pdp)). Qed.

Lemma read_common_otei k link pdp o :
  read_attrs (addPDPCommonAttrs k link pdp ++ [GTP_O_TEI o]) = pdp_request_of k link pdp (Some o).
Proof. unfold read_attrs. rewrite foldl_app. fold (read_attrs (addPDPCommonAttrs k link pdp)). by rewrite read_common. Qed.

Definition ctx_key (link : Link) (sess : Session) : Z * Z := (wrap 32 (lk_Index link), s_LocalGTPUTEID sess).

Definition ctx_of (k : KernelGTP) (sess : Session) : Context :=
  mkContext (To4 (session_peer k sess)) (To4 (s_SubscriberIP sess)) (s_RemoteGTPUTEID sess).

(** The requests of a session: all of it, for removal, for undoing. *)
Definition add_request (k : KernelGTP) (link : Link) (sess : Session) : pdp_request :=
  pdp_request_of k link (session_pdp (session_peer k sess) sess) (Some (s_RemoteGTPUTEID sess)).
Definition remove_request (k : KernelGTP) (link : Link) (sess : Session) : pdp_request :=
  pdp_request_of k link (mkPDP 1 (session_peer k sess) (s_SubscriberIP sess) (s_LocalGTPUTEID sess) 0) None.
Definition undo_request (k : KernelGTP) (link : Link) (sess : Session) : pdp_request :=
  pdp_request_of k link (undo_pdp sess) None.

(** No context of the netdev has the address or the local TEID. *)
Definition fresh (k : KernelGTP) (link : Link) (sess : Session) (t : tables) : Prop :=
  free_of (collides (add_request k link sess)) (tb_contexts t).

Definition add_context (k : KernelGTP) (link : Link) (sess : Session) (t : tables) : tables :=
  t <| tb_contexts ::= <[ctx_key link sess := ctx_of k sess]> |>.

Lemma pdp_add_spec k link sess s s' e :
  non_nil (s_SubscriberIP sess) = true -> non_nil (session_peer k sess) = true ->
  gtpPDPAdd nl k link (session_pdp (session_peer k sess) sess) s = (s', e) ->
  match e with
  | None => fresh k link sess (seen s) /\ seen s' = add_context k link sess (seen s)
  | Some e => seen s' = seen s /\ (isExists e = true -> ~ fresh k link sess (seen s))
  end.
Proof.
  intros Hip Hpeer. unfold gtpPDPAdd. destruct (k_GenlFamilyGet nl s) as [e0|] eqn:Ef.
  { intros [= <- <-]. split; [done|]. destruct (kt_family _ _ Ef) as [-> _]. done. }
  set (q := mkGenl _ _ _). intros H. pose proof (kt_new_pdp q s s' e eq_refl eq_refl H) as Hk.
  cbn [q ge_attrs] in Hk. change (pd_OTEI (session_pdp _ _)) with (s_RemoteGTPUTEID sess) in Hk.
  rewrite read_common_otei in Hk. fold (add_request k link sess) in Hk. destruct e as [e|]; [done|].
  destruct Hk as [Hf Hk]. split; [done|]. apply (Hk (wrap 32 (lk_Index link)) (s_LocalGTPUTEID sess) (ctx_of k sess)).
  unfold complete, add_request, pdp_request_of, session_pdp, ctx_of.
  cbn [pd_MSAddress pd_PeerAddress pd_ITEI cx_MS cx_Peer cx_OTEI]. by rewrite Hip, Hpeer.
Qed.

Lemma fresh_key k link sess t : fresh k link sess t -> tb_contexts t !! ctx_key link sess = None.
Proof.
  intros H. destruct (tb_contexts t !! _) as [x|] eqn:E; [|done]. exfalso. apply (H _ _ E). split; [done|by right].
Qed.

Lemma fresh_names k link sess t : non_nil (s_SubscriberIP sess) = true ->
  fresh k link sess t ->
  free_of (names (remove_request k link sess)) (tb_contexts t) /\
  free_of (names (undo_request k link sess)) (tb_contexts t).
Proof.
  intros Hip H. split; intros key x Hx [Hl Hn]; apply (H _ _ Hx); (split; [exact Hl|]).
  - left. unfold remove_request, pdp_request_of in Hn. cbn in Hn. rewrite Hip in Hn. cbn in Hn.
    unfold add_request, pdp_request_of. cbn. by rewrite Hip, Hn.
  - by right.
Qed.

Lemma named_context k link sess :
  non_nil (s_SubscriberIP sess) = true ->
  names (remove_request k link sess) (ctx_key link sess, ctx_of k sess) /\
  names (undo_request k link sess) (ctx_key link sess, ctx_of k sess).
Proof. intros Hip. unfold names, remove_request, pdp_request_of. cbn. by rewrite Hip. Qed.

Lemma tables_context_id (t : tables) f : f (tb_contexts t) = tb_contexts t -> t <| tb_contexts ::= f |> = t.
Proof. intros E. destruct t. unfold upd. cbn in *. by rewrite E. Qed.

Lemma pdp_del_fresh k link sess r s s' e pdp t :
  (forall o, pdp_request_of k link pdp o = r <| pr_otei := o |>) -> pr_otei r = None ->
  names r (ctx_key link sess, ctx_of k sess) -> free_of (names r) (tb_contexts t) ->
  tb_contexts t !! ctx_key link sess = None -> tb_contexts (seen s) = tb_contexts (add_context k link sess t) ->
  gtpPDPDel nl k link pdp s = (s', e) ->
  match e with
  | None => seen s' = seen s <| tb_contexts := tb_contexts t |>
  | Some e => seen s' = seen s /\ isNotFound e = false
  end.
Proof.
  intros Hr Ho Hn Hf Hk Es. unfold gtpPDPDel. destruct (k_GenlFamilyGet nl s) as [e0|] eqn:Ef.
  { intros [= <- <-]. split; [done|]. destruct (kt_family _ _ Ef) as [_ He].
    destruct (isNotFound e0); [|done]. specialize (He eq_refl). rewrite Es in He. cbn in He.
    by apply insert_non_empty in He. }
  set (q := mkGenl _ _ _). intros H. pose proof (kt_del_pdp q s s' e eq_refl H) as Hd.
  cbn [q ge_attrs] in Hd. rewrite read_common, Hr in Hd.
  assert (Er : r <| pr_otei := None |> = r) by (destruct r; cbn in *; by rewrite Ho). rewrite Er in Hd.
  destruct e as [e|].
  - destruct Hd as [Hd Hf']. split; [done|]. destruct (isNotFound e); [|done]. exfalso.
    apply (Hf' eq_refl (ctx_key link sess) (ctx_of k sess)); [|done]. rewrite Es. cbn. apply lookup_insert_eq.
  - rewrite Hd. unfold upd. cbn. f_equal. rewrite Es. cbn. by apply filter_fresh.
Qed.

(** * A session of the user plane *)

(** The user plane is started and its netdev is there. *)
Record ready (k : KernelGTP) (s : K) (link : Link) : Prop := {
  rd_started : kg_link k <> None;
  rd_handle : kg_handle k = true;
  rd_link : k_LinkByName nl (kg_iface k) s = Ok link;
  rd_type : lk_Type link = "gtp"
}.

(** The session has its address, its TEIDs and a peer. *)
Record complete_session (k : KernelGTP) (sess : Session) : Prop := {
  cs_valid : validateKernelSession (Some sess) = Ok sess;
  cs_peer : non_nil (session_peer k sess) = true
}.

Lemma cs_ip k sess : complete_session k sess -> non_nil (s_SubscriberIP sess) = true.
Proof. intros [H _]. cbn in H. by destruct (non_nil (s_SubscriberIP sess)). Qed.

Lemma cs_tei k sess : complete_session k sess -> (s_LocalGTPUTEID sess =? 0) = false.
Proof. intros [H _]. cbn in H. destruct (non_nil _); [|done]. by destruct (s_LocalGTPUTEID sess =? 0). Qed.

Definition policy (k : KernelGTP) : bool := ro_PolicyRouting (kg_routing k).
Definition policy_default (k : KernelGTP) (link : Link) : Route :=
  kernelPolicyDefaultRoute link (ro_PolicyTable (kg_routing k)).
Definition policy_rule (k : KernelGTP) (sess : Session) : Rule :=
  kernelPolicyRule (s_SubscriberIP sess) (ro_PolicyTable (kg_routing k)) (ro_PolicyPriority (kg_routing k)).

Definition put_route (r : Route) (t : tables) : tables := t <| tb_routes ::= <[route_key r := r]> |>.

Definition add_routing (k : KernelGTP) (link : Link) (sess : Session) (t : tables) : tables :=
  if policy k then put_route (policy_default k link) t <| tb_rules ::= union {[policy_rule k sess]} |>
  else put_route (kernelRoute link (s_SubscriberIP sess)) t.

Lemma currentLink_ready k s link : ready k s link ->
  currentLink nl k s = (k <| kg_link := Some link |>, Ok link).
Proof. intros [_ Hh Hl Ht]. unfold currentLink. by rewrite Hh, Hl, Ht. Qed.

Lemma undo_spec `{!KernelReliable nl} k link sess s s' e t :
  non_nil (s_SubscriberIP sess) = true -> fresh k link sess t ->
  tb_contexts (seen s) = tb_contexts (add_context k link sess t) ->
  gtpPDPDel nl k link (undo_pdp sess) s = (s', e) -> seen s' = seen s <| tb_contexts := tb_contexts t |>.
Proof.
  intros Hip Hf Hs H. destruct (fresh_names _ _ _ _ Hip Hf) as [_ Hn]. destruct (named_context k link sess Hip) as [_ Hc].
  pose proof (pdp_del_fresh k link sess (undo_request k link sess) s s' e (undo_pdp sess) t
    ltac:(done) eq_refl Hc Hn (fresh_key _ _ _ _ Hf) Hs H) as Hd.
  destruct e as [e|]; [|done]. exfalso. unfold gtpPDPDel in H. rewrite kr_family in H.
  set (q := mkGenl _ _ _) in H. pose proof (kr_del_pdp q s eq_refl) as Hr. rewrite H in Hr. cbn [snd] in Hr.
  discriminate Hr. cbn [q ge_attrs]. rewrite read_common. intros Hfree. apply (Hfree (ctx_key link sess) (ctx_of k sess)); [|done].
  rewrite Hs. cbn. apply lookup_insert_eq.
Qed.

Lemma install_policy_spec k link sess s s' e : policy k = true ->
  installPolicyRouting nl k link sess s = (s', e) ->
  match e with
  | None => seen s' = put_route (policy_default k link) (seen s) <| tb_rules ::= union {[policy_rule k sess]} |>
  | Some _ => seen s' = seen s \/ seen s' = put_route (policy_default k link) (seen s)
  end.
Proof.
  unfold policy. intros Hp. unfold installPolicyRouting. rewrite Hp. cbn [negb].
  fold (policy_default k link) (policy_rule k sess).
  destruct (k_RouteReplace nl _ s) as [s1 e1] eqn:E1. pose proof (kt_replace _ _ _ _ E1) as H1.
  destruct e1 as [e1|]; [intros [= <- <-]; by left|].
  destruct (k_RuleAdd nl _ s1) as [s2 e2] eqn:E2. pose proof (kt_rule_add _ _ _ _ E2) as H2.
  destruct e2 as [e2|]; [|intros [= <- <-]; by rewrite H2, H1]. destruct H2 as [H2 Hx].
  destruct (isExists e2); intros [= <- <-]; [|right; by rewrite H2, H1]. specialize (Hx eq_refl).
  unfold put_route. rewrite H2, <- H1. destruct (seen s1) as [a b c d f]. unfold upd; cbn in *. f_equal. set_solver.
Qed.

Lemma up_add_spec `{!KernelReliable nl} k sess s link k' s' e :
  ready k s link -> complete_session k sess -> fresh k link sess (seen s) ->
  up_AddSession nl k None (Some sess) s = (k', s', e) ->
  k' = k <| kg_link := Some link |> /\
  match e with
  | None => seen s' = add_routing k link sess (add_context k link sess (seen s))
  | Some _ => seen s' = seen s \/ policy k = true /\ seen s' = put_route (policy_default k link) (seen s)
  end.
Proof.
  intros Hrd Hc Hf. pose proof (cs_ip _ _ Hc) as Hip. destruct Hc as [Hv Hp]. unfold up_AddSession. rewrite Hv.
  destruct (kg_link k) as [l0|] eqn:El; [|by destruct (rd_started _ _ _ Hrd)].
  rewrite (currentLink_ready _ _ _ Hrd). set (k1 := k <| kg_link := Some link |>).
  change (session_peer k1 sess) with (session_peer k sess). rewrite Hp. cbn [negb].
  change (session_peer k sess) with (session_peer k1 sess).
  destruct (gtpPDPAdd nl k1 link _ s) as [s1 e1] eqn:E1.
  pose proof (pdp_add_spec k1 link sess s s1 e1 Hip Hp E1) as H1.
  change (fresh k1 link sess (seen s)) with (fresh k link sess (seen s)) in H1.
  destruct e1 as [e1|].
  { destruct H1 as [H1 Hx]. destruct (isExists e1); [by destruct (Hx eq_refl)|].
    intros [= <- <- <-]. split; [done|by left]. }
  destruct H1 as [_ H1]. change (add_context k1 link sess (seen s)) with (add_context k link sess (seen s)) in H1.
  change (ro_PolicyRouting (kg_routing k1)) with (policy k). destruct (policy k) eqn:Hpol; cbn [negb].
  - destruct (installPolicyRouting nl k1 link sess s1) as [s2 e2] eqn:E2.
    pose proof (install_policy_spec k1 link sess s1 s2 e2 Hpol E2) as H2.
    change (policy_default k1 link) with (policy_default k link) in H2.
    change (policy_rule k1 sess) with (policy_rule k sess) in H2.
    destruct e2 as [e2|].
    + destruct (gtpPDPDel nl k1 link (undo_pdp sess) s2) as [s3 e3] eqn:E3. intros [= <- <- <-]. split; [done|].
      assert (Hs : tb_contexts (seen s2) = tb_contexts (add_context k1 link sess (seen s)))
        by (destruct H2 as [-> | ->]; by rewrite H1).
      rewrite (undo_spec k1 link sess s2 s3 e3 (seen s) Hip Hf Hs E3).
      destruct H2 as [-> | ->]; rewrite H1; [left|right; split; [done|]]; by destruct (seen s).
    + intros [= <- <- <-]. split; [done|]. unfold add_routing. by rewrite Hpol, H2, H1.
  - destruct (k_RouteReplace nl _ s1) as [s2 e2] eqn:E2. pose proof (kt_replace _ _ _ _ E2) as H2.
    destruct e2 as [e2|].
    + destruct (gtpPDPDel nl k1 link (undo_pdp sess) s2) as [s3 e3] eqn:E3. intros [= <- <- <-]. split; [done|]. left.
      assert (Hs : tb_contexts (seen s2) = tb_contexts (add_context k1 link sess (seen s))) by (by rewrite H2, H1).
      rewrite (undo_spec k1 link sess s2 s3 e3 (seen s) Hip Hf Hs E3), H2, H1. by destruct (seen s).
    + unfold installPolicyRouting. change (ro_PolicyRouting (kg_routing k1)) with (policy k). rewrite Hpol. cbn [negb].
      intros [= <- <- <-]. split; [done|]. unfold add_routing. by rewrite Hpol, H2, H1.
Qed.

(** * Removal *)

(** What a successful removal leaves of the routing. *)
Definition del_routing (k : KernelGTP) (link : Link) (sess : Session) (t : tables) : tables :=
  if policy k then t <| tb_rules ::= fun r => r ∖ {[policy_rule k sess]} |>
  else if bool_decide (tb_routes t !! route_key (kernelRoute link (s_SubscriberIP sess))
                       = Some (kernelRoute link (s_SubscriberIP sess)))
  then t <| tb_routes ::= delete (route_key (kernelRoute link (s_SubscriberIP sess))) |> else t.

Lemma remove_routing_spec k link sess s s' :
  non_nil (s_SubscriberIP sess) = true ->
  (policy k = false -> forall r, tb_routes (seen s) !! route_key (kernelRoute link (s_SubscriberIP sess)) = Some r ->
     rt_LinkIndex r = lk_Index link -> r = kernelRoute link (s_SubscriberIP sess)) ->
  remove_routing nl k link sess s = (s', None) -> seen s' = del_routing k link sess (seen s).
Proof.
  intros Hip Hown. unfold remove_routing, removePolicyRouting, del_routing. rewrite Hip. cbn [negb].
  fold (policy k) (policy_rule k sess). destruct (policy k) eqn:Hp; cbn [negb].
  - destruct (k_RuleDel nl _ s) as [s1 e1] eqn:E1. pose proof (kt_rule_del _ _ _ _ E1) as H1.
    destruct e1 as [e1|]; [|intros [= <-]; exact H1]. destruct H1 as [H1 Hx].
    destruct (isNotFound e1); [|done]. intros [= <-]. specialize (Hx eq_refl). rewrite H1.
    destruct (seen s) as [a b c d f]. unfold upd; cbn in *. f_equal. set_solver.
  - set (r := kernelRoute link _). destruct (k_RouteDel nl r s) as [s1 e1] eqn:E1.
    pose proof (kt_route_del _ _ _ _ E1) as H1. destruct e1 as [e1|].
    + destruct H1 as [H1 Hx]. destruct (isNotFound e1); [|done]. intros [= <-].
      rewrite bool_decide_eq_false_2 by auto. done.
    + intros [= <-]. destruct H1 as [Hl H1]. destruct (tb_routes (seen s) !! route_key r) as [r'|] eqn:Er; [|done].
      cbn in Hl. injection Hl as Hl. rewrite (Hown eq_refl r' Er Hl), bool_decide_eq_true_2 by done. exact H1.
Qed.

Lemma remove_pdp_spec k link sess s s' t :
  complete_session k sess -> fresh k link sess t ->
  tb_contexts (seen s) = tb_contexts (add_context k link sess t) ->
  remove_pdp nl k link sess s = (s', None) -> seen s' = seen s <| tb_contexts := tb_contexts t |>.
Proof.
  intros Hc Hf Hs. pose proof (cs_ip _ _ Hc) as Hip. unfold remove_pdp. rewrite (cs_tei _ _ Hc).
  destruct (gtpPDPDel nl k link _ s) as [s1 e1] eqn:E1.
  destruct (fresh_names _ _ _ _ Hip Hf) as [Hn _]. destruct (named_context k link sess Hip) as [Hm _].
  pose proof (pdp_del_fresh k link sess (remove_request k link sess) s s1 e1 _ t ltac:(done) eq_refl Hm Hn
    (fresh_key _ _ _ _ Hf) Hs E1) as Hd.
  destruct e1 as [e1|]; [|intros [= <-]; exact Hd]. destruct Hd as [_ Hd]. by rewrite Hd.
Qed.

Lemma up_remove_spec k sess s link k' s' t :
  ready k s link -> complete_session k sess -> fresh k link sess t ->
  tb_contexts (seen s) = tb_contexts (add_context k link sess t) ->
  (policy k = false -> forall r, tb_routes (seen s) !! route_key (kernelRoute link (s_SubscriberIP sess)) = Some r ->
     rt_LinkIndex r = lk_Index link -> r = kernelRoute link (s_SubscriberIP sess)) ->
  up_RemoveSession nl k None (Some sess) s = (k', s', None) ->
  seen s' = del_routing k link sess (seen s) <| tb_contexts := tb_contexts t |>.
Proof.
  intros Hrd Hc Hf Hs Hown. unfold up_RemoveSession. rewrite (currentLink_ready _ _ _ Hrd).
  set (k1 := k <| kg_link := Some link |>). destruct (remove_routing nl k1 link sess s) as [s1 [e1|]] eqn:E1; [done|].
  pose proof (remove_routing_spec k1 link sess s s1 (cs_ip _ _ Hc) Hown E1) as H1.
  change (del_routing k1 link sess (seen s)) with (del_routing k link sess (seen s)) in H1.
  destruct (remove_pdp nl k1 link sess s1) as [s2 e2] eqn:E2. intros [= <- <- ->].
  assert (Hs1 : tb_contexts (seen s1) = tb_contexts (add_context k1 link sess t)).
  { change (add_context k1 link sess t) with (add_context k link sess t). rewrite H1, <- Hs. unfold del_routing.
    by destruct (policy k); [|case_bool_decide]. }
  assert (Hc1 : complete_session k1 sess) by (destruct Hc; by split).
  rewrite (remove_pdp_spec k1 link sess s1 s2 t Hc1 Hf Hs1 E2). by rewrite H1.
Qed.

Lemma remove_routing_fail k link sess s s' e : remove_routing nl k link sess s = (s', Some e) -> seen s' = seen s.
Proof.
  unfold remove_routing, removePolicyRouting. destruct (non_nil _); cbn [negb]; [|done].
  destruct (ro_PolicyRouting (kg_routing k)); cbn [negb].
  - destruct (k_RuleDel nl _ s) as [s1 e1] eqn:E1. pose proof (kt_rule_del _ _ _ _ E1) as H1.
    destruct e1 as [e1|]; [|done]. destruct (isNotFound e1); [done|]. intros [= <- _]. apply H1.
  - destruct (k_RouteDel nl _ s) as [s1 e1] eqn:E1. pose proof (kt_route_del _ _ _ _ E1) as H1.
    destruct e1 as [e1|]; [|done]. destruct (isNotFound e1); [done|]. intros [= <- _]. apply H1.
Qed.

Lemma remove_pdp_reliable `{!KernelReliable nl} k link sess s s' e :
  ~ free_of (names (remove_request k link sess)) (tb_contexts (seen s)) -> remove_pdp nl k link sess s = (s', e) -> e = None.
Proof.
  intros Hf. unfold remove_pdp. destruct (_ =? 0); [by intros [= _ <-]|].
  unfold gtpPDPDel. rewrite kr_family. set (q := mkGenl _ _ _).
  pose proof (kr_del_pdp q s eq_refl) as Hr. cbn [q ge_attrs] in Hr. rewrite read_common in Hr. specialize (Hr Hf).
  destruct (k_Execute nl q s) as [s1 e1]. cbn [snd] in Hr. subst e1. by intros [= _ <-].
Qed.

(** On a reliable kernel a removal that fails, fails at the routing: the
    session stays as a whole. *)
Lemma up_remove_fails `{!KernelReliable nl} k sess s link k' s' e :
  ready k s link -> complete_session k sess -> tb_contexts (seen s) !! ctx_key link sess = Some (ctx_of k sess) ->
  (policy k = false -> forall r, tb_routes (seen s) !! route_key (kernelRoute link (s_SubscriberIP sess)) = Some r ->
     rt_LinkIndex r = lk_Index link -> r = kernelRoute link (s_SubscriberIP sess)) ->
  up_RemoveSession nl k None (Some sess) s = (k', s', Some e) -> seen s' = seen s.
Proof.
  intros Hrd Hc Hs Hown E. unfold up_RemoveSession in E. rewrite (currentLink_ready _ _ _ Hrd) in E.
  destruct (remove_routing nl _ link sess s) as [s1 [e1|]] eqn:E1.
  { injection E as _ <- _. by rewrite (remove_routing_fail _ _ _ _ _ _ E1). }
  exfalso. destruct (remove_pdp nl _ link sess s1) as [s2 e2] eqn:E2. injection E as _ _ ->.
  apply remove_pdp_reliable in E2; [done|]. intros Hf.
  rewrite (remove_routing_spec _ link sess s s1 (cs_ip _ _ Hc) Hown E1) in Hf.
  destruct (named_context k link sess (cs_ip _ _ Hc)) as [Hn _]. apply (Hf (ctx_key link sess) (ctx_of k sess)); [|exact Hn].
  unfold del_routing. destruct (policy _); [exact Hs|by case_bool_decide].
Qed.

(** No table entry of the session's own is there yet. *)
Definition unrouted (k : KernelGTP) (link : Link) (sess : Session) (t : tables) : Prop :=
  if policy k then policy_rule k sess ∉ tb_rules t
  else tb_routes t !! route_key (kernelRoute link (s_SubscriberIP sess)) = None.

(** The policy default route is shared by all sessions and stays. *)
Definition with_default (k : KernelGTP) (link : Link) (t : tables) : tables :=
  if policy k then put_route (policy_default k link) t else t.

Lemma routing_restored k link sess t : unrouted k link sess t ->
  del_routing k link sess (add_routing k link sess t) = with_default k link t.
Proof.
  unfold unrouted, del_routing, add_routing, with_default. destruct (policy k); intros H.
  - destruct t as [a b c d f]. unfold put_route, upd; cbn in *. f_equal. set_solver.
  - rewrite bool_decide_eq_true_2 by apply lookup_insert_eq.
    destruct t as [a b c d f]. unfold put_route, upd; cbn in *. f_equal. rewrite delete_insert_eq. by apply delete_id.
Qed.

(** C8: on a ready device of a kernel whose deletions of existing contexts
    work ([KernelReliable]), [AddSession] of a complete session whose TEID and
    address no context has and that has no rule or route yet, installs the
    session as a whole (the GTP context with both TEIDs, the peer and the
    address, and the route or the policy rule) or leaves the tables as they
    were, up to the shared policy default route.  A [RemoveSession] that
    follows takes away what was installed and nothing else when it succeeds,
    and nothing at all when it fails.  When the address already has a context
    [AddSession] reports success without installing one:
    [stale_context_accepted]. *)
Theorem user_plane_all_or_nothing `{!KernelReliable nl} k sess s link k1 s1 e :
  ready k s link -> complete_session k sess -> fresh k link sess (seen s) -> unrouted k link sess (seen s) ->
  up_AddSession nl k None (Some sess) s = (k1, s1, e) ->
  match e with
  | Some _ => seen s1 = seen s \/ seen s1 = with_default k link (seen s)
  | None =>
    tb_contexts (seen s1) = <[ctx_key link sess := ctx_of k sess]> (tb_contexts (seen s)) /\
    (if policy k then policy_rule k sess ∈ tb_rules (seen s1) /\
       tb_routes (seen s1) !! route_key (policy_default k link) = Some (policy_default k link)
     else tb_routes (seen s1) !! route_key (kernelRoute link (s_SubscriberIP sess))
       = Some (kernelRoute link (s_SubscriberIP sess))) /\
    forall k2 s2 e2, k_LinkByName nl (kg_iface k) s1 = Ok link ->
      up_RemoveSession nl k1 None (Some sess) s1 = (k2, s2, e2) ->
      seen s2 = match e2 with None => with_default k link (seen s) | Some _ => seen s1 end
  end.
Proof.
  intros Hrd Hc Hf Hu H. destruct (up_add_spec k sess s link k1 s1 e Hrd Hc Hf H) as [-> Hs].
  destruct e as [e|].
  { unfold with_default. destruct Hs as [Hs|[-> Hs]]; auto. }
  assert (Hctx : tb_contexts (seen s1) = tb_contexts (add_context k link sess (seen s))).
  { rewrite Hs. unfold add_routing. by destruct (policy k). }
  split_and!; [exact Hctx| |].
  - rewrite Hs. unfold add_routing. destruct (policy k); [|apply lookup_insert_eq].
    split; [cbn; set_solver|apply lookup_insert_eq].
  - intros k2 s2 e2 Hl Hr. set (k1 := k <| kg_link := Some link |>) in *.
    assert (Hrd1 : ready k1 s1 link) by (destruct Hrd; by split).
    assert (Hc1 : complete_session k1 sess) by (destruct Hc; by split).
    assert (Hown : policy k1 = false -> forall r, tb_routes (seen s1) !! route_key (kernelRoute link (s_SubscriberIP sess)) = Some r ->
      rt_LinkIndex r = lk_Index link -> r = kernelRoute link (s_SubscriberIP sess)).
    { change (policy k1) with (policy k). intros Hp r. rewrite Hs. unfold add_routing. rewrite Hp.
      unfold put_route, upd. cbn. rewrite lookup_insert_eq. by intros [= <-]. }
    destruct e2 as [e2|].
    + apply (up_remove_fails k1 sess s1 link k2 s2 e2 Hrd1 Hc1); [|exact Hown|exact Hr]. rewrite Hctx. apply lookup_insert_eq.
    + rewrite (up_remove_spec k1 sess s1 link k2 s2 (seen s) Hrd1 Hc1 Hf); [|exact Hctx|exact Hown|exact Hr].
      change (del_routing k1 link sess (seen s1)) with (del_routing k link sess (seen s1)). rewrite Hs, routing_restored by done.
      unfold with_default, add_context. by destruct (policy k), (seen s).
Qed.

(** * Access route and user plane together *)
Definition main_route (ip : IP) (t : tables) : option Route := tb_routes t !! (254, hostNet ip).

Lemma main_key link ip : route_key (accessRoute link ip) = (254, hostNet ip) /\
  route_key (kernelRoute link ip) = (254, hostNet ip).
Proof. done. Qed.

Lemma install_spec m sess s m1 s1 alink :
  ro_InstallRoutes (rm_cfg m) = true -> k_LinkByName nl (s_AccessInterface sess) s = Ok alink ->
  Install nl m (Some sess) s = (m1, s1, None) ->
  rm_cfg m1 = rm_cfg m /\ rm_nl m1 = true /\ seen s1 = put_route (accessRoute alink (s_SubscriberIP sess)) (seen s) /\
  s_AccessInterface sess <> "" /\ non_nil (s_SubscriberIP sess) = true.
Proof.
  intros Hi Hl. unfold Install. destruct (non_nil _) eqn:Hip; [|done]. rewrite Hi. cbn [negb].
  destruct (nonempty _) eqn:Hne; [|done]. apply nonempty_spec in Hne. cbn [negb].
  destruct (open_handle nl m s) as [m' [e|]] eqn:Eo; [done|].
  assert (Hm : rm_cfg m' = rm_cfg m /\ rm_nl m' = true).
  { unfold open_handle in Eo. destruct (rm_nl m) eqn:E; [by injection Eo as <-|].
    destruct (k_NewHandle nl s); [done|]. by injection Eo as <-. }
  rewrite Hl. destruct (k_RouteReplace nl _ s) as [s' e] eqn:Er. pose proof (kt_replace _ _ _ _ Er) as H.
  destruct e; [done|]. intros [= <- <-]. by destruct Hm.
Qed.

(** C35: who owns the subscriber's main route: after [Install] of the access
    route and [AddSession] of the user plane it leads to the access interface
    exactly with policy routing; without it the user plane's route replaces
    the access route, so that packets for the subscriber go back into the
    tunnel.  Releasing both in the service's order leaves no route. *)
Theorem main_route_owner `{!KernelReliable nl} m k sess s m1 s1 k2 s2 link alink :
  ro_InstallRoutes (rm_cfg m) = true ->
  k_LinkByName nl (s_AccessInterface sess) s = Ok alink -> lk_Index alink <> lk_Index link ->
  Install nl m (Some sess) s = (m1, s1, None) ->
  ready k s1 link -> complete_session k sess -> fresh k link sess (seen s1) ->
  up_AddSession nl k None (Some sess) s1 = (k2, s2, None) ->
  main_route (s_SubscriberIP sess) (seen s2) =
    Some (if policy k then accessRoute alink (s_SubscriberIP sess) else kernelRoute link (s_SubscriberIP sess)) /\
  forall s3 k4 s4, k_LinkByName nl (s_AccessInterface sess) s2 = Ok alink ->
    Remove nl m1 (Some sess) s2 = (s3, None) -> k_LinkByName nl (kg_iface k) s3 = Ok link ->
    up_RemoveSession nl k2 None (Some sess) s3 = (k4, s4, None) ->
    main_route (s_SubscriberIP sess) (seen s4) = None.
Proof.
  intros Hi Ha Hne Hin Hrd Hc Hf Hadd.
  destruct (install_spec _ _ _ _ _ _ Hi Ha Hin) as (Hm & Hnl & Hs1 & Hai & Hip).
  destruct (up_add_spec k sess s1 link k2 s2 _ Hrd Hc Hf Hadd) as [-> Hs2].
  set (ip := s_SubscriberIP sess) in *. destruct (main_key alink ip) as [Ka _]. destruct (main_key link ip) as [_ Kg].
  assert (Hmain : main_route ip (seen s2) = Some (if policy k then accessRoute alink ip else kernelRoute link ip)).
  { rewrite Hs2. unfold main_route, add_routing. fold ip. destruct (policy k).
    - unfold put_route, upd. cbn [tb_routes]. rewrite lookup_insert_ne.
      + cbn. rewrite Hs1. unfold put_route, upd. cbn [tb_routes]. rewrite Ka. apply lookup_insert_eq.
      + unfold route_key. cbn. intros [=].
    - unfold put_route, upd. cbn [tb_routes]. rewrite Kg. apply lookup_insert_eq. }
  split; [exact Hmain|]. intros s3 k4 s4 Ha2 Hrm Hg3 Hur.
  assert (Hs3 : tb_contexts (seen s3) = tb_contexts (seen s2) /\
    main_route ip (seen s3) = if policy k then None else Some (kernelRoute link ip)).
  { revert Hrm. unfold Remove. fold ip. rewrite Hip, Hm, Hi, Hnl. rewrite (proj2 (nonempty_spec _) Hai). cbn [negb].
    rewrite Ha2. destruct (k_RouteDel nl _ s2) as [s' e] eqn:Ed. pose proof (kt_route_del _ _ _ _ Ed) as Hd.
    destruct e as [e|].
    - destruct Hd as [Hd Hx]. destruct (isNotFound e); [|done]. intros [= <-]. specialize (Hx eq_refl).
      rewrite Ka in Hx. unfold main_route in *. rewrite Hd, Hmain in *. by destruct (policy k).
    - intros [= <-]. destruct Hd as [Hl Hd]. rewrite Hd, Ka in *. unfold main_route in *. rewrite Hmain in Hl.
      split; [done|]. destruct (policy k); [apply lookup_delete_eq|]. by injection Hl as Hl. }
  destruct Hs3 as [Hctx Hr3]. set (k1 := k <| kg_link := Some link |>) in *.
  assert (Hrd3 : ready k1 s3 link) by (destruct Hrd; by split).
  assert (Hc1 : complete_session k1 sess) by (destruct Hc; by split).
  rewrite (up_remove_spec k1 sess s3 link k4 s4 (seen s1) Hrd3 Hc1 Hf); [| | |exact Hur].
  - unfold del_routing. change (policy k1) with (policy k). fold ip. destruct (policy k); [exact Hr3|].
    rewrite Kg, bool_decide_eq_true_2 by exact Hr3. apply lookup_delete_eq.
  - rewrite Hctx, Hs2. unfold add_routing. by destruct (policy k).
  - change (policy k1) with (policy k). intros Hp r. fold ip. rewrite Kg. fold (main_route ip (seen s3)). rewrite Hr3, Hp.
    by intros [= <-].
Qed.

(** A context of the subscriber's address with other TEIDs passes for the
    session's own: the user plane reports success and the old context stays. *)
Lemma stale_context_accepted k sess s s1 link e :
  ready k s link -> complete_session k sess ->
  gtpPDPAdd nl (k <| kg_link := Some link |>) link (session_pdp (session_peer k sess) sess) s = (s1, Some e) ->
  isExists e = true -> policy k = false ->
  forall s2, k_RouteReplace nl (kernelRoute link (s_SubscriberIP sess)) s1 = (s2, None) ->
  up_AddSession nl k None (Some sess) s = (k <| kg_link := Some link |>, s2, None) /\
  tb_contexts (seen s2) = tb_contexts (seen s).
Proof.
  intros Hrd [Hv Hp] Hadd He Hpol s2 Hr. split.
  - unfold up_AddSession. rewrite Hv. destruct (kg_link k) eqn:El; [|by destruct (rd_started _ _ _ Hrd)].
    rewrite (currentLink_ready _ _ _ Hrd). set (k1 := k <| kg_link := Some link |>) in *.
    change (session_peer k1 sess) with (session_peer k sess). rewrite Hp. cbn [negb]. rewrite Hadd, He.
    change (ro_PolicyRouting (kg_routing k1)) with (policy k). rewrite Hpol. cbn [negb]. rewrite Hr.
    unfold installPolicyRouting. change (ro_PolicyRouting (kg_routing k1)) with (policy k). by rewrite Hpol.
  - pose proof (kt_replace _ _ _ _ Hr) as H2.
    assert (Hip : non_nil (s_SubscriberIP sess) = true) by (apply (cs_ip k); by split).
    set (k1 := k <| kg_link := Some link |>) in *.
    change (session_peer k sess) with (session_peer k1 sess) in Hp, Hadd.
    destruct (pdp_add_spec k1 link sess s s1 (Some e) Hip Hp Hadd) as [H1 _]. by rewrite H2, <- H1.
Qed.
End DataPath.

(** * A kernel of tables *)
Definition demo_tables : tables :=
  mkTables (<["eth1" := mkLink 2 "device"]> (<["gtp0" := mkLink 7 "gtp"]> ∅)) ∅ ∅ ∅ ∅.

Definition demo_plane (policy_routing : bool) : KernelGTP :=
  NewKernelGTP "gtp0" (zeroGTPConfig <| gt_RemotePGWGTPUIP := "192.0.2.1" |>)
    (mkRoutingConfig true true policy_routing 200 10000 true)
    <| kg_handle := true |> <| kg_link := Some (mkLink 7 "gtp") |>.

Definition demo_session : Session :=
  zeroSession <| s_ID := "s1" |> <| s_SubscriberIP := [10; 45; 0; 2] |> <| s_LocalGTPUTEID := 0x22 |>
    <| s_RemoteGTPUTEID := 0x33 |> <| s_AccessInterface := "eth1" |>.

Lemma demo_plane_ready p t : tb_links t = tb_links demo_tables ->
  ready table_kernel (demo_plane p) t (mkLink 7 "gtp") /\ complete_session (demo_plane p) demo_session.
Proof. intros E. split; split; try done; cbn; by rewrite E. Qed.

Lemma user_plane_all_or_nothing_witness :
  exists k1 s1, up_AddSession table_kernel (demo_plane false) None (Some demo_session) demo_tables = (k1, s1, None) /\
    tb_contexts s1 = <[(7, 0x22) := mkContext [192; 0; 2; 1] [10; 45; 0; 2] 0x33]> ∅.
Proof.
  destruct (demo_plane_ready false demo_tables eq_refl) as [Hr Hc].
  assert (Hf : fresh (demo_plane false) (mkLink 7 "gtp") demo_session demo_tables) by done.
  destruct (up_AddSession table_kernel (demo_plane false) None (Some demo_session) demo_tables) as [[k1 s1] e] eqn:E.
  assert (e = None) as -> by (apply (f_equal snd) in E; by vm_compute in E).
  exists k1, s1. split; [done|].
  exact (proj1 (user_plane_all_or_nothing table_kernel (demo_plane false) demo_session demo_tables (mkLink 7 "gtp")
    k1 s1 None Hr Hc Hf eq_refl E)).
Defined.

Definition demo_router : RoutingManager := mkRouting (mkRoutingConfig true true false 200 10000 true) true "/proc/sys".

Lemma main_route_owner_witness :
  exists k2 s2, main_route [10; 45; 0; 2] s2 = Some (kernelRoute (mkLink 7 "gtp") [10; 45; 0; 2]) /\
    up_AddSession table_kernel (demo_plane false) None (Some demo_session)
      (snd (fst (Install table_kernel demo_router (Some demo_session) demo_tables))) = (k2, s2, None).
Proof.
  destruct (Install table_kernel demo_router (Some demo_session) demo_tables) as [[m1 s1] e] eqn:Ei.
  assert (e = None) as -> by (apply (f_equal snd) in Ei; by vm_compute in Ei).
  assert (Hl : tb_links s1 = tb_links demo_tables)
    by (apply (f_equal (fun x => tb_links (snd (fst x)))) in Ei; cbn [fst snd] in Ei; rewrite <- Ei; by vm_compute).
  destruct (demo_plane_ready false s1 Hl) as [Hr Hc].
  assert (Hf : fresh (demo_plane false) (mkLink 7 "gtp") demo_session s1)
    by (apply (f_equal (fun x => tb_contexts (snd (fst x)))) in Ei; cbn [fst snd] in Ei; unfold fresh;
        change (seen s1) with s1; rewrite <- Ei; done).
  cbn [fst snd]. destruct (up_AddSession table_kernel (demo_plane false) None (Some demo_session) s1) as [[k2 s2] e] eqn:E.
  assert (e = None) as ->.
  { apply (f_equal snd) in E. cbn [snd] in E. rewrite <- E. apply (f_equal (fun x => snd (fst x))) in Ei. cbn [fst snd] in Ei.
    rewrite <- Ei. by vm_compute. }
  exists k2, s2. split; [|done].
  exact (proj1 (main_route_owner table_kernel demo_router (demo_plane false) demo_session demo_tables m1 s1 k2 s2
    (mkLink 7 "gtp") (mkLink 2 "device") eq_refl eq_refl ltac:(done) Ei Hr Hc Hf E)).
Defined.
