(* ===== verification/UserPlaneFacts.v ===== *)
(** What the kernel user plane guarantees of its own life: starting it opens
    both sockets and the netdev or nothing, stopping it gives them back, and a
    user echo probe succeeds only on an answer of the configured PGW. *)
From S2P Require Import Prelude.
From S2P Require Import GoNet.
From S2P Require Import Config.
From S2P Require Import Gtpu.
From S2P Require Import Netlink.
From S2P Require Import UserPlane.
Open Scope string_scope.
Open Scope Z_scope.

(** * Start and stop *)
Section StartStop.
Context {K : Type} (nl : kernel K) `{!KernelTables nl} `{!KernelReliable nl} (h : host).

Lemma close_absent p ps : p ∉ ps -> close_port p ps = ps.
Proof. intros H. apply notin_remove. by rewrite <- list_elem_of_In. Qed.

Lemma close_cons p ps : p ∉ ps -> close_port p (p :: ps) = ps.
Proof. intros H. unfold close_port. cbn. destruct (Z.eq_dec p p); [|done]. by apply close_absent. Qed.

Lemma close_other p q ps : p <> q -> close_port p (q :: ps) = q :: close_port p ps.
Proof. intros H. unfold close_port. cbn. by destruct (Z.eq_dec p q). Qed.

(** The two ports of the program are free. *)
Definition ports_free (ps : list Z) : Prop := (3386 ∉ ps) /\ (gtpUPort ∉ ps).

Lemma close_both ps : ports_free ps -> close_port gtpUPort (close_port 3386 (gtpUPort :: 3386 :: ps)) = ps.
Proof. intros [H1 H2]. rewrite close_other by (unfold gtpUPort; lia). rewrite (close_cons 3386) by done. by apply close_cons. Qed.

Definition with_link (name : string) (i : Z) (t : tables) : tables := t <| tb_links ::= <[name := mkLink i "gtp"]> |>.

Lemma drop_link name i s t : seen s = with_link name i t -> tb_links t !! name = None ->
  seen (fst (k_LinkDel nl name s)) = t /\ snd (k_LinkDel nl name s) = None.
Proof.
  intros Es Hn. pose proof (kr_link_del name s) as Hr. destruct (k_LinkDel nl name s) as [s' e] eqn:E.
  cbn [fst snd] in *. rewrite Hr by (rewrite Es; cbn; by rewrite lookup_insert_eq).
  pose proof (kt_link_del _ _ _ _ E) as Hd. rewrite Hr in Hd by (rewrite Es; cbn; by rewrite lookup_insert_eq).
  split; [|done]. rewrite Hd, Es. destruct t as [a b c d f]. unfold with_link, upd; cbn in *. f_equal.
  rewrite delete_insert_eq. by apply delete_id.
Qed.

Lemma createDevice_spec k fd0 fd1 s k' s' e : createDevice nl k fd0 fd1 s = (k', s', e) ->
  match e with
  | Some _ => k' = k /\ seen s' = seen s
  | None => exists i, tb_links (seen s) !! kg_iface k = None /\ seen s' = with_link (kg_iface k) i (seen s) /\
      k' = k <| kg_gtp := Some (fd0, fd1) |> <| kg_link := Some (mkLink i "gtp") |> <| kg_created := true |>
  end.
Proof.
  unfold createDevice. destruct (k_LinkAdd nl _ s) as [s1 e1] eqn:E1. pose proof (kt_link_add _ _ _ _ E1) as H1.
  cbn [gl_Name] in H1. destruct e1 as [e1|]; [intros [= <- <- <-]; done|]. destruct H1 as (i & Hn & H1).
  fold (with_link (kg_iface k) i (seen s)) in H1. pose proof (kt_link (kg_iface k) s1) as Hl.
  destruct (k_LinkByName nl _ s1) as [l|]; [|intros [= <- <- <-]; split; [done|by eapply drop_link]].
  rewrite H1 in Hl. cbn in Hl. rewrite lookup_insert_eq in Hl. injection Hl as <-.
  destruct (k_LinkSetUp nl _ s1) as [s2 e2] eqn:E2. pose proof (kt_link_up _ _ _ _ E2) as H2.
  destruct e2 as [e2|]; intros [= <- <- <-].
  - split; [done|]. eapply drop_link; [by rewrite H2|done].
  - exists i. by rewrite H2.
Qed.

Lemma createLink_spec k s ps k' s' ps' e : ports_free ps -> createLink nl h k s ps = (k', s', ps', e) ->
  match e with
  | Some _ => k' = k /\ seen s' = seen s /\ ps' = ps
  | None => ps' = gtpUPort :: 3386 :: ps /\ exists fd0 fd1 i,
      tb_links (seen s) !! kg_iface k = None /\ seen s' = with_link (kg_iface k) i (seen s) /\
      k' = k <| kg_gtp := Some (fd0, fd1) |> <| kg_link := Some (mkLink i "gtp") |> <| kg_created := true |>
  end.
Proof.
  intros Hp. unfold createLink, listenKernelGTPUDP. destruct (ho_listen h 3386); [by intros [= <- <- <- <-]|].
  destruct (ho_listen h gtpUPort).
  { intros [= <- <- <- <-]. split_and!; [done|done|]. apply close_absent, Hp. }
  rewrite close_both by done. destruct (ho_fd h 3386) as [fd0|]; [|by intros [= <- <- <- <-]].
  destruct (ho_fd h gtpUPort) as [fd1|]; [|by intros [= <- <- <- <-]].
  destruct (createDevice nl k fd0 fd1 s) as [[k1 s1] e1] eqn:E. pose proof (createDevice_spec _ _ _ _ _ _ _ E) as H.
  destruct e1 as [e1|]; intros [= <- <- <- <-]; [by destruct H|]. split; [done|]. destruct H as (i & H). by exists fd0, fd1, i.
Qed.

Lemma detect_same k s k' e : detectUserEchoSupport nl h k s = (k', e) ->
  kg_iface k' = kg_iface k /\ kg_link k' = kg_link k /\ kg_gtp k' = kg_gtp k /\ kg_created k' = kg_created k /\
  (e <> None -> ue_Enabled (kg_echo k) = true /\
     (ue_Mode (kg_echo k) <> gtpUEchoModeKernelNetlink \/ ue_RequireKernelSupport (kg_echo k) = true)).
Proof.
  unfold detectUserEchoSupport. destruct (ue_Enabled _) eqn:En; cbn [negb]; [|intros [= <- <-]; done].
  destruct (String.eqb _ _) eqn:Em; cbn [negb].
  2: { intros [= <- <-]. split_and!; try done. intros _. split; [done|]. left. by apply String.eqb_neq. }
  destruct (negb _); intros [= <- <-]; split_and!; try done. cbn [kg_echo]. case_match; [|done]. intros _. split; [done|by right].
Qed.

(** [Start] changes nothing, or the sockets are open and the netdev exists. *)
Lemma up_Start_cases k ctx s ps k1 s1 ps1 e :
  ports_free ps -> kg_created k = false -> kg_gtp k = None -> up_Start nl h k ctx s ps = (k1, s1, ps1, e) ->
  kg_iface k1 = kg_iface k /\
  (e <> None /\ ps1 = ps /\ seen s1 = seen s /\ kg_created k1 = false /\ kg_gtp k1 = None \/
   ps1 = gtpUPort :: 3386 :: ps /\ kg_created k1 = true /\ kg_gtp k1 <> None /\
   (exists i, kg_link k1 = Some (mkLink i "gtp") /\ tb_links (seen s) !! kg_iface k = None /\
      seen s1 = with_link (kg_iface k) i (seen s)) /\
   (e <> None -> ue_Enabled (kg_echo k) = true /\
      (ue_Mode (kg_echo k) <> gtpUEchoModeKernelNetlink \/ ue_RequireKernelSupport (kg_echo k) = true))).
Proof.
  intros Hp Hc Hg. unfold up_Start. destruct ctx; [intros [= <- <- <- <-]; split; [done|by left]|].
  destruct (k_NewHandle nl s); [intros [= <- <- <- <-]; split; [done|by left]|].
  destruct (ho_nsFile h) as [fd|]; [|intros [= <- <- <- <-]; split; [done|by left]].
  set (k0 := k <| kg_handle := true |> <| kg_nsFD := fd |>).
  destruct (k_LinkByName nl _ s) as [|e0]; [intros [= <- <- <- <-]; split; [done|by left]|].
  destruct (negb (isNotFound e0)); [intros [= <- <- <- <-]; split; [done|by left]|].
  destruct (createLink nl h k0 s ps) as [[[k2 s2] ps2] e2] eqn:E. pose proof (createLink_spec _ _ _ _ _ _ _ Hp E) as H.
  destruct e2 as [e2|].
  { destruct H as (-> & Hs & ->). intros [= <- <- <- <-]. split; [done|by left]. }
  destruct H as (-> & fd0 & fd1 & i & Hn & Hs & ->). change (kg_iface k0) with (kg_iface k) in *.
  destruct (detectUserEchoSupport nl h _ s2) as [k3 e3] eqn:Ed. destruct (detect_same _ _ _ _ Ed) as (D1 & D2 & D3 & D4 & D5).
  intros [= <- <- <- <-]. cbn in D1, D2, D3, D4. split; [done|]. right. rewrite D3. split_and!; [done|done|done|by exists i|exact D5].
Qed.

Lemma up_Stop_off k s ps : kg_created k = false -> kg_gtp k = None -> up_Stop nl k s ps = (s, ps, None).
Proof. intros Hc Hg. unfold up_Stop. by rewrite Hc, Hg. Qed.

(** [Stop] of a started user plane removes the netdev and closes the sockets,
    whatever became of the tables in between. *)
Lemma up_Stop_on k s ps :
  ports_free ps -> kg_created k = true -> kg_gtp k <> None -> kg_link k <> None -> tb_links (seen s) !! kg_iface k <> None ->
  exists s', up_Stop nl k s (gtpUPort :: 3386 :: ps) = (s', ps, None) /\
    seen s' = seen s <| tb_links ::= delete (kg_iface k) |>.
Proof.
  intros Hp Hc Hg Hl Ht. unfold up_Stop. rewrite Hc. destruct (kg_link k); [|done]. destruct (kg_gtp k); [|done].
  pose proof (kr_link_del (kg_iface k) s Ht) as Hr. destruct (k_LinkDel nl (kg_iface k) s) as [s' e] eqn:E.
  cbn [snd] in Hr. subst e. exists s'. rewrite close_both by done. split; [done|]. exact (kt_link_del _ _ _ _ E).
Qed.

(** [Start] opens both UDP sockets and creates the GTP netdev, or leaves
    sockets and tables as they were; only when it fails on the echo support it
    asks for are they left to [Stop], which gives back the sockets and the
    netdev and nothing else. *)
Theorem user_plane_start_stop k s ps k1 s1 ps1 e :
  ports_free ps -> kg_created k = false -> kg_gtp k = None -> up_Start nl h k None s ps = (k1, s1, ps1, e) ->
  (ps1 = ps /\ seen s1 = seen s /\ e <> None \/
   ps1 = gtpUPort :: 3386 :: ps /\ kg_created k1 = true /\
   (exists i, kg_link k1 = Some (mkLink i "gtp") /\ tb_links (seen s) !! kg_iface k = None /\
      seen s1 = with_link (kg_iface k) i (seen s)) /\
   (e <> None -> ue_Enabled (kg_echo k) = true /\
      (ue_Mode (kg_echo k) <> gtpUEchoModeKernelNetlink \/ ue_RequireKernelSupport (kg_echo k) = true))) /\
  (forall s2 ps2 e2, up_Stop nl k1 s1 ps1 = (s2, ps2, e2) -> e2 = None /\ ps2 = ps /\ seen s2 = seen s).
Proof.
  intros Hp Hc Hg E. destruct (up_Start_cases _ _ _ _ _ _ _ _ Hp Hc Hg E) as [Hi H]. split.
  - destruct H as [(?&?&?&?&?)|(?&?&?&?&?)]; [by left|by right].
  - intros s2 ps2 e2. destruct H as [(_ & -> & Hs & Hc1 & Hg1)|(-> & Hc1 & Hg1 & (i & Hl & Hn & Hs) & _)].
    + rewrite up_Stop_off by done. by intros [= <- <- <-].
    + destruct (up_Stop_on k1 s1 ps Hp Hc1 Hg1) as (s' & -> & Hs'); [congruence|rewrite Hs, Hi; cbn; by rewrite lookup_insert_eq|].
      intros [= <- <- <-]. split_and!; [done..|]. rewrite Hs', Hs, Hi. destruct (seen s) as [a b c d f]. unfold with_link, upd; cbn in *.
      f_equal. rewrite delete_insert_eq. by apply delete_id.
Qed.

(** Unless it was stopped, a netdev of an earlier run refuses the next start. *)
Lemma start_refuses_existing k s ps l fd :
  k_NewHandle nl s = None -> ho_nsFile h = Ok fd -> k_LinkByName nl (kg_iface k) s = Ok l ->
  exists k' e, up_Start nl h k None s ps = (k', s, ps, Some e).
Proof. intros H1 H2 H3. unfold up_Start. rewrite H1, H2.
  change (kg_iface (k <| kg_handle := true |> <| kg_nsFD := fd |>)) with (kg_iface k). rewrite H3. by do 2 eexists. Qed.
End StartStop.

(** * User echo *)
Section EchoRun.
Context {K : Type} (nl : kernel K) (iface : string) (pgw : GTPConfig) (routing : RoutingConfig).

(** The user plane in operation: probes begin and end, datagrams arrive, the
    watchdog starts and ends, the echo support is detected, the netdev is
    looked up, in any order. *)
Inductive plane_step : KernelGTP -> KernelGTP -> Prop :=
| ps_begin k s we now k' s' r out : probe_begin nl k s we now = (k', s', r, out) -> plane_step k k'
| ps_end k ch start canceled now k' e : probe_end k ch start canceled now = Some (k', e) -> plane_step k k'
| ps_packet k b peer now k' outs : control_step k b peer now = Some (k', outs) -> plane_step k k'
| ps_watch k k' b : StartUserEchoWatchdog k = (k', b) -> plane_step k k'
| ps_unwatch k : plane_step k (watchdogEnded k)
| ps_detect k h s k' e : detectUserEchoSupport nl h k s = (k', e) -> plane_step k k'
| ps_link k s k' l : currentLink nl k s = (k', l) -> plane_step k k'.

Definition plane_reached (k : KernelGTP) : Prop := rtc plane_step (NewKernelGTP iface pgw routing) k.

Definition pgw_ip : IP := ParseIP (gt_RemotePGWGTPUIP pgw).

(** Observations come from the PGW; the health is the count of failures. *)
Record echo_inv (k : KernelGTP) : Prop := {
  ei_pgw : kg_pgw k = pgw;
  ei_cfg : kg_echo k = normalizeUserEchoConfig (gt_UserEcho pgw);
  ei_obs : forall ch obs, kg_chans k !! ch = Some (Some obs) -> pgw_ip <> [] -> IPEqual (a_IP (ob_Peer obs)) pgw_ip = true;
  ei_fail : 0 <= kg_failures k;
  ei_health : kg_health k = "unhealthy" <-> ue_MaxFailures (kg_echo k) <= kg_failures k;
  ei_seq : 0 <= kg_sequence k < 65536
}.

(** The fields the echo machine does not look at. *)
Definition same_echo (k k' : KernelGTP) : Prop :=
  kg_pgw k' = kg_pgw k /\ kg_echo k' = kg_echo k /\ kg_chans k' = kg_chans k /\ kg_failures k' = kg_failures k /\
  kg_health k' = kg_health k /\ kg_sequence k' = kg_sequence k.

Lemma same_echo_inv k k' : echo_inv k -> same_echo k k' -> echo_inv k'.
Proof.
  intros [H1 H2 H3 H4 H5 H6] (E1 & E2 & E3 & E4 & E5 & E6).
  split; rewrite ?E1, ?E2, ?E3, ?E4, ?E5, ?E6; done.
Qed.

Lemma link_same k s k' l : currentLink nl k s = (k', l) -> same_echo k k'.
Proof. unfold currentLink. repeat case_match; by intros [= <- <-]. Qed.

Lemma next_sequence_inv k k' n : nextUserEchoSequence k = (k', n) -> echo_inv k -> echo_inv k' /\ 1 <= n < 65536.
Proof.
  unfold nextUserEchoSequence, wrap. intros [= <- <-] HI.
  pose proof (Z.mod_pos_bound (kg_sequence k + 1) (2 ^ 16) ltac:(lia)) as Hb. change (2 ^ 16) with 65536 in Hb |- *.
  destruct (_ =? 0) eqn:E; bools; (split; [|lia]); destruct HI; (split; [done..|cbn; lia]).
Qed.

Lemma trigger_netlink_inv k s k' s' e : triggerUserEchoRequestNetlink nl k s = (k', s', e) -> echo_inv k -> echo_inv k'.
Proof.
  unfold triggerUserEchoRequestNetlink. destruct (negb _); [by intros [= <- _ _]|].
  destruct (currentLink nl k s) as [k2 l] eqn:El. pose proof (link_same _ _ _ _ El) as Hs. intros H HI.
  assert (k2 = k') as <-; [|by eapply same_echo_inv]. revert H. clear. repeat case_match; by intros [= <- _ _].
Qed.

Lemma trigger_inv k s we k' s' r out : triggerUserEchoRequest nl k s we = (k', s', r, out) -> echo_inv k -> echo_inv k'.
Proof.
  unfold triggerUserEchoRequest. destruct (triggerUserEchoRequestNetlink nl k s) as [[k1 s1] e1] eqn:E1. intros H HI.
  pose proof (trigger_netlink_inv _ _ _ _ _ E1 HI) as I1.
  destruct e1 as [e1|]; [|by injection H as <- _ _ _]. destruct (negb _); [by injection H as <- _ _ _|].
  destruct (triggerUserEchoRequestSocket k1 we) as [[k2 r2] out2] eqn:E2. injection H as <- _ _ _.
  revert E2. unfold triggerUserEchoRequestSocket. case_match; [|by intros [= <- _ _]].
  case_match; [by intros [= <- _ _]|]. destruct (nextUserEchoSequence k1) as [k3 n] eqn:En. intros [= <- _ _].
  by apply (next_sequence_inv _ _ _ En).
Qed.

Lemma clear_inv k ch : echo_inv k -> echo_inv (clearUserEchoPending k ch).
Proof. intros HI. unfold clearUserEchoPending. case_bool_decide; [|done]. by apply (same_echo_inv k). Qed.

Lemma failure_inv k now k' n u : recordUserEchoFailure k now = (k', n, u) -> echo_inv k ->
  echo_inv k' /\ kg_failures k' = kg_failures k + 1.
Proof.
  unfold recordUserEchoFailure. cbn. intros H [H1 H2 H3 H4 H5 H6].
  destruct (_ <=? _) eqn:E1; cbn [andb] in H; [destruct (String.eqb _ _) eqn:E2; cbn [negb] in H|]; injection H as <- _ _;
    (split; [split; cbn; try done; try lia|cbn; lia]); bools; cbn in *.
  all: first [apply String.eqb_eq in E2; by split; [intros; lia|]|split; [done|by intros]|idtac].
  rewrite H5. lia.
Qed.

Lemma ensure_inv k k' ch : ensureUserEchoPending k = (k', ch) -> echo_inv k -> echo_inv k'.
Proof.
  unfold ensureUserEchoPending. intros [= <- _] [H1 H2 H3 H4 H5 H6]. split; try done. cbn. intros c obs Hc.
  apply (H3 c). rewrite lookup_app in Hc. destruct (kg_chans k !! c) eqn:E; [done|].
  apply list_lookup_singleton_Some in Hc as [_ Hc]. done.
Qed.

Lemma success_inv k ch latency now : echo_inv k -> 1 <= ue_MaxFailures (kg_echo k) ->
  echo_inv (recordUserEchoSuccess (k <| kg_chans ::= <[ch := None]> |>) latency now).
Proof.
  intros [H1 H2 H3 H4 H5 H6] Hm. split; cbn; try done; try lia.
  - intros c obs Hc. destruct (decide (c = ch)) as [->|Hne].
    + destruct (decide (ch < length (kg_chans k))%nat); [by rewrite list_lookup_insert_eq in Hc|].
      by rewrite list_insert_ge in Hc by lia; apply (H3 ch).
    + rewrite list_lookup_insert_ne in Hc by done. by apply (H3 c).
  - split; [done|lia].
Qed.

Lemma observe_inv k peer seq now : echo_inv k -> echo_inv (observeUserEchoResponse k peer seq now).
Proof.
  intros HI. unfold observeUserEchoResponse. rewrite (ei_pgw _ HI). fold pgw_ip.
  destruct (non_nil pgw_ip && _)%bool eqn:Ep; [done|]. case_match; [|done]. case_match; [|done]. case_match; [done|].
  destruct HI as [I1 I2 I3 I4 I5 I6]. split; cbn; try done. intros c obs Hc Hne.
  destruct (decide (c = n)) as [->|Hcn].
  - rewrite list_lookup_insert_eq in Hc by (by eapply lookup_lt_Some). injection Hc as <-. cbn.
    apply non_nil_spec in Hne. rewrite Hne in Ep. cbn in Ep. by apply negb_false_iff in Ep.
  - rewrite list_lookup_insert_ne in Hc by done. by apply (I3 c).
Qed.

Lemma plane_step_inv k k' : plane_step k k' -> 1 <= ue_MaxFailures (kg_echo k) -> echo_inv k -> echo_inv k'.
Proof.
  intros [] Hm HI.
  - revert H. unfold probe_begin. destruct (ensureUserEchoPending k0) as [k1 ch] eqn:E1. pose proof (ensure_inv _ _ _ E1 HI) as I1.
    destruct (triggerUserEchoRequest nl k1 s we) as [[[k2 s2] r2] o2] eqn:E2. pose proof (trigger_inv _ _ _ _ _ _ _ E2 I1) as I2.
    destruct r2 as [n|e]; [by intros [= <- _ _ _]|].
    destruct (disableUserEchoOnKernelReject k2 e) as [k3 d] eqn:E3.
    assert (I3 : echo_inv k3).
    { revert E3. unfold disableUserEchoOnKernelReject. case_match; intros [= <- _]; [done|]. by apply (same_echo_inv k2). }
    destruct d; [intros [= <- _ _ _]; by apply clear_inv|].
    destruct (recordUserEchoFailure k3 now) as [[k4 n4] u4] eqn:E4. intros [= <- _ _ _]. apply clear_inv.
    by apply (failure_inv _ _ _ _ _ E4).
  - revert H. unfold probe_end. destruct canceled as [c|].
    + destruct (recordUserEchoFailure k0 now) as [[k4 n4] u4] eqn:E4. intros [= <- _]. apply clear_inv.
      by apply (failure_inv _ _ _ _ _ E4).
    + do 2 (case_match; try done). intros [= <- _]. apply clear_inv. by apply success_inv.
  - revert H. unfold control_step. destruct (DecodeControlPacket b) as [[m|]|]; cbn [mbind option_bind]; try done.
    + repeat case_match; intros [= <- _]; try done. by apply observe_inv.
    + by intros [= <- _].
  - revert H. unfold StartUserEchoWatchdog. repeat case_match; intros [= <- _]; try done. by apply (same_echo_inv k0).
  - by apply (same_echo_inv k0).
  - revert H. unfold detectUserEchoSupport. repeat case_match; intros [= <- _]; try done; by apply (same_echo_inv k0).
  - by eapply same_echo_inv, link_same.
Qed.

Lemma plane_reached_inv k : 1 <= ue_MaxFailures (normalizeUserEchoConfig (gt_UserEcho pgw)) ->
  plane_reached k -> echo_inv k.
Proof.
  intros Hm. unfold plane_reached. revert k. apply rtc_ind_r.
  - split; cbn; try done; try lia. split; [done|lia].
  - intros k1 k2 _ Hs HI. eapply plane_step_inv; [exact Hs| |exact HI]. by rewrite (ei_cfg _ HI).
Qed.

(** C36: in every state of the user plane the PGW is unhealthy exactly when the
    failures in a row have reached the limit; a probe succeeds only by taking
    an observation of the configured PGW out of its channel, which resets the
    count; and while a probe waits, an Echo Response of the PGW ends it with
    success, whatever its sequence number. *)
Theorem user_echo_sound k :
  1 <= ue_MaxFailures (normalizeUserEchoConfig (gt_UserEcho pgw)) -> plane_reached k ->
  (kg_health k = "unhealthy" <-> ue_MaxFailures (kg_echo k) <= kg_failures k) /\
  (forall ch start now k' e, probe_end k ch start None now = Some (k', e) ->
     (exists obs, kg_chans k !! ch = Some (Some obs) /\
        (pgw_ip <> [] -> IPEqual (a_IP (ob_Peer obs)) pgw_ip = true)) /\
     e = None /\ kg_health k' = "healthy" /\ kg_failures k' = 0 /\ kg_chans k' !! ch = Some None) /\
  (forall ch peer seq start at_ now, kg_pending k = Some ch -> kg_chans k !! ch = Some None ->
     IPEqual (a_IP peer) pgw_ip = true -> u_ok 16 seq ->
     exists k1 k2, control_step k (EncodeEchoResponse seq) peer at_ = Some (k1, []) /\
       probe_end k1 ch start None now = Some (k2, None)).
Proof.
  intros Hm Hr. pose proof (plane_reached_inv k Hm Hr) as HI. split; [apply HI|]. split.
  - intros ch start now k' e. unfold probe_end. destruct (kg_chans k !! ch) as [[obs|]|] eqn:E; try done.
    intros [= <- <-]. split; [exists obs; split; [done|]; by apply (ei_obs _ HI ch)|].
    unfold clearUserEchoPending. case_bool_decide; cbn; split_and!; try done.
    all: apply list_lookup_insert_eq; by eapply lookup_lt_Some.
  - intros ch peer seq start at_ now Hp Hc Hpeer Hs. unfold control_step. rewrite decode_echo_response by done.
    cbn [mbind option_bind cm_Type cm_Sequence Z.eqb]. change (msgTypeEchoResponse =? msgTypeEchoRequest) with false.
    change (msgTypeEchoResponse =? msgTypeEchoResponse) with true. cbn match. unfold observeUserEchoResponse.
    rewrite (ei_pgw _ HI). fold pgw_ip. rewrite Hpeer, andb_false_r, Hp, Hc. eexists _, _. split; [done|].
    unfold probe_end. cbn [kg_chans upd]. rewrite list_lookup_insert_eq by (by eapply lookup_lt_Some). done.
Qed.
End EchoRun.

(** * The demo kernel *)
Definition demo_host : host := mkHost (Ok 5) (fun _ => None) (fun p => Ok p) false.

Lemma user_plane_start_stop_witness :
  exists k1 s1 ps1 s2 ps2, up_Start table_kernel demo_host (NewKernelGTP "gtp0" zeroGTPConfig zeroRoutingConfig) None
      (mkTables ∅ ∅ ∅ ∅ ∅) [] = (k1, s1, ps1, None) /\ ps1 = [gtpUPort; 3386] /\
    up_Stop table_kernel k1 s1 ps1 = (s2, ps2, None) /\ ps2 = [] /\ s2 = mkTables ∅ ∅ ∅ ∅ ∅.
Proof.
  destruct (up_Start table_kernel demo_host _ None _ []) as [[[k1 s1] ps1] e] eqn:E.
  assert (e = None) as -> by (apply (f_equal snd) in E; by vm_compute in E).
  assert (Hps : ports_free []) by (split; apply not_elem_of_nil).
  destruct (user_plane_start_stop table_kernel demo_host (NewKernelGTP "gtp0" zeroGTPConfig zeroRoutingConfig)
    (mkTables ∅ ∅ ∅ ∅ ∅) [] k1 s1 ps1 None Hps eq_refl eq_refl E) as [[(_ & _ & H)|(H & _)] Hstop]; [by destruct H|].
  destruct (up_Stop table_kernel k1 s1 ps1) as [[s2 ps2] e2] eqn:E2.
  destruct (Hstop _ _ _ eq_refl) as (-> & -> & Hs). exists k1, s1, ps1, s2, []. split_and!; done.
Defined.

Definition demo_echo_plane : KernelGTP :=
  NewKernelGTP "gtp0" (zeroGTPConfig <| gt_RemotePGWGTPUIP := "192.0.2.1" |>) zeroRoutingConfig.

(** A probe on a kernel without the netdev and without socket fails: one of three. *)
Lemma user_echo_sound_witness :
  exists k, plane_reached table_kernel "gtp0" (zeroGTPConfig <| gt_RemotePGWGTPUIP := "192.0.2.1" |>) zeroRoutingConfig k /\
    kg_failures k = 1 /\ (kg_health k = "unhealthy" <-> 3 <= 1).
Proof.
  destruct (probe_begin table_kernel demo_echo_plane (mkTables ∅ ∅ ∅ ∅ ∅) None 0) as [[[k s] r] o] eqn:E.
  assert (Hr : plane_reached table_kernel "gtp0" (zeroGTPConfig <| gt_RemotePGWGTPUIP := "192.0.2.1" |>) zeroRoutingConfig k)
    by (eapply rtc_once, (ps_begin table_kernel _ _ _ _ _ _ _ _ E)).
  exists k. split; [exact Hr|]. assert (Hf : kg_failures k = 1 /\ ue_MaxFailures (kg_echo k) = 3).
  { split; [apply (f_equal (fun x => kg_failures (fst (fst (fst x))))) in E
            |apply (f_equal (fun x => ue_MaxFailures (kg_echo (fst (fst (fst x)))))) in E];
      cbn [fst] in E; rewrite <- E; by vm_compute. }
  destruct Hf as [Hf Hm]. split; [exact Hf|]. rewrite <- Hf, <- Hm.
  exact (proj1 (user_echo_sound table_kernel "gtp0" (zeroGTPConfig <| gt_RemotePGWGTPUIP := "192.0.2.1" |>)
    zeroRoutingConfig k ltac:(by apply Z.leb_le) Hr)).
Defined.
