(* ===== verification/AccessSide.v ===== *)
(** The access side: the DHCP server ([internal/accessside/dhcp.go]), the ARP
    proxy ([arp.go]) and the neighbour entries of the manager ([manager.go]).
    Frames are byte lists; the packet socket ([raw.go]) is the list of frames
    given to [HandleFrame].  The goroutines that a recovery handler would run
    in are the [spawn]s the handlers return. *)
From S2P Require Import Prelude.
From S2P Require Import GoNet.
From S2P Require Import Config.
From S2P Require Import Session.
From S2P Require Import Recovery.
From S2P Require Import Netlink.
Open Scope string_scope.
Open Scope Z_scope.

(** * Constants and small helpers *)
Definition etherTypeIPv4 : Z := 0x0800.
Definition etherTypeARP : Z := 0x0806.
Definition bootRequest : Z := 1.
Definition bootReply : Z := 2.
Definition dhcpDiscover : Z := 1.
Definition dhcpOffer : Z := 2.
Definition dhcpRequest : Z := 3.
Definition dhcpAck : Z := 5.
Definition dhcpNak : Z := 6.
Definition optSubnetMask : Z := 1.
Definition optRouter : Z := 3.
Definition optDNSServer : Z := 6.
Definition optRequestedIP : Z := 50.
Definition optLeaseTime : Z := 51.
Definition optMessageType : Z := 53.
Definition optServerIdentifier : Z := 54.
Definition optRenewalTime : Z := 58.
Definition optRebindingTime : Z := 59.
Definition optEnd : Z := 255.
Definition dhcpMagic : Z := 0x63825363.

(** [copy] of [src] into [n] zero bytes. *)
Definition fill (n : nat) (src : list Z) : list Z := take n (src ++ zeros n).

Definition firstIP (values : list IP) : IP := default [] (List.find non_nil values).

Definition ethernetSrc (frame : list Z) : HardwareAddr :=
  if (length frame <? 12)%nat then [] else take 6 (drop 6 frame).

(** The sum of the 16 bit words, an odd last byte in the high half. *)
Fixpoint word_sum (b : list Z) : Z :=
  match b with
  | x :: y :: rest => be_dec [x; y] + word_sum rest
  | [x] => Z.shiftl x 8
  | [] => 0
  end.

(** The folding loop; [fuel] turns of it are enough, see [checksum_spec]. *)
Fixpoint fold_carry (fuel : nat) (sum : Z) : Z :=
  match fuel with
  | O => sum
  | S fuel => if Z.shiftr sum 16 =? 0 then sum else fold_carry fuel (Z.land sum 0xffff + Z.shiftr sum 16)
  end.

Definition checksum (b : list Z) : Z := Z.lxor (fold_carry 4 (wrap 32 (word_sum b))) 0xffff.

Definition u32 (v : Z) : list Z := be 4 v.

Definition ipListBytes (values : list string) : list Z := concat (map (fun v => To4 (ParseIP v)) values).

(** * DHCP packets *)
Record dhcpPacket := mkPacket {
  dp_XID : Z; dp_ClientMAC : HardwareAddr; dp_ClientIP : IP; dp_RequestedIP : IP;
  dp_ServerIdentifier : IP; dp_MessageType : Z
}.

Record dhcpOption := mkOpt { o_code : Z; o_data : list Z }.

(** [parseOptions]: a later option replaces an earlier one of its code. *)
Fixpoint options_loop (fuel : nat) (b : list Z) (opts : gmap Z (list Z)) : gmap Z (list Z) :=
  match fuel, b with
  | S fuel, code :: b =>
    if code =? optEnd then opts
    else if code =? 0 then options_loop fuel b opts
    else match b with
    | [] => opts
    | l :: b =>
      let l := Z.to_nat l in
      if (length b <? l)%nat then opts else options_loop fuel (drop l b) (<[code := take l b]> opts)
    end
  | _, _ => opts
  end.

Definition parseOptions (b : list Z) : gmap Z (list Z) := options_loop (length b) b ∅.

(** An option of the given length. *)
Definition option_of (opts : gmap Z (list Z)) (code : Z) (n : nat) : option (list Z) :=
  d ← opts !! code; if (length d =? n)%nat then Some d else None.

Definition parseDHCPFrame (frame : list Z) : go (option dhcpPacket) :=
  if (length frame <? 14 + 20 + 8 + 240)%nat then Some None
  else
    et ← go_slice frame 12 14;
    if negb (be_dec et =? etherTypeIPv4) then Some None
    else
      ip ← go_from frame 14;
      i0 ← go_idx ip 0;
      let ihl := (Z.to_nat (Z.land i0 0x0f) * 4)%nat in
      if (length ip <? ihl + 8 + 240)%nat then Some None
      else
        i9 ← go_idx ip 9;
        if negb (i9 =? 17) then Some None
        else
          udp ← go_from ip ihl;
          port ← go_slice udp 2 4;
          if negb (be_dec port =? 67) then Some None
          else
            d ← go_from udp 8;
            if (length d <? 240)%nat then Some None
            else
              d0 ← go_idx d 0; d1 ← go_idx d 1; d2 ← go_idx d 2;
              if (negb (d0 =? bootRequest) || negb (d1 =? 1) || negb (d2 =? 6))%bool then Some None
              else
                xid ← go_slice d 4 8;
                ci ← go_slice d 12 16;
                mac ← go_slice d 28 34;
                magic ← go_slice d 236 240;
                if negb (be_dec magic =? dhcpMagic) then Some None
                else
                  rest ← go_from d 240;
                  let opts := parseOptions rest in
                  let mt := match option_of opts optMessageType 1 with Some (x :: _) => x | _ => 0 end in
                  let p := mkPacket (be_dec xid) mac ci (default [] (option_of opts optRequestedIP 4))
                             (default [] (option_of opts optServerIdentifier 4)) mt in
                  Some (if mt =? 0 then None else Some p).

Definition encode_options (opts : list dhcpOption) : list Z :=
  concat (map (fun o => if non_nil (o_data o)
                        then o_code o :: wrap 8 (Z.of_nat (length (o_data o))) :: o_data o else []) opts).

Definition dhcp_payload (req : dhcpPacket) (yiaddr : IP) (opts : list dhcpOption) : list Z :=
  ([bootReply; 1; 6; 0] ++ be 4 (dp_XID req) ++ zeros 8 ++ fill 4 (To4 yiaddr) ++ zeros 8
   ++ fill 6 (dp_ClientMAC req) ++ zeros 202 ++ be 4 dhcpMagic ++ encode_options opts ++ [optEnd])%list.

(** The IPv4 header: the checksum is computed over it with a zero checksum. *)
Definition ip_header (ipLen csum : Z) (src dst : IP) : list Z :=
  ([0x45; 0] ++ be 2 (wrap 16 ipLen) ++ [0; 0; 0; 0; 64; 17] ++ be 2 csum ++ fill 4 (To4 src) ++ fill 4 (To4 dst))%list.

Definition buildDHCPFrame (req : dhcpPacket) (srcMAC : HardwareAddr) (srcIP yiaddr dstIP : IP) (opts : list dhcpOption)
  : list Z :=
  let srcMAC := if (length srcMAC =? 6)%nat then srcMAC else zeros 6 in
  let srcIP := if non_nil (To4 srcIP) then srcIP else IPv4zero in
  let payload := dhcp_payload req yiaddr opts in
  let udpLen := 8 + Z.of_nat (length payload) in
  let ipLen := 20 + udpLen in
  (fill 6 (dp_ClientMAC req) ++ fill 6 srcMAC ++ be 2 etherTypeIPv4
   ++ ip_header ipLen (checksum (ip_header ipLen 0 srcIP dstIP)) srcIP dstIP
   ++ be 2 67 ++ be 2 68 ++ be 2 (wrap 16 udpLen) ++ [0; 0] ++ payload)%list.

(** * The DHCP server *)
Record Lease := mkLease { l_SessionID : string; l_IMSI : string; l_SubscriberIP : IP; l_ExpiresAt : Time }.

(** [recoveryHandler] and [authCacheHandler] are only told from nil. *)
Record DHCPServer := mkDHCP {
  ds_cfg : DHCPConfig; ds_ifaceMAC : HardwareAddr; ds_leases : gmap string Lease;
  ds_recoveryHandler : bool; ds_authCacheHandler : bool; ds_recoveryAttempts : gmap string Time
}.
#[global] Instance DHCPServer_eta : Eta DHCPServer := fun s =>
  mkDHCP (ds_cfg s) (ds_ifaceMAC s) (ds_leases s) (ds_recoveryHandler s) (ds_authCacheHandler s) (ds_recoveryAttempts s).

Definition NewDHCPServer (cfg : DHCPConfig) : DHCPServer := mkDHCP cfg [] ∅ false false ∅.
Definition SetRecoveryAttachHandler (s : DHCPServer) (h : bool) : DHCPServer := s <| ds_recoveryHandler := h |>.
Definition SetAuthCacheRecoveryHandler (s : DHCPServer) (h : bool) : DHCPServer := s <| ds_authCacheHandler := h |>.

(** A goroutine started by the server. *)
Inductive spawn := SpawnRecovery (t : RecoveryTombstone) | SpawnAuthCache (mac : string).

Definition dhcp_RemoveSession (s : DHCPServer) (sess : option Session) : DHCPServer :=
  match sess with
  | None => s
  | Some sess => if nonempty (s_MACAddress sess) then s <| ds_leases ::= delete (s_MACAddress sess) |> else s
  end.

(** One attempt per key and [interval]. *)
Definition try_recovery (s : DHCPServer) (key : string) (interval : Z) (now : Time) (what : spawn)
  : DHCPServer * list spawn :=
  let last := default zeroTime (ds_recoveryAttempts s !! key) in
  if (negb (IsZero last) && (now - last <? interval))%bool then (s, [])
  else (s <| ds_recoveryAttempts ::= <[key := now]> |>, [what]).

Definition triggerAuthCacheRecovery (s : DHCPServer) (mac : HardwareAddr) (now : Time) : DHCPServer * list spawn :=
  if (negb (dh_RecoverFromAuthCache (ds_cfg s)) || negb (ds_authCacheHandler s) || negb (non_nil mac))%bool
  then (s, [])
  else try_recovery s ("auth-cache|" +:+ HWString mac) (2 * Second) now (SpawnAuthCache (HWString mac)).

Definition triggerRecoveryAttach (s : DHCPServer) (t : RecoveryTombstone) (now : Time) : DHCPServer * list spawn :=
  if negb (ds_recoveryHandler s) then (s, [])
  else
    let key := if nonempty (t_OldSessionID t) then t_OldSessionID t
               else if non_nil (t_MAC t) then HWString (t_MAC t) else "" in
    if negb (nonempty key) then (s, []) else try_recovery s key (5 * Second) now (SpawnRecovery t).

(** The session and whether it may be served. *)
Definition authorizedSession (s : DHCPServer) (m : Manager) (mac : HardwareAddr) : option Session * bool :=
  if negb (dh_RequireAuthorizedSession (ds_cfg s))
  then (Some (zeroSession <| s_SubscriberIP := ParseIP "0.0.0.0" |>), true)
  else match LookupByMACAddr m mac with
  | None => (None, false)
  | Some sess => (Some sess, (State.eqb (s_State sess) State.Active && non_nil (s_SubscriberIP sess))%bool)
  end.

Definition reply_options (s : DHCPServer) (msgType : Z) : list dhcpOption :=
  let c := ds_cfg s in
  [mkOpt optMessageType [msgType]; mkOpt optSubnetMask (To4 (ParseIP (dh_Netmask c)));
   mkOpt optRouter (To4 (ParseIP (dh_Router c))); mkOpt optDNSServer (ipListBytes (dh_DNS c));
   mkOpt optLeaseTime (u32 (dh_LeaseTimeSeconds c));
   mkOpt optServerIdentifier (To4 (ParseIP (dh_ServerIdentifier c)));
   mkOpt optRenewalTime (u32 (dh_RenewalTimeSeconds c)); mkOpt optRebindingTime (u32 (dh_RebindingTimeSeconds c))].

Definition buildReply (s : DHCPServer) (req : dhcpPacket) (sess : Session) (msgType : Z) : list Z :=
  buildDHCPFrame req (ds_ifaceMAC s) (ParseIP (dh_ServerIdentifier (ds_cfg s))) (To4 (s_SubscriberIP sess))
    IPv4bcast (reply_options s msgType).

Definition nak_options (s : DHCPServer) : list dhcpOption :=
  [mkOpt optMessageType [dhcpNak]; mkOpt optServerIdentifier (To4 (ParseIP (dh_ServerIdentifier (ds_cfg s))))].

Definition buildNAK (s : DHCPServer) (req : dhcpPacket) : list Z :=
  buildDHCPFrame req (ds_ifaceMAC s) (ParseIP (dh_ServerIdentifier (ds_cfg s))) IPv4zero IPv4bcast (nak_options s).

(** The lease of an acknowledged request. *)
Definition record_lease (s : DHCPServer) (mac : HardwareAddr) (sess : Session) (now : Time) : DHCPServer :=
  s <| ds_leases ::= <[HWString mac := mkLease (s_ID sess) (s_IMSI sess) (s_SubscriberIP sess)
                         (now + dh_LeaseTimeSeconds (ds_cfg s) * Second)]> |>.

(** What a handler does: the server, the session registry (a lookup drops an
    expired tombstone), the reply frame (empty for none) and the goroutines. *)
Definition outcome : Type := DHCPServer * Manager * list Z * list spawn.

Definition handleDiscover (s : DHCPServer) (m : Manager) (p : dhcpPacket) (now : Time) : outcome :=
  match authorizedSession s m (dp_ClientMAC p) with
  | (Some sess, true) => (s, m, buildReply s p sess dhcpOffer, [])
  | _ =>
    let '(m, t) := LookupRecoveryByMACAddr m (dp_ClientMAC p) now in
    let '(s, l) := match t with
                   | Some t => triggerRecoveryAttach s t now
                   | None => triggerAuthCacheRecovery s (dp_ClientMAC p) now
                   end in
    (s, m, [], l)
  end.

Definition handleRequest (s : DHCPServer) (m : Manager) (p : dhcpPacket) (now : Time) : outcome :=
  match authorizedSession s m (dp_ClientMAC p) with
  | (Some sess, true) =>
    let requested := firstIP [dp_RequestedIP p; dp_ClientIP p] in
    if (non_nil requested && negb (IPEqual requested (s_SubscriberIP sess)))%bool then (s, m, buildNAK s p, [])
    else (record_lease s (dp_ClientMAC p) sess now, m, buildReply s p sess dhcpAck, [])
  | _ =>
    let '(m, t) := LookupRecoveryByMACAddr m (dp_ClientMAC p) now in
    match t with
    | Some _ => (s, m, if String.eqb (dh_StaleRequestAction (ds_cfg s)) "nak" then buildNAK s p else [], [])
    | None => let '(s, l) := triggerAuthCacheRecovery s (dp_ClientMAC p) now in (s, m, [], l)
    end
  end.

Definition HandleFrame (s : DHCPServer) (m : Manager) (frame : list Z) (now : Time) : go outcome :=
  p ← parseDHCPFrame frame;
  Some (match p with
        | None => (s, m, [], [])
        | Some p =>
          if dp_MessageType p =? dhcpDiscover then handleDiscover s m p now
          else if dp_MessageType p =? dhcpRequest then handleRequest s m p now
          else (s, m, [], [])
        end).

(** * The ARP proxy *)
Record ARPProxy := mkARP { ar_cfg : ARPProxyConfig; ar_ifaceMAC : HardwareAddr }.

Record arpRequest := mkARPReq { q_SenderMAC : HardwareAddr; q_SenderIP : IP; q_TargetIP : IP }.

Definition arp_authorizedSession (p : ARPProxy) (m : Manager) (mac : HardwareAddr) (senderIP : IP)
  : option Session * bool :=
  if negb (ap_RequireAuthorizedSession (ar_cfg p)) then (Some zeroSession, true)
  else match LookupByMACAddr m mac with
  | None => (None, false)
  | Some sess =>
    if (negb (State.eqb (s_State sess) State.Active) || negb (non_nil (s_SubscriberIP sess)))%bool
    then (Some sess, false)
    else if (non_nil senderIP && negb (IPEqual senderIP IPv4zero) && negb (IPEqual senderIP (s_SubscriberIP sess)))%bool
    then (Some sess, false)
    else (Some sess, true)
  end.

Definition parseARPRequest (frame : list Z) : go (option arpRequest) :=
  if (length frame <? 42)%nat then Some None
  else
    et ← go_slice frame 12 14;
    if negb (be_dec et =? etherTypeARP) then Some None
    else
      arp ← go_slice frame 14 42;
      hw ← go_slice arp 0 2; pr ← go_slice arp 2 4; a4 ← go_idx arp 4; a5 ← go_idx arp 5; op ← go_slice arp 6 8;
      if (negb (be_dec hw =? 1) || negb (be_dec pr =? etherTypeIPv4) || negb (a4 =? 6) || negb (a5 =? 4)
          || negb (be_dec op =? 1))%bool then Some None
      else
        mac ← go_slice arp 8 14; sip ← go_slice arp 14 18; tip ← go_slice arp 24 28;
        Some (Some (mkARPReq mac sip tip)).

Definition buildARPReply (req : arpRequest) (srcMAC : HardwareAddr) (gateway : IP) : list Z :=
  (fill 6 (q_SenderMAC req) ++ fill 6 srcMAC ++ be 2 etherTypeARP
   ++ be 2 1 ++ be 2 etherTypeIPv4 ++ [6; 4] ++ be 2 2 ++ fill 6 srcMAC ++ fill 4 (To4 gateway)
   ++ fill 6 (q_SenderMAC req) ++ fill 4 (To4 (q_SenderIP req)))%list.

(** The registry may lose an expired tombstone. *)
Definition arp_HandleFrame (p : ARPProxy) (m : Manager) (frame : list Z) (now : Time) : go (Manager * list Z) :=
  r ← parseARPRequest frame;
  Some (match r with
        | None => (m, [])
        | Some req =>
          let gateway := To4 (ParseIP (ap_GatewayIP (ar_cfg p))) in
          if (negb (non_nil gateway) || negb (IPEqual (q_TargetIP req) gateway))%bool then (m, [])
          else
            let '(_, authorized) := arp_authorizedSession p m (q_SenderMAC req) (q_SenderIP req) in
            if negb authorized then (fst (LookupRecoveryByMACAddr m (q_SenderMAC req) now), [])
            else (m, buildARPReply req (ar_ifaceMAC p) gateway)
        end).

(** * The reader loops

    One turn of [runReader]: an error of the socket is ignored, a frame is cut
    to the 2048 bytes of the buffer and an empty one skipped; the reply goes
    to the sender of the frame. *)
Record reading := mkReading { rd_frame : option (list Z); rd_at : Time }.

Definition dhcp_turn (st : DHCPServer * Manager * list (list Z * HardwareAddr) * list (spawn * Time)) (r : reading)
  : go (DHCPServer * Manager * list (list Z * HardwareAddr) * list (spawn * Time)) :=
  let '(s, m, sent, spawned) := st in
  match take 2048 <$> rd_frame r with
  | None | Some [] => Some st
  | Some frame =>
    o ← HandleFrame s m frame (rd_at r);
    let '(s, m, reply, l) := o in
    Some (s, m, (sent ++ (if non_nil reply then [(reply, ethernetSrc frame)] else []))%list,
          (spawned ++ map (fun w => (w, rd_at r)) l)%list)
  end.

Definition dhcp_reader (s : DHCPServer) (m : Manager) (rs : list reading) :=
  foldl (fun st r => st ← st; dhcp_turn st r) (Some (s, m, [], [])) rs.

(** * The manager: permanent neighbour entries of authorised subscribers *)
Inductive access_err :=
| ECtx (e : string) | ELookup (iface : string) (e : nl_error) | EParseMAC (mac : string) | ENetlink (e : nl_error).

Record Neigh := mkNeigh { n_LinkIndex : Z; n_Permanent : bool; n_IP : IP; n_HardwareAddr : HardwareAddr }.

(** The netlink package: its operations on the state [K] of the kernel. *)
Record netlinkHandle (K : Type) := mkNetlink {
  LinkByName : string -> K -> result Z nl_error;
  NeighSet : Neigh -> K -> K * option nl_error;
  NeighDel : Neigh -> K -> K * option nl_error
}.
Arguments LinkByName {K}. Arguments NeighSet {K}. Arguments NeighDel {K}.

Section AccessManager.
Context {K : Type}.

(** [m.cfg], [m.dhcp] and [m.nl]; the netlink handle is nil until [Start]. *)
Record AccessManager := mkAccess { am_cfg : Config; am_dhcp : DHCPServer; am_nl : option (netlinkHandle K) }.

Definition am_forwarding (m : AccessManager) : ForwardingConfig := ac_Forwarding (cfg_Access (am_cfg m)).

Definition NewAccessManager (cfg : Config) : AccessManager :=
  mkAccess cfg (NewDHCPServer (ac_DHCP (cfg_Access cfg))) None.

Definition access_SetRecoveryAttachHandler (m : AccessManager) (h : bool) : AccessManager :=
  mkAccess (am_cfg m) (SetRecoveryAttachHandler (am_dhcp m) h) (am_nl m).

Definition access_SetAuthCacheRecoveryHandler (m : AccessManager) (h : bool) : AccessManager :=
  mkAccess (am_cfg m) (SetAuthCacheRecoveryHandler (am_dhcp m) h) (am_nl m).

Definition installNeighbor (m : AccessManager) (sess : Session) (k : K) : K * option access_err :=
  match am_nl m with
  | None => (k, None)
  | Some nl =>
    match LinkByName nl (fw_Interface (am_forwarding m)) k with
    | Err e => (k, Some (ELookup (fw_Interface (am_forwarding m)) e))
    | Ok link =>
      match ParseMAC (s_MACAddress sess) with
      | None => (k, Some (EParseMAC (s_MACAddress sess)))
      | Some mac =>
        let '(k, e) := NeighSet nl (mkNeigh link true (To4 (s_SubscriberIP sess)) mac) k in
        (k, ENetlink <$> e)
      end
    end
  end.

Definition removeNeighbor (m : AccessManager) (sess : Session) (k : K) : K * option access_err :=
  match am_nl m with
  | None => (k, None)
  | Some nl =>
    match LinkByName nl (fw_Interface (am_forwarding m)) k with
    | Err e => (k, Some (ELookup (fw_Interface (am_forwarding m)) e))
    | Ok link =>
      match ParseMAC (s_MACAddress sess) with
      | None => (k, Some (EParseMAC (s_MACAddress sess)))
      | Some mac =>
        let '(k, e) := NeighDel nl (mkNeigh link false (To4 (s_SubscriberIP sess)) mac) k in
        match e with
        | Some e => if isNotFound e then (k, None) else (k, Some (ENetlink e))
        | None => (k, None)
        end
      end
    end
  end.

(** [ctx] is the error of the context, if any. *)
Definition access_AddSession (m : AccessManager) (ctx : option string) (sess : option Session) (k : K)
  : K * option access_err :=
  match ctx, sess with
  | Some e, _ => (k, Some (ECtx e))
  | None, None => (k, None)
  | None, Some sess =>
    let f := am_forwarding m in
    if negb (fw_Enabled f) then (k, None)
    else if (fw_RequireAuthorizedSession f && negb (State.eqb (s_State sess) State.Active))%bool then (k, None)
    else if (negb (non_nil (s_SubscriberIP sess)) || negb (nonempty (s_MACAddress sess)))%bool then (k, None)
    else installNeighbor m sess k
  end.

Definition access_RemoveSession (m : AccessManager) (ctx : option string) (sess : option Session) (k : K)
  : AccessManager * K * option access_err :=
  match ctx, sess with
  | Some e, _ => (m, k, Some (ECtx e))
  | None, None => (m, k, None)
  | None, Some sess =>
    let m := mkAccess (am_cfg m) (dhcp_RemoveSession (am_dhcp m) (Some sess)) (am_nl m) in
    if (negb (fw_Enabled (am_forwarding m)) || negb (non_nil (s_SubscriberIP sess))
        || negb (nonempty (s_MACAddress sess)))%bool then (m, k, None)
    else let '(k, e) := removeNeighbor m sess k in (m, k, e)
  end.
End AccessManager.
Arguments AccessManager : clear implicits.
