(* ===== verification/AccessFacts.v ===== *)
(** What the access side guarantees: every frame is handled without a panic,
    the frames it sends are well formed on the wire, a client is served exactly
    when it has an authorised session, recovery goroutines are paced, and the
    neighbour table follows the sessions. *)
From S2P Require Import Prelude.
From S2P Require Import GoNet.
From S2P Require Import Config.
From S2P Require Import Session.
From S2P Require Import SessionFacts.
From S2P Require Import Recovery.
From S2P Require Import Netlink.
From S2P Require Import AccessSide.
Open Scope string_scope.
Open Scope Z_scope.

(** * The Internet checksum *)
Lemma word_sum_app (a b : list Z) : Nat.Even (length a) -> word_sum (a ++ b)%list = word_sum a + word_sum b.
Proof.
  intros [n Hn]. revert a Hn. induction n as [|n IH]; intros a Hn.
  - destruct a; [done|cbn in Hn; lia].
  - destruct a as [|x [|y a]]; [cbn in Hn; lia..|]. cbn [word_sum app].
    rewrite IH by (cbn in Hn; lia). lia.
Qed.

Lemma word_sum_bound n b : bytes_ok b -> (length b <= 2 * n)%nat -> 0 <= word_sum b <= 65535 * Z.of_nat n.
Proof.
  revert b. induction n as [|n IH]; intros b Hb Hn.
  - destruct b; [cbn; lia|cbn in Hn; lia].
  - destruct b as [|x [|y b]]; [cbn; lia|..].
    + apply Forall_cons in Hb as [Hx _]. unfold byte_ok in Hx. cbn [word_sum].
      rewrite Z.shiftl_mul_pow2 by lia. lia.
    + apply Forall_cons in Hb as [Hx Hb]. apply Forall_cons in Hb as [Hy Hb].
      specialize (IH b Hb ltac:(cbn in Hn; lia)).
      pose proof (be_dec_bound [x; y] ltac:(constructor; [done|constructor; [done|constructor]])) as Hw. cbn [length] in Hw.
      cbn [word_sum]. change (256 ^ Z.of_nat 2) with 65536 in Hw. lia.
Qed.

(** The folded sum is congruent modulo [2^16 - 1], and zero only for zero. *)
Lemma fold_carry_spec fuel s :
  0 <= s -> let r := fold_carry fuel s in 0 <= r /\ r mod 65535 = s mod 65535 /\ (0 < s -> 0 < r).
Proof.
  cbv zeta. revert s. induction fuel as [|fuel IH]; intros s Hs; cbn [fold_carry]; [done|].
  destruct (Z.eqb_spec (Z.shiftr s 16) 0) as [_|Hn]; [done|].
  change (Z.land s 0xffff) with (Z.land s (Z.ones 16)). rewrite Z.land_ones, Z.shiftr_div_pow2 in * by lia.
  change (2 ^ 16) with 65536 in *.
  pose proof (Z.div_mod s 65536 ltac:(lia)) as E. pose proof (Z.mod_pos_bound s 65536 ltac:(lia)).
  assert (0 <= s / 65536) by (apply Z.div_pos; lia).
  destruct (IH (s mod 65536 + s / 65536) ltac:(lia)) as (H1 & H2 & H3). split_and!; [done| |intros; lia].
  rewrite H2. rewrite E at 3.
  replace (65536 * (s / 65536) + s mod 65536) with (s mod 65536 + s / 65536 + (s / 65536) * 65535) by lia.
  by rewrite Z.mod_add by lia.
Qed.

Lemma fold_carry_small fuel s : 0 <= s < 65536 -> fold_carry fuel s = s.
Proof.
  intros Hs. destruct fuel; cbn [fold_carry]; [done|].
  rewrite Z.shiftr_div_pow2 by lia. change (2 ^ 16) with 65536. by rewrite Z.div_small by lia.
Qed.

Lemma fold_carry_step fuel s : 65536 <= s -> fold_carry (S fuel) s = fold_carry fuel (s mod 65536 + s / 65536).
Proof.
  intros Hs. cbn [fold_carry]. change 0xffff with (Z.ones 16).
  rewrite Z.land_ones, Z.shiftr_div_pow2 by lia. change (2 ^ 16) with 65536.
  destruct (Z.eqb_spec (s / 65536) 0) as [E|]; [|done]. apply Z.div_small_iff in E; lia.
Qed.

(** Four turns fold any 32-bit sum into 16 bits. *)
Lemma fold_carry_bound s : 0 <= s < 2 ^ 32 -> fold_carry 4 s < 65536.
Proof.
  change (2 ^ 32) with 4294967296. intros Hs.
  assert (Hmd : forall t, t = 65536 * (t / 65536) + t mod 65536 /\ 0 <= t mod 65536 < 65536)
    by (intros t; split; [apply Z.div_mod; lia|apply Z.mod_pos_bound; lia]).
  destruct (Z_lt_le_dec s 65536); [rewrite fold_carry_small by lia; lia|]. rewrite fold_carry_step by done.
  assert (E : s mod 65536 + s / 65536 <= 131070) by (specialize (Hmd s); lia).
  assert (0 <= s mod 65536 + s / 65536) by (specialize (Hmd s); lia).
  generalize dependent (s mod 65536 + s / 65536). clear s Hs l. intros s E H.
  destruct (Z_lt_le_dec s 65536); [rewrite fold_carry_small by lia; lia|]. rewrite fold_carry_step by done.
  rewrite fold_carry_small; specialize (Hmd s); lia.
Qed.

Lemma lxor_ffff x : 0 <= x < 65536 -> Z.lxor x 0xffff = 65535 - x.
Proof.
  intros Hx. change 0xffff with (Z.ones 16).
  assert (E : Z.lxor x (Z.ones 16) = Z.ldiff (Z.ones 16) x).
  { apply Z.bits_inj'. intros i Hi. rewrite Z.lxor_spec, Z.ldiff_spec.
    destruct (Z.ltb_spec i 16).
    - rewrite Z.ones_spec_low by lia. by destruct (Z.testbit x i).
    - rewrite Z.ones_spec_high by lia.
      rewrite (Z.bits_above_log2 x); [done|lia|].
      destruct (decide (x = 0)) as [->|]; [cbn; lia|]. apply Z.log2_lt_pow2; [lia|].
      apply Z.lt_le_trans with (2 ^ 16); [lia|]. apply Z.pow_le_mono_r; lia. }
  rewrite E, <- Z.sub_nocarry_ldiff.
  - reflexivity.
  - apply Z.bits_inj'. intros i Hi. rewrite Z.ldiff_spec, Z.bits_0.
    destruct (Z.ltb_spec i 16); [rewrite Z.ones_spec_low by lia; apply andb_false_r|].
    rewrite (Z.bits_above_log2 x); [done|lia|].
    destruct (decide (x = 0)) as [->|]; [cbn; lia|]. apply Z.log2_lt_pow2; [lia|].
    apply Z.lt_le_trans with (2 ^ 16); [lia|]. apply Z.pow_le_mono_r; lia.
Qed.

(** Bytes whose words sum to [sum] and which carry the checksum computed with
    a zero field have checksum zero: what a receiver tests. *)
Lemma checksum_spec sum :
  0 < sum < 2 ^ 31 -> let c := Z.lxor (fold_carry 4 (wrap 32 sum)) 0xffff in
  0 <= c < 65536 /\ Z.lxor (fold_carry 4 (wrap 32 (sum + c))) 0xffff = 0.
Proof.
  intros Hs. change (2 ^ 31) with 2147483648 in Hs. unfold wrap. change (2 ^ 32) with 4294967296.
  rewrite (Z.mod_small sum) by lia.
  destruct (fold_carry_spec 4 sum ltac:(lia)) as (H1 & H2 & H3).
  pose proof (fold_carry_bound sum ltac:(change (2 ^ 32) with 4294967296; lia)) as H4.
  set (f := fold_carry 4 sum) in *. rewrite lxor_ffff by lia. cbv zeta. split; [lia|].
  rewrite Z.mod_small by lia.
  destruct (fold_carry_spec 4 (sum + (65535 - f)) ltac:(lia)) as (G1 & G2 & G3).
  pose proof (fold_carry_bound (sum + (65535 - f)) ltac:(change (2 ^ 32) with 4294967296; lia)) as G4.
  set (g := fold_carry 4 (sum + (65535 - f))) in *. rewrite lxor_ffff by lia.
  enough (g mod 65535 = 0).
  { pose proof (Z.div_mod g 65535 ltac:(lia)). lia. }
  rewrite G2. replace (sum + (65535 - f)) with (sum - f + 1 * 65535) by lia.
  rewrite Z.mod_add, Zminus_mod, H2, Z.sub_diag by lia. done.
Qed.

(** * The frames built *)
Lemma length_fill n l : length (fill n l) = n.
Proof. unfold fill. rewrite length_take, length_app, length_zeros. lia. Qed.

Lemma fill_exact n l : length l = n -> fill n l = l.
Proof. intros <-. unfold fill. by rewrite take_app_length. Qed.

Lemma fill_ok n l : bytes_ok l -> bytes_ok (fill n l).
Proof. intros. unfold fill. apply bytes_ok_take, bytes_ok_app. eauto with bytes. Qed.
#[local] Hint Rewrite length_fill : len.
#[local] Hint Resolve fill_ok : bytes.

Definition opt_ok (o : dhcpOption) : Prop :=
  0 < o_code o < 255 /\ (length (o_data o) <= 255)%nat.

(** What the options say: the later of two of one code, none that is empty. *)
Definition options_map (opts : list dhcpOption) : gmap Z (list Z) :=
  foldl (fun m o => if non_nil (o_data o) then <[o_code o := o_data o]> m else m) ∅ opts.

Lemma options_loop_encode fuel opts acc :
  Forall opt_ok opts -> (length (encode_options opts) < fuel)%nat ->
  options_loop fuel (encode_options opts ++ [optEnd]) acc =
  foldl (fun m o => if non_nil (o_data o) then <[o_code o := o_data o]> m else m) acc opts.
Proof.
  unfold encode_options. intros Hok. revert fuel acc.
  induction Hok as [|o opts [Hc Hl] Hok IH]; intros fuel acc Hf.
  - destruct fuel; [cbn in Hf; lia|]. done.
  - cbn [map concat foldl] in *. destruct (non_nil (o_data o)) eqn:Hn; [|by apply IH].
    destruct fuel as [|fuel]; [cbn in Hf; lia|]. cbn [app options_loop].
    unfold optEnd at 1. rewrite (proj2 (Z.eqb_neq _ 255)), (proj2 (Z.eqb_neq _ 0)) by lia.
    unfold wrap. rewrite Z.mod_small, Nat2Z.id by (change (2 ^ 8) with 256; lia).
    rewrite <- app_assoc, drop_app_length, take_app_length, (proj2 (Nat.ltb_ge _ _)) by (len).
    apply IH. cbn [app length] in Hf. rewrite length_app in Hf. lia.
Qed.

(** A client reads back the options of a frame. *)
Lemma parse_options_encode opts :
  Forall opt_ok opts -> parseOptions (encode_options opts ++ [optEnd]) = options_map opts.
Proof. intros. unfold parseOptions. apply options_loop_encode; [done|]. len. Qed.

(** ** Reading a frame back *)
Definition field (f : list Z) (i n : nat) : list Z := take n (drop i f).

Lemma field_skip a b k n i : length a = k -> (k <= i)%nat -> field (a ++ b) i n = field b (i - k) n.
Proof. intros <- H. unfold field. by rewrite drop_app_ge. Qed.

Lemma field_here a b n : length a = n -> field (a ++ b) 0 n = a.
Proof. intros <-. unfold field. rewrite drop_0. apply take_app_length. Qed.

Lemma field_in a b n i m : length a = m -> (i + n <= m)%nat -> field (a ++ b) i n = field a i n.
Proof.
  intros <- H. unfold field. rewrite drop_app_le by lia. rewrite take_app_le; [done|]. rewrite length_drop. lia.
Qed.

Lemma drop_skip (a b : list Z) k n : length a = k -> (k <= n)%nat -> drop n (a ++ b)%list = drop (n - k) b.
Proof. intros <- H. by rewrite drop_app_ge. Qed.

(** Move to the field of a concatenation that starts at the offset. *)
Ltac to_field :=
  repeat (erewrite field_skip; [|first [eassumption|len; reflexivity]|lia]; cbn [Nat.sub]);
  try (rewrite field_here by (len)).

Definition f_xid (f : list Z) : Z := be_dec (field f 46 4).
Definition f_yiaddr (f : list Z) : IP := field f 58 4.
Definition f_chaddr (f : list Z) : HardwareAddr := field f 70 6.
Definition f_options (f : list Z) : gmap Z (list Z) := parseOptions (drop 282 f).

(** A BOOTP reply to [mac] in a UDP datagram whose lengths and IP header
    checksum are right. *)
Record well_formed (mac : HardwareAddr) (f : list Z) : Prop := {
  wf_dst : field f 0 6 = mac;
  wf_type : be_dec (field f 12 2) = etherTypeIPv4;
  wf_total : be_dec (field f 16 2) = Z.of_nat (length f) - 14;
  wf_checksum : checksum (field f 14 20) = 0;
  wf_ports : be_dec (field f 34 2) = 67 /\ be_dec (field f 36 2) = 68;
  wf_udp : be_dec (field f 38 2) = Z.of_nat (length f) - 34;
  wf_op : field f 42 4 = [bootReply; 1; 6; 0];
  wf_chaddr : f_chaddr f = mac;
  wf_magic : be_dec (field f 278 4) = dhcpMagic
}.

Lemma length_dhcp_payload req y opts :
  length (dhcp_payload req y opts) = (241 + length (encode_options opts))%nat.
Proof. unfold dhcp_payload. len. Qed.

Lemma length_ip_header l c s d : length (ip_header l c s d) = 20%nat.
Proof. unfold ip_header. len. Qed.

Lemma ip_header_ok l c s d : bytes_ok s -> bytes_ok d -> bytes_ok (ip_header l c s d).
Proof.
  intros. unfold ip_header. rewrite !bytes_ok_app. split_and!; eauto with bytes.
  all: repeat constructor; unfold byte_ok; lia.
Qed.
#[local] Hint Rewrite length_dhcp_payload length_ip_header : len.

(** The header with its checksum passes the receiver's test. *)
Lemma ip_header_checksum l s d :
  bytes_ok s -> bytes_ok d -> checksum (ip_header l (checksum (ip_header l 0 s d)) s d) = 0.
Proof.
  intros Hs Hd.
  assert (E : forall c, 0 <= c < 65536 -> word_sum (ip_header l c s d) = word_sum (ip_header l 0 s d) + c).
  { intros c Hc.
    assert (Sp : forall c, ip_header l c s d =
      (([0x45; 0] ++ be 2 (wrap 16 l) ++ [0; 0; 0; 0; 64; 17]) ++ be 2 c ++ (fill 4 (To4 s) ++ fill 4 (To4 d)))%list)
      by (intros; unfold ip_header; by rewrite <- !app_assoc).
    rewrite !Sp, !(word_sum_app (_ ++ be 2 _ ++ _)%list) by (exists 5%nat; reflexivity).
    rewrite !(word_sum_app (be 2 _)) by (exists 1%nat; reflexivity).
    assert (W : forall z, 0 <= z < 65536 -> word_sum (be 2 z) = z).
    { intros z Hz. change (be 2 z) with [Z.shiftr z 8 mod 256; Z.shiftr z 0 mod 256]. cbn [word_sum].
      change [_; _] with (be 2 z). rewrite be_dec_be_small by (cbn; lia). lia. }
    rewrite !W by lia. lia. }
  pose proof (word_sum_bound 10 _ (ip_header_ok l 0 s d Hs Hd)) as Hb.
  rewrite length_ip_header in Hb. specialize (Hb ltac:(lia)).
  assert (Hp : 0 < word_sum (ip_header l 0 s d)).
  { change (ip_header l 0 s d) with ([0x45; 0] ++ drop 2 (ip_header l 0 s d))%list.
    rewrite word_sum_app by (exists 1%nat; reflexivity). change (word_sum [0x45; 0]) with 17664.
    pose proof (word_sum_bound 10 (drop 2 (ip_header l 0 s d)) ltac:(eauto using ip_header_ok with bytes)) as H2.
    rewrite length_drop, length_ip_header in H2. specialize (H2 ltac:(lia)). lia. }
  destruct (checksum_spec (word_sum (ip_header l 0 s d)) ltac:(change (2 ^ 31) with 2147483648; lia)) as [H1 H2].
  unfold checksum at 1. rewrite E by exact H1. exact H2.
Qed.

Lemma bytes_ok_IPv4zero : bytes_ok IPv4zero /\ bytes_ok IPv4bcast.
Proof. split; unfold IPv4zero, IPv4bcast, IPv4, v4InV6Prefix; repeat constructor; unfold byte_ok; lia. Qed.

Lemma be_dec_wrap16 z : 0 <= z < 65536 -> be_dec (be 2 (wrap 16 z)) = z.
Proof.
  intros H. unfold wrap. change (2 ^ 16) with 65536. rewrite Z.mod_small by done.
  by apply be_dec_be_small.
Qed.

Lemma buildDHCPFrame_ok req mac src y dst opts :
  length (dp_ClientMAC req) = 6%nat -> 0 <= dp_XID req < 2 ^ 32 -> bytes_ok src -> bytes_ok dst ->
  Forall opt_ok opts -> Z.of_nat (length (encode_options opts)) < 65000 ->
  let f := buildDHCPFrame req mac src y dst opts in
  well_formed (dp_ClientMAC req) f /\ f_xid f = dp_XID req /\ f_yiaddr f = fill 4 (To4 y) /\
  f_options f = options_map opts /\ length f = (283 + length (encode_options opts))%nat.
Proof.
  intros Hm Hx Hs Hd Ho Hl. unfold buildDHCPFrame. cbv zeta.
  set (mac' := if (length mac =? 6)%nat then mac else zeros 6).
  set (src' := if non_nil (To4 src) then src else IPv4zero).
  assert (Hs' : bytes_ok src') by (unfold src'; destruct (non_nil _); [done|apply bytes_ok_IPv4zero]).
  set (p := dhcp_payload req y opts). set (len_ip := 20 + _).
  set (hd := ip_header len_ip _ _ _).
  assert (Hp : length p = (241 + length (encode_options opts))%nat) by apply length_dhcp_payload.
  assert (Hh : length hd = 20%nat) by apply length_ip_header.
  set (f := (fill 6 (dp_ClientMAC req) ++ _)%list).
  assert (Hf : length f = (283 + length (encode_options opts))%nat) by (unfold f; len).
  assert (Hip : forall i n, (14 <= i)%nat -> (i + n <= 34)%nat -> field f i n = field hd (i - 14) n).
  { intros i n Hi Hn. unfold f. do 3 (erewrite field_skip; [|len; reflexivity|lia]).
    replace (i - 6 - 6 - 2)%nat with (i - 14)%nat by lia. rewrite (field_in _ _ _ _ 20) by lia. done. }
  assert (Hpay : forall i n, (42 <= i)%nat -> field f i n = field p (i - 42) n).
  { intros i n Hi. unfold f. do 8 (erewrite field_skip; [|len; reflexivity|lia]).
    f_equal. lia. }
  assert (Hopt : drop 282 f = (encode_options opts ++ [optEnd])%list).
  { unfold f, p, dhcp_payload.
    repeat (erewrite drop_skip; [|first [exact Hh|len; reflexivity]|lia]; cbn [Nat.sub]). apply drop_0. }
  assert (Hlip : len_ip = Z.of_nat (length f) - 14) by (unfold len_ip; lia).
  assert (Hmac : fill 6 (dp_ClientMAC req) = dp_ClientMAC req) by (by apply fill_exact).
  split_and!; [constructor| | | |done].
  - unfold f. by rewrite field_here by (len).
  - unfold f. to_field. reflexivity.
  - rewrite Hip by lia. cbn [Nat.sub]. unfold hd, ip_header. to_field.
    rewrite be_dec_wrap16; lia.
  - rewrite Hip by lia. cbn [Nat.sub].
    unfold field. rewrite drop_0, take_ge by lia.
    apply ip_header_checksum; done.
  - unfold f. split; to_field; reflexivity.
  - rewrite Hf. unfold f. to_field. rewrite be_dec_wrap16; lia.
  - rewrite Hpay by lia. cbn [Nat.sub]. unfold p, dhcp_payload. by rewrite field_here by (len).
  - unfold f_chaddr. rewrite Hpay by lia. cbn [Nat.sub]. unfold p, dhcp_payload. to_field. done.
  - rewrite Hpay by lia. cbn [Nat.sub]. unfold p, dhcp_payload. to_field. reflexivity.
  - unfold f_xid. rewrite Hpay by lia. cbn [Nat.sub]. unfold p, dhcp_payload. to_field. by apply be_dec_be_small.
  - unfold f_yiaddr. rewrite Hpay by lia. cbn [Nat.sub]. unfold p, dhcp_payload. to_field. done.
  - unfold f_options. rewrite Hopt. by apply parse_options_encode.
Qed.

(** * DHCP *)

(** The parser reads no byte that is not there; a packet it accepts has a
    6-byte address and a message type. *)
Lemma parseDHCPFrame_spec f :
  exists r, parseDHCPFrame f = Some r /\
  forall p, r = Some p ->
    length (dp_ClientMAC p) = 6%nat /\ dp_MessageType p <> 0 /\
    (bytes_ok f -> 0 <= dp_XID p < 2 ^ 32 /\ bytes_ok (dp_ClientMAC p)).
Proof.
  unfold parseDHCPFrame. destruct (length f <? _)%nat eqn:Hl; [by eexists|]. apply Nat.ltb_ge in Hl.
  rewrite go_slice_Some by lia. cbn [mbind option_bind]. case_match; [by eexists|].
  rewrite go_from_Some by lia. cbn [mbind option_bind]. set (ip := drop 14 f).
  assert (Hip : (length ip + 14 = length f)%nat) by (unfold ip; len).
  rewrite !go_idx_Some by lia. cbn [mbind option_bind]. set (ihl := (Z.to_nat _ * 4)%nat).
  destruct (length ip <? _)%nat eqn:Hh; [by eexists|]. apply Nat.ltb_ge in Hh.
  case_match; [by eexists|].
  rewrite go_from_Some by lia. cbn [mbind option_bind]. set (udp := drop ihl ip).
  assert (Hu : (length udp + ihl = length ip)%nat) by (unfold udp; len).
  rewrite go_slice_Some by lia. cbn [mbind option_bind]. case_match; [by eexists|].
  rewrite go_from_Some by lia. cbn [mbind option_bind]. set (d := drop 8 udp).
  assert (Hd : (length d + 8 = length udp)%nat) by (unfold d; len).
  rewrite (proj2 (Nat.ltb_ge _ _)) by lia.
  rewrite !go_idx_Some by lia. cbn [mbind option_bind]. case_match; [by eexists|].
  rewrite !go_slice_Some by lia. cbn [mbind option_bind]. case_match; [by eexists|].
  rewrite go_from_Some by lia. cbn [mbind option_bind]. eexists. split; [done|].
  intros p. match goal with |- context [?x =? 0] => destruct (Z.eqb_spec x 0) as [|Hm] end; [done|].
  intros [= <-]. cbn [dp_ClientMAC dp_MessageType dp_XID]. split_and!; [|exact Hm|].
  { rewrite length_take, length_drop. lia. }
  intros Hb. split; [|unfold d, udp, ip; eauto 6 with bytes].
  match goal with |- 0 <= be_dec ?l < _ => pose proof (be_dec_bound l) as Hx end.
  rewrite length_take, length_drop in Hx. rewrite Nat.min_l in Hx by lia.
  apply Hx. unfold d, udp, ip. eauto 6 with bytes.
Qed.

Lemma length_To4 ip : (length (To4 ip) <= 4)%nat.
Proof. destruct (To4 ip) eqn:E; [cbn; lia|]. rewrite <- E, To4_length; [lia|by rewrite E]. Qed.

Lemma length_ipListBytes l : (length (ipListBytes l) <= 4 * length l)%nat.
Proof.
  unfold ipListBytes. induction l as [|v l IH]; cbn [map concat]; [done|]. rewrite length_app.
  assert (length (To4 (ParseIP v)) <= 4)%nat by apply length_To4. cbn [length]. lia.
Qed.

(** At most 63 name servers fit the length byte of their option. *)
Definition dns_fit (s : DHCPServer) : Prop := (length (dh_DNS (ds_cfg s)) <= 63)%nat.

Lemma opt_ok_intro c d : 0 < c < 255 -> (length d <= 255)%nat -> opt_ok (mkOpt c d).
Proof. done. Qed.

Lemma opt_ok_To4 c ip : 0 < c < 255 -> opt_ok (mkOpt c (To4 ip)).
Proof. intros H. apply opt_ok_intro; [done|]. pose proof (length_To4 ip). lia. Qed.

Lemma opt_ok_u32 c v : 0 < c < 255 -> opt_ok (mkOpt c (u32 v)).
Proof. intros H. apply opt_ok_intro; [done|]. unfold u32. rewrite length_be. lia. Qed.

Lemma reply_options_ok s t : dns_fit s -> Forall opt_ok (reply_options s t).
Proof.
  intros Hd. unfold reply_options. pose proof (length_ipListBytes (dh_DNS (ds_cfg s))) as Hl. unfold dns_fit in Hd.
  repeat (apply Forall_cons; split); (try (by constructor)).
  1, 4: apply opt_ok_intro; [done|cbn [length]; lia].
  all: first [by apply opt_ok_To4|by apply opt_ok_u32].
Qed.

Lemma nak_options_ok s : Forall opt_ok (nak_options s).
Proof.
  unfold nak_options. repeat (apply Forall_cons; split); (try (by constructor)); [|by apply opt_ok_To4].
  apply opt_ok_intro; [done|cbn [length]; lia].
Qed.

Lemma length_encode_options opts :
  Forall opt_ok opts -> (length (encode_options opts) <= 257 * length opts)%nat.
Proof.
  unfold encode_options. induction 1 as [|o opts [_ Ho] _ IH]; cbn [map concat length]; [lia|].
  rewrite length_app. destruct (non_nil _); cbn [length]; lia.
Qed.

Lemma options_first c d rest :
  non_nil d = true -> Forall (fun o => o_code o <> c) rest -> options_map (mkOpt c d :: rest) !! c = Some d.
Proof.
  intros Hd Hr. unfold options_map. cbn [foldl o_data o_code]. rewrite Hd.
  assert (H : (<[c := d]> (∅ : gmap Z (list Z))) !! c = Some d) by apply lookup_insert_eq.
  revert H. generalize (<[c := d]> (∅ : gmap Z (list Z))).
  induction Hr as [|o rest Ho _ IH]; intros m Hm; [done|]. cbn [foldl]. apply IH.
  destruct (non_nil (o_data o)); [by rewrite lookup_insert_ne|done].
Qed.

Definition f_type (f : list Z) : option (list Z) := f_options f !! optMessageType.

(** What a client reads in a reply of the server. *)
Definition reads (p : dhcpPacket) (f : list Z) (t : Z) (ip : IP) : Prop :=
  well_formed (dp_ClientMAC p) f /\ f_xid f = dp_XID p /\ f_type f = Some [t] /\ f_yiaddr f = ip.

Lemma buildReply_reads s p sess t :
  length (dp_ClientMAC p) = 6%nat -> 0 <= dp_XID p < 2 ^ 32 -> dns_fit s ->
  reads p (buildReply s p sess t) t (fill 4 (To4 (To4 (s_SubscriberIP sess)))).
Proof.
  intros Hm Hx Hd. pose proof (reply_options_ok s t Hd) as Ho.
  destruct (buildDHCPFrame_ok p (ds_ifaceMAC s) (ParseIP (dh_ServerIdentifier (ds_cfg s)))
    (To4 (s_SubscriberIP sess)) IPv4bcast (reply_options s t)) as (H1 & H2 & H3 & H4 & _); [done..| | |done| |].
  - apply ParseIP_ok.
  - apply bytes_ok_IPv4zero.
  - pose proof (length_encode_options _ Ho). change (length (reply_options s t)) with 8%nat in *. lia.
  - split_and!; [exact H1|exact H2| |exact H3]. unfold f_type. fold (buildReply s p sess t) in H4.
    rewrite H4. apply options_first; [done|]. by repeat (apply Forall_cons; split).
Qed.

Lemma buildNAK_reads s p :
  length (dp_ClientMAC p) = 6%nat -> 0 <= dp_XID p < 2 ^ 32 -> reads p (buildNAK s p) dhcpNak [0; 0; 0; 0].
Proof.
  intros Hm Hx. pose proof (nak_options_ok s) as Ho.
  destruct (buildDHCPFrame_ok p (ds_ifaceMAC s) (ParseIP (dh_ServerIdentifier (ds_cfg s)))
    IPv4zero IPv4bcast (nak_options s)) as (H1 & H2 & H3 & H4 & _); [done..| | |done| |].
  - apply ParseIP_ok.
  - apply bytes_ok_IPv4zero.
  - pose proof (length_encode_options _ Ho). change (length (nak_options s)) with 2%nat in *. lia.
  - split_and!; [exact H1|exact H2| |exact H3]. unfold f_type. fold (buildNAK s p) in H4.
    rewrite H4. apply options_first; [done|]. by repeat (apply Forall_cons; split).
Qed.

(** ** The policy the server implements *)
Inductive decision := DSilent | DOffer (ip : IP) | DAck (ip : IP) | DNak.

(** The address of the client's session, when it is active. *)
Definition served (m : Manager) (mac : HardwareAddr) : option IP :=
  sess ← LookupByMACAddr m mac;
  if (State.eqb (s_State sess) State.Active && non_nil (s_SubscriberIP sess))%bool
  then Some (s_SubscriberIP sess) else None.

(** The address the server gives the client: without
    [require_authorized_session] it is 0.0.0.0 for everyone. *)
Definition offered (cfg : DHCPConfig) (m : Manager) (mac : HardwareAddr) : option IP :=
  if dh_RequireAuthorizedSession cfg then served m mac else Some (ParseIP "0.0.0.0").

Definition tombstone (m : Manager) (mac : HardwareAddr) (now : Time) : option RecoveryTombstone :=
  snd (LookupRecoveryByMACAddr m mac now).

(** The address the client asks for: the option, else the [ciaddr] field. *)
Definition asked (p : dhcpPacket) : IP := firstIP [dp_RequestedIP p; dp_ClientIP p].

Definition dhcp_policy (cfg : DHCPConfig) (m : Manager) (p : dhcpPacket) (now : Time) : decision :=
  if dp_MessageType p =? dhcpDiscover then
    match offered cfg m (dp_ClientMAC p) with Some ip => DOffer ip | None => DSilent end
  else if dp_MessageType p =? dhcpRequest then
    match offered cfg m (dp_ClientMAC p) with
    | Some ip => if (negb (non_nil (asked p)) || IPEqual (asked p) ip)%bool then DAck ip else DNak
    | None => if (bool_decide (is_Some (tombstone m (dp_ClientMAC p) now)) && String.eqb (dh_StaleRequestAction cfg) "nak")%bool
              then DNak else DSilent
    end
  else DSilent.

(** A Discover or Request of a client that is not served. *)
Definition unserved (cfg : DHCPConfig) (m : Manager) (p : dhcpPacket) : bool :=
  ((dp_MessageType p =? dhcpDiscover) || (dp_MessageType p =? dhcpRequest))
  && negb (bool_decide (is_Some (offered cfg m (dp_ClientMAC p)))).

(** The key and the interval by which a recovery is paced. *)
Definition spawn_key (w : spawn) : string :=
  match w with
  | SpawnRecovery t => if nonempty (t_OldSessionID t) then t_OldSessionID t
                       else if non_nil (t_MAC t) then HWString (t_MAC t) else ""
  | SpawnAuthCache mac => "auth-cache|" +:+ mac
  end.
Definition spawn_interval (w : spawn) : Z := match w with SpawnRecovery _ => 5 * Second | SpawnAuthCache _ => 2 * Second end.

(** The recovery that the message of an unserved client calls for: of the lost
    session, on a Discover, else from the authentication cache; each when its
    handler is there. *)
Definition recovery_wanted (s : DHCPServer) (m : Manager) (p : dhcpPacket) (now : Time) : option spawn :=
  if negb (unserved (ds_cfg s) m p) then None
  else match tombstone m (dp_ClientMAC p) now with
  | Some t => if ((dp_MessageType p =? dhcpDiscover) && ds_recoveryHandler s && nonempty (spawn_key (SpawnRecovery t)))%bool
              then Some (SpawnRecovery t) else None
  | None => if (dh_RecoverFromAuthCache (ds_cfg s) && ds_authCacheHandler s && non_nil (dp_ClientMAC p))%bool
            then Some (SpawnAuthCache (HWString (dp_ClientMAC p))) else None
  end.

(** Its last start is long enough ago. *)
Definition recovery_due (s : DHCPServer) (w : spawn) (now : Time) : bool :=
  match ds_recoveryAttempts s !! spawn_key w with
  | Some last => (last =? zeroTime) || (spawn_interval w <=? now - last)
  | None => true
  end.

(** What is started, and the book of the starts. *)
Definition recovery_step (s : DHCPServer) (m : Manager) (p : dhcpPacket) (now : Time) : list spawn * gmap string Time :=
  match recovery_wanted s m p now with
  | Some w => if recovery_due s w now then ([w], <[spawn_key w := now]> (ds_recoveryAttempts s)) else ([], ds_recoveryAttempts s)
  | None => ([], ds_recoveryAttempts s)
  end.

(** The registry: asking for the tombstone of an unserved client drops it when
    it has expired. *)
Definition registry_step (cfg : DHCPConfig) (m : Manager) (p : dhcpPacket) (now : Time) : Manager :=
  if unserved cfg m p then fst (LookupRecoveryByMACAddr m (dp_ClientMAC p) now) else m.

Definition realises (p : dhcpPacket) (d : decision) (reply : list Z) : Prop :=
  match d with
  | DSilent => reply = []
  | DOffer ip => reads p reply dhcpOffer (fill 4 (To4 ip))
  | DAck ip => reads p reply dhcpAck (fill 4 (To4 ip))
  | DNak => reads p reply dhcpNak [0; 0; 0; 0]
  end.

(** The leases change only by the acknowledged one. *)
Definition lease_step (p : dhcpPacket) (d : decision) (now : Time) (s s' : DHCPServer) : Prop :=
  match d with
  | DAck ip => exists l, ds_leases s' = <[HWString (dp_ClientMAC p) := l]> (ds_leases s) /\
                         l_SubscriberIP l = ip /\
                         l_ExpiresAt l = now + dh_LeaseTimeSeconds (ds_cfg s) * Second
  | _ => ds_leases s' = ds_leases s
  end.

Lemma To4_idem ip : To4 (To4 ip) = To4 ip.
Proof.
  destruct (decide (To4 ip = [])) as [->|H]; [done|]. by apply To4_v4, To4_length.
Qed.

Lemma authorizedSession_offered s m mac :
  match authorizedSession s m mac with
  | (Some sess, true) => offered (ds_cfg s) m mac = Some (s_SubscriberIP sess)
  | _ => offered (ds_cfg s) m mac = None
  end.
Proof.
  unfold authorizedSession, offered, served. destruct (dh_RequireAuthorizedSession (ds_cfg s)); cbn [negb]; [|done].
  destruct (LookupByMACAddr m mac) as [sess|]; [|done]. cbn [mbind option_bind].
  by destruct (State.eqb _ _ && _)%bool.
Qed.

(** What a trigger does when a recovery [w] is wanted. *)
Lemma try_recovery_due s w now :
  try_recovery s (spawn_key w) (spawn_interval w) now w =
  if recovery_due s w now then (s <| ds_recoveryAttempts ::= <[spawn_key w := now]> |>, [w]) else (s, []).
Proof.
  unfold try_recovery, recovery_due, IsZero. destruct (ds_recoveryAttempts s !! spawn_key w) as [last|]; cbn [default id from_option]; [|done].
  destruct (last =? zeroTime); cbn [negb andb orb]; [done|].
  destruct (now - last <? spawn_interval w) eqn:E; [rewrite (proj2 (Z.leb_gt _ _)) by lia|rewrite (proj2 (Z.leb_le _ _)) by lia]; done.
Qed.

Lemma cache_trigger s mac now :
  triggerAuthCacheRecovery s mac now =
  if (dh_RecoverFromAuthCache (ds_cfg s) && ds_authCacheHandler s && non_nil mac)%bool
  then try_recovery s (spawn_key (SpawnAuthCache (HWString mac))) (spawn_interval (SpawnAuthCache (HWString mac))) now (SpawnAuthCache (HWString mac))
  else (s, []).
Proof. unfold triggerAuthCacheRecovery. by destruct (dh_RecoverFromAuthCache _), (ds_authCacheHandler s), (non_nil mac). Qed.

Lemma attach_trigger s t now :
  triggerRecoveryAttach s t now =
  if (ds_recoveryHandler s && nonempty (spawn_key (SpawnRecovery t)))%bool
  then try_recovery s (spawn_key (SpawnRecovery t)) (spawn_interval (SpawnRecovery t)) now (SpawnRecovery t) else (s, []).
Proof. unfold triggerRecoveryAttach. cbn [spawn_key spawn_interval]. destruct (ds_recoveryHandler s); [|done]. by destruct (nonempty _). Qed.

(** A registered session of the client, authenticated, authorised and active. *)
Definition entitled (m : Manager) (mac : HardwareAddr) (ip : IP) : Prop :=
  exists sess, Get m (s_ID sess) = Some sess /\ s_State sess = State.Active /\
    s_Authenticated sess = true /\ s_Authorized sess = true /\ s_SubscriberIP sess = ip /\
    (s_MACAddress sess = HWString mac \/
     exists hw, ParseMAC (HWString mac) = Some hw /\ s_MACAddress sess = HWString hw).

Lemma served_entitled m mac ip : reachable m -> served m mac = Some ip -> entitled m mac ip.
Proof.
  intros Hr. unfold served, LookupByMACAddr. destruct (non_nil mac); [|done]. unfold LookupByMAC.
  assert (G : forall k l, byMAC m !! k = Some l ->
    s_MACAddress (deref m l) = HWString mac \/
      (exists hw, ParseMAC (HWString mac) = Some hw /\ s_MACAddress (deref m l) = HWString hw) ->
    (if (State.eqb (s_State (deref m l)) State.Active && non_nil (s_SubscriberIP (deref m l)))%bool
     then Some (s_SubscriberIP (deref m l)) else None) = Some ip -> entitled m mac ip).
  { intros k l Hl Hm. destruct (State.eqb _ _) eqn:Ha; [|done]. cbn [andb].
    destruct (non_nil _); [|done]. intros [= <-].
    destruct (look_Get m (KMAC k) l (reachable_sound m Hr) Hl) as [_ Hg].
    assert (Hs : s_State (deref m l) = State.Active) by (by destruct (s_State (deref m l))).
    destruct (reachable_inv m Hr) as (_ & _ & Hauth). rewrite Forall_lookup in Hauth.
    destruct (heap m !! l) as [x|] eqn:Hx.
    - assert (Ex : deref m l = x) by (unfold deref; by rewrite Hx).
      rewrite Ex in *. exists x. destruct (Hauth l x Hx) as [? ?]; [by rewrite Hs|]. done.
    - exfalso. assert (Ex : deref m l = zeroSession) by (unfold deref; by rewrite Hx). by rewrite Ex in Hs. }
  destruct (byMAC m !! HWString mac) as [l|] eqn:Hl; cbn [mbind option_bind fmap option_fmap option_map].
  - apply (G _ l Hl). left. by destruct (look_Get m (KMAC _) l (reachable_sound m Hr) Hl) as [[? _] _].
  - destruct (ParseMAC (HWString mac)) as [hw|] eqn:Hp; [|done].
    destruct (byMAC m !! HWString hw) as [l|] eqn:Hl'; [|done]. cbn [fmap option_fmap option_map mbind option_bind].
    apply (G _ l Hl'). right. exists hw. split; [done|].
    by destruct (look_Get m (KMAC _) l (reachable_sound m Hr) Hl') as [[? _] _].
Qed.

(** An address leaves the server only for an entitled client, when sessions
    are required. *)
Definition justified (cfg : DHCPConfig) (m : Manager) (p : dhcpPacket) (d : decision) : Prop :=
  match d with
  | DOffer ip | DAck ip => if dh_RequireAuthorizedSession cfg then entitled m (dp_ClientMAC p) ip else ip = ParseIP "0.0.0.0"
  | _ => True
  end.

Lemma dhcp_policy_justified cfg m p now : reachable m -> justified cfg m p (dhcp_policy cfg m p now).
Proof.
  intros Hr. unfold dhcp_policy.
  assert (G : forall ip, offered cfg m (dp_ClientMAC p) = Some ip ->
    if dh_RequireAuthorizedSession cfg then entitled m (dp_ClientMAC p) ip else ip = ParseIP "0.0.0.0").
  { intros ip. unfold offered. destruct (dh_RequireAuthorizedSession cfg); [by apply served_entitled|]. by intros [= <-]. }
  destruct (offered cfg m (dp_ClientMAC p)) as [ip|]; (destruct (_ =? dhcpDiscover); [|destruct (_ =? dhcpRequest)]);
    cbn [justified]; try done; try (by apply G).
  - destruct (_ || _)%bool; cbn [justified]; [by apply G|done].
  - by destruct (_ && _)%bool.
Qed.

(** What a message makes of the server, the registry, the reply and the
    goroutines. *)
Definition obeys (s : DHCPServer) (m : Manager) (p : dhcpPacket) (now : Time) (out : outcome) : Prop :=
  let '(s', m', reply, l) := out in
  let d := dhcp_policy (ds_cfg s) m p now in
  realises p d reply /\ lease_step p d now s s' /\ m' = registry_step (ds_cfg s) m p now /\
  (l, ds_recoveryAttempts s') = recovery_step s m p now.

Lemma recovery_step_some s m p now w :
  recovery_wanted s m p now = Some w ->
  let '(s', l) := try_recovery s (spawn_key w) (spawn_interval w) now w in
  ds_leases s' = ds_leases s /\ (l, ds_recoveryAttempts s') = recovery_step s m p now.
Proof. intros H. rewrite try_recovery_due. unfold recovery_step. rewrite H. by destruct (recovery_due s w now). Qed.

Lemma recovery_step_none s m p now :
  recovery_wanted s m p now = None -> ([], ds_recoveryAttempts s) = recovery_step s m p now.
Proof. intros H. unfold recovery_step. by rewrite H. Qed.

(** The triggers of a client that is not served. *)
Lemma unserved_cache s m p now s' l :
  unserved (ds_cfg s) m p = true -> tombstone m (dp_ClientMAC p) now = None ->
  triggerAuthCacheRecovery s (dp_ClientMAC p) now = (s', l) ->
  ds_leases s' = ds_leases s /\ (l, ds_recoveryAttempts s') = recovery_step s m p now.
Proof.
  intros Hu Ht. rewrite cache_trigger. pose proof (recovery_step_some s m p now) as Hs. pose proof (recovery_step_none s m p now) as Hn.
  unfold recovery_wanted in Hs, Hn. rewrite Hu, Ht in Hs, Hn. cbn [negb] in Hs, Hn. destruct (_ && _)%bool.
  - specialize (Hs _ eq_refl). intros E. by rewrite E in Hs.
  - intros [= <- <-]. split; [done|by apply Hn].
Qed.

Lemma unserved_attach s m p now t s' l :
  unserved (ds_cfg s) m p = true -> tombstone m (dp_ClientMAC p) now = Some t -> (dp_MessageType p =? dhcpDiscover) = true ->
  triggerRecoveryAttach s t now = (s', l) ->
  ds_leases s' = ds_leases s /\ (l, ds_recoveryAttempts s') = recovery_step s m p now.
Proof.
  intros Hu Ht Hd. rewrite attach_trigger. pose proof (recovery_step_some s m p now) as Hs. pose proof (recovery_step_none s m p now) as Hn.
  unfold recovery_wanted in Hs, Hn. rewrite Hu, Ht, Hd in Hs, Hn. cbn [negb andb] in Hs, Hn. destruct (_ && _)%bool.
  - specialize (Hs _ eq_refl). intros E. by rewrite E in Hs.
  - intros [= <- <-]. split; [done|by apply Hn].
Qed.

Lemma handled_served s m p now ip : offered (ds_cfg s) m (dp_ClientMAC p) = Some ip ->
  registry_step (ds_cfg s) m p now = m /\ recovery_step s m p now = ([], ds_recoveryAttempts s).
Proof.
  intros H. assert (Hu : unserved (ds_cfg s) m p = false).
  { unfold unserved. rewrite H, bool_decide_eq_true_2 by eauto. apply andb_false_r. }
  unfold registry_step, recovery_step, recovery_wanted. rewrite Hu. done.
Qed.

Lemma handleDiscover_obeys s m p now :
  dns_fit s -> length (dp_ClientMAC p) = 6%nat -> 0 <= dp_XID p < 2 ^ 32 -> (dp_MessageType p =? dhcpDiscover) = true ->
  obeys s m p now (handleDiscover s m p now).
Proof.
  intros Hd Hm Hx Hty. unfold handleDiscover, obeys, dhcp_policy. rewrite Hty.
  pose proof (authorizedSession_offered s m (dp_ClientMAC p)) as Ha.
  destruct (authorizedSession s m (dp_ClientMAC p)) as [[sess|] [|]]; rewrite Ha.
  { destruct (handled_served s m p now _ Ha) as [-> ->]. split_and!; try done. cbn [realises].
    rewrite <- (To4_idem (s_SubscriberIP sess)). by apply buildReply_reads. }
  all: assert (Hu : unserved (ds_cfg s) m p = true) by (unfold unserved; by rewrite Hty, Ha).
  all: unfold registry_step; rewrite Hu.
  all: destruct (LookupRecoveryByMACAddr m (dp_ClientMAC p) now) as [m' o] eqn:El; cbn [fst].
  all: assert (Ht : tombstone m (dp_ClientMAC p) now = o) by (unfold tombstone; by rewrite El).
  all: destruct o as [t|].
  1, 3, 5: destruct (triggerRecoveryAttach s t now) as [s' l] eqn:E;
    destruct (unserved_attach s m p now t s' l Hu Ht Hty E); by split_and!.
  all: destruct (triggerAuthCacheRecovery s (dp_ClientMAC p) now) as [s' l] eqn:E;
    destruct (unserved_cache s m p now s' l Hu Ht E); by split_and!.
Qed.

Lemma handleRequest_obeys s m p now :
  dns_fit s -> length (dp_ClientMAC p) = 6%nat -> 0 <= dp_XID p < 2 ^ 32 ->
  (dp_MessageType p =? dhcpDiscover) = false -> (dp_MessageType p =? dhcpRequest) = true ->
  obeys s m p now (handleRequest s m p now).
Proof.
  intros Hd Hm Hx Hty Hty2. unfold handleRequest, obeys, dhcp_policy. rewrite Hty, Hty2.
  pose proof (authorizedSession_offered s m (dp_ClientMAC p)) as Ha.
  destruct (authorizedSession s m (dp_ClientMAC p)) as [[sess|] [|]]; rewrite Ha.
  { destruct (handled_served s m p now _ Ha) as [-> ->]. fold (asked p). destruct (non_nil (asked p)) eqn:En; cbn [negb orb andb].
    1: destruct (IPEqual (asked p) (s_SubscriberIP sess)) eqn:Eq; cbn [negb].
    2: split_and!; [by apply buildNAK_reads|done..].
    all: split_and!; try done; [cbn [realises]; rewrite <- (To4_idem (s_SubscriberIP sess)); by apply buildReply_reads|by eexists]. }
  all: assert (Hu : unserved (ds_cfg s) m p = true) by (unfold unserved; by rewrite Hty, Hty2, Ha).
  all: unfold registry_step; rewrite Hu.
  all: destruct (LookupRecoveryByMACAddr m (dp_ClientMAC p) now) as [m' o] eqn:El; cbn [fst].
  all: assert (Ht : tombstone m (dp_ClientMAC p) now = o) by (unfold tombstone; by rewrite El).
  all: rewrite Ht; destruct o as [t|].
  1, 3, 5: rewrite bool_decide_eq_true_2 by eauto; cbn [andb].
  1, 2, 3: split_and!; [destruct (String.eqb _ _); [by apply buildNAK_reads|done]|by destruct (String.eqb _ _)|done|];
    apply recovery_step_none; unfold recovery_wanted; by rewrite Hu, Ht, Hty.
  all: destruct (triggerAuthCacheRecovery s (dp_ClientMAC p) now) as [s' l] eqn:E.
  all: destruct (unserved_cache s m p now s' l Hu Ht E); by split_and!.
Qed.

(** C30: the server handles every frame without a panic, and what it does is
    the policy's decision (at most 63 DNS servers configured, so that the
    option holds them): an Offer or Ack of the session's address to a client
    with an active, authenticated and authorised session, a Nak when the
    client asks for another address (or, configured so, while its session is
    being recovered), nothing otherwise; with [require_authorized_session] off
    everyone is offered 0.0.0.0.  A reply is a well-formed frame (addresses,
    lengths, IP checksum, transaction id, options), the lease table changes
    exactly by the acknowledged lease, the registry at most by the tombstone
    that expired, and exactly the recovery is started that the message of an
    unserved client calls for, unless one was started too recently. *)
Theorem dhcp_refines_policy s m f now :
  reachable m -> bytes_ok f -> dns_fit s ->
  exists s' m' reply l,
    HandleFrame s m f now = Some (s', m', reply, l) /\
    match parseDHCPFrame f with
    | Some (Some p) =>
      let d := dhcp_policy (ds_cfg s) m p now in
      realises p d reply /\ justified (ds_cfg s) m p d /\ lease_step p d now s s' /\
      m' = registry_step (ds_cfg s) m p now /\ (l, ds_recoveryAttempts s') = recovery_step s m p now
    | _ => reply = [] /\ s' = s /\ m' = m /\ l = []
    end.
Proof.
  intros Hr Hf Hd. destruct (parseDHCPFrame_spec f) as (r & Hp & Hspec). unfold HandleFrame. rewrite Hp.
  cbn [mbind option_bind]. destruct r as [p|]; [|by do 4 eexists].
  destruct (Hspec p eq_refl) as (Hm & _ & [Hx _]%(fun g => g Hf)). clear Hspec Hp.
  pose proof (dhcp_policy_justified (ds_cfg s) m p now Hr) as Hj.
  assert (Ho : obeys s m p now (if dp_MessageType p =? dhcpDiscover then handleDiscover s m p now
    else if dp_MessageType p =? dhcpRequest then handleRequest s m p now else (s, m, [], []))).
  { destruct (dp_MessageType p =? dhcpDiscover) eqn:E1; [by apply handleDiscover_obeys|].
    destruct (dp_MessageType p =? dhcpRequest) eqn:E2; [by apply handleRequest_obeys|].
    unfold obeys, dhcp_policy, registry_step, recovery_step, recovery_wanted, unserved. by rewrite E1, E2. }
  destruct (if dp_MessageType p =? dhcpDiscover then _ else _) as [[[s' m'] reply] l]. do 4 eexists. split; [done|].
  destruct Ho as (? & ? & ? & ?). by split_and!.
Qed.

(** A Discover of the demonstration's client. *)
Definition demo_dhcp : DHCPServer :=
  NewDHCPServer (zeroDHCPConfig <| dh_RequireAuthorizedSession := true |> <| dh_ServerIdentifier := "10.0.0.1" |>).

Definition demo_frame (t : Z) : list Z :=
  (zeros 12 ++ [8; 0] ++ [0x45] ++ zeros 8 ++ [17] ++ zeros 10 ++ [0; 68; 0; 67; 0; 0; 0; 0]
   ++ [1; 1; 6; 0] ++ [1; 2; 3; 4] ++ zeros 20 ++ [2; 0; 0; 0; 0; 1] ++ zeros 202 ++ be 4 dhcpMagic
   ++ [53; 1; t; 255])%list.

Lemma dhcp_refines_policy_witness :
  exists s' m' reply l, HandleFrame demo_dhcp demo (demo_frame 1) 5000 = Some (s', m', reply, l) /\
    f_yiaddr reply = [10; 0; 0; 2] /\ f_xid reply = 16909060.
Proof.
  destruct (dhcp_refines_policy demo_dhcp demo (demo_frame 1) 5000) as (s' & m' & reply & l & H1 & H2).
  - exact demo_reachable.
  - unfold demo_frame. repeat (apply bytes_ok_app; split); try apply zeros_ok; try apply be_bytes_ok.
    all: repeat constructor; unfold byte_ok; lia.
  - vm_compute. lia.
  - exists s', m', reply, l. split; [exact H1|]. vm_compute in H1. injection H1 as <- <- <- <-.
    split; reflexivity.
Defined.

(** * Pacing of the recoveries the DHCP server starts *)
(** At most one goroutine, filed under its key, not before its interval. *)
Definition spawns_paced (s s' : DHCPServer) (now : Time) (l : list spawn) : Prop :=
  (l = [] /\ ds_recoveryAttempts s' = ds_recoveryAttempts s) \/
  exists w, l = [w] /\ ds_recoveryAttempts s' = <[spawn_key w := now]> (ds_recoveryAttempts s) /\
    forall last, ds_recoveryAttempts s !! spawn_key w = Some last -> last <> zeroTime -> last + spawn_interval w <= now.

Lemma try_recovery_paced s now w s' l :
  try_recovery s (spawn_key w) (spawn_interval w) now w = (s', l) -> spawns_paced s s' now l.
Proof.
  unfold try_recovery. destruct (_ && _)%bool eqn:E; intros [= <- <-]; [by left|]. right. exists w.
  split_and!; [done..|]. intros last Hl Hz. rewrite Hl in E. change (default zeroTime (Some last)) with last in E.
  unfold IsZero in E. apply Z.eqb_neq in Hz. rewrite Hz in E. cbn [negb andb] in E. bools. lia.
Qed.

Lemma cache_trigger_paced s mac now s' l :
  triggerAuthCacheRecovery s mac now = (s', l) -> spawns_paced s s' now l.
Proof.
  unfold triggerAuthCacheRecovery. case_match; [intros [= <- <-]; by left|].
  apply (try_recovery_paced s now (SpawnAuthCache (HWString mac))).
Qed.

Lemma attach_trigger_paced s t now s' l :
  triggerRecoveryAttach s t now = (s', l) -> spawns_paced s s' now l.
Proof.
  unfold triggerRecoveryAttach. do 2 (case_match; [intros [= <- <-]; by left|]).
  apply (try_recovery_paced s now (SpawnRecovery t)).
Qed.

Lemma HandleFrame_paced s m f now s' m' r l :
  HandleFrame s m f now = Some (s', m', r, l) -> spawns_paced s s' now l.
Proof.
  unfold HandleFrame. destruct (parseDHCPFrame f) as [[p|]|]; cbn [mbind option_bind]; [|intros [= <- _ _ <-]; by left|done].
  intros [= H]. destruct (_ =? dhcpDiscover); [|destruct (_ =? dhcpRequest)].
  - unfold handleDiscover in H. destruct (authorizedSession _ _ _) as [[sess|] [|]]; [injection H as <- _ _ <-; by left|..].
    all: destruct (LookupRecoveryByMACAddr _ _ _) as [m1 [t|]].
    all: match type of H with context [let '(_, _) := ?e in _] => destruct e as [s1 l1] eqn:E end.
    all: injection H as <- _ _ <-; eauto using cache_trigger_paced, attach_trigger_paced.
  - unfold handleRequest in H. destruct (authorizedSession _ _ _) as [[sess|] [|]].
    { case_match; injection H as <- _ _ <-; by left. }
    all: destruct (LookupRecoveryByMACAddr _ _ _) as [m1 [t|]]; [injection H as <- _ _ <-; by left|].
    all: destruct (triggerAuthCacheRecovery _ _ _) as [s1 l1] eqn:E; injection H as <- _ _ <-.
    all: eauto using cache_trigger_paced.
  - injection H as <- _ _ <-. by left.
Qed.

Definition paced (l : list (spawn * Time)) : Prop :=
  forall i j wi ti wj tj, (i < j)%nat -> l !! i = Some (wi, ti) -> l !! j = Some (wj, tj) ->
    spawn_key wi = spawn_key wj -> ti + spawn_interval wj <= tj.

(** Every start so far is covered by the attempt table. *)
Definition filed (s : DHCPServer) (l : list (spawn * Time)) : Prop :=
  forall i w t, l !! i = Some (w, t) ->
    exists last, ds_recoveryAttempts s !! spawn_key w = Some last /\ t <= last /\ last <> zeroTime.

Lemma spawn_interval_pos w : 0 < spawn_interval w.
Proof. destruct w; vm_compute; done. Qed.

Lemma paced_step s s' now l ws :
  now <> zeroTime -> spawns_paced s s' now ws -> paced l -> filed s l ->
  paced (l ++ map (fun w => (w, now)) ws) /\ filed s' (l ++ map (fun w => (w, now)) ws).
Proof.
  intros Hz [(-> & Ha)|(w & -> & Ha & Hlast)] Hp Hf; cbn [map].
  { rewrite app_nil_r. split; [done|]. intros i w t Hi. rewrite Ha. eauto. }
  split.
  - intros i j wi ti wj tj Hij Hi Hj Hk. apply lookup_app_Some in Hj as [Hj|[Hj1 Hj2]].
    { rewrite lookup_app_l in Hi by (apply lookup_lt_Some in Hj; lia). eapply (Hp i j); eauto. }
    destruct (j - length l)%nat as [|k] eqn:Ej; [|by destruct k]. injection Hj2 as <- <-.
    rewrite lookup_app_l in Hi by lia. destruct (Hf i wi ti Hi) as (last & H1 & H2 & H3).
    rewrite Hk in H1. specialize (Hlast last H1 H3). lia.
  - intros i w' t Hi. rewrite Ha. apply lookup_app_Some in Hi as [Hi|[_ Hi]].
    + destruct (Hf i w' t Hi) as (last & H1 & H2 & H3).
      destruct (decide (spawn_key w = spawn_key w')) as [E|E].
      * rewrite E, lookup_insert_eq. exists now. rewrite E in Hlast. specialize (Hlast last H1 H3).
        pose proof (spawn_interval_pos w). split_and!; [done|lia|done].
      * rewrite lookup_insert_ne by done. eauto.
    + destruct (i - length l)%nat as [|k]; [|by destruct k]. injection Hi as <- <-.
      rewrite lookup_insert_eq. exists now. split_and!; [done|lia|done].
Qed.

Lemma dhcp_turn_paced s m sent ws r s' m' sent' ws' :
  rd_at r <> zeroTime -> dhcp_turn (s, m, sent, ws) r = Some (s', m', sent', ws') ->
  paced ws -> filed s ws -> paced ws' /\ filed s' ws'.
Proof.
  intros Hz. unfold dhcp_turn. destruct (take 2048 <$> rd_frame r) as [[|b f]|]; [by intros [= <- _ _ <-]| |by intros [= <- _ _ <-]].
  destruct (HandleFrame s m _ _) as [[[[s1 m1] rep] l]|] eqn:E; [|done]. cbn [mbind option_bind]. intros [= <- _ _ <-].
  intros. eapply paced_step; eauto using HandleFrame_paced.
Qed.

(** The reader goes through any sequence of frames, and what it starts is
    paced. *)
Lemma dhcp_reader_run rs : forall s m,
  Forall (fun r => rd_at r <> zeroTime) rs ->
  exists s' m' sent ws, dhcp_reader s m rs = Some (s', m', sent, ws) /\
    (ds_recoveryAttempts s = ∅ -> paced ws /\ filed s' ws).
Proof.
  unfold dhcp_reader. induction rs as [|r rs IH] using rev_ind; intros s m Hz.
  { do 4 eexists. split; [done|]. intros _. split; intros i; intros; done. }
  apply Forall_app in Hz as [Hz Hr]. apply Forall_cons in Hr as [Hr _]. destruct (IH s m Hz) as (s1 & m1 & sent & ws & E & H).
  rewrite foldl_app, E. cbn [foldl mbind option_bind].
  assert (T : exists o, dhcp_turn (s1, m1, sent, ws) r = Some o).
  { unfold dhcp_turn. destruct (take 2048 <$> rd_frame r) as [[|b f]|]; [by eexists| |by eexists].
    unfold HandleFrame. destruct (parseDHCPFrame_spec (b :: f)) as (p & -> & _). cbn [mbind option_bind].
    destruct p; [|by eexists]. repeat (match goal with |- context [let '(_, _) := ?e in _] => destruct e end).
    by eexists. }
  destruct T as [[[[s' m'] sent'] ws'] T]. rewrite T. do 4 eexists. split; [done|].
  intros Hs. destruct (H Hs) as [Hp Hf]. exact (dhcp_turn_paced s1 m1 sent ws r s' m' sent' ws' Hr T Hp Hf).
Qed.

(** C31: whatever frames arrive and whenever, the reader goroutine never
    panics; two recoveries of one lost session (by its old identifier, or its
    MAC address when it has none) are started at least five seconds apart, and
    two recoveries from the authentication cache for one client MAC address at
    least two seconds apart.  Recoveries of different kinds, or of different
    lost sessions of one client, are not paced against each other. *)
Theorem dhcp_recovery_paced s m rs :
  ds_recoveryAttempts s = ∅ -> Forall (fun r => rd_at r <> zeroTime) rs ->
  exists s' m' sent ws, dhcp_reader s m rs = Some (s', m', sent, ws) /\ paced ws.
Proof.
  intros Hs Hz. destruct (dhcp_reader_run rs s m Hz) as (s' & m' & sent & ws & E & H).
  do 4 eexists. split; [exact E|]. by apply H.
Qed.

Definition pace_dhcp : DHCPServer :=
  SetAuthCacheRecoveryHandler (NewDHCPServer (zeroDHCPConfig <| dh_RequireAuthorizedSession := true |>
    <| dh_RecoverFromAuthCache := true |>)) true.

(** Discovers of an unknown client at 0, 1 and 2 seconds: two starts. *)
Lemma dhcp_recovery_paced_witness :
  exists s' m' sent ws,
    dhcp_reader pace_dhcp NewManager
      (map (fun t => mkReading (Some (demo_frame 1)) t) [1; 1 + Second; 1 + 2 * Second]) = Some (s', m', sent, ws) /\
    length ws = 2%nat /\ paced ws.
Proof.
  destruct (dhcp_recovery_paced pace_dhcp NewManager
    (map (fun t => mkReading (Some (demo_frame 1)) t) [1; 1 + Second; 1 + 2 * Second])) as (s' & m' & sent & ws & E & H).
  - reflexivity.
  - repeat constructor; vm_compute; discriminate.
  - exists s', m', sent, ws. split; [exact E|]. split; [|exact H].
    apply (f_equal (fmap (fun o => length (o.2)))) in E. vm_compute in E. injection E as E. symmetry. exact E.
Defined.

(** * ARP *)
Lemma parseARPRequest_spec f :
  exists r, parseARPRequest f = Some r /\
  forall q, r = Some q ->
    length (q_SenderMAC q) = 6%nat /\ length (q_SenderIP q) = 4%nat /\ length (q_TargetIP q) = 4%nat.
Proof.
  unfold parseARPRequest. destruct (length f <? 42)%nat eqn:Hl; [by eexists|]. apply Nat.ltb_ge in Hl.
  rewrite (go_slice_Some f 12 14) by lia. cbn [mbind option_bind]. case_match; [by eexists|].
  rewrite (go_slice_Some f 14 42) by lia. cbn [mbind option_bind]. set (a := take _ _).
  assert (Ha : length a = 28%nat) by (unfold a; len).
  rewrite !go_slice_Some, !go_idx_Some by lia. cbn [mbind option_bind]. case_match; [by eexists|].
  eexists. split; [done|]. intros q [= <-]. cbn [q_SenderMAC q_SenderIP q_TargetIP].
  rewrite !length_take, !length_drop. lia.
Qed.

(** The address of the gateway, and whether a sender may ask for it. *)
Definition arp_gateway (p : ARPProxy) : IP := To4 (ParseIP (ap_GatewayIP (ar_cfg p))).

Definition arp_policy (p : ARPProxy) (m : Manager) (q : arpRequest) : bool :=
  (non_nil (arp_gateway p) && IPEqual (q_TargetIP q) (arp_gateway p) &&
   (negb (ap_RequireAuthorizedSession (ar_cfg p)) ||
    match served m (q_SenderMAC q) with
    | Some ip => IPEqual (q_SenderIP q) IPv4zero || IPEqual (q_SenderIP q) ip
    | None => false
    end))%bool.

(** An ARP reply frame from [mac] to the sender of [q] for the gateway. *)
Definition arp_reply (q : arpRequest) (mac : HardwareAddr) (gw : IP) (f : list Z) : Prop :=
  length f = 42%nat /\ field f 0 6 = q_SenderMAC q /\ field f 6 6 = fill 6 mac /\
  field f 12 10 = [8; 6; 0; 1; 8; 0; 6; 4; 0; 2] /\ field f 22 6 = fill 6 mac /\
  field f 28 4 = gw /\ field f 32 6 = q_SenderMAC q /\ field f 38 4 = q_SenderIP q.

Lemma buildARPReply_ok q mac gw :
  length (q_SenderMAC q) = 6%nat -> length (q_SenderIP q) = 4%nat -> length gw = 4%nat ->
  arp_reply q mac gw (buildARPReply q mac gw).
Proof.
  intros Hm Hs Hg. unfold buildARPReply. rewrite !(fill_exact 6 (q_SenderMAC q)) by done.
  rewrite !To4_v4, !(fill_exact 4) by done. unfold arp_reply.
  change (be 2 etherTypeARP) with [8; 6]. change (be 2 1) with [0; 1]. change (be 2 etherTypeIPv4) with [8; 0].
  change (be 2 2) with [0; 2]. split_and!.
  - len.
  - by rewrite field_here.
  - to_field. done.
  - rewrite (app_assoc [8; 6]), (app_assoc ([8; 6] ++ _)%list), (app_assoc (([8; 6] ++ _) ++ _)%list),
      (app_assoc ((([8; 6] ++ _) ++ _) ++ _)%list). to_field. done.
  - to_field. done.
  - to_field. done.
  - to_field. done.
  - to_field. unfold field. rewrite drop_0, take_ge; [done|lia].
Qed.

Lemma arp_authorized_served p m q :
  length (q_SenderIP q) = 4%nat ->
  snd (arp_authorizedSession p m (q_SenderMAC q) (q_SenderIP q)) =
  (negb (ap_RequireAuthorizedSession (ar_cfg p)) ||
    match served m (q_SenderMAC q) with
    | Some ip => IPEqual (q_SenderIP q) IPv4zero || IPEqual (q_SenderIP q) ip
    | None => false
    end)%bool.
Proof.
  intros Hl. unfold arp_authorizedSession, served. destruct (negb _); [done|]. cbn [orb].
  destruct (LookupByMACAddr m _) as [sess|]; [|done]. cbn [mbind option_bind].
  destruct (State.eqb _ _); cbn [negb orb andb]; [|done].
  destruct (non_nil (s_SubscriberIP sess)); cbn [negb orb andb]; [|done].
  destruct (q_SenderIP q) as [|b ip] eqn:E; [done|]. cbn [non_nil andb].
  by destruct (IPEqual _ IPv4zero), (IPEqual _ (s_SubscriberIP sess)).
Qed.

(** The ARP proxy handles every frame without a panic and answers exactly
    the requests for the gateway address that the policy allows: those of a
    client whose active, authenticated and authorised session has the sender
    address (or that probes with 0.0.0.0).  The answer binds the gateway to
    the proxy's hardware address. *)
Theorem arp_answers_gateway p m f now :
  reachable m ->
  exists m' reply, arp_HandleFrame p m f now = Some (m', reply) /\
    match parseARPRequest f with
    | Some (Some q) =>
      (arp_policy p m q = true -> m' = m /\ arp_reply q (ar_ifaceMAC p) (arp_gateway p) reply /\
         (ap_RequireAuthorizedSession (ar_cfg p) = true -> exists ip, entitled m (q_SenderMAC q) ip /\
            (IPEqual (q_SenderIP q) IPv4zero = true \/ IPEqual (q_SenderIP q) ip = true))) /\
      (arp_policy p m q = false -> reply = [])
    | _ => reply = [] /\ m' = m
    end.
Proof.
  intros Hr. unfold arp_HandleFrame. destruct (parseARPRequest_spec f) as (r & -> & Hq). cbn [mbind option_bind].
  destruct r as [q|]; [|by do 2 eexists]. destruct (Hq q eq_refl) as (Hm & Hs & _).
  pose proof (arp_authorized_served p m q Hs) as Ha. unfold arp_policy.
  destruct (arp_authorizedSession _ _ _ _) as [sess auth]. cbn [snd] in Ha. rewrite <- Ha. fold (arp_gateway p).
  destruct (non_nil (arp_gateway p)) eqn:Hg; cbn [negb orb andb]; [|by do 2 eexists].
  destruct (IPEqual (q_TargetIP q) (arp_gateway p)); cbn [negb orb andb]; [|by do 2 eexists].
  destruct auth; cbn [negb]; [|by do 2 eexists]. do 2 eexists. split; [done|]. split; [|done]. intros _.
  split_and!; [done| |].
  - apply buildARPReply_ok; [done..|]. apply To4_length. by apply non_nil_spec.
  - intros Hreq. rewrite Hreq in Ha. cbn [negb orb] in Ha. symmetry in Ha.
    destruct (served m _) as [ip|] eqn:E; [|done]. exists ip. split; [by apply served_entitled|].
    by apply orb_true_iff in Ha.
Qed.

Definition demo_arp : ARPProxy :=
  mkARP (zeroARPProxyConfig <| ap_RequireAuthorizedSession := true |> <| ap_GatewayIP := "10.0.0.1" |>)
    [2; 0; 0; 0; 0; 254].

Definition demo_arp_frame : list Z :=
  (zeros 12 ++ [8; 6; 0; 1; 8; 0; 6; 4; 0; 1; 2; 0; 0; 0; 0; 1; 10; 0; 0; 2] ++ zeros 6 ++ [10; 0; 0; 1])%list.

Lemma arp_answers_gateway_witness :
  exists m' reply, arp_HandleFrame demo_arp demo demo_arp_frame 5000 = Some (m', reply) /\
    field reply 28 4 = [10; 0; 0; 1].
Proof.
  destruct (arp_answers_gateway demo_arp demo demo_arp_frame 5000 demo_reachable) as (m' & reply & E & H).
  exists m', reply. split; [exact E|].
  destruct (parseARPRequest demo_arp_frame) as [[q|]|] eqn:Eq; vm_compute in Eq; [|discriminate..].
  injection Eq as <-. destruct H as [H _].
  destruct H as (_ & H & _); [by vm_compute|]. apply H.
Defined.

(** * Neighbour entries *)

(** What the code relies on of the kernel's neighbour table: a set entry is
    there, a deleted one is not, a failed call changes nothing, and the links
    do not depend on the neighbours. *)
Class NeighborTable {K : Type} (nl : netlinkHandle K) := {
  neigh : K -> Z * IP -> option HardwareAddr;
  neigh_set : forall n k k', NeighSet nl n k = (k', None) -> forall at_,
    neigh k' at_ = if decide (at_ = (n_LinkIndex n, n_IP n)) then Some (n_HardwareAddr n) else neigh k at_;
  neigh_set_err : forall n k k' e, NeighSet nl n k = (k', Some e) -> forall at_, neigh k' at_ = neigh k at_;
  neigh_del : forall n k k', NeighDel nl n k = (k', None) -> forall at_,
    neigh k' at_ = if decide (at_ = (n_LinkIndex n, n_IP n)) then None else neigh k at_;
  neigh_del_err : forall n k k' e, NeighDel nl n k = (k', Some e) -> forall at_, neigh k' at_ = neigh k at_;
  neigh_del_absent : forall n k k' e, NeighDel nl n k = (k', Some e) -> isNotFound e = true ->
    neigh k (n_LinkIndex n, n_IP n) = None;
  links_set : forall n k name, LinkByName nl name (fst (NeighSet nl n k)) = LinkByName nl name k
}.

Section Neighbors.
Context {K : Type} (nl : netlinkHandle K) `{!NeighborTable nl}.

Definition neigh_at (m : AccessManager K) (k : K) (sess : Session) : option (Z * IP) :=
  match LinkByName nl (fw_Interface (am_forwarding m)) k with
  | Ok link => Some (link, To4 (s_SubscriberIP sess))
  | Err _ => None
  end.

Definition installable (m : AccessManager K) (sess : Session) : bool :=
  (fw_Enabled (am_forwarding m)
   && (negb (fw_RequireAuthorizedSession (am_forwarding m)) || State.eqb (s_State sess) State.Active)
   && non_nil (s_SubscriberIP sess) && nonempty (s_MACAddress sess))%bool.

Lemma add_session_install (m : AccessManager K) sess (k : K) :
  access_AddSession m None (Some sess) k = if installable m sess then installNeighbor m sess k else (k, None).
Proof.
  unfold access_AddSession, installable.
  destruct (fw_Enabled _), (fw_RequireAuthorizedSession _), (State.eqb _ _), (non_nil _), (nonempty _); done.
Qed.

Lemma remove_session_eq (m : AccessManager K) sess (k : K) :
  snd (fst (access_RemoveSession m None (Some sess) k)) =
    (if (fw_Enabled (am_forwarding m) && non_nil (s_SubscriberIP sess) && nonempty (s_MACAddress sess))%bool
     then fst (removeNeighbor m sess k) else k) /\
  snd (access_RemoveSession m None (Some sess) k) =
    (if (fw_Enabled (am_forwarding m) && non_nil (s_SubscriberIP sess) && nonempty (s_MACAddress sess))%bool
     then snd (removeNeighbor m sess k) else None).
Proof.
  unfold access_RemoveSession. change (am_forwarding (mkAccess _ _ _)) with (am_forwarding m).
  destruct (fw_Enabled _), (non_nil _), (nonempty _); cbn [negb orb andb fst snd]; try done.
  change (removeNeighbor (mkAccess _ _ _) sess k) with (removeNeighbor m sess k).
  by destruct (removeNeighbor m sess k).
Qed.

(** With forwarding enabled and a kernel table that obeys its laws, a
    successful [AddSession] of an installable session binds its address on the
    access interface to its hardware address and touches no other entry, any
    other [AddSession] changes nothing, and a successful [RemoveSession]
    afterwards leaves no entry for the address and restores all others. *)
Theorem neighbors_follow_sessions (m : AccessManager K) sess (k k1 : K) e :
  am_nl m = Some nl -> access_AddSession m None (Some sess) k = (k1, e) ->
  (if installable m sess then
     match e with
     | None => exists at_ hw, neigh_at m k sess = Some at_ /\ ParseMAC (s_MACAddress sess) = Some hw /\
         neigh k1 at_ = Some hw /\ (forall at', at' <> at_ -> neigh k1 at' = neigh k at') /\
         (snd (access_RemoveSession m None (Some sess) k1) = None ->
          let k2 := snd (fst (access_RemoveSession m None (Some sess) k1)) in
          neigh k2 at_ = None /\ forall at', at' <> at_ -> neigh k2 at' = neigh k at')
     | Some _ => forall at', neigh k1 at' = neigh k at'
     end
   else k1 = k /\ e = None).
Proof.
  intros Hnl. rewrite add_session_install. destruct (installable m sess) eqn:Hi; [|by intros [= <- <-]].
  unfold installNeighbor. rewrite Hnl. destruct (LinkByName nl _ k) as [link|] eqn:Hl; [|by intros [= <- <-]].
  destruct (ParseMAC _) as [hw|] eqn:Hp; [|by intros [= <- <-]].
  set (n := mkNeigh link true _ hw). destruct (NeighSet nl n k) as [k' e'] eqn:Hs. intros [= <- <-].
  destruct e' as [e'|]; cbn [fmap option_fmap option_map]; [by eapply neigh_set_err|].
  assert (Hat : neigh_at m k sess = Some (link, To4 (s_SubscriberIP sess))) by (unfold neigh_at; by rewrite Hl).
  exists (link, To4 (s_SubscriberIP sess)), hw. pose proof (neigh_set n k k' Hs) as Hset. cbn [n_LinkIndex n_IP] in Hset.
  assert (Hoth : forall at', at' <> (link, To4 (s_SubscriberIP sess)) -> neigh k' at' = neigh k at')
    by (intros at' Hne; by rewrite Hset, decide_False).
  split_and!; [done|done|by rewrite Hset, decide_True|done|].
  destruct (remove_session_eq m sess k') as [E1 E2]. rewrite E1, E2.
  assert (Hb : (fw_Enabled (am_forwarding m) && non_nil (s_SubscriberIP sess) && nonempty (s_MACAddress sess))%bool = true).
  { unfold installable in Hi. bools. repeat (apply andb_true_intro; split); first [done|by apply nonempty_spec]. }
  rewrite Hb. unfold removeNeighbor. rewrite Hnl, Hp.
  pose proof (links_set n k (fw_Interface (am_forwarding m))) as Hlk. rewrite Hs in Hlk. cbn [fst] in Hlk.
  rewrite Hlk, Hl. destruct (NeighDel nl _ k') as [k2 e2] eqn:Hd. destruct e2 as [e2|].
  - destruct (isNotFound e2) eqn:Hn; [|done]. pose proof (neigh_del_absent _ _ _ _ Hd Hn) as Hab.
    cbn [n_LinkIndex n_IP] in Hab. rewrite Hset, decide_True in Hab by done. done.
  - intros _. pose proof (neigh_del _ _ _ Hd) as Hdel. cbn [n_LinkIndex n_IP fst snd] in *.
    split; [by rewrite Hdel, decide_True|]. intros at' Hne. rewrite Hdel, decide_False by done. auto.
Qed.
End Neighbors.

(** A kernel with one link of index 7, its table a finite map. *)
Definition demo_netlink : netlinkHandle (gmap (Z * list Z) (list Z)) :=
  mkNetlink _ (fun name k => if String.eqb name "wlan0" then Ok 7 else Err LinkNotFound)
    (fun n k => (<[(n_LinkIndex n, n_IP n) := n_HardwareAddr n]> k, None))
    (fun n k => match k !! (n_LinkIndex n, n_IP n) with
                | Some _ => (delete (n_LinkIndex n, n_IP n) k, None)
                | None => (k, Some NL_ENOENT)
                end).

#[global] Instance demo_neighbors : NeighborTable demo_netlink.
Proof.
  refine {| neigh := fun k at_ => k !! at_ |}.
  - intros n k k' [= <-] at_. rewrite lookup_insert. by repeat case_decide; subst.
  - done.
  - intros n k k'. cbn. destruct (k !! _) eqn:E; intros [= <-] at_. rewrite lookup_delete.
    by repeat case_decide; subst.
  - intros n k k' e. cbn. destruct (k !! _); by intros [= <- <-].
  - intros n k k' e. cbn. destruct (k !! _) eqn:E; intros [= <- <-]; done.
  - done.
Defined.

Definition demo_access : AccessManager (gmap (Z * list Z) (list Z)) :=
  mkAccess (zeroConfig <| cfg_Access := zeroAccessConfig
    <| ac_Forwarding := mkForwardingConfig true "wlan0" true "" |> |>) demo_dhcp (Some demo_netlink).

Definition demo_session : Session := deref demo 0.

Lemma neighbors_follow_sessions_witness :
  exists k1, access_AddSession demo_access None (Some demo_session) ∅ = (k1, None) /\
    k1 !! (7, [10; 0; 0; 2]) = Some [2; 0; 0; 0; 0; 1].
Proof.
  destruct (access_AddSession demo_access None (Some demo_session) ∅) as [k1 e] eqn:E.
  pose proof (neighbors_follow_sessions demo_netlink demo_access demo_session ∅ k1 e eq_refl E) as H.
  assert (e = None) as -> by (vm_compute in E; by injection E).
  exists k1. split; [reflexivity|].
  assert (Hi : installable demo_access demo_session = true) by (by vm_compute).
  rewrite Hi in H. destruct H as (at_ & hw & Hat & Hhw & Hn & _).
  vm_compute in Hat, Hhw. injection Hat as <-. injection Hhw as <-. exact Hn.
Defined.
