(* ===== verification/StaClient.v ===== *)
(** The STa client of the 3GPP AAA server: [internal/diameter/sta_client.go].
    The connection is a stream of messages to the peer; the answers of the peer
    to the requests of an authentication are a parameter, the read loop and the
    connection loop are step functions on the client.  Channels are the numbers
    of the waiting requests, goroutines are the outputs of a step. *)
From S2P Require Import Prelude.
From S2P Require Import GoNet.
From S2P Require Import Config.
From S2P Require Import Diameter.
From S2P Require Import EapAka.
Open Scope string_scope.
Open Scope Z_scope.

(** * Data *)
Record STaDisconnectEvent := mkDisconnect {
  de_Command : string; de_SessionID : string; de_UserName : string; de_IMSI : string; de_AppID : Z
}.

Record STaAuthRequest := mkSTaAuthRequest {
  sq_IMSI : string; sq_MSISDN : string; sq_Username : string; sq_Realm : string; sq_APN : string;
  sq_Ki : string; sq_OPc : string
}.

Record STaAuthResult := mkSTaAuthResult {
  sa_ResultCode : Z; sa_Allowed : bool; sa_IMSI : string; sa_MSISDN : string; sa_APN : string; sa_Reason : string
}.

Inductive STaEAPState := STaEAPStateChallenge | STaEAPStateSuccess | STaEAPStateFailure.

Record STaEAPRequest := mkSTaEAPRequest {
  se_SessionID : string; se_IMSI : string; se_MSISDN : string; se_Username : string; se_Realm : string;
  se_APN : string; se_EAPPayload : list Z
}.

Record STaEAPResult := mkSTaEAPResult {
  sx_SessionID : string; sx_ResultCode : Z; sx_State : STaEAPState; sx_Allowed : bool; sx_IMSI : string;
  sx_MSISDN : string; sx_APN : string; sx_Reason : string; sx_EAPPayload : list Z; sx_MSK : list Z
}.

Record STaStatus := mkSTaStatus {
  sst_PeerAddr : string; sst_State : string; sst_LastError : string; sst_ResultCode : Z; sst_CERComplete : bool;
  sst_LastWatchdog : Time; sst_WatchdogFailures : Z; sst_ReconnectAttempts : Z
}.
#[global] Instance STaStatus_eta : Eta STaStatus := fun s => mkSTaStatus
  (sst_PeerAddr s) (sst_State s) (sst_LastError s) (sst_ResultCode s) (sst_CERComplete s) (sst_LastWatchdog s)
  (sst_WatchdogFailures s) (sst_ReconnectAttempts s).

(** Errors by their origin. *)
Inductive sta_err :=
| SMsg (msg : string) | SAka (e : aka_err) | SDecode (e : dia_err) | SCanceled (e : string).

(** [cancel] and [conn] are told from nil; [chans] counts the channels made,
    [pending] maps a hop-by-hop identifier to the channel of its request. *)
Record STaDiameterClient := mkSTa {
  stc_cfg : STaConfig; stc_started : bool; stc_conn : option nat; stc_status : STaStatus;
  stc_pending : gmap Z nat; stc_chans : nat; stc_nextHop : Z; stc_nextEnd : Z; stc_handler : bool
}.
#[global] Instance STaDiameterClient_eta : Eta STaDiameterClient := fun c => mkSTa
  (stc_cfg c) (stc_started c) (stc_conn c) (stc_status c) (stc_pending c) (stc_chans c) (stc_nextHop c)
  (stc_nextEnd c) (stc_handler c).

Definition defaultWatchdogInterval : Z := 30 * Second.
Definition defaultWatchdogTimeout : Z := 10 * Second.

(** [time.Now().UnixNano()] and [Unix()], truncated to 32 bits. *)
Definition NewSTaClient (cfg : STaConfig) (now : Time) : STaDiameterClient :=
  mkSTa cfg false None (mkSTaStatus (sta_PeerAddr cfg) "initialized" "" 0 false zeroTime 0 0) ∅ 0
    (wrap 32 now) (wrap 32 (now / Second)) false.

Definition SetDisconnectHandler (c : STaDiameterClient) (h : bool) : STaDiameterClient := c <| stc_handler := h |>.

Definition setStatus (c : STaDiameterClient) (state lastErr : string) (cer : bool) : STaDiameterClient :=
  c <| stc_status ::= fun s => s <| sst_State := state |> <| sst_LastError := lastErr |> <| sst_CERComplete := cer |> |>.

Definition set_result_code (c : STaDiameterClient) (code : Z) : STaDiameterClient :=
  c <| stc_status ::= fun s => s <| sst_ResultCode := code |> |>.

(** * EAP packets *)
Inductive eapState := eapStateUnknown | eapStateRequest | eapStateSuccess | eapStateFailure | eapStateInvalid.
#[global] Instance eapState_eq_dec : EqDecision eapState.
Proof. solve_decision. Defined.

Record eapResult := mkEapResult { es_State : eapState; es_Description : string; es_Identifier : Z }.

Definition eapAKASubtype (subtype : Z) : string :=
  if subtype =? 1 then "challenge"
  else if subtype =? 2 then "authentication rejection"
  else if subtype =? 4 then "synchronization failure"
  else if subtype =? 5 then "identity"
  else if subtype =? 12 then "client error"
  else "subtype " +:+ pretty subtype.

Definition eapRequestDescription (data : list Z) : string :=
  match data with
  | [] => "request"
  | t :: rest =>
    if t =? 1 then "identity request"
    else if t =? 23 then match rest with s :: _ => "eap-aka " +:+ eapAKASubtype s | [] => "eap-aka request" end
    else if t =? 50 then
      match rest with s :: _ => "eap-aka-prime " +:+ eapAKASubtype s | [] => "eap-aka-prime request" end
    else "request type " +:+ pretty t
  end.

Definition parseEAPResult (payload : list Z) : go eapResult :=
  if (length payload <? 4)%nat then Some (mkEapResult eapStateInvalid "short header" 0)
  else
    code ← go_idx payload 0; identifier ← go_idx payload 1;
    hi ← go_idx payload 2; lo ← go_idx payload 3;
    let len := Z.to_nat (Z.lor (Z.shiftl hi 8) lo) in
    if ((len <? 4) || (length payload <? len))%nat%bool
    then Some (mkEapResult eapStateInvalid "invalid length" identifier)
    else if code =? 1 then
      if (len <? 5)%nat then Some (mkEapResult eapStateInvalid "request missing type" identifier)
      else data ← go_slice payload 4 len;
           Some (mkEapResult eapStateRequest (eapRequestDescription data) identifier)
    else if code =? 3 then Some (mkEapResult eapStateSuccess "success" identifier)
    else if code =? 4 then Some (mkEapResult eapStateFailure "failure" identifier)
    else Some (mkEapResult eapStateUnknown ("code " +:+ pretty code) identifier).

Definition eapResponseIdentity (identifier : Z) (identity : string) : result (list Z) sta_err :=
  if negb (nonempty identity) then Err (SMsg "EAP identity is required")
  else
    let len := 5 + Z.of_nat (String.length identity) in
    if 0xffff <? len then Err (SMsg "EAP identity too long")
    else Ok ([2; identifier; wrap 8 (Z.shiftr len 8); wrap 8 len; 1] ++ bytes_of_string identity)%list.

Definition resultReason (code : Z) : string :=
  if code =? 2001 then "diameter success"
  else if code =? 2002 then "diameter limited success"
  else if code =? 5001 then "user unknown"
  else if code =? 0 then "missing result code"
  else "diameter result code " +:+ pretty code.

(** * Messages *)
Definition newRequest (c : STaDiameterClient) (command appID : Z) (proxiable : bool) (avps : list avp)
  : STaDiameterClient * message :=
  let flags := if proxiable then Z.lor flagRequest flagProxiable else flagRequest in
  let hop := wrap 32 (stc_nextHop c + 1) in
  let e2e := wrap 32 (stc_nextEnd c + 1) in
  (c <| stc_nextHop := hop |> <| stc_nextEnd := e2e |>, mkMessage flags command appID hop e2e avps).

Definition newAnswer (req : message) (avps : list avp) : message :=
  mkMessage (Z.ldiff (d_Flags req) flagRequest) (d_CommandCode req) (d_AppID req) (d_HopByHop req) (d_EndToEnd req) avps.

Definition der_avps (cfg : STaConfig) (sessionID userName apn : string) (eapPayload : list Z) : list avp :=
  ([utf8AVP avpSessionID 0 sessionID; uint32AVP avpAuthApplicationID 0 (sta_AuthApplicationID cfg);
    utf8AVP avpOriginHost 0 (sta_OriginHost cfg); utf8AVP avpOriginRealm 0 (sta_OriginRealm cfg);
    utf8AVP avpDestinationRealm 0 (sta_DestinationRealm cfg); uint32AVP avpAuthRequestType 0 3;
    mkAVP avpEAPPayload 0 flagMandatory eapPayload]
   ++ (if nonempty (sta_DestinationHost cfg) then [utf8AVP avpDestinationHost 0 (sta_DestinationHost cfg)] else [])
   ++ [utf8AVP avpUserName 0 userName]
   ++ (if nonempty apn then [utf8AVP avpServiceSelection 0 apn] else []))%list.

Definition newDER (c : STaDiameterClient) (sessionID userName apn : string) (eapPayload : list Z)
  : STaDiameterClient * message :=
  newRequest c commandDER (sta_AuthApplicationID (stc_cfg c)) true (der_avps (stc_cfg c) sessionID userName apn eapPayload).

(** * Authentication *)

(** The result code of an answer, from either AVP; 0 when there is none. *)
Definition answer_code (answer : message) : go Z :=
  match avpUint32 (d_AVPs answer) avpResultCode 0 with
  | Some code => Some code
  | None => code ← experimentalResultCode (d_AVPs answer); Some (default 0 code)
  end.

Definition diameter_success (code : Z) : bool := ((code =? 2001) || (code =? 2002))%bool.

Definition nextEAPResponse (req : STaAuthRequest) (identity : string) (answer : message)
  : go (result (option (list Z)) sta_err) :=
  match findAVP (d_AVPs answer) avpEAPPayload 0 with
  | None => Some (Ok None)
  | Some eapPayload =>
    r ← parseEAPResult (v_Data eapPayload);
    if negb (bool_decide (es_State r = eapStateRequest)) then Some (Ok None)
    else if String.eqb (es_Description r) "eap-aka-prime challenge" then Some (Ok None)
    else if negb (String.eqb (es_Description r) "eap-aka challenge") then Some (Ok None)
    else if (negb (nonempty (sq_Ki req)) || negb (nonempty (sq_OPc req)))%bool then Some (Ok None)
    else
      next ← buildEAPAKAChallengeResponse identity (v_Data eapPayload) (sq_Ki req) (sq_OPc req);
      Some (match next with Err e => Err (SAka e) | Ok p => Ok (Some p) end)
  end.

Definition authResult (c : STaDiameterClient) (req : STaAuthRequest) (answer : message)
  : go (STaDiameterClient * STaAuthResult) :=
  resultCode ← answer_code answer;
  let allowed := diameter_success resultCode in
  let reason := resultReason resultCode in
  '(allowed, reason) ←
    match findAVP (d_AVPs answer) avpEAPPayload 0 with
    | None => Some (allowed, reason)
    | Some eapPayload =>
      r ← parseEAPResult (v_Data eapPayload);
      Some (match es_State r with
            | eapStateSuccess => (diameter_success resultCode, "eap success")
            | eapStateFailure => (false, "eap failure")
            | eapStateRequest => (false, "eap authentication incomplete: " +:+ es_Description r)
            | eapStateInvalid => (false, "invalid eap payload: " +:+ es_Description r)
            | eapStateUnknown => (false, "unsupported eap payload: " +:+ es_Description r)
            end)
    end;
  Some (set_result_code c resultCode,
        mkSTaAuthResult resultCode allowed (sq_IMSI req) (sq_MSISDN req) (sq_APN req) reason).

Definition sta_session_id (cfg : STaConfig) (now : Time) : string := sta_OriginHost cfg +:+ ";" +:+ pretty now.

(** The keying material of a success, when it has the length of an MSK. *)
Definition sta_msk (state : STaEAPState) (allowed : bool) (answer : message) : list Z :=
  match state, allowed with
  | STaEAPStateSuccess, true =>
    match findAVP (d_AVPs answer) avpEAPMasterSessionKey 0 with
    | Some key => if (length (v_Data key) =? 64)%nat then v_Data key else []
    | None => []
    end
  | _, _ => []
  end.

Section Exchange.
(** The peer: its answer to the last of the requests sent so far, or the error
    of [sendRequest] (connection, context). *)
Variable peer : list message -> result message sta_err.

(** The loop of [Authenticate]: at most four further requests. *)
Fixpoint auth_loop (n : nat) (req : STaAuthRequest) (sessionID userName : string) (c : STaDiameterClient)
    (sent : list message) (akaResponsesSent : nat) (answer : message)
  : go (STaDiameterClient * list message * result message sta_err) :=
  match n with
  | O => Some (c, sent, Ok answer)
  | S n =>
    r ← nextEAPResponse req userName answer;
    match r with
    | Err e => Some (c, sent, Err e)
    | Ok None => Some (c, sent, Ok answer)
    | Ok (Some nextPayload) =>
      nextPayload ← (if (0 <? akaResponsesSent)%nat
                     then r ← parseEAPResult nextPayload; Some (osmoAAAAuthCompletePayload (es_Identifier r))
                     else Some nextPayload);
      let '(c, msg) := newDER c sessionID userName (sq_APN req) nextPayload in
      let sent := (sent ++ [msg])%list in
      match peer sent with
      | Err e => Some (c, sent, Err e)
      | Ok answer => auth_loop n req sessionID userName c sent (S akaResponsesSent) answer
      end
    end
  end.

(** [open] is the result of [waitOpen]. *)
Definition Authenticate (c : STaDiameterClient) (open : option sta_err) (req : STaAuthRequest) (now : Time)
  : go (STaDiameterClient * list message * result STaAuthResult sta_err) :=
  if (negb (nonempty (sq_IMSI req)) && negb (nonempty (sq_Username req)))%bool
  then Some (c, [], Err (SMsg "sta auth requires imsi or username"))
  else match open with
  | Some e => Some (c, [], Err e)
  | None =>
    let sessionID := sta_session_id (stc_cfg c) now in
    let userName := if nonempty (sq_IMSI req) then sq_IMSI req else sq_Username req in
    match eapResponseIdentity 1 userName with
    | Err e => Some (c, [], Err e)
    | Ok eapPayload =>
      let '(c, msg) := newDER c sessionID userName (sq_APN req) eapPayload in
      match peer [msg] with
      | Err e => Some (c, [msg], Err e)
      | Ok answer =>
        '(c, sent, r) ← auth_loop 4 req sessionID userName c [msg] 0 answer;
        match r with
        | Err e => Some (c, sent, Err e)
        | Ok answer => '(c, res) ← authResult c req answer; Some (c, sent, Ok res)
        end
      end
    end
  end.

Definition eapExchangeResult (c : STaDiameterClient) (req : STaEAPRequest) (sessionID : string) (answer : message)
  : go (STaDiameterClient * STaEAPResult) :=
  resultCode ← answer_code answer;
  '(state, allowed, reason, responsePayload) ←
    match findAVP (d_AVPs answer) avpEAPPayload 0 with
    | Some eapPayload =>
      r ← parseEAPResult (v_Data eapPayload);
      let '(state, allowed, reason) :=
        match es_State r with
        | eapStateRequest => (STaEAPStateChallenge, false, es_Description r)
        | eapStateSuccess => (STaEAPStateSuccess, diameter_success resultCode, "eap success")
        | eapStateFailure => (STaEAPStateFailure, false, "eap failure")
        | eapStateInvalid => (STaEAPStateFailure, false, "invalid eap payload: " +:+ es_Description r)
        | eapStateUnknown => (STaEAPStateFailure, false, "unsupported eap payload: " +:+ es_Description r)
        end in
      Some (state, allowed, reason, v_Data eapPayload)
    | None =>
      if diameter_success resultCode then Some (STaEAPStateSuccess, true, resultReason resultCode, [])
      else Some (STaEAPStateFailure, false, resultReason resultCode, [])
    end;
  Some (set_result_code c resultCode,
        mkSTaEAPResult sessionID resultCode state allowed (se_IMSI req) (se_MSISDN req) (se_APN req) reason
          responsePayload (sta_msk state allowed answer)).

Definition sta_ExchangeEAP (c : STaDiameterClient) (open : option sta_err) (req : STaEAPRequest) (now : Time)
  : go (STaDiameterClient * list message * result STaEAPResult sta_err) :=
  if (negb (nonempty (se_IMSI req)) && negb (nonempty (se_Username req)))%bool
  then Some (c, [], Err (SMsg "sta eap exchange requires imsi or username"))
  else if negb (non_nil (se_EAPPayload req)) then Some (c, [], Err (SMsg "sta eap exchange requires eap payload"))
  else match open with
  | Some e => Some (c, [], Err e)
  | None =>
    let sessionID := if nonempty (se_SessionID req) then se_SessionID req else sta_session_id (stc_cfg c) now in
    let userName := if nonempty (se_IMSI req) then se_IMSI req else se_Username req in
    let '(c, msg) := newDER c sessionID userName (se_APN req) (se_EAPPayload req) in
    match peer [msg] with
    | Err e => Some (c, [msg], Err e)
    | Ok answer => '(c, res) ← eapExchangeResult c req sessionID answer; Some (c, [msg], Ok res)
    end
  end.
End Exchange.

(** * Requests of the peer *)
Definition looksLikeDiameterIMSI (s : string) : bool :=
  let l := String.list_ascii_of_string s in
  (negb (length l <? 5)%nat && negb (15 <? length l)%nat &&
   forallb (fun c => match digit c with Some _ => true | None => false end) l)%bool.

Definition imsiFromDiameterUserName (username : string) : string :=
  let l := String.list_ascii_of_string username in
  let local := match index_ascii "@" l with Some at_ => take at_ l | None => l end in
  let local := TrimSpace (String.string_of_list_ascii local) in
  match local with
  | String c (String _ _ as rest) =>
    if ((Ascii.eqb c "0" || Ascii.eqb c "6") && looksLikeDiameterIMSI rest)%bool then rest
    else if looksLikeDiameterIMSI local then local else ""
  | _ => if looksLikeDiameterIMSI local then local else ""
  end.

(** What the read loop does: writes on the connection, hands a message to a
    waiting request, starts the disconnect handler. *)
Inductive sta_out :=
| OutWrite (m : message) | OutDeliver (ch : nat) (r : result message sta_err) | OutDisconnect (e : STaDisconnectEvent).

Definition origin_avps (c : STaDiameterClient) : list avp :=
  [utf8AVP avpOriginHost 0 (sta_OriginHost (stc_cfg c)); utf8AVP avpOriginRealm 0 (sta_OriginRealm (stc_cfg c))].

(** [write_ok]: the write of the answer succeeded. *)
Definition answerDisconnectRequest (c : STaDiameterClient) (req : message) (command : string) (write_ok : bool)
  : list sta_out :=
  let sessionID := avpString (d_AVPs req) avpSessionID 0 in
  let userName := avpString (d_AVPs req) avpUserName 0 in
  let resultCode := if nonempty sessionID then 2001 else 5005 in
  let respAVPs := (origin_avps c ++ [uint32AVP avpResultCode 0 resultCode])%list in
  let respAVPs := if nonempty sessionID then utf8AVP avpSessionID 0 sessionID :: respAVPs else respAVPs in
  let respAVPs := if nonempty userName then (respAVPs ++ [utf8AVP avpUserName 0 userName])%list else respAVPs in
  OutWrite (newAnswer req respAVPs)
  :: (if negb write_ok then []
      else if negb (resultCode =? 2001) then []
      else if negb (stc_handler c) then []
      else [OutDisconnect (mkDisconnect command sessionID userName (imsiFromDiameterUserName userName) (d_AppID req))]).

Definition answerMalformedDER (c : STaDiameterClient) (req : message) : list sta_out :=
  match findAVP (d_AVPs req) avpEAPPayload 0 with
  | Some _ => []
  | None => [OutWrite (newAnswer req (origin_avps c ++
      [uint32AVP avpResultCode 0 5005; groupedAVP avpFailedAVP 0 [mkAVP avpEAPPayload 0 flagMandatory []]]))]
  end.

Definition sta_handleRequest (c : STaDiameterClient) (req : message) (write_ok : bool) : list sta_out :=
  if d_CommandCode req =? commandDWR then
    [OutWrite (newAnswer req (origin_avps c ++ [uint32AVP avpResultCode 0 2001]))]
  else if d_CommandCode req =? commandDER then
    if d_AppID req =? sta_AuthApplicationID (stc_cfg c) then answerMalformedDER c req else []
  else if d_CommandCode req =? commandASR then answerDisconnectRequest c req "ASR" write_ok
  else if d_CommandCode req =? commandSTR then answerDisconnectRequest c req "STR" write_ok
  else [].

(** * The connection *)

(** [failPendingLocked]; [ord] is the iteration order of the map. *)
Definition failPendingLocked (c : STaDiameterClient) (ord : list (Z * nat)) (e : sta_err)
  : STaDiameterClient * list sta_out :=
  (c <| stc_pending ::= fun p => foldr (fun kv => delete (fst kv)) p ord |>,
   map (fun kv => OutDeliver (snd kv) (Err e)) ord).

(** [sendRequestOnConn] up to its wait: the channel, or the error of the write. *)
Definition sendRequestOnConn (c : STaDiameterClient) (req : message) (write_err : option sta_err)
  : STaDiameterClient * result nat sta_err * list sta_out :=
  let ch := stc_chans c in
  let c := c <| stc_pending ::= <[d_HopByHop req := ch]> |> <| stc_chans ::= S |> in
  match write_err with
  | Some e => (c <| stc_pending ::= delete (d_HopByHop req) |>, Err e, [])
  | None => (c, Ok ch, [OutWrite req])
  end.

Definition sendRequest (c : STaDiameterClient) (req : message) (write_err : option sta_err)
  : STaDiameterClient * result nat sta_err * list sta_out :=
  match stc_conn c with
  | None => (c, Err (SMsg "Diameter peer is not open"), [])
  | Some _ => sendRequestOnConn c req write_err
  end.

(** The context ends before the answer. *)
Definition abandonRequest (c : STaDiameterClient) (hop : Z) : STaDiameterClient :=
  c <| stc_pending ::= delete hop |>.

(** One turn of [readLoop] with a decoded message. *)
Definition readMessage (c : STaDiameterClient) (m : message) (write_ok : bool) : STaDiameterClient * list sta_out :=
  if isRequest m then (c, sta_handleRequest c m write_ok)
  else
    (c <| stc_pending ::= delete (d_HopByHop m) |>,
     match stc_pending c !! d_HopByHop m with Some ch => [OutDeliver ch (Ok m)] | None => [] end).

Definition minDuration (a b : Z) : Z := if a <? b then a else b.

(** The top of a turn of [connectLoop]. *)
Definition connecting (c : STaDiameterClient) : STaDiameterClient :=
  setStatus c "connecting" "" false <| stc_status ::= fun s => s <| sst_ReconnectAttempts ::= Z.add 1 |> |>.

(** The dial fails: the client, the time to sleep and the next backoff. *)
Definition dialFailed (c : STaDiameterClient) (backoff : Z) (err : string) : STaDiameterClient * Z * Z :=
  (setStatus c "disconnected" err false, backoff, minDuration (backoff * 2) (30 * Second)).

(** The handshake fails: the backoff has been reset by the connection. *)
Definition handshakeFailed (c : STaDiameterClient) (err : string) : STaDiameterClient * Z * Z :=
  (setStatus c "disconnected" err false, Second, Second).

Definition opened (c : STaDiameterClient) (conn : nat) : STaDiameterClient :=
  c <| stc_conn := Some conn |>
    <| stc_status ::= fun s => s <| sst_State := "open" |> <| sst_LastError := "" |> <| sst_CERComplete := true |> |>.

(** The read loop of the connection ends with an error. *)
Definition disconnected (c : STaDiameterClient) (conn : nat) (ord : list (Z * nat)) (msg : string) (e : sta_err)
  : STaDiameterClient * list sta_out :=
  let c := if bool_decide (stc_conn c = Some conn) then c <| stc_conn := None |> else c in
  let c := setStatus c "disconnected" msg false in
  failPendingLocked c ord e.

Definition Stop (c : STaDiameterClient) (ord : list (Z * nat)) : STaDiameterClient * list sta_out :=
  let c := c <| stc_status ::= fun s => s <| sst_State := "stopped" |> |> in
  failPendingLocked c ord (SMsg "sta client stopped").

Definition sta_Start (c : STaDiameterClient) : STaDiameterClient :=
  if stc_started c then c
  else c <| stc_started := true |> <| stc_status ::= fun s => s <| sst_State := "starting" |> |>.

(** [waitOpen] returns at once when the peer is open. *)
Definition is_open (c : STaDiameterClient) : bool :=
  (String.eqb (sst_State (stc_status c)) "open" && match stc_conn c with Some _ => true | None => false end)%bool.

Definition cer_avps (cfg : STaConfig) (localIP : list Z) (now : Time) : list avp :=
  [utf8AVP avpOriginHost 0 (sta_OriginHost cfg); utf8AVP avpOriginRealm 0 (sta_OriginRealm cfg);
   uint32AVP avpOriginStateID 0 (wrap 32 (now / Second)); addressAVP avpHostIPAddress localIP;
   uint32AVP avpVendorID 0 0; utf8AVPFlags avpProductName 0 0 "VectorCore TWAG";
   uint32AVPFlags avpFirmwareRevision 0 0 firmwareRevOne; uint32AVP avpInbandSecurityID 0 inbandNoSec;
   uint32AVP avpAuthApplicationID 0 (sta_AuthApplicationID cfg); uint32AVP avpSupportedVendorID 0 vendor3GPP;
   groupedAVP avpVendorSpecificApplicationID 0
     [uint32AVP avpVendorID 0 (sta_VendorID cfg); uint32AVP avpAuthApplicationID 0 (sta_AuthApplicationID cfg)]].

(** The handshake on a connection with local address [localAddr] whose peer
    sends [stream]: the CER, and an error unless the peer accepts. *)
Definition handshake (c : STaDiameterClient) (localAddr : IP) (now : Time) (write_err : option sta_err) (stream : list Z)
  : go (STaDiameterClient * message * option sta_err) :=
  let localIP := if non_nil (To4 localAddr) then To4 localAddr else [127; 0; 0; 1] in
  let '(c, cer) := newRequest c commandCER 0 false (cer_avps (stc_cfg c) localIP now) in
  match write_err with
  | Some e => Some (c, cer, Some e)
  | None =>
    r ← decodeMessage stream;
    Some (c, cer,
      match r with
      | Err e => Some (SDecode e)
      | Ok (cea, _) =>
        if (negb (d_CommandCode cea =? commandCER) || isRequest cea)%bool
        then Some (SMsg ("expected CEA, got command=" +:+ pretty (d_CommandCode cea) +:+ " request="
                   +:+ (if isRequest cea then "true" else "false")))
        else
          let rc := default 0 (avpUint32 (d_AVPs cea) avpResultCode 0) in
          if diameter_success rc then None else Some (SMsg ("CEA result code " +:+ pretty rc))
      end)
  end.

(** The watchdog: its request and the outcome of the exchange. *)
Definition watchdogRequest (c : STaDiameterClient) : STaDiameterClient * message :=
  newRequest c commandDWR 0 false (origin_avps c).

Definition watchdogFailed (c : STaDiameterClient) : STaDiameterClient :=
  c <| stc_status ::= fun s => s <| sst_WatchdogFailures ::= Z.add 1 |> |>.

Definition watchdogOk (c : STaDiameterClient) (now : Time) : STaDiameterClient :=
  c <| stc_status ::= fun s => s <| sst_LastWatchdog := now |> |>.

(** * The stub client *)
Record StubSTaClient := mkStub { sb_cfg : STaConfig; sb_status : STaStatus }.

Definition NewStubSTaClient (cfg : STaConfig) : StubSTaClient :=
  mkStub cfg (mkSTaStatus (sta_PeerAddr cfg) "initialized" "" 0 false zeroTime 0 0).

Definition stub_Start (c : StubSTaClient) : StubSTaClient :=
  mkStub (sb_cfg c) (sb_status c <| sst_State := "stub_ready" |> <| sst_LastError := "" |>).

Definition stub_Stop (c : StubSTaClient) : StubSTaClient := mkStub (sb_cfg c) (sb_status c <| sst_State := "stopped" |>).

Definition stub_Authenticate (c : StubSTaClient) (req : STaAuthRequest) : StubSTaClient * result STaAuthResult sta_err :=
  if (negb (nonempty (sq_IMSI req)) && negb (nonempty (sq_Username req)))%bool
  then (c, Err (SMsg "sta auth requires imsi or username"))
  else (mkStub (sb_cfg c) (sb_status c <| sst_ResultCode := 2001 |>),
        Ok (mkSTaAuthResult 2001 true (sq_IMSI req) (sq_MSISDN req) (sq_APN req) "stub accepted")).

Definition stub_ExchangeEAP (c : StubSTaClient) (req : STaEAPRequest) (now : Time)
  : StubSTaClient * result STaEAPResult sta_err :=
  if (negb (nonempty (se_IMSI req)) && negb (nonempty (se_Username req)))%bool
  then (c, Err (SMsg "sta eap exchange requires imsi or username"))
  else if negb (non_nil (se_EAPPayload req)) then (c, Err (SMsg "sta eap exchange requires eap payload"))
  else
    let sessionID := if nonempty (se_SessionID req) then se_SessionID req else sta_session_id (sb_cfg c) now in
    (mkStub (sb_cfg c) (sb_status c <| sst_ResultCode := 2001 |>),
     Ok (mkSTaEAPResult sessionID 2001 STaEAPStateSuccess true (se_IMSI req) (se_MSISDN req) (se_APN req)
           "stub accepted" [] [])).
