(* ===== verification/StaFacts.v ===== *)
(** What the STa client guarantees: an authentication is accepted only on the
    peer's success answer, the requests of an exchange belong together, each
    waiting request is handed its own answer once, and the peer's requests are
    answered. *)
From S2P Require Import Prelude.
From S2P Require Import GoNet.
From S2P Require Import Config.
From S2P Require Import Diameter.
From S2P Require Import Crypto.
From S2P Require Import EapAka.
From S2P Require Import AkaFacts.
From S2P Require Import StaClient.
Open Scope string_scope.
Open Scope Z_scope.

(** * The readers return on every answer *)
Definition avps_ok (m : message) : Prop := Forall (fun a => bytes_ok (v_Data a)) (d_AVPs m).

Lemma findAVP_ok m code vendor a : avps_ok m -> findAVP (d_AVPs m) code vendor = Some a -> bytes_ok (v_Data a).
Proof.
  intros Hm H. apply List.find_some in H as [H _]. unfold avps_ok in Hm. rewrite List.Forall_forall in Hm. by apply Hm.
Qed.

Lemma answer_code_total m : avps_ok m -> exists code, answer_code m = Some code.
Proof.
  intros Hm. unfold answer_code. destruct (avpUint32 _ _ _); [by eexists|]. unfold experimentalResultCode.
  destruct (findAVP _ _ _) as [a|] eqn:Ha; [|by eexists].
  destruct (decodeAVPs_total (v_Data a)) as [r ->]; [by eapply findAVP_ok|]. by eexists.
Qed.

Lemma parseEAPResult_total p : exists r, parseEAPResult p = Some r.
Proof.
  unfold parseEAPResult. destruct (length p <? 4)%nat eqn:E; [by eexists|]. apply Nat.ltb_ge in E.
  rewrite !go_idx_Some by lia. cbn [mbind option_bind].
  match goal with |- context [(?l <? 4)%nat] => set (len := l) end.
  destruct ((len <? 4) || (length p <? len))%nat%bool eqn:E2; [by eexists|].
  apply orb_false_iff in E2 as [E2%Nat.ltb_ge E3%Nat.ltb_ge].
  destruct (_ =? 1); [|destruct (_ =? 3); [by eexists|]; destruct (_ =? 4); by eexists].
  destruct (len <? 5)%nat eqn:E4; [by eexists|]. apply Nat.ltb_ge in E4. rewrite go_slice_Some by lia. by eexists.
Qed.

Lemma buildResponse_total identity p ki opc : bytes_ok p -> exists r, buildEAPAKAChallengeResponse identity p ki opc = Some r.
Proof.
  intros Hp. unfold buildEAPAKAChallengeResponse. destruct (aka_parse_total p Hp) as [c ->]. cbn [mbind option_bind].
  destruct c as [c|]; [|by eexists]. destruct (milenageAKA _ _ _ _) as [k|]; [|by eexists].
  rewrite derive_eq. by eexists.
Qed.

Lemma nextEAPResponse_total req identity m : avps_ok m -> exists r, nextEAPResponse req identity m = Some r.
Proof.
  intros Hm. unfold nextEAPResponse. destruct (findAVP _ _ _) as [a|] eqn:Ha; [|by eexists].
  destruct (parseEAPResult_total (v_Data a)) as [r ->]. cbn [mbind option_bind].
  repeat (case_match; [by eexists|]).
  destruct (buildResponse_total identity (v_Data a) (sq_Ki req) (sq_OPc req)) as [n ->]; [by eapply findAVP_ok|].
  by eexists.
Qed.

(** An answer whose EAP payload, if any, is a success. *)
Definition eap_success_or_none (m : message) : Prop :=
  match findAVP (d_AVPs m) avpEAPPayload 0 with
  | None => True
  | Some a => es_State <$> parseEAPResult (v_Data a) = Some eapStateSuccess
  end.

Lemma authResult_spec c req m :
  avps_ok m ->
  exists code allowed reason,
    authResult c req m = Some (set_result_code c code,
      mkSTaAuthResult code allowed (sq_IMSI req) (sq_MSISDN req) (sq_APN req) reason) /\
    answer_code m = Some code /\ (allowed = true <-> diameter_success code = true /\ eap_success_or_none m).
Proof.
  intros Hm. unfold authResult, eap_success_or_none. destruct (answer_code_total m Hm) as [code ->]. cbn [mbind option_bind].
  destruct (findAVP _ _ _) as [a|] eqn:Ha; cbn [mbind option_bind].
  - destruct (parseEAPResult_total (v_Data a)) as [r Hr]. rewrite Hr. cbn [mbind option_bind fmap option_fmap option_map].
    destruct (es_State r) eqn:Es; (do 3 eexists; split; [reflexivity|]; split; [done|]).
    all: split; [intros H; try discriminate H|intros [? H]; try discriminate H]; auto.
  - do 3 eexists. split; [reflexivity|]. split; [done|]. tauto.
Qed.

(** * The requests of an exchange *)
#[local] Arguments bytes_of_string : simpl never.
#[local] Arguments string_of_bytes : simpl never.
#[local] Arguments wrap : simpl never.

Definition der_of (cfg : STaConfig) (sessionID userName apn : string) (m : message) : Prop :=
  d_CommandCode m = commandDER /\ isRequest m = true /\ d_AppID m = sta_AuthApplicationID cfg /\
  avpString (d_AVPs m) avpSessionID 0 = sessionID /\ avpString (d_AVPs m) avpUserName 0 = userName /\
  exists payload, findAVP (d_AVPs m) avpEAPPayload 0 = Some (mkAVP avpEAPPayload 0 flagMandatory payload).

Lemma newDER_spec c sid user apn payload c' m :
  newDER c sid user apn payload = (c', m) ->
  stc_cfg c' = stc_cfg c /\ der_of (stc_cfg c) sid user apn m /\ d_HopByHop m = stc_nextHop c' /\
  stc_nextHop c' = wrap 32 (stc_nextHop c + 1) /\
  findAVP (d_AVPs m) avpEAPPayload 0 = Some (mkAVP avpEAPPayload 0 flagMandatory payload).
Proof.
  unfold newDER, newRequest. intros [= <- <-]. unfold der_of, avpString, der_avps. cbn.
  destruct (nonempty (sta_DestinationHost _)); cbn; rewrite !string_of_bytes_of_string; split_and!; eauto.
Qed.

(** An exchange that ends before its first request. *)
Ltac early_exit := do 3 eexists; (split; [done|]); (split; [cbn; lia|]); (split; [constructor|]); done.

Section Auth.
Context (peer : list message -> result message sta_err).
Hypothesis peer_ok : forall h m, peer h = Ok m -> avps_ok m.

Lemma auth_loop_spec n req sid user c sent k answer :
  sent <> [] -> peer sent = Ok answer -> Forall (der_of (stc_cfg c) sid user (sq_APN req)) sent ->
  exists c' sent' r, auth_loop peer n req sid user c sent k answer = Some (c', sent', r) /\
    (length sent' <= length sent + n)%nat /\ stc_cfg c' = stc_cfg c /\
    Forall (der_of (stc_cfg c) sid user (sq_APN req)) sent' /\
    (forall answer', r = Ok answer' -> peer sent' = Ok answer').
Proof.
  revert c sent k answer. induction n as [|n IH]; intros c sent k answer Hne Hp Hd; cbn [auth_loop].
  { do 3 eexists. split; [done|]. split_and!; [lia|done|done|]. by intros ? [= <-]. }
  destruct (nextEAPResponse_total req user answer (peer_ok _ _ Hp)) as [r ->]. cbn [mbind option_bind].
  destruct r as [[payload|]|e].
  2, 3: do 3 eexists; split; [done|]; split_and!; [lia|done|done|intros ? [= <-]; done].
  assert (Hn : exists p', (if (0 <? k)%nat
                     then r ← parseEAPResult payload; Some (osmoAAAAuthCompletePayload (es_Identifier r))
                     else Some payload) = Some p').
  { destruct (0 <? k)%nat; [|by eexists]. destruct (parseEAPResult_total payload) as [r ->]. by eexists. }
  destruct Hn as [p' ->]. cbn [mbind option_bind].
  destruct (newDER c sid user (sq_APN req) p') as [c1 m] eqn:E.
  destruct (newDER_spec _ _ _ _ _ _ _ E) as (Hc & Hm & _).
  assert (Hd' : Forall (der_of (stc_cfg c) sid user (sq_APN req)) (sent ++ [m]))
    by (apply Forall_app; split; [done|by apply Forall_singleton]).
  destruct (peer (sent ++ [m])) as [a|e] eqn:Ep.
  - destruct (IH c1 (sent ++ [m])%list (S k) a) as (c' & sent' & r & H1 & H2 & H3 & H4 & H5);
      [by destruct sent|done|by rewrite Hc|].
    do 3 eexists. split; [exact H1|]. rewrite length_app in H2. cbn [length] in H2. rewrite Hc in H3, H4.
    split_and!; [lia|done|done|done].
  - do 3 eexists. split; [done|]. rewrite length_app. cbn [length]. split_and!; [lia|done|done|done].
Qed.

(** The whole exchange. *)
Lemma Authenticate_spec c open req now :
  exists c' sent r, Authenticate peer c open req now = Some (c', sent, r) /\
    (length sent <= 5)%nat /\
    (let user := if nonempty (sq_IMSI req) then sq_IMSI req else sq_Username req in
     Forall (der_of (stc_cfg c) (sta_session_id (stc_cfg c) now) user (sq_APN req)) sent) /\
    (forall res, r = Ok res -> exists answer, peer sent = Ok answer /\
       answer_code answer = Some (sa_ResultCode res) /\ sa_IMSI res = sq_IMSI req /\
       (sa_Allowed res = true <-> diameter_success (sa_ResultCode res) = true /\ eap_success_or_none answer)).
Proof using peer_ok.
  unfold Authenticate. destruct (_ && _)%bool; [by early_exit|].
  destruct open as [e|]; [by early_exit|]. cbv zeta.
  set (user := if nonempty (sq_IMSI req) then _ else _). set (sid := sta_session_id (stc_cfg c) now).
  destruct (eapResponseIdentity 1 user) as [p|e]; [|by early_exit].
  destruct (newDER c sid user (sq_APN req) p) as [c1 m] eqn:E.
  destruct (newDER_spec _ _ _ _ _ _ _ E) as (Hc & Hm & _).
  destruct (peer [m]) as [a|e] eqn:Ep.
  2: do 3 eexists; split; [done|]; split_and!; [cbn; lia|by apply Forall_singleton|done].
  destruct (auth_loop_spec 4 req sid user c1 [m] 0 a) as (c' & sent' & r & H1 & H2 & H3 & H4 & H5);
    [done|done|rewrite Hc; by apply Forall_singleton|].
  rewrite H1. cbn [mbind option_bind]. cbn [length] in H2. rewrite Hc in H4. destruct r as [answer|e].
  2: do 3 eexists; split; [done|]; split_and!; [lia|done|done].
  destruct (authResult_spec c' req answer) as (code & allowed & reason & H6 & H7 & H8);
    [eapply peer_ok; by apply H5|].
  rewrite H6. cbn [mbind option_bind]. do 3 eexists. split; [done|]. split_and!; [lia|done|].
  intros res [= <-]. exists answer. split_and!; [by apply H5|done|done|done].
Qed.
Lemma Authenticate_returns c open req now :
  exists c' sent r, Authenticate peer c open req now = Some (c', sent, r).
Proof using peer_ok.
  destruct (Authenticate_spec c open req now) as (c' & sent & r & E & _). by do 3 eexists.
Qed.

End Auth.

(** The subscriber of the test set against a peer that challenges and then
    accepts. *)
Definition demo_sta_cfg : STaConfig := mkSTaConfig "twag.example" "example" "aaa.example" "" "aaa:3868" 10415 16777250.

Definition demo_answer (code : Z) (eap : list Z) : message :=
  mkMessage flagProxiable commandDER 16777250 1 1
    [uint32AVP avpResultCode 0 code; mkAVP avpEAPPayload 0 flagMandatory eap].

Definition demo_challenge : list Z :=
  challenge_bytes 7 (be 16 0x23553cbe9637a89d218ae64dae47bf35)
    (be 16 0x55f328b43577b9b94a9ffac354dfafb3) (zeros 16).

Definition demo_peer (h : list message) : result message sta_err :=
  match h with
  | [_] => Ok (demo_answer 1001 demo_challenge)
  | _ => Ok (demo_answer 2001 [3; 8; 0; 4])
  end.

Lemma demo_answer_ok code eap : bytes_ok eap -> avps_ok (demo_answer code eap).
Proof. intros H. unfold avps_ok, demo_answer. cbn [d_AVPs]. constructor; [apply be_bytes_ok|constructor; [exact H|constructor]]. Qed.

Lemma demo_peer_ok h m : demo_peer h = Ok m -> avps_ok m.
Proof.
  assert (Hc : bytes_ok demo_challenge).
  { unfold demo_challenge, challenge_bytes. rewrite !bytes_ok_app. split_and!; auto with bytes.
    all: repeat (apply bytes_ok_cons; split; [unfold byte_ok, eapCodeRequest, eapTypeAKA, eapAKASubtypeChallenge,
      eapAKAAttrRAND, eapAKAAttrAUTN, eapAKAAttrMAC; lia|]); constructor. }
  assert (Hs : bytes_ok [3; 8; 0; 4]) by (repeat (apply bytes_ok_cons; split; [unfold byte_ok; lia|]); constructor).
  destruct h as [|a [|b h]]; intros [= <-]; by apply demo_answer_ok.
Qed.

Definition demo_auth_request : STaAuthRequest :=
  mkSTaAuthRequest "001010000000001" "" "" "" "internet" "465b5ce8b199b49faa5f0a2ee238a6bc" "cd63cb71954a9f4e48a5994e37a02baf".

(** * One step of a relayed EAP exchange *)
Definition eap_state_of (m : message) : option eapState :=
  match findAVP (d_AVPs m) avpEAPPayload 0 with
  | None => None
  | Some a => es_State <$> parseEAPResult (v_Data a)
  end.

(** What the result says of the answer. *)
Record eap_reflects (m : message) (res : STaEAPResult) : Prop := {
  ref_code : answer_code m = Some (sx_ResultCode res);
  ref_allowed : sx_Allowed res = true ->
    diameter_success (sx_ResultCode res) = true /\ eap_success_or_none m /\ sx_State res = STaEAPStateSuccess;
  ref_success : sx_State res = STaEAPStateSuccess -> eap_success_or_none m;
  ref_challenge : sx_State res = STaEAPStateChallenge <-> eap_state_of m = Some eapStateRequest;
  ref_payload : sx_EAPPayload res = match findAVP (d_AVPs m) avpEAPPayload 0 with Some a => v_Data a | None => [] end;
  ref_msk : sx_MSK res <> [] -> sx_Allowed res = true /\ length (sx_MSK res) = 64%nat /\
    exists a, findAVP (d_AVPs m) avpEAPMasterSessionKey 0 = Some a /\ v_Data a = sx_MSK res
}.

Lemma sta_msk_spec st al m :
  sta_msk st al m <> [] -> al = true /\ length (sta_msk st al m) = 64%nat /\
    exists a, findAVP (d_AVPs m) avpEAPMasterSessionKey 0 = Some a /\ v_Data a = sta_msk st al m.
Proof.
  unfold sta_msk. destruct st, al; try done. destruct (findAVP _ _ _) as [a|]; [|done].
  destruct (Nat.eqb_spec (length (v_Data a)) 64); [|done]. eauto.
Qed.

Lemma eapExchangeResult_spec c req sid m :
  avps_ok m ->
  exists code res, eapExchangeResult c req sid m = Some (set_result_code c code, res) /\ eap_reflects m res /\
    sx_SessionID res = sid /\ sx_IMSI res = se_IMSI req /\ sx_MSISDN res = se_MSISDN req /\ sx_APN res = se_APN req.
Proof.
  intros Hm. unfold eapExchangeResult. destruct (answer_code_total m Hm) as [code Hcode]. rewrite Hcode. cbn [mbind option_bind].
  destruct (findAVP (d_AVPs m) avpEAPPayload 0) as [a|] eqn:Ha.
  - destruct (parseEAPResult_total (v_Data a)) as [r Hr]. rewrite Hr. cbn [mbind option_bind].
    destruct (es_State r) eqn:Es; cbn [mbind option_bind]; (do 2 eexists; split; [reflexivity|]; split; [|done]).
    all: constructor; cbn [sx_ResultCode sx_Allowed sx_State sx_EAPPayload sx_MSK]; try done; try apply sta_msk_spec.
    all: unfold eap_success_or_none, eap_state_of; rewrite ?Ha, ?Hr; cbn [fmap option_fmap option_map]; rewrite ?Es; done.
  - destruct (diameter_success code) eqn:Ed; cbn [mbind option_bind]; (do 2 eexists; split; [reflexivity|]; split; [|done]).
    all: constructor; cbn [sx_ResultCode sx_Allowed sx_State sx_EAPPayload sx_MSK]; try done; try apply sta_msk_spec.
    all: unfold eap_success_or_none, eap_state_of; rewrite ?Ha; done.
Qed.

(** * Requests of the peer *)
Definition sta_writes (outs : list sta_out) : list message :=
  omap (fun o => match o with OutWrite m => Some m | _ => None end) outs.
Definition sta_events (outs : list sta_out) : list STaDisconnectEvent :=
  omap (fun o => match o with OutDisconnect e => Some e | _ => None end) outs.

(** An answer to [req] with a result code. *)
Definition answers (req m : message) (code : Z) : Prop :=
  isRequest m = false /\ d_CommandCode m = d_CommandCode req /\ d_AppID m = d_AppID req /\
  d_HopByHop m = d_HopByHop req /\ d_EndToEnd m = d_EndToEnd req /\ avpUint32 (d_AVPs m) avpResultCode 0 = Some code.

Lemma newAnswer_answers c req pre post code :
  u_ok 32 code -> Forall (fun a => v_Code a <> avpResultCode) pre ->
  answers req (newAnswer req (pre ++ origin_avps c ++ [uint32AVP avpResultCode 0 code] ++ post)) code.
Proof.
  intros Hc Hp. unfold answers, newAnswer, isRequest. cbn [d_Flags d_CommandCode d_AppID d_HopByHop d_EndToEnd d_AVPs].
  split_and!; try done.
  - by rewrite Z.land_ldiff.
  - unfold avpUint32, findAVP. induction Hp as [|a pre Ha _ IH].
    + cbn -[be be_dec take length Nat.ltb]. rewrite length_be, take_ge by (by rewrite length_be).
      by rewrite be_dec_be_small.
    + cbn [app List.find]. rewrite (proj2 (Z.eqb_neq _ _) Ha). cbn [andb]. exact IH.
Qed.

(** What each kind of request is answered with ([None]: not at all). *)
Definition answer_policy (c : STaDiameterClient) (req : message) : option Z :=
  if d_CommandCode req =? commandDWR then Some 2001
  else if d_CommandCode req =? commandDER then
    match findAVP (d_AVPs req) avpEAPPayload 0 with
    | None => if d_AppID req =? sta_AuthApplicationID (stc_cfg c) then Some 5005 else None
    | Some _ => None
    end
  else if ((d_CommandCode req =? commandASR) || (d_CommandCode req =? commandSTR))%bool then
    Some (if nonempty (avpString (d_AVPs req) avpSessionID 0) then 2001 else 5005)
  else None.

(** A request of the peer is answered by at most one message, which carries
    its command, application and identifiers without the request flag and
    the policy's result code: watchdogs and disconnect requests always, a
    request without the mandatory EAP payload or Session-Id with 5005, others
    never.  The disconnect handler runs exactly for an ASR or STR that names
    a session, once its answer is written, with that session and user. *)
Theorem sta_requests_answered c req ok :
  match answer_policy c req with
  | Some code => exists m, sta_writes (sta_handleRequest c req ok) = [m] /\ answers req m code
  | None => sta_writes (sta_handleRequest c req ok) = []
  end /\
  sta_events (sta_handleRequest c req ok) =
    (let sid := avpString (d_AVPs req) avpSessionID 0 in
     let user := avpString (d_AVPs req) avpUserName 0 in
     if (((d_CommandCode req =? commandASR) || (d_CommandCode req =? commandSTR)) && nonempty sid && ok && stc_handler c)%bool
     then [mkDisconnect (if d_CommandCode req =? commandASR then "ASR" else "STR") sid user
             (imsiFromDiameterUserName user) (d_AppID req)]
     else []).
Proof.
  assert (Hdis : forall cmd,
    (exists m, sta_writes (answerDisconnectRequest c req cmd ok) = [m] /\
       answers req m (if nonempty (avpString (d_AVPs req) avpSessionID 0) then 2001 else 5005)) /\
    sta_events (answerDisconnectRequest c req cmd ok) =
      (if (nonempty (avpString (d_AVPs req) avpSessionID 0) && ok && stc_handler c)%bool
       then [mkDisconnect cmd (avpString (d_AVPs req) avpSessionID 0) (avpString (d_AVPs req) avpUserName 0)
               (imsiFromDiameterUserName (avpString (d_AVPs req) avpUserName 0)) (d_AppID req)] else [])).
  { intros cmd. unfold answerDisconnectRequest. set (sid := avpString _ avpSessionID 0). set (user := avpString _ avpUserName 0).
    split.
    - set (avps := if nonempty user then _ else _).
      assert (Ha : exists post, avps = ((if nonempty sid then [utf8AVP avpSessionID 0 sid] else []) ++ origin_avps c
        ++ [uint32AVP avpResultCode 0 (if nonempty sid then 2001 else 5005)] ++ post)%list).
      { exists (if nonempty user then [utf8AVP avpUserName 0 user] else []). unfold avps. by destruct (nonempty user), (nonempty sid). }
      destruct Ha as [post ->]. set (m := newAnswer req _). exists m. split.
      + unfold sta_writes. by destruct ok, (nonempty sid), (stc_handler c).
      + unfold m. apply newAnswer_answers; [by destruct (nonempty sid)|]. destruct (nonempty sid); [|constructor].
        constructor; [discriminate|constructor].
    - unfold sta_events. by destruct ok, (nonempty sid), (stc_handler c). }
  unfold answer_policy, sta_handleRequest. destruct (d_CommandCode req =? commandDWR) eqn:E1.
  { bools. rewrite E1. split; [|done]. eexists. split; [reflexivity|]. by apply (newAnswer_answers c req [] []). }
  destruct (d_CommandCode req =? commandDER) eqn:E2.
  { bools. rewrite E2. cbn [orb andb Z.eqb]. unfold answerMalformedDER. destruct (findAVP _ _ _); [by destruct (_ =? _)|].
    destruct (d_AppID req =? _); [|done]. split; [|done]. eexists. split; [reflexivity|].
    by apply (newAnswer_answers c req []). }
  destruct (d_CommandCode req =? commandASR) eqn:E3; cbn [orb andb]; [exact (Hdis "ASR")|].
  destruct (d_CommandCode req =? commandSTR) eqn:E4; cbn [orb andb]; [exact (Hdis "STR")|done].
Qed.

(** * The waiting requests *)

(** What happens to the table of waiting requests; a send draws a new request
    with its identifiers, a loss fails the waiting ones in some order. *)
Inductive sta_event :=
| SeSend (command appID : Z) (proxiable : bool) (avps : list avp) (write_err : option sta_err)
| SeAbandon (hop : Z)
| SeRead (m : message) (write_ok : bool)
| SeOpened (conn : nat)
| SeLost (conn : nat) (ord : list (Z * nat)) (msg : string) (e : sta_err)
| SeStop (ord : list (Z * nat)).

Definition event_ok (c : STaDiameterClient) (ev : sta_event) : Prop :=
  match ev with
  | SeLost _ ord _ _ | SeStop ord => ord ≡ₚ map_to_list (stc_pending c)
  | _ => True
  end.

(** The client, the requests that were given a channel, the outputs. *)
Definition sta_exec (c : STaDiameterClient) (ev : sta_event) : STaDiameterClient * list message * list sta_out :=
  match ev with
  | SeSend command appID proxiable avps write_err =>
    let '(c1, m) := newRequest c command appID proxiable avps in
    let '(c2, _, o) := sendRequest c1 m write_err in
    (c2, match stc_conn c1 with Some _ => [m] | None => [] end, o)
  | SeAbandon hop => (abandonRequest c hop, [], [])
  | SeRead m ok => let '(c, o) := readMessage c m ok in (c, [], o)
  | SeOpened conn => (opened c conn, [], [])
  | SeLost conn ord msg e => let '(c, o) := disconnected c conn ord msg e in (c, [], o)
  | SeStop ord => let '(c, o) := Stop c ord in (c, [], o)
  end.

(** The waiters that leave the table without a result: the caller gave up
    ([SeAbandon]), the write failed, or the 32-bit identifier has come round to
    a request that still waits. *)
Definition gives_up (c : STaDiameterClient) (ev : sta_event) : list nat :=
  match ev with
  | SeSend command appID proxiable avps write_err =>
    let '(c1, m) := newRequest c command appID proxiable avps in
    match stc_conn c1 with
    | Some _ => (option_list (stc_pending c !! d_HopByHop m)
                 ++ match write_err with Some _ => [stc_chans c] | None => [] end)%list
    | None => []
    end
  | SeAbandon hop => option_list (stc_pending c !! hop)
  | _ => []
  end.

Inductive sta_run (c0 : STaDiameterClient) : STaDiameterClient -> list message -> list sta_out -> list nat -> Prop :=
| sr_start : sta_run c0 c0 [] [] []
| sr_step c reqs outs gone ev c' r o :
    sta_run c0 c reqs outs gone -> event_ok c ev -> sta_exec c ev = (c', r, o) ->
    sta_run c0 c' (reqs ++ r) (outs ++ o) (gone ++ gives_up c ev).

Definition deliveries (outs : list sta_out) : list (nat * result message sta_err) :=
  omap (fun o => match o with OutDeliver ch r => Some (ch, r) | _ => None end) outs.

(** The channels of the requests are those of the table, those that were
    served, and those that were given up, each in one of these places once;
    the table and the results go by the identifiers of the requests. *)
Record waiters (c : STaDiameterClient) (reqs : list message) (ds : list (nat * result message sta_err)) (gone : list nat) : Prop := {
  wt_chans : stc_chans c = length reqs;
  wt_pending : forall hop ch, stc_pending c !! hop = Some ch ->
    (exists q, reqs !! ch = Some q /\ d_HopByHop q = hop) /\ (ch ∉ ds.*1) /\ ch ∉ gone;
  wt_delivered : forall ch r, (ch, r) ∈ ds -> exists q, reqs !! ch = Some q /\
    match r with Ok m => d_HopByHop m = d_HopByHop q /\ isRequest m = false | Err _ => True end;
  wt_once : NoDup ds.*1;
  wt_gone : forall ch, ch ∈ gone -> (ch < length reqs)%nat /\ ch ∉ ds.*1;
  wt_all : forall ch, (ch < length reqs)%nat ->
    (exists hop, stc_pending c !! hop = Some ch) \/ ch ∈ ds.*1 \/ ch ∈ gone
}.

Lemma deliveries_app a b : deliveries (a ++ b) = (deliveries a ++ deliveries b)%list.
Proof. apply omap_app. Qed.

Lemma waiters_same c reqs ds gone c' :
  waiters c reqs ds gone -> stc_chans c' = stc_chans c -> stc_pending c' = stc_pending c -> waiters c' reqs ds gone.
Proof. intros [H1 H2 H3 H4 H5 H6] Hc Hp. split; rewrite ?Hp; try done. congruence. Qed.

Lemma waiters_bound c reqs ds gone ch : waiters c reqs ds gone -> ch ∈ ds.*1 -> (ch < length reqs)%nat.
Proof.
  intros W ([ch' r] & -> & Hr)%list_elem_of_fmap. destruct (wt_delivered _ _ _ _ W _ _ Hr) as (q & Hq & _).
  by apply lookup_lt_Some in Hq.
Qed.

Lemma waiters_injective c reqs ds gone h1 h2 ch :
  waiters c reqs ds gone -> stc_pending c !! h1 = Some ch -> stc_pending c !! h2 = Some ch -> h1 = h2.
Proof. intros W [(q & Hq & <-) _]%(wt_pending _ _ _ _ W) [(q' & Hq' & <-) _]%(wt_pending _ _ _ _ W). congruence. Qed.

(** The entry of an identifier leaves the table. *)
Lemma waiters_abandon c reqs ds gone hop c' :
  waiters c reqs ds gone -> stc_chans c' = stc_chans c -> stc_pending c' = delete hop (stc_pending c) ->
  waiters c' reqs ds (gone ++ option_list (stc_pending c !! hop)).
Proof.
  intros W Hc Hp. pose proof W as [H1 H2 H3 H4 H5 H6]. split; rewrite ?Hp; [congruence| |done|done| |].
  - intros h ch [Hne Hh]%lookup_delete_Some. destruct (H2 h ch Hh) as (Hq & Hd & Hg). split_and!; [done|done|].
    rewrite elem_of_app. intros [?|Hx]; [done|]. destruct (stc_pending c !! hop) as [x|] eqn:E; [|by apply elem_of_nil in Hx].
    apply list_elem_of_singleton in Hx as ->. by apply Hne, (waiters_injective _ _ _ _ hop h x W).
  - intros ch [Hg|Hx]%elem_of_app; [by apply H5|]. destruct (stc_pending c !! hop) as [x|] eqn:E; [|by apply elem_of_nil in Hx].
    apply list_elem_of_singleton in Hx as ->. destruct (H2 hop x E) as ((q & Hq & _) & Hd & _). apply lookup_lt_Some in Hq. done.
  - intros ch [[h Hh]|[Hd|Hg]]%H6; [|by right; left|right; right; apply elem_of_app; by left].
    destruct (decide (h = hop)) as [->|Hne].
    + right; right. apply elem_of_app; right. rewrite Hh. by left.
    + left. exists h. by rewrite lookup_delete_ne.
Qed.

(** A new request, with an identifier that is not in the table. *)
Lemma waiters_new c reqs ds gone c' q :
  waiters c reqs ds gone -> stc_chans c' = S (stc_chans c) -> stc_pending c !! d_HopByHop q = None ->
  stc_pending c' = <[d_HopByHop q := stc_chans c]> (stc_pending c) -> waiters c' (reqs ++ [q]) ds gone.
Proof.
  intros W Hc Hn Hp. pose proof W as [H1 H2 H3 H4 H5 H6]. split; rewrite ?Hp; [rewrite Hc, H1, length_app; cbn; lia| | |done| |].
  - intros h ch [[<- <-]|[_ Hh]]%lookup_insert_Some.
    + rewrite H1. split; [exists q; split; [by apply list_lookup_middle|done]|]. split.
      * intros Hx%(waiters_bound _ _ _ _ _ W). lia.
      * intros Hx%H5. lia.
    + destruct (H2 h ch Hh) as ((q' & Hq & Hhop) & Hr). split; [|done]. exists q'. split; [by apply lookup_app_l_Some|done].
  - intros ch r Hr. destruct (H3 ch r Hr) as (q' & Hq & Hm). exists q'. split; [by apply lookup_app_l_Some|done].
  - intros ch Hg%H5. rewrite length_app. cbn. split; [lia|apply Hg].
  - intros ch. rewrite length_app. cbn. intros Hl. destruct (decide (ch = length reqs)) as [->|Hne].
    + left. exists (d_HopByHop q). rewrite <- H1. apply lookup_insert_eq.
    + destruct (H6 ch) as [[h Hh]|Hx]; [lia| |by right]. left. exists h. rewrite lookup_insert_ne; [done|]. congruence.
Qed.

Lemma waiters_deliver c reqs ds gone c' new :
  waiters c reqs ds gone -> stc_chans c' = stc_chans c ->
  (forall hop ch, stc_pending c' !! hop = Some ch <-> stc_pending c !! hop = Some ch /\ ch ∉ new.*1) ->
  NoDup new.*1 ->
  (forall ch r, (ch, r) ∈ new -> exists hop, stc_pending c !! hop = Some ch /\
     match r with Ok m => d_HopByHop m = hop /\ isRequest m = false | Err _ => True end) ->
  waiters c' reqs (ds ++ new) gone.
Proof.
  intros [H1 H2 H3 H4 H5 H6] Hc Hp Hn Hd.
  assert (Hnew : forall ch, ch ∈ new.*1 -> (ch ∉ ds.*1) /\ ch ∉ gone).
  { intros ch ([ch' r] & -> & Hr)%list_elem_of_fmap. destruct (Hd _ _ Hr) as (hop & Hh & _). by apply (H2 hop). }
  constructor.
  - congruence.
  - intros hop ch [H Hx]%Hp. destruct (H2 hop ch H) as (? & ? & ?). split; [done|]. rewrite fmap_app, elem_of_app. tauto.
  - intros ch r [H|H]%elem_of_app; [by apply H3|]. destruct (Hd ch r H) as (hop & Hh & Hr).
    destruct (H2 hop ch Hh) as [(q & Hq & Hhop) _]. exists q. split; [done|]. destruct r; [|done]. by rewrite Hhop.
  - rewrite fmap_app. apply NoDup_app. split_and!; [done| |done]. intros ch Hch Hx. by destruct (Hnew ch Hx).
  - intros ch Hg. split; [by apply H5|]. rewrite fmap_app, elem_of_app. intros [Hx|Hx]; [by apply (H5 ch)|by destruct (Hnew ch Hx)].
  - intros ch Hl. rewrite fmap_app, elem_of_app. destruct (decide (ch ∈ new.*1)) as [Hx|Hx]; [tauto|].
    destruct (H6 ch Hl) as [[hop Hh]|[?|?]]; [left|tauto|tauto]. exists hop. by apply Hp.
Qed.

Lemma pending_delete_all (p : gmap Z nat) ord : ord ≡ₚ map_to_list p -> foldr (fun kv => delete (fst kv)) p ord = ∅.
Proof.
  intros Hord. apply map_eq. intros k. rewrite lookup_empty.
  assert (G : forall l : list (Z * nat), foldr (fun kv => delete (fst kv)) p l !! k = if decide (k ∈ l.*1) then None else p !! k).
  { induction l as [|[k' v] l IH]; cbn [foldr fmap list_fmap fst].
    - rewrite decide_False; [done|]. apply not_elem_of_nil.
    - rewrite lookup_delete, IH. repeat case_decide; try done; set_solver. }
  rewrite G. case_decide as H; [done|]. destruct (p !! k) as [v|] eqn:E; [|done]. exfalso. apply H.
  apply list_elem_of_fmap. exists (k, v). split; [done|]. rewrite Hord. by apply elem_of_map_to_list.
Qed.

Lemma failPending_waiters c reqs ds gone ord e c' o :
  waiters c reqs ds gone -> ord ≡ₚ map_to_list (stc_pending c) -> failPendingLocked c ord e = (c', o) ->
  waiters c' reqs (ds ++ deliveries o) gone /\ stc_pending c' = ∅ /\
  (forall hop ch, stc_pending c !! hop = Some ch -> (ch, Err e) ∈ deliveries o).
Proof.
  intros Hw Hord [= <- <-]. cbn [stc_pending upd].
  assert (Hd : deliveries (map (fun kv => OutDeliver (snd kv) (Err e)) ord) = (fun kv => (snd kv, Err e)) <$> ord)
    by (clear; induction ord as [|kv ord IH]; [done|]; cbn; by f_equal).
  assert (Hin : forall hop ch, (hop, ch) ∈ ord <-> stc_pending c !! hop = Some ch)
    by (intros hop ch; rewrite Hord; apply elem_of_map_to_list).
  rewrite Hd. split_and!.
  - apply (waiters_deliver c); [done|done| | |].
    + intros hop ch. cbn [stc_pending upd]. rewrite pending_delete_all by done. split; [by intros ?%lookup_empty_Some|].
      intros [Hh Hn]. destruct Hn. apply list_elem_of_fmap. exists (ch, Err e). split; [done|].
      apply list_elem_of_fmap. exists (hop, ch). split; [done|by apply Hin].
    + rewrite <- list_fmap_compose. apply NoDup_fmap_2_strong; [|rewrite Hord; apply NoDup_map_to_list].
      intros [h1 c1] [h2 c2] H1 H2 Heq. cbn in Heq. subst c2. f_equal.
      by apply (waiters_injective _ _ _ _ h1 h2 c1 Hw); apply Hin.
    + intros ch r ([h c1] & Heq & Hi)%list_elem_of_fmap. cbn in Heq. injection Heq as -> ->. exists h. split; [by apply Hin|done].
  - by apply pending_delete_all.
  - intros hop ch H%Hin. apply list_elem_of_fmap. by exists (hop, ch).
Qed.

Lemma handleRequest_delivers c m ok : deliveries (sta_handleRequest c m ok) = [].
Proof.
  unfold sta_handleRequest, answerMalformedDER, answerDisconnectRequest, deliveries.
  repeat (case_match; try done).
Qed.

(** An answer is handed to the request with its identifier, if one waits. *)
Lemma readMessage_answer c m ok c' o : isRequest m = false -> readMessage c m ok = (c', o) ->
  stc_pending c' = delete (d_HopByHop m) (stc_pending c) /\ stc_chans c' = stc_chans c /\
  deliveries o = match stc_pending c !! d_HopByHop m with Some ch => [(ch, Ok m)] | None => [] end.
Proof. unfold readMessage. intros -> [= <- <-]. split; [done|]. split; [done|]. by destruct (stc_pending c !! _). Qed.

Lemma waiters_read c reqs ds gone m ok c' o :
  waiters c reqs ds gone -> readMessage c m ok = (c', o) -> waiters c' reqs (ds ++ deliveries o) gone.
Proof.
  intros Hw. destruct (isRequest m) eqn:Hm.
  { unfold readMessage. rewrite Hm. intros [= <- <-]. by rewrite handleRequest_delivers, app_nil_r. }
  intros (Hp & Hc & Ho)%(readMessage_answer _ _ _ _ _ Hm). rewrite Ho. clear Ho. destruct (stc_pending c !! d_HopByHop m) as [ch0|] eqn:E.
  - apply (waiters_deliver c); [done|done| | |].
    + intros h ch. rewrite Hp, lookup_delete_Some. cbn [fmap list_fmap fst]. rewrite list_elem_of_singleton. split.
      * intros [Hne Hh]. split; [done|]. intros ->. by apply Hne, (waiters_injective _ _ _ _ _ _ ch0 Hw).
      * intros [Hh Hne]. split; [|done]. intros Eh. rewrite Eh in E. congruence.
    + apply NoDup_singleton.
    + intros ch r [= -> ->]%list_elem_of_singleton. by exists (d_HopByHop m).
  - rewrite app_nil_r. apply (waiters_same c); [done|done|]. rewrite Hp. by apply delete_id.
Qed.

Lemma waiters_sent c reqs ds gone cmd app prox avps we c' r o :
  waiters c reqs ds gone -> sta_exec c (SeSend cmd app prox avps we) = (c', r, o) ->
  waiters c' (reqs ++ r) (ds ++ deliveries o) (gone ++ gives_up c (SeSend cmd app prox avps we)).
Proof.
  intros Hw. cbn [sta_exec gives_up]. unfold newRequest, sendRequest. set (c1 := upd stc_nextEnd _ _).
  set (q := mkMessage _ _ _ _ _ _). assert (W1 : waiters c1 reqs ds gone) by (by apply (waiters_same c)).
  change (stc_pending c) with (stc_pending c1). change (stc_chans c) with (stc_chans c1). clearbody c1 q.
  destruct (stc_conn c1); [|intros [= <- <- <-]; by rewrite !app_nil_r].
  set (c2 := abandonRequest c1 (d_HopByHop q)).
  assert (W2 : waiters c2 reqs ds (gone ++ option_list (stc_pending c1 !! d_HopByHop q))) by (by apply (waiters_abandon c1)).
  set (c3 := c1 <| stc_pending ::= <[d_HopByHop q := stc_chans c1]> |> <| stc_chans ::= S |>).
  assert (W3 : waiters c3 (reqs ++ [q]) ds (gone ++ option_list (stc_pending c1 !! d_HopByHop q))).
  { apply (waiters_new c2); [done|done|apply lookup_delete_eq|]. cbn. by rewrite insert_delete_eq. }
  unfold sendRequestOnConn. destruct we as [e|]; intros [= <- <- <-]; cbn [deliveries omap list_omap]; rewrite !app_nil_r; [|exact W3].
  pose proof (waiters_abandon c3 _ _ _ (d_HopByHop q) (abandonRequest c3 (d_HopByHop q)) W3 eq_refl eq_refl) as W4.
  assert (E : stc_pending c3 !! d_HopByHop q = Some (stc_chans c1)) by apply lookup_insert_eq.
  rewrite E, <- app_assoc in W4. exact W4.
Qed.

Lemma sta_exec_waiters c reqs ds gone ev c' r o :
  waiters c reqs ds gone -> event_ok c ev -> sta_exec c ev = (c', r, o) ->
  waiters c' (reqs ++ r) (ds ++ deliveries o) (gone ++ gives_up c ev).
Proof.
  intros Hw Hok. destruct ev as [cmd app prox avps we|hop|m ok|conn|conn ord msg e|ord].
  - by apply waiters_sent.
  - cbn [sta_exec gives_up]. intros [= <- <- <-]. cbn [deliveries omap list_omap]. rewrite !app_nil_r. by apply (waiters_abandon c).
  - cbn [sta_exec gives_up]. destruct (readMessage c m ok) as [c1 o1] eqn:E. intros [= <- <- <-]. rewrite !app_nil_r. by eapply waiters_read.
  - cbn [sta_exec gives_up]. intros [= <- <- <-]. cbn [deliveries omap list_omap]. rewrite !app_nil_r. by apply (waiters_same c).
  - cbn [sta_exec gives_up]. unfold disconnected. set (c1 := setStatus _ _ _ _).
    assert (Hp1 : stc_pending c1 = stc_pending c /\ stc_chans c1 = stc_chans c) by (unfold c1; by destruct (bool_decide _)).
    destruct Hp1 as [Hp1 Hc1]. destruct (failPendingLocked c1 ord e) as [c2 o2] eqn:E. intros [= <- <- <-]. rewrite !app_nil_r.
    apply (failPending_waiters c1 reqs ds gone ord e c2 o2); [by apply (waiters_same c)|by rewrite Hp1|done].
  - cbn [sta_exec gives_up]. unfold Stop. set (c1 := upd stc_status _ c).
    destruct (failPendingLocked c1 ord _) as [c2 o2] eqn:E. intros [= <- <- <-]. rewrite !app_nil_r.
    refine (proj1 (failPending_waiters c1 reqs ds gone ord _ c2 o2 _ Hok E)). by apply (waiters_same c).
Qed.

Lemma sta_run_waiters cfg now c reqs outs gone :
  sta_run (NewSTaClient cfg now) c reqs outs gone -> waiters c reqs (deliveries outs) gone.
Proof.
  induction 1 as [|c reqs outs gone ev c' r o _ IH Hok E].
  - constructor; [done|..]; cbn; [by intros ? ? ?%lookup_empty_Some|by intros ? ? ?%elem_of_nil|constructor|by intros ? ?%elem_of_nil|lia].
  - rewrite deliveries_app. by eapply sta_exec_waiters.
Qed.

(** C27: in every run of the client, each request that was given a channel is
    at every moment in exactly one place: it waits in the table under its
    hop-by-hop identifier, or it was handed exactly one result, or it was
    given up ([gives_up]: by its caller, because the write failed, or because
    the 32-bit identifier came round).  An answer that is read goes to the
    request that waits under its identifier, and to nobody else; the messages
    handed over are answers with the identifier of their request; and when the
    connection is lost each waiting request gets the error. *)
Theorem sta_waiters_served cfg now c reqs outs gone :
  sta_run (NewSTaClient cfg now) c reqs outs gone ->
  (forall ch, (ch < length reqs)%nat ->
     let waits := exists hop, stc_pending c !! hop = Some ch in
     (waits \/ ch ∈ (deliveries outs).*1 \/ ch ∈ gone) /\
     ~ (waits /\ ch ∈ (deliveries outs).*1) /\ ~ (waits /\ ch ∈ gone) /\ ~ (ch ∈ (deliveries outs).*1 /\ ch ∈ gone)) /\
  NoDup (deliveries outs).*1 /\
  (forall m ok c' o, isRequest m = false -> readMessage c m ok = (c', o) ->
     deliveries o = match stc_pending c !! d_HopByHop m with Some ch => [(ch, Ok m)] | None => [] end /\
     stc_pending c' = delete (d_HopByHop m) (stc_pending c)) /\
  (forall ch m, (ch, Ok m) ∈ deliveries outs ->
     exists q, reqs !! ch = Some q /\ d_HopByHop m = d_HopByHop q /\ isRequest m = false) /\
  (forall conn ord msg e c' o, ord ≡ₚ map_to_list (stc_pending c) -> disconnected c conn ord msg e = (c', o) ->
     stc_pending c' = ∅ /\ forall hop ch, stc_pending c !! hop = Some ch -> (ch, Err e) ∈ deliveries o).
Proof.
  intros W%sta_run_waiters. split_and!; [| |intros m ok c' o Hm E| |].
  - intros ch Hl waits. split_and!; [by apply (wt_all _ _ _ _ W)| | |].
    + intros [[hop Hh] Hd]. by destruct (wt_pending _ _ _ _ W _ _ Hh) as (_ & ? & _).
    + intros [[hop Hh] Hd]. by destruct (wt_pending _ _ _ _ W _ _ Hh) as (_ & _ & ?).
    + intros [Hd Hg]. by destruct (wt_gone _ _ _ _ W _ Hg).
  - apply W.
  - by destruct (readMessage_answer _ _ _ _ _ Hm E) as (? & _ & ?).
  - intros ch m H. by destruct (wt_delivered _ _ _ _ W ch _ H) as (q & Hq & Hm); exists q.
  - intros conn ord msg e c' o Hord. unfold disconnected. set (c1 := setStatus _ _ _ _). intros E.
    assert (Hp1 : stc_pending c1 = stc_pending c /\ stc_chans c1 = stc_chans c) by (unfold c1; by destruct (bool_decide _)).
    destruct Hp1 as [Hp1 Hc1].
    destruct (failPending_waiters c1 reqs (deliveries outs) gone ord e c' o) as (_ & H2 & H3); [by apply (waiters_same c)|by rewrite Hp1|done|].
    split; [done|]. intros hop ch. rewrite <- Hp1. apply H3.
Qed.

(** Runs as lists of events. *)
Fixpoint sta_play (c : STaDiameterClient) (reqs : list message) (outs : list sta_out) (gone : list nat) (evs : list sta_event) :=
  match evs with
  | [] => (c, reqs, outs, gone)
  | ev :: evs => let '(c', r, o) := sta_exec c ev in sta_play c' (reqs ++ r)%list (outs ++ o)%list (gone ++ gives_up c ev)%list evs
  end.

Fixpoint plays_ok (c : STaDiameterClient) (evs : list sta_event) : Prop :=
  match evs with
  | [] => True
  | ev :: evs => event_ok c ev /\ plays_ok (fst (fst (sta_exec c ev))) evs
  end.

Lemma sta_play_run c0 evs : forall c reqs outs gone,
  sta_run c0 c reqs outs gone -> plays_ok c evs ->
  let '(c', reqs', outs', gone') := sta_play c reqs outs gone evs in sta_run c0 c' reqs' outs' gone'.
Proof.
  induction evs as [|ev evs IH]; intros c reqs outs gone Hr; cbn [sta_play plays_ok]; [done|]. intros [Hok Hp].
  destruct (sta_exec c ev) as [[c' r] o] eqn:E. apply IH; [by eapply sr_step|done].
Qed.

(** A watchdog request is answered, a second one is lost with the connection. *)
Definition demo_dwa : message := mkMessage 0 commandDWR 0 6 6 [uint32AVP avpResultCode 0 2001].

Definition demo_events : list sta_event :=
  [SeOpened 0; SeSend commandDWR 0 false [] None; SeRead demo_dwa true; SeSend commandDWR 0 false [] None;
   SeLost 0 [(7, 1%nat)] "EOF" (SMsg "EOF"); SeOpened 1; SeSend commandDWR 0 false [] (Some (SMsg "broken pipe"));
   SeSend commandDWR 0 false [] None; SeAbandon 9].

(** The second watchdog request is lost with the connection, the third cannot
    be written, the fourth is given up. *)
Lemma sta_waiters_served_witness :
  exists c reqs outs gone, sta_run (NewSTaClient demo_sta_cfg 5) c reqs outs gone /\
    deliveries outs = [(0%nat, Ok demo_dwa); (1%nat, Err (SMsg "EOF"))] /\ gone = [2%nat; 3%nat] /\
    NoDup (deliveries outs).*1.
Proof.
  pose proof (sta_play_run _ demo_events _ _ _ _ (sr_start (NewSTaClient demo_sta_cfg 5))) as H.
  assert (Hok : plays_ok (NewSTaClient demo_sta_cfg 5) demo_events) by (vm_compute; done).
  specialize (H Hok). destruct (sta_play _ [] [] [] demo_events) as [[[c reqs] outs] gone] eqn:E.
  exists c, reqs, outs, gone. split; [exact H|].
  split; [|split; [|apply (sta_waiters_served _ _ _ _ _ _ H)]].
  - apply (f_equal (fun x => deliveries (snd (fst x)))) in E. cbn [snd fst] in E. rewrite <- E. vm_compute. reflexivity.
  - apply (f_equal snd) in E. cbn [snd] in E. rewrite <- E. vm_compute. reflexivity.
Defined.
