(* ===== verification/StaProvider.v ===== *)
(** The AAA provider ([internal/aaa/sta.go], [aaa.go]) on top of the STa client:
    what the lifecycle service calls to authenticate a subscriber.  The
    provider is written against the interface [diameter.STaClient]; its
    theorems hold for every client that returns, and for the real client an
    accepted subscriber is traced back to the peer's answer. *)
From S2P Require Import Prelude.
From S2P Require Import GoNet.
From S2P Require Import Config.
From S2P Require Import Diameter.
From S2P Require Import EapAka.
From S2P Require Import StaClient.
From S2P Require Import StaFacts.
From S2P Require Import Lifecycle.
Open Scope string_scope.
Open Scope Z_scope.

(** * Validation *)
Definition AuthRequest_Validate (r : AuthRequest) : option gerr :=
  if (negb (nonempty (arq_IMSI r)) && negb (nonempty (arq_Username r)) && negb (nonempty (arq_MACAddress r)))%bool
  then Some (errorf "auth request requires imsi, username, or mac address")
  else if negb (nonempty (arq_APN r)) then Some (errorf "auth request requires apn")
  else if negb (nonempty (arq_Realm r)) then Some (errorf "auth request requires realm")
  else None.

Definition EAPRequest_Validate (r : AAAEAPRequest) : option gerr :=
  if (negb (nonempty (erq_IMSI r)) && negb (nonempty (erq_Username r)) && negb (nonempty (erq_MACAddress r)))%bool
  then Some (errorf "eap request requires imsi, username, or mac address")
  else if negb (nonempty (erq_APN r)) then Some (errorf "eap request requires apn")
  else if negb (nonempty (erq_Realm r)) then Some (errorf "eap request requires realm")
  else if negb (non_nil (erq_EAPPayload r)) then Some (errorf "eap request requires eap payload")
  else None.

(** * The interface of the client *)
Class StaClientOps := {
  client_Authenticate : STaAuthRequest -> go (result STaAuthResult gerr);
  client_ExchangeEAP : STaEAPRequest -> go (result STaEAPResult gerr)
}.

(** A client that always returns. *)
Class StaClientTotal `{StaClientOps} : Prop := {
  auth_returns : forall q, exists r, client_Authenticate q = Some r;
  eap_returns : forall q, exists r, client_ExchangeEAP q = Some r
}.

(** [EAPState(res.State)] *)
Definition of_sta_state (s : STaEAPState) : EAPState :=
  match s with
  | STaEAPStateChallenge => EAPStateChallenge
  | STaEAPStateSuccess => EAPStateSuccess
  | STaEAPStateFailure => EAPStateFailure
  end.

Section Provider.
Context `{StaClientOps}.

Definition provider_Authenticate (req : AuthRequest) : go (option AuthResult * option gerr) :=
  match AuthRequest_Validate req with
  | Some e => Some (None, Some e)
  | None =>
    r ← client_Authenticate (mkSTaAuthRequest (arq_IMSI req) (arq_MSISDN req) (arq_Username req) (arq_Realm req)
                               (arq_APN req) (arq_Ki req) (arq_OPc req));
    Some match r with
    | Err e => (None, Some e)
    | Ok res =>
      let result allowed := mkAuthResult allowed (coalesce [sa_IMSI res; arq_IMSI req])
        (coalesce [sa_MSISDN res; arq_MSISDN req]) (coalesce [sa_APN res; arq_APN req])
        (coalesce [sa_IMSI res; arq_IMSI req; arq_Username req; arq_MACAddress req]) (sa_Reason res) (sa_ResultCode res) in
      if negb (sa_Allowed res) then (Some (result false), Some ErrRejected) else (Some (result true), None)
    end
  end.

Definition provider_ExchangeEAP (req : AAAEAPRequest) : go (option EAPResult * option gerr) :=
  match EAPRequest_Validate req with
  | Some e => Some (None, Some e)
  | None =>
    r ← client_ExchangeEAP (mkSTaEAPRequest (erq_SessionID req) (erq_IMSI req) (erq_MSISDN req) (erq_Username req)
                              (erq_Realm req) (erq_APN req) (erq_EAPPayload req));
    Some match r with
    | Err e => (None, Some e)
    | Ok res =>
      let result := mkEAPResult (sx_SessionID res) (of_sta_state (sx_State res)) (sx_Allowed res)
        (coalesce [sx_IMSI res; erq_IMSI req]) (coalesce [sx_MSISDN res; erq_MSISDN req])
        (coalesce [sx_APN res; erq_APN req])
        (coalesce [sx_IMSI res; erq_IMSI req; erq_Username req; erq_MACAddress req]) (sx_Reason res)
        (sx_ResultCode res) (sx_EAPPayload res) (sx_MSK res) in
      if (bool_decide (er_State result = EAPStateFailure)
          || negb (er_Allowed result) && negb (bool_decide (er_State result = EAPStateChallenge)))%bool
      then (Some result, Some ErrRejected) else (Some result, None)
    end
  end.
End Provider.

(** [NewProvider] refuses a missing client. *)
Definition NewProvider (sta : option StaClientOps) : result StaClientOps gerr :=
  match sta with
  | None => Err (errorf "sta aaa provider requires sta client")
  | Some c => Ok c
  end.

(** * The real client behind the interface *)
Definition sta_error (e : sta_err) : gerr :=
  match e with
  | SMsg msg => errorf msg
  | SAka _ => errorf "eap-aka"
  | SDecode _ => errorf "diameter decode"
  | SCanceled msg => mkErr msg false true
  end.

Section RealClient.
Context (peer : list message -> result message sta_err) (c : STaDiameterClient) (open : option sta_err) (now : Time).
Hypothesis peer_ok : forall h m, peer h = Ok m -> avps_ok m.

Definition of_result {A} (r : result A sta_err) : result A gerr :=
  match r with Ok a => Ok a | Err e => Err (sta_error e) end.

#[local] Instance real_client : StaClientOps := {
  client_Authenticate := fun q => '(_, _, r) ← Authenticate peer c open q now; Some (of_result r);
  client_ExchangeEAP := fun q => '(_, _, r) ← sta_ExchangeEAP peer c open q now; Some (of_result r)
}.

(** One request of a relayed exchange, and what its result says. *)
Lemma sta_ExchangeEAP_spec q :
  exists c' sent r, sta_ExchangeEAP peer c open q now = Some (c', sent, r) /\
    forall res, r = Ok res -> exists m answer, sent = [m] /\ peer [m] = Ok answer /\ eap_reflects answer res /\
      findAVP (d_AVPs m) avpEAPPayload 0 = Some (mkAVP avpEAPPayload 0 flagMandatory (se_EAPPayload q)) /\
      sx_IMSI res = se_IMSI q /\
      der_of (stc_cfg c) (if nonempty (se_SessionID q) then se_SessionID q else sta_session_id (stc_cfg c) now)
        (if nonempty (se_IMSI q) then se_IMSI q else se_Username q) (se_APN q) m.
Proof using peer_ok.
  unfold sta_ExchangeEAP. case_match; [by do 3 eexists|]. case_match; [by do 3 eexists|].
  destruct open; [by do 3 eexists|].
  match goal with |- context [newDER c ?s ?u ?a ?p] => destruct (newDER c s u a p) as [c1 m] eqn:E end.
  destruct (newDER_spec _ _ _ _ _ _ _ E) as (Hc & Hm & _ & _ & Hp).
  destruct (peer [m]) as [answer|] eqn:Ep; [|by do 3 eexists].
  match goal with |- context [eapExchangeResult c1 q ?s answer] =>
    destruct (eapExchangeResult_spec c1 q s answer (peer_ok _ _ Ep)) as (code & res & -> & Href & _ & Hi & _) end.
  cbn [mbind option_bind]. do 3 eexists. split; [done|]. intros res' [= <-]. exists m, answer. done.
Qed.

#[local] Instance real_client_total : StaClientTotal.
Proof using peer_ok.
  split; intros q; cbn.
  - destruct (Authenticate_returns peer peer_ok c open q now) as (c' & sent & r & ->). by eexists.
  - destruct (sta_ExchangeEAP_spec q) as (c' & sent & r & -> & _). by eexists.
Qed.

(** An accepted outcome of a relayed exchange and the peer's answer. *)
Lemma provider_eap_accept q res :
  provider_ExchangeEAP q = Some (Some res, None) -> er_State res <> EAPStateChallenge ->
  exists m answer, peer [m] = Ok answer /\
    findAVP (d_AVPs m) avpEAPPayload 0 = Some (mkAVP avpEAPPayload 0 flagMandatory (erq_EAPPayload q)) /\
    answer_code answer = Some (er_ResultCode res) /\ diameter_success (er_ResultCode res) = true /\
    eap_success_or_none answer /\ er_State res = EAPStateSuccess /\ er_Allowed res = true /\
    er_EAPPayload res = match findAVP (d_AVPs answer) avpEAPPayload 0 with Some a => v_Data a | None => [] end /\
    (er_MSK res <> [] -> length (er_MSK res) = 64%nat /\
       exists a, findAVP (d_AVPs answer) avpEAPMasterSessionKey 0 = Some a /\ v_Data a = er_MSK res).
Proof using peer_ok.
  unfold provider_ExchangeEAP. destruct (EAPRequest_Validate q); [done|]. cbn [client_ExchangeEAP real_client].
  match goal with |- context [sta_ExchangeEAP peer c open ?r now] =>
    destruct (sta_ExchangeEAP_spec r) as (c' & sent & r' & -> & Hr) end.
  cbn [mbind option_bind]. destruct r' as [sr|e]; cbn [of_result]; [|done].
  destruct (Hr sr eq_refl) as (m & answer & -> & Hp & [Hc Hal Hs Hch Hpl Hmsk] & Hpay & _).
  cbn [er_State er_Allowed]. destruct (_ || _)%bool eqn:Eb; [done|]. intros [= <-]. cbn [er_State]. intros Hnc.
  apply orb_false_iff in Eb as [_ Eb]. rewrite bool_decide_eq_false_2 in Eb by done. cbn [negb] in Eb.
  rewrite andb_true_r in Eb. apply negb_false_iff in Eb. destruct (Hal Eb) as (Hd & He & Hst).
  exists m, answer. cbn [er_ResultCode er_State er_Allowed er_EAPPayload er_MSK]. rewrite Hst. split_and!; try done.
  intros Hne. by destruct (Hmsk Hne) as (_ & Hl & Ha).
Qed.

(** C26: over the real client [Authenticate] always returns, and it authorises a
    subscriber only on the peer's word: the exchange is at most five DERs, all
    of one Diameter session and for one user, and the answer to the last has
    result code 2001 or 2002 and no EAP payload but a success.  An error is
    the rejection of an answer that has not, or that of a failed exchange. *)
Theorem provider_authenticates q :
  exists res err, provider_Authenticate q = Some (res, err) /\
  (err = None -> exists r sent answer, res = Some r /\ au_Allowed r = true /\ (length sent <= 5)%nat /\
     Forall (der_of (stc_cfg c) (sta_session_id (stc_cfg c) now)
               (if nonempty (arq_IMSI q) then arq_IMSI q else arq_Username q) (arq_APN q)) sent /\
     peer sent = Ok answer /\ answer_code answer = Some (au_ResultCode r) /\
     diameter_success (au_ResultCode r) = true /\ eap_success_or_none answer) /\
  (forall r, res = Some r -> err <> None -> err = Some ErrRejected /\ au_Allowed r = false).
Proof using peer_ok.
  unfold provider_Authenticate. destruct (AuthRequest_Validate q); [by do 2 eexists|]. cbn [client_Authenticate real_client].
  match goal with |- context [Authenticate peer c open ?r now] =>
    destruct (Authenticate_spec peer peer_ok c open r now) as (c' & sent & r' & -> & Hlen & Hder & Hr) end.
  cbn [mbind option_bind]. destruct r' as [sr|e]; cbn [of_result]; [|by do 2 eexists].
  destruct (Hr sr eq_refl) as (answer & Hp & Hc & _ & Hal). destruct (sa_Allowed sr) eqn:Ea; cbn [negb].
  - destruct (proj1 Hal eq_refl) as [Hs He]. do 2 eexists. split; [done|]. split; [|done]. intros _.
    eexists _, sent, answer. cbn [au_Allowed au_ResultCode]. done.
  - do 2 eexists. split; [done|]. split; [done|]. by intros r [= <-] _.
Qed.
End RealClient.

Lemma coalesce_second a b l : b <> "" -> coalesce (a :: b :: l) <> "".
Proof.
  intros Hb. cbn [coalesce]. destruct (nonempty a) eqn:Ea; [by apply nonempty_spec|].
  by rewrite (proj2 (nonempty_spec b) Hb).
Qed.

Section Contract.
Context `{StaClientTotal}.

Lemma provider_auth_result q : exists res err, provider_Authenticate q = Some (res, err) /\
  (err = None -> exists r, res = Some r /\ au_Allowed r = true /\
     (arq_IMSI q <> "" -> au_IMSI r <> "" /\ au_SubscriberID r <> "")).
Proof.
  unfold provider_Authenticate. destruct (AuthRequest_Validate q); [by do 2 eexists|].
  match goal with |- context [client_Authenticate ?r] => destruct (auth_returns r) as [r' ->] end.
  cbn [mbind option_bind]. destruct r' as [sr|e]; [|by do 2 eexists].
  destruct (sa_Allowed sr); cbn [negb]; [|by do 2 eexists]. do 2 eexists. split; [done|]. intros _.
  eexists. split; [done|]. cbn [au_Allowed au_IMSI au_SubscriberID]. auto using coalesce_second.
Qed.

Lemma provider_eap_result q : exists res err, provider_ExchangeEAP q = Some (res, err) /\
  (err = None -> exists r, res = Some r /\
     (er_State r = EAPStateChallenge \/ er_Allowed r = true /\ er_State r <> EAPStateFailure) /\
     (erq_IMSI q <> "" -> er_IMSI r <> "" /\ er_SubscriberID r <> "")).
Proof.
  unfold provider_ExchangeEAP. destruct (EAPRequest_Validate q); [by do 2 eexists|].
  match goal with |- context [client_ExchangeEAP ?r] => destruct (eap_returns r) as [r' ->] end.
  cbn [mbind option_bind]. destruct r' as [sr|e]; [|by do 2 eexists]. cbn [er_State er_Allowed].
  destruct (_ || _)%bool eqn:Eb; [by do 2 eexists|]. do 2 eexists. split; [done|]. intros _.
  eexists. split; [done|]. cbn [er_State er_Allowed er_IMSI er_SubscriberID]. split; [|auto using coalesce_second].
  apply orb_false_iff in Eb as [E1 E2]. apply bool_decide_eq_false in E1.
  destruct (bool_decide_reflect (of_sta_state (sx_State sr) = EAPStateChallenge)); [by left|right].
  cbn [negb] in E2. rewrite andb_true_r in E2. apply negb_false_iff in E2. done.
Qed.
End Contract.

(** The test subscriber through the provider, with a peer that accepts at once. *)
Definition demo_accepting (h : list message) : result message sta_err := Ok (demo_answer 2001 [3; 8; 0; 4]).

Lemma demo_accepting_ok h m : demo_accepting h = Ok m -> avps_ok m.
Proof.
  intros [= <-]. apply demo_answer_ok.
  repeat (apply bytes_ok_cons; split; [unfold byte_ok; lia|]); constructor.
Qed.

Definition demo_aaa_request : AuthRequest :=
  mkAuthRequest "001010000000001" "" "" "" "realm" "internet" "465b5ce8b199b49faa5f0a2ee238a6bc"
    "cd63cb71954a9f4e48a5994e37a02baf".

Lemma demo_provider_accepts :
  fmap snd (provider_Authenticate (H := real_client demo_accepting (NewSTaClient demo_sta_cfg 5) None 7) demo_aaa_request)
  = Some None.
Proof. vm_compute. reflexivity. Qed.

Lemma provider_authenticates_witness :
  exists r, provider_Authenticate (H := real_client demo_accepting (NewSTaClient demo_sta_cfg 5) None 7)
      demo_aaa_request = Some (Some r, None) /\
    exists sent answer, (length sent <= 5)%nat /\ demo_accepting sent = Ok answer /\
      answer_code answer = Some (au_ResultCode r).
Proof.
  destruct (provider_authenticates demo_accepting (NewSTaClient demo_sta_cfg 5) None 7 demo_accepting_ok
    demo_aaa_request) as (res & err & E & H & _).
  pose proof demo_provider_accepts as E'. rewrite E in E'. injection E' as ->.
  destruct (H eq_refl) as (r & sent & answer & -> & _ & Hl & _ & Hp & Hc & _).
  exists r. split; [exact E|]. exists sent, answer. split_and!; assumption.
Defined.
