(* ===== verification/EapChain.v ===== *)
(** The EAP path as a whole: the lifecycle service on top of the AAA provider,
    the STa client and the Diameter peer.  The provider discharges what the
    service assumes of its AAA interface, so that the service's guarantee and
    the client's compose. *)
From S2P Require Import Prelude.
From S2P Require Import GoNet.
From S2P Require Import Config.
From S2P Require Import Session.
From S2P Require Import Diameter.
From S2P Require Import EapAka.
From S2P Require Import StaClient.
From S2P Require Import StaFacts.
From S2P Require Import Lifecycle.
From S2P Require Import LifecycleFacts.
From S2P Require Import LifecycleProps.
From S2P Require Import StaProvider.
Open Scope string_scope.
Open Scope Z_scope.

Section Chain.
(** The peer, the client and its connection at each question of the service. *)
Context (E : Env) (peer : nat -> list message -> result message sta_err)
  (c : nat -> STaDiameterClient) (open : nat -> option sta_err).
Hypothesis peer_ok : forall n h m, peer n h = Ok m -> avps_ok m.

Definition aaa_client (n : nat) : StaClientOps := real_client (peer n) (c n) (open n) (v_now E n).

(** The environment whose AAA provider is the STa provider. *)
Definition with_aaa : Env := {|
  v_cfg := v_cfg E; v_user := v_user E; v_access := v_access E; v_dynamic := v_dynamic E;
  v_pgwIsGTP := v_pgwIsGTP E; v_now := v_now E; v_ids := v_ids E; v_rmac := v_rmac E; v_rimsi := v_rimsi E;
  v_lock := v_lock E; v_ctxErr := v_ctxErr E;
  v_authenticate := fun n q => default (None, None) (provider_Authenticate (H := aaa_client n) q);
  v_exchangeEAP := fun n q => default (None, None) (provider_ExchangeEAP (H := aaa_client n) q);
  v_createSession := v_createSession E; v_add := v_add E; v_remove := v_remove E; v_disconnect := v_disconnect E
|}.

(** What is left to assume of the environment. *)
Record rest_ok : Prop := {
  rk_gtp : v_pgwIsGTP E = true;
  rk_access : v_access E = true -> v_user E = true;
  rk_ids : forall n m, v_ids E n m ≡ₚ map_to_list (byID m)
}.

Lemma with_aaa_ok : rest_ok -> env_ok with_aaa.
Proof using peer_ok.
  intros [H1 H2 H3].
  pose proof (fun n => real_client_total (peer n) (c n) (open n) (v_now E n) (peer_ok n)) as Ht.
  split; [done|done| | |done]; intros n q; cbn.
  - destruct (provider_auth_result (H := aaa_client n) (H0 := Ht n) q) as (res & err & E' & Hr).
    rewrite E'. cbn. intros -> He. destruct (Hr He) as (? & ? & _). done.
  - destruct (provider_eap_result (H := aaa_client n) (H0 := Ht n) q) as (res & err & E' & Hr).
    rewrite E'. cbn. intros -> He. destruct (Hr He) as (? & ? & _). done.
Qed.

(** The AAA answer behind a success of the service. *)
Lemma ExchangeEAP_asks (E' : Env) req w w' resp :
  ExchangeEAP E' req w = Some (w', (Some resp, None)) -> pr_State resp = "success" ->
  exists q res, v_exchangeEAP E' (sv_questions w) q = (Some res, None) /\ erq_EAPPayload q = p_EAPPayload req /\
    er_State res = EAPStateSuccess /\ pr_EAPPayload resp = er_EAPPayload res /\ pr_MSK resp = er_MSK res.
Proof.
  unfold ExchangeEAP. cbv zeta. set (req' := eapWithDefaults E' req). unfold bind at 1, ask.
  set (q := mkAAAEAPRequest _ _ _ _ _ _ _ _).
  assert (Hq : erq_EAPPayload q = p_EAPPayload req)
    by (cbn [q erq_EAPPayload]; unfold req', eapWithDefaults; repeat case_match; done).
  destruct (v_exchangeEAP E' _ q) as [[res|] err] eqn:Ev; [|by destruct err].
  destruct (bool_decide (er_State res = EAPStateChallenge)) eqn:Ec.
  { apply bool_decide_eq_true in Ec. intros [= <- <-]. cbn. by rewrite Ec. }
  destruct err as [e|]; [done|]. destruct (_ || _)%bool eqn:Eb; [intros [= <- <-]; done|].
  apply orb_false_iff in Eb as [Eb _]. apply negb_false_iff, bool_decide_eq_true in Eb. intros H _.
  exists q, res. split_and!; [done|done|done|..].
  all: revert H; unfold bind; destruct (AttachAuthorized _ _ _ _) as [[w1 [[a|] [e|]]]|]; try done.
  all: unfold ret; intros [= <- <-]; done.
Qed.

(** When the RADIUS server is told "success", the Diameter peer was sent a DER
    with the subscriber's very EAP packet and answered it with result code
    2001 or 2002 and no EAP payload but a success; the EAP packet and the MSK
    handed to the access point are the peer's; and the session named in the
    answer is registered, active and holds its PGW session. *)
Lemma access_accept_end_to_end n w req w' resp :
  rest_ok -> reached with_aaa n w -> n + 1 < 2 ^ 64 ->
  ExchangeEAP with_aaa req w = Some (w', (Some resp, None)) -> pr_State resp = "success" ->
  (exists m answer, peer (sv_questions w) [m] = Ok answer /\
     findAVP (d_AVPs m) avpEAPPayload 0 = Some (mkAVP avpEAPPayload 0 flagMandatory (p_EAPPayload req)) /\
     (exists code, answer_code answer = Some code /\ diameter_success code = true) /\ eap_success_or_none answer /\
     pr_EAPPayload resp = match findAVP (d_AVPs answer) avpEAPPayload 0 with Some a => v_Data a | None => [] end /\
     (pr_MSK resp <> [] -> length (pr_MSK resp) = 64%nat /\
        exists a, findAVP (d_AVPs answer) avpEAPMasterSessionKey 0 = Some a /\ v_Data a = pr_MSK resp)) /\
  (exists s, get w' (pr_SessionID resp) = Some s /\ s_State s = State.Active /\
     pr_SubscriberIP resp = ipString (s_SubscriberIP s) /\ s_SubscriberIP s <> [] /\
     holds (sv_trace w') RPGW (pr_SessionID resp) = true).
Proof using peer_ok.
  intros HR Hw Hn Hx Hs. pose proof (with_aaa_ok HR) as HE. split.
  - destruct (ExchangeEAP_asks _ _ _ _ _ Hx Hs) as (q & res & Hq & Hp & Hst & Hpl & Hmsk).
    cbn [v_exchangeEAP with_aaa] in Hq.
    destruct (provider_ExchangeEAP (H := aaa_client (sv_questions w)) q) as [[r e]|] eqn:Ea; [|done].
    cbn in Hq. injection Hq as -> ->.
    destruct (provider_eap_accept _ _ _ _ (peer_ok _) _ _ Ea) as (m & answer & Hm & Hav & Hc & Hd & He & _ & _ & Hpay & Hk);
      [by rewrite Hst|].
    exists m, answer. rewrite Hpl, Hmsk, <- Hp. split_and!; eauto.
  - pose proof (wp_ExchangeEAP with_aaa HE [] n req w (reached_Inv _ HE n w Hw) Hn) as Hx'.
    unfold wp in Hx'. rewrite Hx in Hx'. destruct Hx' as [HI [Hc|(_ & s & Hg & Hst & Hip & Hne & _)]];
      [by rewrite Hs in Hc|].
    exists s. split_and!; try done. apply (inv_holds _ _ _ _ _ HI); [done|]. split; [done|]. exists s. by rewrite Hst.
Qed.
End Chain.

(** The demo service with a peer that accepts at once. *)
Definition chain_env : Env :=
  with_aaa demo_env (fun _ => demo_accepting) (fun _ => NewSTaClient demo_sta_cfg 5) (fun _ => None).

Lemma chain_rest_ok : rest_ok demo_env.
Proof. by split. Qed.
