(* ===== verification/Radius.v ===== *)
(** The RADIUS server: [internal/radius/server.go], [mppe.go],
    [ap_registry.go] and [dynamic_authorization.go].  Packets belong to the
    library layeh.com/radius: a class of operations ([RadiusLib]) over an
    unknown type, with the laws the program relies on ([RadiusLaws]).  The
    service behind the server is the class [EAPService].  A handler returns
    the packet it writes, if any; [None] is a run-time panic. *)
From S2P Require Import Prelude.
From S2P Require Import GoNet.
From S2P Require Import Config.
From S2P Require Import Session.
From S2P Require Import Crypto.
From S2P Require Import Lifecycle.
Open Scope string_scope.
Open Scope Z_scope.

(** * The packet library *)
Inductive attr :=
| User_Name | NAS_IP_Address | NAS_Port | Framed_IP_Address | Framed_MTU | Reply_Message | State_ | Class_
| Session_Timeout | Idle_Timeout | Termination_Action | Called_Station_Id | Calling_Station_Id | NAS_Identifier
| NAS_Port_Type | Acct_Status_Type | Acct_Input_Octets | Acct_Output_Octets | Acct_Session_Id | Acct_Authentic
| Acct_Session_Time | Acct_Input_Packets | Acct_Output_Packets | Acct_Terminate_Cause | Acct_Multi_Session_Id
| Acct_Input_Gigawords | Acct_Output_Gigawords | Event_Timestamp | Tunnel_Type | Tunnel_Medium_Type
| Tunnel_Private_Group_ID | Connect_Info | EAP_Message | Message_Authenticator | Error_Cause.
#[export] Instance attr_eq_dec : EqDecision attr.
Proof. solve_decision. Defined.

(** The value of an attribute; [VTag] is a tagged one (RFC 2868). *)
Inductive value := VBytes (b : list Z) | VInt (v : Z) | VIP (ip : IP) | VTime (t : Time) | VTag (tag : Z) (v : value).

Definition CodeAccessRequest : Z := 1.
Definition CodeAccessAccept : Z := 2.
Definition CodeAccessReject : Z := 3.
Definition CodeAccountingRequest : Z := 4.
Definition CodeAccountingResponse : Z := 5.
Definition CodeAccessChallenge : Z := 11.
Definition CodeDisconnectRequest : Z := 40.
Definition CodeDisconnectACK : Z := 41.
Definition CodeDisconnectNAK : Z := 42.
Definition CodeCoARequest : Z := 43.
Definition CodeCoAACK : Z := 44.
Definition CodeCoANAK : Z := 45.

(** [p_Add] adds a Vendor-Specific attribute, [p_New] is a request of the
    program's own, [p_enum] the name of a value of an enumeration. *)
Class RadiusLib (P : Type) := {
  p_Code : P -> Z; p_Identifier : P -> Z; p_Authenticator : P -> list Z; p_Secret : P -> list Z;
  p_Lookup : attr -> P -> option value;
  p_Vendor : P -> list (Z * list Z);
  p_Set : attr -> value -> P -> result P string;
  p_Add : Z -> list Z -> P -> result P string;
  p_Response : Z -> P -> P;
  p_New : Z -> list Z -> P;
  p_Marshal : P -> result (list Z) string;
  p_enum : attr -> Z -> string;
  p_code_name : Z -> string
}.

(** A value as it is read back: an address has four bytes on the wire, a time
    whole seconds. *)
Fixpoint stored (v : value) : value :=
  match v with
  | VIP ip => VIP (To4 ip)
  | VTime t => VTime (t / Second * Second)
  | VTag tag v => VTag tag (stored v)
  | v => v
  end.

Definition same_header {P} `{RadiusLib P} (p p' : P) : Prop :=
  p_Code p' = p_Code p /\ p_Identifier p' = p_Identifier p /\ p_Authenticator p' = p_Authenticator p /\
  p_Secret p' = p_Secret p.

(** What the program relies on: a response repeats the request's identifier,
    authenticator and secret and starts empty; a set attribute is read back,
    the others and the header stay; setting again replaces the value; an EAP
    message of any size, a string of up to 253 bytes and an IPv4 address can
    be set, a vendor's attribute of up to 249 bytes added. *)
Class RadiusLaws P `{RadiusLib P} : Prop := {
  rl_response : forall code p, p_Code (p_Response code p) = code /\ p_Identifier (p_Response code p) = p_Identifier p /\
    p_Authenticator (p_Response code p) = p_Authenticator p /\ p_Secret (p_Response code p) = p_Secret p /\
    p_Vendor (p_Response code p) = [] /\ forall a, p_Lookup a (p_Response code p) = None;
  rl_new : forall code secret, p_Code (p_New code secret) = code /\ p_Secret (p_New code secret) = secret /\
    p_Vendor (p_New code secret) = [] /\ forall a, p_Lookup a (p_New code secret) = None;
  rl_set : forall a v p p', p_Set a v p = Ok p' -> same_header p p' /\ p_Vendor p' = p_Vendor p /\
    p_Lookup a p' = Some (stored v) /\ forall b, b <> a -> p_Lookup b p' = p_Lookup b p;
  rl_set_set : forall a v w p p1 p2, p_Set a v p = Ok p1 -> p_Set a w p1 = Ok p2 -> p_Set a v p2 = Ok p1;
  rl_eap : forall b p, b <> [] -> is_ok (p_Set EAP_Message (VBytes b) p) = true;
  rl_bytes : forall a b p, (length b <= 253)%nat -> is_ok (p_Set a (VBytes b) p) = true;
  rl_ip : forall a ip p, non_nil (To4 ip) = true -> is_ok (p_Set a (VIP ip) p) = true;
  rl_vendor : forall vendor b p, (length b <= 249)%nat -> is_ok (p_Add vendor b p) = true;
  rl_add : forall vendor b p p', p_Add vendor b p = Ok p' -> same_header p p' /\
    p_Vendor p' = (p_Vendor p ++ [(vendor, b)])%list /\ forall a, p_Lookup a p' = p_Lookup a p
}.

Section Packets.
Context {P : Type} `{RadiusLib P}.

(** The getters: the zero value when there is none. *)
Definition GetBytes (a : attr) (p : P) : list Z := match p_Lookup a p with Some (VBytes b) => b | _ => [] end.
Definition GetString (a : attr) (p : P) : string := string_of_bytes (GetBytes a p).
Definition GetInt (a : attr) (p : P) : Z := match p_Lookup a p with Some (VInt v) => v | _ => 0 end.
Definition GetIP (a : attr) (p : P) : IP := match p_Lookup a p with Some (VIP ip) => ip | _ => [] end.
Definition GetTime (a : attr) (p : P) : Time := match p_Lookup a p with Some (VTime t) => t | _ => zeroTime end.

(** [_ = X_Set(p, v)] *)
Definition set_ (a : attr) (v : value) (p : P) : P := match p_Set a v p with Ok p => p | Err _ => p end.
Definition set_string (a : attr) (s : string) (p : P) : P := set_ a (VBytes (bytes_of_string s)) p.
End Packets.

(** * Addresses and names *)

(** [net.Addr]; [AddrNil] is a nil interface. *)
Inductive Addr := AddrNil | AddrUDP (ip : IP) (port : Z) | AddrTCP (ip : IP) (port : Z) | AddrOther (s : string).

(** [Addr.String()] *)
Definition addr_string (a : Addr) : string :=
  match a with
  | AddrNil => ""
  | AddrUDP ip port | AddrTCP ip port =>
    let host := ipString ip in
    (if has_ascii ":"%char (String.list_ascii_of_string host) then "[" +:+ host +:+ "]" else host) +:+ ":" +:+ pretty port
  | AddrOther s => s
  end.

Definition radiusSourceIP (addr : Addr) : string :=
  let rest := match SplitHostPort (addr_string addr) with Ok (host, _) => host | Err _ => "" end in
  match addr with
  | AddrUDP ip _ | AddrTCP ip _ => if non_nil ip then IPString ip else rest
  | AddrNil => ""
  | AddrOther _ => rest
  end.

Definition parseAllowedSources (cidrs : list string) : list IPNet := omap ParseCIDR cidrs.

Definition looksLikeIMSI (s : string) : bool :=
  let l := String.list_ascii_of_string s in
  (negb (length l <? 5)%nat && negb (15 <? length l)%nat &&
   forallb (fun c => match digit c with Some _ => true | None => false end) l)%bool.

Definition imsiFromNAI (username : string) : string :=
  let l := String.list_ascii_of_string username in
  let local := match index_ascii "@" l with Some at_ => take at_ l | None => l end in
  let local := TrimSpace (String.string_of_list_ascii local) in
  match local with
  | String c (String _ _ as rest) =>
    if ((Ascii.eqb c "0" || Ascii.eqb c "6") && looksLikeIMSI rest)%bool then rest
    else if looksLikeIMSI local then local else ""
  | _ => if looksLikeIMSI local then local else ""
  end.

(** [strings.NewReplacer("-", ":", ".", "")] *)
Definition replace_separators (l : list ascii) : list ascii :=
  flat_map (fun c => if Ascii.eqb c "-" then [":"%char] else if Ascii.eqb c "." then [] else [c]) l.

(** A colon after every second character but the last. *)
Fixpoint colon_pairs (l : list ascii) : list ascii :=
  match l with
  | a :: b :: ((_ :: _) as rest) => a :: b :: ":"%char :: colon_pairs rest
  | _ => l
  end.

Definition radius_normalizeMAC (s : string) : string :=
  let s := TrimSpace (ToLower s) in
  if negb (nonempty s) then ""
  else
    let l := replace_separators (String.list_ascii_of_string s) in
    String.string_of_list_ascii
      (if (length (List.filter (Ascii.eqb ":") l) =? 5)%nat then l
       else if negb (length l =? 12)%nat then l else colon_pairs l).

(** * EAP packets *)
Record eapDescription := mkEapDescription {
  ed_Code : string; ed_Identifier : Z; ed_Type : Z; ed_TypeName : string; ed_Subtype : Z; ed_SubtypeName : string
}.
#[export] Instance eapDescription_eta : Eta eapDescription := fun x =>
  mkEapDescription (ed_Code x) (ed_Identifier x) (ed_Type x) (ed_TypeName x) (ed_Subtype x) (ed_SubtypeName x).

Definition eapCodeName (code : Z) : string :=
  if code =? 1 then "request" else if code =? 2 then "response" else if code =? 3 then "success"
  else if code =? 4 then "failure" else "code-" +:+ pretty code.

Definition eapTypeName (typ : Z) : string :=
  if typ =? 1 then "identity" else if typ =? 18 then "sim" else if typ =? 23 then "aka"
  else if typ =? 50 then "aka-prime" else "type-" +:+ pretty typ.

Definition eapAKASubtypeName (subtype : Z) : string :=
  if subtype =? 1 then "challenge" else if subtype =? 2 then "authentication-rejection"
  else if subtype =? 4 then "synchronization-failure" else if subtype =? 5 then "identity"
  else if subtype =? 12 then "client-error" else if subtype =? 14 then "notification"
  else "subtype-" +:+ pretty subtype.

(** The length field of an EAP packet. *)
Definition eap_length (payload : list Z) : go nat :=
  hi ← go_idx payload 2; lo ← go_idx payload 3; Some (Z.to_nat (Z.lor (Z.shiftl hi 8) lo)).

Definition describeEAP (payload : list Z) : go eapDescription :=
  let desc := mkEapDescription "" (-1) (-1) "" (-1) "" in
  if (length payload <? 4)%nat then Some desc
  else
    code ← go_idx payload 0;
    id ← go_idx payload 1;
    let desc := desc <| ed_Code := eapCodeName code |> <| ed_Identifier := id |> in
    len ← eap_length payload;
    if ((length payload <? len)%nat || (len <? 4)%nat)%bool then Some (desc <| ed_Code := "invalid" |>)
    else if ((code =? 1) || (code =? 2))%bool then
      desc ← (if (5 <=? len)%nat
              then t ← go_idx payload 4; Some (desc <| ed_Type := t |> <| ed_TypeName := eapTypeName t |>)
              else Some desc);
      t ← go_idx payload 4;
      if (((t =? 23) || (t =? 50)) && (6 <=? len)%nat)%bool
      then st ← go_idx payload 5; Some (desc <| ed_Subtype := st |> <| ed_SubtypeName := eapAKASubtypeName st |>)
      else Some desc
    else Some desc.

Definition eapIdentity (payload : list Z) : go string :=
  if (length payload <? 5)%nat then Some ""
  else
    code ← go_idx payload 0;
    len ← eap_length payload;
    t ← go_idx payload 4;
    if (negb (code =? 2) || (length payload <? len)%nat || negb (t =? 1))%bool then Some ""
    else b ← go_slice payload 5 len; Some (string_of_bytes b).

(** * Access points *)
Record APObservation := mkAPObservation {
  ao_SourceIP : string; ao_NASIP : string; ao_NASIdentifier : string; ao_CalledStationID : string;
  ao_AccountingPacket : bool
}.

Record APRecord := mkAPRecord {
  ap_SourceIP : string; ap_NASIP : string; ap_NASIdentifier : string; ap_CalledStationID : string;
  ap_BSSID : string; ap_SSID : string; ap_FirstSeen : Time; ap_LastSeen : Time;
  ap_AuthRequestCount : Z; ap_AccountingRequestCount : Z
}.

(** One separator of [parseCalledStationID]. *)
Definition called_station (value : string) (sep : ascii) : option (string * string) :=
  let l := String.list_ascii_of_string value in
  i ← index_ascii sep l;
  let mac := String.string_of_list_ascii (take i l) in
  match ParseMAC mac with
  | Some _ => Some (ToLower mac, TrimSpace (String.string_of_list_ascii (drop (S i) l)))
  | None => None
  end.

Definition parseCalledStationID (value : string) : string * string :=
  let value := TrimSpace value in
  if negb (nonempty value) then ("", "")
  else match called_station value ":" with
       | Some r => r
       | None => default ("", "") (called_station value " ")
       end.

Definition ap_key (obs : APObservation) : string :=
  let key := coalesce [ao_SourceIP obs; ao_NASIP obs; ao_NASIdentifier obs; ao_CalledStationID obs] in
  if nonempty key then key else "unknown".

Definition registry_Update (r : gmap string APRecord) (obs : APObservation) (now : Time) : gmap string APRecord :=
  let '(bssid, ssid) := parseCalledStationID (ao_CalledStationID obs) in
  let rec := default (mkAPRecord (ao_SourceIP obs) "" "" "" "" "" now zeroTime 0 0) (r !! ap_key obs) in
  <[ap_key obs := mkAPRecord (coalesce [ao_SourceIP obs; ap_SourceIP rec]) (coalesce [ao_NASIP obs; ap_NASIP rec])
      (coalesce [ao_NASIdentifier obs; ap_NASIdentifier rec])
      (coalesce [ao_CalledStationID obs; ap_CalledStationID rec]) (coalesce [bssid; ap_BSSID rec])
      (coalesce [ssid; ap_SSID rec]) (ap_FirstSeen rec) now
      (if ao_AccountingPacket obs then ap_AuthRequestCount rec else wrap 64 (ap_AuthRequestCount rec + 1))
      (if ao_AccountingPacket obs then wrap 64 (ap_AccountingRequestCount rec + 1)
       else ap_AccountingRequestCount rec)]> r.

(** * Keying material (MS-MPPE keys, RFC 2548) *)
Definition microsoftVendorID : Z := 311.
Definition msMPPESendKey : Z := 16.
Definition msMPPERecvKey : Z := 17.

(** The random bytes are a list of draws of two; [None] is the end of it. *)
Definition newMPPESalt (draws : list (list Z)) : go (list Z * list (list Z)) :=
  match draws with
  | (a :: rest) :: draws => Some (Z.lor a 0x80 :: rest, draws)
  | _ => None
  end.

(** A salt that differs from [recv]. *)
Fixpoint distinct_salt (recv : list Z) (draws : list (list Z)) : go (list Z * list (list Z)) :=
  match draws with
  | (a :: rest) :: draws =>
    let salt := Z.lor a 0x80 :: rest in
    if bool_decide (recv = salt) then distinct_salt recv draws else Some (salt, draws)
  | _ => None
  end.

(** The loop over the blocks: each is masked by the hash of the secret and the
    block before. *)
Fixpoint mppe_blocks (secret prev : list Z) (blocks : list (list Z)) : list Z :=
  match blocks with
  | [] => []
  | b :: rest => let c := xor_bytes b (md5 (secret ++ prev)) in (c ++ mppe_blocks secret c rest)%list
  end.

Definition encryptMPPEKey (secret requestAuthenticator salt key : list Z) : go (result (list Z) string) :=
  if (255 <? length key)%nat then Some (Err "mppe key too long")
  else if negb (non_nil secret) then Some (Err "empty radius secret")
  else
    s0 ← go_idx salt 0;
    Some (if Z.land s0 0x80 =? 0 then Err "mppe salt high bit is not set"
          else
            let paddedLen := ((1 + length key + 15) / 16 * 16)%nat in
            let plain := (Z.of_nat (length key) :: key ++ zeros (paddedLen - 1 - length key))%list in
            Ok (salt ++ mppe_blocks secret (requestAuthenticator ++ salt) (chunks paddedLen 16 plain))%list).

Section Server.
Context {P : Type} `{RadiusLib P}.

Definition addMicrosoftVSA (p : P) (vendorType : Z) (v : list Z) : result P string :=
  if (253 <? length v)%nat then Err "microsoft vsa value too long"
  else p_Add microsoftVendorID (vendorType :: wrap 8 (Z.of_nat (2 + length v)) :: v) p.

Definition addMPPEKeys (p : P) (msk : list Z) (draws : list (list Z)) : go (result P string) :=
  if negb (length msk =? 64)%nat then Some (Err ("eap msk length = " +:+ pretty (Z.of_nat (length msk)) +:+ ", want 64"))
  else
    '(recvSalt, draws) ← newMPPESalt draws;
    '(sendSalt, _) ← distinct_salt recvSalt draws;
    recvAttr ← encryptMPPEKey (p_Secret p) (p_Authenticator p) recvSalt (take 32 msk);
    match recvAttr with
    | Err e => Some (Err e)
    | Ok recvAttr =>
      match addMicrosoftVSA p msMPPERecvKey recvAttr with
      | Err e => Some (Err e)
      | Ok p =>
        sendAttr ← encryptMPPEKey (p_Secret p) (p_Authenticator p) sendSalt (drop 32 msk);
        Some (match sendAttr with Err e => Err e | Ok sendAttr => addMicrosoftVSA p msMPPESendKey sendAttr end)
      end
    end.

Definition setMessageAuthenticator (p : P) : result P string :=
  match p_Set Message_Authenticator (VBytes (zeros 16)) p with
  | Err e => Err e
  | Ok p =>
    match p_Marshal p with
    | Err e => Err e
    | Ok wire => p_Set Message_Authenticator (VBytes (hmac_md5 (p_Secret p) wire)) p
    end
  end.
End Server.

(** * The server *)

(** The service behind the server: a function of its own state [W]. *)
Class EAPService (W : Type) := {
  svc_ExchangeEAP : EAPRequest -> W -> go (W * (option EAPResponse * option gerr));
  svc_HandleAccounting : AccountingRequest -> W -> go (W * option gerr)
}.

(** [rs_eap], [rs_accounting]: the interface is not nil. *)
Record RadiusServer := mkRadiusServer {
  rs_cfg : RadiusConfig; rs_sub : SubscriberConfig; rs_eap : bool; rs_accounting : bool;
  rs_allowedSources : list IPNet; rs_registry : gmap string APRecord
}.
#[export] Instance RadiusServer_eta : Eta RadiusServer := fun x =>
  mkRadiusServer (rs_cfg x) (rs_sub x) (rs_eap x) (rs_accounting x) (rs_allowedSources x) (rs_registry x).

Definition radiusDefaultVLANID : Z := 10.

Definition NewRadiusServer (cfg : RadiusConfig) (sub : SubscriberConfig) (eap accounting : bool) : RadiusServer :=
  let cfg := if rd_VLANID cfg =? 0 then cfg <| rd_VLANID := radiusDefaultVLANID |> else cfg in
  mkRadiusServer cfg sub eap accounting (parseAllowedSources (rd_AllowedSourceSubnets cfg)) ∅.

Definition sourceAllowed (s : RadiusServer) (addr : Addr) : bool :=
  if negb (non_nil (rs_allowedSources s)) then true
  else
    let ip := ParseIP (radiusSourceIP addr) in
    if negb (non_nil ip) then false else existsb (fun network => Contains network ip) (rs_allowedSources s).

(** What [Start] sees of a listener in its first 50 ms: nothing, the end of
    [ListenAndServe], or the end of the context. *)
Inductive listen_event := StillRunning | ListenEnded (err : option string) | CtxDone (err : string).

(** [Stop] of the servers that are set; [shutdown] and [acct_shutdown] are the
    errors of the library's [Shutdown].  The result says which were asked. *)
Definition radius_Stop (server acct : bool) (shutdown acct_shutdown : option string) : bool * bool * option string :=
  match (if server then shutdown else None) with
  | Some e => (true, false, Some e)
  | None => (server, acct, if acct then acct_shutdown else None)
  end.

(** [Start]: which of [s.server] and [s.accountingServer] are set, which have
    been stopped again, and the error. *)
Definition radius_Start (s : RadiusServer) (ctx : option string) (listen acct_listen : listen_event)
    (shutdown acct_shutdown : option string) : (bool * bool) * (bool * bool) * option gerr :=
  let stop acct := fst (radius_Stop true acct shutdown acct_shutdown) in
  let none := (false, false) in
  match ctx with
  | Some e => (none, none, Some (errorf e))
  | None =>
    if negb (rd_Enabled (rs_cfg s)) then (none, none, None)
    else if negb (rs_eap s) then (none, none, Some (errorf "radius eap service is required"))
    else if negb (nonempty (rd_Secret (rs_cfg s))) then (none, none, Some (errorf "radius secret is required"))
    else match listen with
    | ListenEnded (Some e) => (true, false, none, Some (errorf ("start radius server: " +:+ e)))
    | CtxDone e => (true, false, stop false, Some (errorf e))
    | _ =>
      if negb (rat_Enabled (rd_Accounting (rs_cfg s))) then (true, false, none, None)
      else if negb (rs_accounting s)
      then (true, false, none, Some (errorf "radius accounting service is required"))
      else match acct_listen with
      | ListenEnded (Some e) => (true, true, none, Some (errorf ("start radius accounting server: " +:+ e)))
      | CtxDone e => (true, true, stop true, Some (errorf e))
      | _ => (true, true, none, None)
      end
    end
  end.

(** [rfc2865.TerminationAction] and the tunnel values of RFC 3580. *)
Definition TerminationAction_Default : Z := 0.
Definition TerminationAction_RADIUSRequest : Z := 1.
Definition TunnelType_VLAN : Z := 13.
Definition TunnelMediumType_IEEE802 : Z := 6.
Definition AcctStatusType_Start : Z := 1.
Definition AcctStatusType_Stop : Z := 2.
Definition AcctStatusType_InterimUpdate : Z := 3.
Definition AcctStatusType_AccountingOn : Z := 7.
Definition AcctStatusType_AccountingOff : Z := 8.

Definition acctCounter (octets gigawords : Z) : Z := Z.lor (wrap 64 (Z.shiftl gigawords 32)) octets.

Definition rbind {A B} (r : result A string) (k : A -> result B string) : result B string :=
  match r with Ok a => k a | Err e => Err e end.

(** [fmt.Errorf("...: %w", err)] *)
Definition wrap_err {A} (msg : string) (r : result A string) : result A string :=
  match r with Ok a => Ok a | Err e => Err (msg +:+ ": " +:+ e) end.

Section Handlers.
Context {P : Type} `{RadiusLib P} {W : Type} `{EAPService W}.

Definition accountingStatus (status : Z) : AccountingStatus :=
  if status =? AcctStatusType_Start then AccountingStart
  else if status =? AcctStatusType_Stop then AccountingStop
  else if status =? AcctStatusType_InterimUpdate then AccountingInterimUpdate
  else if status =? AcctStatusType_AccountingOn then AccountingOn
  else if status =? AcctStatusType_AccountingOff then AccountingOff
  else AccountingOther (p_enum Acct_Status_Type status).

(** The NAS address of a request: the attribute, else the source. *)
Definition nas_ip (p : P) (addr : Addr) : string :=
  let ip := GetIP NAS_IP_Address p in
  let s := if (non_nil ip && non_nil (To4 ip))%bool then IPString ip else "" in
  if nonempty s then s else radiusSourceIP addr.

Definition accountingRequest (p : P) (addr : Addr) : AccountingRequest :=
  let username := GetString User_Name p in
  let framed := GetIP Framed_IP_Address p in
  let framed := if (non_nil framed && IPEqual framed IPv4zero)%bool then [] else framed in
  mkAccountingRequest (accountingStatus (GetInt Acct_Status_Type p)) username (imsiFromNAI username)
    (radius_normalizeMAC (GetString Calling_Station_Id p)) (GetString Calling_Station_Id p)
    (GetString Called_Station_Id p) (nas_ip p addr) (GetString NAS_Identifier p) (wrap 32 (GetInt NAS_Port p))
    (p_enum NAS_Port_Type (GetInt NAS_Port_Type p)) (GetString Acct_Session_Id p) (GetString Acct_Multi_Session_Id p)
    (p_enum Acct_Authentic (GetInt Acct_Authentic p)) (wrap 32 (GetInt Acct_Session_Time p))
    (acctCounter (GetInt Acct_Input_Octets p) (GetInt Acct_Input_Gigawords p))
    (acctCounter (GetInt Acct_Output_Octets p) (GetInt Acct_Output_Gigawords p))
    (GetInt Acct_Input_Packets p) (GetInt Acct_Output_Packets p)
    (p_enum Acct_Terminate_Cause (GetInt Acct_Terminate_Cause p)) framed (GetBytes Class_ p)
    (GetTime Event_Timestamp p) (GetString Connect_Info p) (radiusSourceIP addr).

Definition eapRequest (s : RadiusServer) (p : P) (addr : Addr) : go EAPRequest :=
  let username := GetString User_Name p in
  let eapPayload := GetBytes EAP_Message p in
  eapID ← eapIdentity eapPayload;
  let username := if nonempty username then username else eapID in
  Some (mkEAPRequest (GetString State_ p) (imsiFromNAI username) ""
    (radius_normalizeMAC (GetString Calling_Station_Id p)) username eapID (sub_DefaultRealm (rs_sub s))
    (sub_DefaultAPN (rs_sub s)) (GetString Calling_Station_Id p) (GetString Called_Station_Id p) (nas_ip p addr)
    (GetString NAS_Identifier p) (GetString Acct_Session_Id p) (GetBytes Class_ p) (GetString Connect_Info p)
    (wrap 32 (GetInt Framed_MTU p)) eapPayload).

Definition hasMessageAuthenticator (p : P) : bool := non_nil (GetBytes Message_Authenticator p).

Definition reject (r : P) (reason : string) : P := set_string Reply_Message reason (p_Response CodeAccessReject r).

Definition addAccessAcceptLifetime (s : RadiusServer) (p : P) : result P string :=
  let c := rd_AccessAccept (rs_cfg s) in
  let terminate v := wrap_err "set radius termination action" ∘ p_Set Termination_Action (VInt v) in
  rbind (if 0 <? raa_SessionTimeoutSeconds c
         then wrap_err "set radius session timeout"
                (p_Set Session_Timeout (VInt (wrap 32 (raa_SessionTimeoutSeconds c))) p)
         else Ok p) (fun p =>
  rbind (if (String.eqb (raa_TerminationAction c) "" || String.eqb (raa_TerminationAction c) "radius_request")%bool
         then terminate TerminationAction_RADIUSRequest p
         else if String.eqb (raa_TerminationAction c) "default"
         then terminate TerminationAction_Default p
         else Err ("unsupported radius termination action " +:+ quote (raa_TerminationAction c))) (fun p =>
  if 0 <? raa_IdleTimeoutSeconds c
  then wrap_err "set radius idle timeout" (p_Set Idle_Timeout (VInt (wrap 32 (raa_IdleTimeoutSeconds c))) p)
  else Ok p)).

Definition addVLAN (p : P) (vlanID : Z) : result P string :=
  rbind (wrap_err "set radius tunnel type" (p_Set Tunnel_Type (VTag 0 (VInt TunnelType_VLAN)) p)) (fun p =>
  rbind (wrap_err "set radius tunnel medium type"
           (p_Set Tunnel_Medium_Type (VTag 0 (VInt TunnelMediumType_IEEE802)) p)) (fun p =>
  wrap_err "set radius tunnel private group id"
    (p_Set Tunnel_Private_Group_ID (VTag 0 (VBytes (bytes_of_string (pretty vlanID)))) p))).

(** The Access-Challenge of an answer, or the reason to reject. *)
Definition challenge_packet (r : P) (resp : EAPResponse) : result P string :=
  let p := p_Response CodeAccessChallenge r in
  let p := if non_nil (pr_EAPPayload resp) then set_ EAP_Message (VBytes (pr_EAPPayload resp)) p else p in
  let p := if nonempty (pr_SessionID resp) then set_string State_ (pr_SessionID resp) p else p in
  if non_nil (pr_EAPPayload resp) then setMessageAuthenticator p else Ok p.

(** The EAP part of an Access-Accept. *)
Definition accept_eap (p : P) (resp : EAPResponse) (draws : list (list Z)) : go (result P string) :=
  let p := set_ EAP_Message (VBytes (pr_EAPPayload resp)) p in
  k ← (if (length (pr_MSK resp) =? 64)%nat then addMPPEKeys p (pr_MSK resp) draws else Some (Ok p));
  Some (rbind k setMessageAuthenticator).

Definition accept_packet (s : RadiusServer) (r : P) (resp : option EAPResponse) (draws : list (list Z))
  : go (result P string) :=
  let p := p_Response CodeAccessAccept r in
  let p := match resp with
           | Some resp =>
             let p := if nonempty (pr_SubscriberIP resp)
                      then set_ Framed_IP_Address (VIP (ParseIP (pr_SubscriberIP resp))) p else p in
             if nonempty (pr_SessionID resp) then set_string Class_ (pr_SessionID resp) p else p
           | None => p
           end in
  match rbind (addAccessAcceptLifetime s p) (fun p => addVLAN p (rd_VLANID (rs_cfg s))) with
  | Err e => Some (Err e)
  | Ok p =>
    match resp with
    | Some resp => if non_nil (pr_EAPPayload resp) then accept_eap p resp draws else Some (Ok p)
    | None => Some (Ok p)
    end
  end.

(** The answer to the service's result. *)
Definition answer (s : RadiusServer) (r : P) (resp : option EAPResponse) (err : option gerr) (draws : list (list Z))
  : go P :=
  match err with
  | Some e =>
    let reason := match resp with Some resp => if nonempty (pr_Reason resp) then pr_Reason resp else ge_msg e
                                | None => ge_msg e end in
    Some (reject r reason)
  | None =>
    match resp with
    | Some resp' =>
      if String.eqb (pr_State resp') "challenge" then
        _ ← describeEAP (pr_EAPPayload resp');
        Some (match challenge_packet r resp' with Ok p => p | Err e => reject r e end)
      else k ← accept_packet s r resp draws; Some (match k with Ok p => p | Err e => reject r e end)
    | None => k ← accept_packet s r None draws; Some (match k with Ok p => p | Err e => reject r e end)
    end
  end.

Definition observe (s : RadiusServer) (obs : APObservation) (now : Time) : RadiusServer :=
  s <| rs_registry ::= fun r => registry_Update r obs now |>.

(** [r.RemoteAddr.String()] for the log. *)
Definition log_addr (addr : Addr) : go unit := match addr with AddrNil => None | _ => Some tt end.

(** A packet on the authentication port. *)
Definition radius_handle (s : RadiusServer) (r : P) (addr : Addr) (draws : list (list Z)) (now : Time) (w : W)
  : go (RadiusServer * W * option P) :=
  if negb (sourceAllowed s addr) then Some (s, w, None)
  else if negb (p_Code r =? CodeAccessRequest)
  then _ ← log_addr addr; Some (s, w, Some (p_Response CodeAccessReject r))
  else
    req ← eapRequest s r addr;
    let s := observe s (mkAPObservation (radiusSourceIP addr) (p_NASIP req) (p_NASIdentifier req)
                          (p_CalledStationID req) false) now in
    _ ← describeEAP (p_EAPPayload req);
    _ ← log_addr addr;
    if negb (non_nil (p_EAPPayload req)) then Some (s, w, Some (reject r "missing EAP-Message"))
    else
      '(w, (resp, err)) ← svc_ExchangeEAP req w;
      p ← answer s r resp err draws;
      Some (s, w, Some p).

(** A packet on the accounting port. *)
Definition radius_handleAccounting (s : RadiusServer) (r : P) (addr : Addr) (now : Time) (w : W)
  : go (RadiusServer * W * option P) :=
  if negb (sourceAllowed s addr) then Some (s, w, None)
  else if negb (p_Code r =? CodeAccountingRequest) then _ ← log_addr addr; Some (s, w, None)
  else
    let req := accountingRequest r addr in
    let s := observe s (mkAPObservation (radiusSourceIP addr) (a_NASIP req) (a_NASIdentifier req)
                          (a_CalledStationID req) true) now in
    w ← (if rs_accounting s then '(w, e) ← svc_HandleAccounting req w;
               match e with Some _ => _ ← log_addr addr; Some w | None => Some w end
          else Some w);
    Some (s, w, Some (p_Response CodeAccountingResponse r)).

(** * Dynamic authorization *)
Definition add_if (b : bool) (f : P -> P) (p : P) : P := if b then f p else p.

Definition addDynamicAuthorizationAttributes (t : RecoveryTombstone) (nasIP : string) (p : P) : P :=
  let p := if nonempty (t_OriginalUsername t) then set_string User_Name (t_OriginalUsername t) p
           else add_if (nonempty (t_IMSI t)) (set_string User_Name (t_IMSI t)) p in
  let calling := if (negb (nonempty (t_CallingStationID t)) && non_nil (t_MAC t))%bool
                 then HWString (t_MAC t) else t_CallingStationID t in
  let p := add_if (nonempty calling) (set_string Calling_Station_Id calling) p in
  let p := add_if (nonempty (t_CalledStationID t)) (set_string Called_Station_Id (t_CalledStationID t)) p in
  let p := add_if (non_nil (ParseIP nasIP)) (set_ NAS_IP_Address (VIP (ParseIP nasIP))) p in
  let p := add_if (nonempty (t_NASIdentifier t)) (set_string NAS_Identifier (t_NASIdentifier t)) p in
  let p := if nonempty (t_AcctSessionID t) then set_string Acct_Session_Id (t_AcctSessionID t) p
           else add_if (nonempty (t_OldSessionID t)) (set_string Acct_Session_Id (t_OldSessionID t)) p in
  let p := if non_nil (t_Class t) then set_ Class_ (VBytes (t_Class t)) p
           else add_if (nonempty (t_OldSessionID t)) (set_string Class_ (t_OldSessionID t)) p in
  add_if (non_nil (t_OldSubscriberIP t)) (set_ Framed_IP_Address (VIP (t_OldSubscriberIP t))) p.

(** [exchange n packet addr]: the answer to the [n]-th request. *)
Fixpoint da_attempts (n : nat) (i : nat) (cfg : RadiusDisconnectConfig) (code ack nak : Z) (kind : string)
    (t : RecoveryTombstone) (nasIP addr : string) (exchange : nat -> P -> string -> result P gerr)
    (sent : list P) (lastErr : option gerr) : list P * option gerr :=
  match n with
  | O => (sent, match lastErr with Some e => Some e
                              | None => Some (errorf "RADIUS dynamic authorization timed out") end)
  | S n =>
    let packet := addDynamicAuthorizationAttributes t nasIP (p_New code (bytes_of_string (rdc_Secret cfg))) in
    let sent := (sent ++ [packet])%list in
    match exchange i packet addr with
    | Err e => da_attempts n (S i) cfg code ack nak kind t nasIP addr exchange sent (Some e)
    | Ok resp =>
      if p_Code resp =? ack then (sent, None)
      else if p_Code resp =? nak
      then (sent, Some (errorf ("RADIUS " +:+ kind +:+ " NAK received: error_cause="
                                +:+ p_enum Error_Cause (GetInt Error_Cause resp))))
      else da_attempts n (S i) cfg code ack nak kind t nasIP addr exchange sent
             (Some (errorf ("unexpected RADIUS dynamic authorization response code " +:+ p_code_name (p_Code resp))))
    end
  end.

(** The requests that are sent and the error. *)
Definition DisconnectOrCoA (cfg : RadiusDisconnectConfig) (tombstone : option RecoveryTombstone)
    (exchange : nat -> P -> string -> result P gerr) : list P * option gerr :=
  match tombstone with
  | None => ([], Some (errorf "recovery tombstone is required"))
  | Some t =>
    if negb (rdc_Enabled cfg) then ([], Some (errorf "RADIUS dynamic authorization disabled"))
    else if negb (non_nil (ParseIP (t_NASIP t)))
    then ([], Some (errorf "RADIUS dynamic authorization destination NAS IP unavailable for session"))
    else
      let addr := t_NASIP t +:+ ":" +:+ pretty (rdc_NASPort cfg) in
      let coa := String.eqb (rdc_RequestType cfg) "coa" in
      let n := Z.to_nat (rdc_Retries cfg + 1) in
      if coa then da_attempts n 1 cfg CodeCoARequest CodeCoAACK CodeCoANAK "coa" t (t_NASIP t) addr exchange [] None
      else da_attempts n 1 cfg CodeDisconnectRequest CodeDisconnectACK CodeDisconnectNAK "disconnect" t (t_NASIP t)
             addr exchange [] None
  end.
End Handlers.
