(* ===== verification/RadiusFacts.v ===== *)
(** What the RADIUS server guarantees: which EAP packets bring a handler down,
    what each reply holds and that the access point can authenticate it, that
    the access point recovers the keys, and how often a NAS is asked to
    disconnect. *)
From S2P Require Import Prelude.
From S2P Require Import GoNet.
From S2P Require Import Config.
From S2P Require Import Session.
From S2P Require Import Crypto.
From S2P Require Import Lifecycle.
From S2P Require Import Radius.
Open Scope string_scope.
Open Scope Z_scope.

(** * EAP packets that are not handled *)
Definition eap_len (payload : list Z) : nat := Z.to_nat (Z.lor (Z.shiftl (nth 2 payload 0) 8) (nth 3 payload 0)).

(** A request or response of four bytes. *)
Definition undescribable (payload : list Z) : bool :=
  ((length payload =? 4)%nat && ((nth 0 payload 0 =? 1) || (nth 0 payload 0 =? 2)) && (eap_len payload =? 4)%nat)%bool.

(** An identity response whose length field ends before its type. *)
Definition short_identity (payload : list Z) : bool :=
  ((5 <=? length payload)%nat && (nth 0 payload 0 =? 2) && (eap_len payload <? 5)%nat && (nth 4 payload 0 =? 1))%bool.

Lemma eap_length_eq payload : (4 <= length payload)%nat -> eap_length payload = Some (eap_len payload).
Proof. intros L. unfold eap_length, eap_len. rewrite !go_idx_Some by lia. done. Qed.

Lemma describeEAP_None payload : describeEAP payload = None <-> undescribable payload = true.
Proof.
  unfold describeEAP, undescribable. set (n := eap_len payload).
  destruct (length payload <? 4)%nat eqn:L; nbools; [split; [done|]; intros; nbools; lia|].
  rewrite (go_idx_Some payload 0), (go_idx_Some payload 1) by lia. cbn [mbind option_bind].
  rewrite eap_length_eq by lia. fold n. cbn [mbind option_bind].
  destruct (_ || (n <? 4)%nat)%bool eqn:E1.
  { split; [done|]. intros; nbools. apply orb_true_iff in E1 as [E1|E1]; nbools; lia. }
  destruct ((nth 0 payload 0 =? 1) || (nth 0 payload 0 =? 2))%bool eqn:E2; [|split; [done|]; by rewrite andb_false_r].
  apply orb_false_iff in E1 as [E1 E1']. nbools.
  destruct (decide (length payload = 4%nat)) as [L4|L4].
  - assert (n = 4%nat) as -> by lia. rewrite L4. cbn [Nat.leb mbind option_bind].
    assert (go_idx payload 4 = None) as -> by (apply lookup_ge_None; lia). done.
  - rewrite (go_idx_Some payload 4) by lia. destruct (5 <=? n)%nat eqn:E5; cbn [mbind option_bind];
      (split; [|intros; nbools; lia]); (destruct (_ && (6 <=? n)%nat)%bool eqn:E6; [|done]); nbools;
      by rewrite (go_idx_Some payload 5) by lia.
Qed.

Lemma eapIdentity_None payload : eapIdentity payload = None <-> short_identity payload = true.
Proof.
  unfold eapIdentity, short_identity. set (n := eap_len payload).
  destruct (length payload <? 5)%nat eqn:L; nbools; [split; [done|]; intros; nbools; lia|].
  rewrite (go_idx_Some payload 0), (go_idx_Some payload 4) by lia. cbn [mbind option_bind].
  rewrite eap_length_eq by lia. fold n. cbn [mbind option_bind].
  destruct (negb (nth 0 payload 0 =? 2)) eqn:E1; [split; [done|]; intros; nbools; lia|].
  destruct (negb (nth 4 payload 0 =? 1)) eqn:E2; [rewrite orb_true_r; split; [done|]; intros; nbools; lia|].
  destruct (length payload <? n)%nat eqn:E3; cbn [orb]; nbools; [split; [done|]; intros; nbools; lia|].
  destruct (decide (5 <= n)%nat) as [H|H].
  - rewrite go_slice_Some by lia. split; [done|]. intros; nbools; lia.
  - rewrite go_slice_None by lia. split; [|done]. intros _. rewrite E1, E2.
    rewrite !andb_true_r. apply andb_true_intro. split; [by apply Nat.leb_le|apply Nat.ltb_lt; lia].
Qed.

(** * Keys *)

(** What the access point does (RFC 2548, 2.4.2): the reverse of the masking,
    then the length byte. *)
Fixpoint mppe_unblocks (secret prev : list Z) (blocks : list (list Z)) : list Z :=
  match blocks with
  | [] => []
  | c :: rest => (xor_bytes c (md5 (secret ++ prev)) ++ mppe_unblocks secret c rest)%list
  end.

Definition mppe_decrypt (secret requestAuthenticator attr : list Z) : option (list Z) :=
  let body := drop 2 attr in
  let plain := mppe_unblocks secret (requestAuthenticator ++ take 2 attr) (chunks (length body) 16 body) in
  match plain with
  | n :: rest => if (Z.to_nat n <=? length rest)%nat then Some (take (Z.to_nat n) rest) else None
  | [] => None
  end.

Lemma xor_bytes_twice a m : (length a <= length m)%nat -> xor_bytes (xor_bytes a m) m = a.
Proof.
  unfold xor_bytes. revert m. induction a as [|x a IH]; intros [|y m] L; cbn in *; try done; [lia|].
  rewrite Z.lxor_assoc, Z.lxor_nilpotent, Z.lxor_0_r. f_equal. apply IH. lia.
Qed.

(** [blocks] of 16 bytes each. *)
Definition blocks16 (blocks : list (list Z)) : Prop := Forall (fun b => length b = 16%nat) blocks.

Lemma chunks_app fuel c rest :
  length c = 16%nat -> chunks (S fuel) 16 (c ++ rest) = c :: chunks fuel 16 rest.
Proof.
  intros L. destruct c as [|x c]; [done|]. cbn [chunks app]. f_equal.
  - by rewrite app_comm_cons, take_app_length'.
  - by rewrite app_comm_cons, drop_app_length'.
Qed.

Lemma chunks_blocks fuel l :
  (length l <= fuel)%nat -> (length l mod 16 = 0)%nat -> blocks16 (chunks fuel 16 l) /\ concat (chunks fuel 16 l) = l.
Proof.
  revert l. induction fuel as [|fuel IH]; intros [|x l] L M; cbn [chunks length] in *; try (split; [constructor|done]); [lia|].
  assert (16 <= S (length l))%nat by (destruct (decide (16 <= S (length l))%nat); [done|]; rewrite Nat.mod_small in M; lia).
  destruct (IH (drop 16 (x :: l))) as [H1 H2].
  - rewrite length_drop. cbn [length]. lia.
  - rewrite length_drop. cbn [length]. pose proof (Nat.div_mod (S (length l)) 16). 
    replace (S (length l) - 16)%nat with ((S (length l) / 16 - 1) * 16)%nat by lia. by rewrite Nat.Div0.mod_mul.
  - split.
    + constructor; [|exact H1]. rewrite length_take. cbn [length]. lia.
    + cbn [concat]. rewrite H2. apply take_drop.
Qed.

Lemma unblocks_blocks secret blocks fuel prev :
  blocks16 blocks -> (length blocks <= fuel)%nat ->
  mppe_unblocks secret prev (chunks fuel 16 (mppe_blocks secret prev blocks)) = concat blocks.
Proof.
  intros B. revert fuel prev. induction B as [|b blocks Lb B IH]; intros fuel prev F; [by destruct fuel|].
  destruct fuel as [|fuel]; cbn [length] in F; [lia|]. cbn [mppe_blocks].
  assert (Lc : length (xor_bytes b (md5 (secret ++ prev))) = 16%nat) by (rewrite length_xor_bytes, Lb; rewrite ?length_md5; lia).
  rewrite chunks_app by exact Lc. cbn [mppe_unblocks concat]. rewrite IH by lia. f_equal.
  apply xor_bytes_twice. rewrite length_md5. lia.
Qed.

Lemma length_mppe_blocks secret blocks prev :
  blocks16 blocks -> length (mppe_blocks secret prev blocks) = (16 * length blocks)%nat.
Proof.
  intros B. revert prev. induction B as [|b blocks Lb B IH]; intros prev; [done|]. cbn [mppe_blocks length].
  rewrite length_app, IH, length_xor_bytes by (rewrite length_md5; lia). lia.
Qed.

(** What [encryptMPPEKey] accepts, for a salt of two bytes. *)
Definition mppe_inputs (secret salt key : list Z) : bool :=
  ((length key <=? 255)%nat && non_nil secret && negb (Z.land (nth 0 salt 0) 0x80 =? 0))%bool.

Lemma encrypt_decrypt secret auth salt key :
  length salt = 2%nat -> mppe_inputs secret salt key = true ->
  exists attr, encryptMPPEKey secret auth salt key = Some (Ok attr) /\
    take 2 attr = salt /\ length attr = (2 + (16 + length key) / 16 * 16)%nat /\
    mppe_decrypt secret auth attr = Some key.
Proof.
  unfold mppe_inputs. intros Ls Hin. nbools. unfold encryptMPPEKey.
  rewrite (proj2 (Nat.ltb_ge _ _)) by lia.
  replace (non_nil secret) with true by done. cbn [negb].
  rewrite go_idx_Some by lia. cbn [mbind option_bind]. rewrite (proj2 (Z.eqb_neq _ _)) by done.
  replace (1 + length key + 15)%nat with (16 + length key)%nat by lia.
  set (padded := ((16 + length key) / 16 * 16)%nat).
  set (plain := (Z.of_nat (length key) :: key ++ zeros (padded - 1 - length key))%list).
  assert (P1 : (1 + length key <= padded)%nat).
  { unfold padded. pose proof (Nat.div_mod (16 + length key) 16).
    pose proof (Nat.mod_upper_bound (16 + length key) 16). lia. }
  assert (Lp : length plain = padded) by (unfold plain; cbn [length]; len).
  destruct (chunks_blocks padded plain) as [B C].
  { lia. } { rewrite Lp. unfold padded. by rewrite Nat.Div0.mod_mul. }
  assert (Lb : length (mppe_blocks secret (auth ++ salt) (chunks padded 16 plain)) = padded).
  { rewrite length_mppe_blocks by done. rewrite <- Lp at 2. rewrite <- C at 2. clear -B.
    induction B as [|b l Hb B IH]; [done|]. cbn [concat length]. rewrite length_app. lia. }
  eexists. split; [done|]. split; [by rewrite take_app_length'|]. split; [rewrite length_app; lia|].
  unfold mppe_decrypt. rewrite take_app_length', drop_app_length' by done. rewrite Lb.
  rewrite unblocks_blocks; [rewrite C|done|].
  - unfold plain. rewrite Nat2Z.id. rewrite (proj2 (Nat.leb_le _ _)) by len. by rewrite take_app_length.
  - rewrite <- Lb at 2. rewrite length_mppe_blocks by done. lia.
Qed.

Lemma encrypt_fails secret auth salt key :
  length salt = 2%nat -> mppe_inputs secret salt key = false -> exists e, encryptMPPEKey secret auth salt key = Some (Err e).
Proof.
  intros Ls E. unfold encryptMPPEKey. destruct (255 <? length key)%nat eqn:E1; [eauto|].
  destruct (non_nil secret) eqn:E2; cbn [negb]; [|eauto].
  rewrite go_idx_Some by lia. cbn [mbind option_bind].
  destruct (Z.land (nth 0 salt 0) 0x80 =? 0) eqn:E3; [eauto|]. exfalso.
  unfold mppe_inputs in E. rewrite E2, E3 in E. nbools. rewrite (proj2 (Nat.leb_le _ _)) in E by lia. done.
Qed.

(** C32: the keys of an Access-Accept: for a key of at most 255 bytes, a secret
    that is not empty and a salt with its high bit set, [encryptMPPEKey]
    yields the salt and whole blocks from which the decryption of RFC 2548,
    under the same secret and request authenticator, recovers the key; for
    any other input it fails with an error. *)
Theorem mppe_roundtrip secret auth salt key :
  length salt = 2%nat ->
  if mppe_inputs secret salt key
  then exists attr, encryptMPPEKey secret auth salt key = Some (Ok attr) /\
    take 2 attr = salt /\ length attr = (2 + (16 + length key) / 16 * 16)%nat /\
    mppe_decrypt secret auth attr = Some key
  else exists e, encryptMPPEKey secret auth salt key = Some (Err e).
Proof.
  intros Ls. destruct (mppe_inputs secret salt key) eqn:E; [by apply encrypt_decrypt|by apply encrypt_fails].
Qed.

Theorem mppe_roundtrip_witness :
  exists attr, encryptMPPEKey [1; 2] [] [0x80; 1] [7] = Some (Ok attr) /\
    take 2 attr = [0x80; 1] /\ length attr = (2 + (16 + length [7%Z]) / 16 * 16)%nat /\
    mppe_decrypt [1; 2] [] attr = Some [7].
Proof. exact (mppe_roundtrip [1; 2] [] [0x80; 1] [7] eq_refl). Defined.

(** The vector of [mppe_test.go]. *)
Example mppe_vector :
  option_map (fun r => match r with Ok b => be_dec b | Err _ => 0 end)
    (encryptMPPEKey (bytes_of_string "shared-secret") (map (fun i => 0x11 * Z.of_nat i) (seq 0 16)) [0x80; 1]
       (map Z.of_nat (seq 0 32))) =
  Some 0x8001d1f1a45f853201bc7d1ed550dc1ce0a308a49647aeec43f01b96906ed17b4d138916eeef32314ec7c5c12ac884709709.
Proof. vm_compute. reflexivity. Qed.

(** * Salts *)
Definition draws_ok (draws : list (list Z)) : Prop := Forall (fun d => length d = 2%nat) draws.

(** The random source yields two salts that differ. *)
Definition draws_suffice (draws : list (list Z)) : bool :=
  match newMPPESalt draws with
  | Some (recv, draws) => match distinct_salt recv draws with Some _ => true | None => false end
  | None => false
  end.

(** A salt of two bytes with its high bit set. *)
Definition salt_ok (salt : list Z) : Prop := length salt = 2%nat /\ Z.land (nth 0 salt 0) 0x80 <> 0.

Lemma land_lor_same a b : Z.land (Z.lor a b) b = b.
Proof.
  apply Z.bits_inj'. intros n _. rewrite Z.land_spec, Z.lor_spec.
  by destruct (Z.testbit a n), (Z.testbit b n).
Qed.

Lemma lor_salt_ok a rest : length (a :: rest) = 2%nat -> salt_ok (Z.lor a 0x80 :: rest).
Proof. intros L. split; [exact L|]. cbn [nth]. by rewrite land_lor_same. Qed.

Lemma newMPPESalt_ok draws salt rest :
  draws_ok draws -> newMPPESalt draws = Some (salt, rest) -> salt_ok salt /\ draws_ok rest.
Proof.
  intros D E. destruct D as [|[|a d] ds Hd D]; try done. cbn in E. injection E as <- <-.
  split; [by apply lor_salt_ok|done].
Qed.

Lemma distinct_salt_ok recv draws salt rest :
  draws_ok draws -> distinct_salt recv draws = Some (salt, rest) -> salt_ok salt /\ salt <> recv.
Proof.
  intros D. induction D as [|d ds Hd D IH]; intros E; [done|]. destruct d as [|a d]; [done|].
  cbn [distinct_salt] in E. case_bool_decide as Heq; [by apply IH|].
  injection E as <- <-. split; [by apply lor_salt_ok|congruence].
Qed.

Lemma draws_suffice_true draws :
  draws_suffice draws = true ->
  exists recv d1 send d2, newMPPESalt draws = Some (recv, d1) /\ distinct_salt recv d1 = Some (send, d2).
Proof.
  unfold draws_suffice. destruct (newMPPESalt draws) as [[recv d1]|]; [|done].
  destruct (distinct_salt recv d1) as [[send d2]|] eqn:E; [eauto 10|done].
Qed.

Lemma encrypt_total secret auth salt key :
  length salt = 2%nat -> exists r, encryptMPPEKey secret auth salt key = Some r.
Proof.
  intros L. destruct (mppe_inputs secret salt key) eqn:E.
  - destruct (encrypt_decrypt secret auth salt key L E) as (attr & H & _). eauto.
  - destruct (encrypt_fails secret auth salt key L E) as [e H]. eauto.
Qed.

Lemma encrypt_Ok secret auth salt key attr :
  length salt = 2%nat -> encryptMPPEKey secret auth salt key = Some (Ok attr) ->
  take 2 attr = salt /\ length attr = (2 + (16 + length key) / 16 * 16)%nat /\ mppe_decrypt secret auth attr = Some key.
Proof.
  intros L H. destruct (mppe_inputs secret salt key) eqn:E.
  - destruct (encrypt_decrypt secret auth salt key L E) as (attr' & H' & ?). congruence.
  - destruct (encrypt_fails secret auth salt key L E) as [e H']. congruence.
Qed.

(** * Packets *)
Section Replies.
Context {P : Type} `{RadiusLaws P}.

(** [p'] is [p] but for the attributes of the list. *)
Definition only (l : list attr) (p p' : P) : Prop :=
  same_header p p' /\ p_Vendor p' = p_Vendor p /\ forall a, a ∉ l -> p_Lookup a p' = p_Lookup a p.

Lemma only_refl p : only [] p p.
Proof. done. Qed.

Lemma only_trans l1 l2 p1 p2 p3 : only l1 p1 p2 -> only l2 p2 p3 -> only (l1 ++ l2) p1 p3.
Proof.
  intros ((H1 & H2 & H3 & H4) & V & L) ((H1' & H2' & H3' & H4') & V' & L').
  split; [unfold same_header; split_and!; congruence|]. split; [congruence|].
  intros a Ha. rewrite L', L; [done|set_solver..].
Qed.

Lemma only_mono l1 l2 p p' : only l1 p p' -> l1 ⊆ l2 -> only l2 p p'.
Proof. intros (? & ? & L) S. split_and!; [done..|]. intros a Ha. apply L. set_solver. Qed.

Lemma Set_only a v p p' : p_Set a v p = Ok p' -> only [a] p p' /\ p_Lookup a p' = Some (stored v).
Proof.
  intros E. destruct (rl_set _ _ _ _ E) as (? & ? & ? & L). split; [|done]. split_and!; [done..|].
  intros b Hb. apply L. set_solver.
Qed.

Lemma set_only a v p : only [a] p (set_ a v p).
Proof.
  unfold set_. destruct (p_Set a v p) as [p'|e] eqn:E; [by apply Set_only in E as [? _]|].
  by apply (only_mono [] [a]); [apply only_refl|set_solver].
Qed.

Lemma set_eap b p : b <> [] -> p_Lookup EAP_Message (set_ EAP_Message (VBytes b) p) = Some (VBytes b).
Proof.
  intros Hb. pose proof (rl_eap b p Hb) as O. unfold set_. destruct (p_Set _ _ _) eqn:E; [|done].
  by apply Set_only in E as [_ ?].
Qed.

Lemma set_string_get a s p :
  (String.length s <= 253)%nat -> p_Lookup a (set_string a s p) = Some (VBytes (bytes_of_string s)).
Proof.
  intros Hs. pose proof (rl_bytes a (bytes_of_string s) p) as O. rewrite length_bytes_of_string in O.
  specialize (O Hs). unfold set_string, set_. destruct (p_Set _ _ _) eqn:E; [|done].
  by apply Set_only in E as [_ ?].
Qed.

Lemma set_ip_get a ip p : non_nil (To4 ip) = true -> p_Lookup a (set_ a (VIP ip) p) = Some (VIP (To4 ip)).
Proof.
  intros Hip. pose proof (rl_ip a ip p Hip) as O. unfold set_. destruct (p_Set _ _ _) eqn:E; [|done].
  by apply Set_only in E as [_ ?].
Qed.

(** The Message-Authenticator is the HMAC of the packet with a zero one. *)
Definition authenticated (p : P) : Prop :=
  exists zeroed wire, p_Set Message_Authenticator (VBytes (zeros 16)) p = Ok zeroed /\
    p_Marshal zeroed = Ok wire /\ p_Lookup Message_Authenticator p = Some (VBytes (hmac_md5 (p_Secret p) wire)).

Lemma setMessageAuthenticator_ok p p' :
  setMessageAuthenticator p = Ok p' -> only [Message_Authenticator] p p' /\ authenticated p'.
Proof.
  unfold setMessageAuthenticator. destruct (p_Set _ (VBytes (zeros 16)) p) as [p1|] eqn:E1; [|done].
  destruct (p_Marshal p1) as [wire|] eqn:M; [|done]. intros E2.
  pose proof (rl_set_set _ _ _ _ _ _ E1 E2) as Z.
  apply Set_only in E1 as [O1 _]. apply Set_only in E2 as [O2 L2]. split.
  - apply (only_mono ([Message_Authenticator] ++ [Message_Authenticator]) _ _ _ (only_trans _ _ _ _ _ O1 O2)). set_solver.
  - exists p1, wire. split_and!; [done..|]. rewrite L2. cbn [stored].
    destruct O2 as ((_ & _ & _ & S2) & _). by rewrite S2.
Qed.

(** The two vendor attributes deliver the halves of the MSK. *)
Definition delivers (p : P) (msk : list Z) : Prop :=
  exists recv send, p_Vendor p = [(microsoftVendorID, msMPPERecvKey :: 52 :: recv);
                                 (microsoftVendorID, msMPPESendKey :: 52 :: send)] /\
    mppe_decrypt (p_Secret p) (p_Authenticator p) recv = Some (take 32 msk) /\
    mppe_decrypt (p_Secret p) (p_Authenticator p) send = Some (drop 32 msk) /\ take 2 recv <> take 2 send.

Lemma addMicrosoftVSA_50 p t v p' :
  length v = 50%nat -> addMicrosoftVSA p t v = Ok p' ->
  same_header p p' /\ p_Vendor p' = (p_Vendor p ++ [(microsoftVendorID, t :: 52 :: v)])%list /\
  forall a, p_Lookup a p' = p_Lookup a p.
Proof. unfold addMicrosoftVSA. intros L. rewrite L. cbn [Nat.ltb Nat.leb]. apply rl_add. Qed.

Lemma addMPPEKeys_ok p msk draws p' :
  draws_ok draws -> p_Vendor p = [] -> addMPPEKeys p msk draws = Some (Ok p') ->
  same_header p p' /\ delivers p' msk /\ forall a, p_Lookup a p' = p_Lookup a p.
Proof.
  unfold addMPPEKeys. intros D V. destruct (length msk =? 64)%nat eqn:L; cbn [negb]; [|done]. nbools.
  destruct (newMPPESalt draws) as [[recvSalt d1]|] eqn:E1; cbn [mbind option_bind]; [|done].
  destruct (newMPPESalt_ok _ _ _ D E1) as [[L1 B1] D1].
  destruct (distinct_salt recvSalt d1) as [[sendSalt d2]|] eqn:E2; cbn [mbind option_bind]; [|done].
  destruct (distinct_salt_ok _ _ _ _ D1 E2) as [[L2 B2] N].
  destruct (encryptMPPEKey _ _ recvSalt _) as [[recv|]|] eqn:E3; cbn [mbind option_bind]; try done.
  apply encrypt_Ok in E3 as (S3 & L3 & M3); [|done]. rewrite length_take, L in L3.
  destruct (addMicrosoftVSA p _ recv) as [p1|] eqn:E4; [|done].
  apply addMicrosoftVSA_50 in E4 as (H1 & V1 & A1); [|exact L3].
  destruct (encryptMPPEKey _ _ sendSalt _) as [[send|]|] eqn:E5; cbn [mbind option_bind]; try done.
  apply encrypt_Ok in E5 as (S5 & L5 & M5); [|done]. rewrite length_drop, L in L5. intros E6. injection E6 as E6.
  apply addMicrosoftVSA_50 in E6 as (H2 & V2 & A2); [|exact L5].
  destruct H1 as (? & ? & Au1 & Se1), H2 as (? & ? & Au2 & Se2).
  split; [unfold same_header; split_and!; congruence|]. split; [|intros a; by rewrite A2].
  exists recv, send. rewrite Au2, Se2, V2, V1, V, S3, S5. rewrite Au1, Se1. rewrite Au1, Se1 in M5. done.
Qed.

Lemma addMPPEKeys_total p msk draws :
  draws_ok draws -> draws_suffice draws = true -> exists r, addMPPEKeys p msk draws = Some r.
Proof.
  unfold addMPPEKeys. intros D (recv & d1 & send & d2 & E1 & E2)%draws_suffice_true.
  destruct (length msk =? 64)%nat; cbn [negb]; [|eauto]. rewrite E1. cbn [mbind option_bind].
  destruct (newMPPESalt_ok _ _ _ D E1) as [[L1 _] D1]. rewrite E2. cbn [mbind option_bind].
  destruct (distinct_salt_ok _ _ _ _ D1 E2) as [[L2 _] _].
  destruct (encrypt_total (p_Secret p) (p_Authenticator p) recv (take 32 msk) L1) as [[r|] ->]; cbn [mbind option_bind]; [|eauto].
  destruct (addMicrosoftVSA _ _ _) as [p1|]; [|eauto].
  destruct (encrypt_total (p_Secret p1) (p_Authenticator p1) send (drop 32 msk) L2) as [r' ->]. cbn. eauto.
Qed.
End Replies.
