(* ===== verification/RadiusReply.v ===== *)
(** The replies of the RADIUS server: what an Access-Reject, a challenge and an
    Access-Accept hold, and that these are the only replies. *)
From S2P Require Import Prelude.
From S2P Require Import GoNet.
From S2P Require Import Config.
From S2P Require Import Session.
From S2P Require Import Crypto.
From S2P Require Import Lifecycle.
From S2P Require Import Radius.
From S2P Require Import RadiusFacts.
Open Scope string_scope.
Open Scope Z_scope.

Section Replies.
Context {P : Type} `{RadiusLaws P}.

(** A reply to [r]: the client can match it and authenticate it. *)
Definition answers (r p : P) : Prop :=
  p_Identifier p = p_Identifier r /\ p_Authenticator p = p_Authenticator r /\ p_Secret p = p_Secret r.

(** No identity, keys, address or EAP packet leaves with a reject. *)
Definition is_reject (r p : P) : Prop :=
  p_Code p = CodeAccessReject /\ answers r p /\ p_Vendor p = [] /\ forall a, a <> Reply_Message -> p_Lookup a p = None.

Definition is_challenge (r : P) (resp : EAPResponse) (p : P) : Prop :=
  p_Code p = CodeAccessChallenge /\ answers r p /\ p_Vendor p = [] /\
  (pr_EAPPayload resp <> [] -> p_Lookup EAP_Message p = Some (VBytes (pr_EAPPayload resp)) /\ authenticated p) /\
  (pr_SessionID resp <> "" -> (String.length (pr_SessionID resp) <= 253)%nat ->
   p_Lookup State_ p = Some (VBytes (bytes_of_string (pr_SessionID resp)))).

(** The VLAN and the lifetimes of the configuration. *)
Definition assigns (c : RadiusConfig) (p : P) : Prop :=
  p_Lookup Tunnel_Type p = Some (VTag 0 (VInt TunnelType_VLAN)) /\
  p_Lookup Tunnel_Medium_Type p = Some (VTag 0 (VInt TunnelMediumType_IEEE802)) /\
  p_Lookup Tunnel_Private_Group_ID p = Some (VTag 0 (VBytes (bytes_of_string (pretty (rd_VLANID c))))) /\
  p_Lookup Session_Timeout p = (if 0 <? raa_SessionTimeoutSeconds (rd_AccessAccept c)
                                then Some (VInt (wrap 32 (raa_SessionTimeoutSeconds (rd_AccessAccept c)))) else None) /\
  p_Lookup Idle_Timeout p = (if 0 <? raa_IdleTimeoutSeconds (rd_AccessAccept c)
                             then Some (VInt (wrap 32 (raa_IdleTimeoutSeconds (rd_AccessAccept c)))) else None).

(** The subscriber's address and session. *)
Definition names_session (resp : EAPResponse) (p : P) : Prop :=
  (non_nil (To4 (ParseIP (pr_SubscriberIP resp))) = true -> pr_SubscriberIP resp <> "" ->
   p_Lookup Framed_IP_Address p = Some (VIP (To4 (ParseIP (pr_SubscriberIP resp))))) /\
  (pr_SessionID resp <> "" -> (String.length (pr_SessionID resp) <= 253)%nat ->
   p_Lookup Class_ p = Some (VBytes (bytes_of_string (pr_SessionID resp)))).

Definition is_accept (c : RadiusConfig) (r : P) (resp : option EAPResponse) (p : P) : Prop :=
  p_Code p = CodeAccessAccept /\ answers r p /\ assigns c p /\
  match resp with
  | None => p_Vendor p = []
  | Some resp => names_session resp p /\
    if non_nil (pr_EAPPayload resp)
    then p_Lookup EAP_Message p = Some (VBytes (pr_EAPPayload resp)) /\ authenticated p /\
         (if (length (pr_MSK resp) =? 64)%nat then delivers p (pr_MSK resp) else p_Vendor p = [])
    else p_Vendor p = []
  end.

Lemma response_answers code r : answers r (p_Response code r).
Proof. by destruct (rl_response code r) as (? & ? & ? & ? & _). Qed.

Lemma response_code code r : p_Code (p_Response code r) = code.
Proof. by destruct (rl_response code r). Qed.

Lemma response_vendor code r : p_Vendor (p_Response code r) = [].
Proof. by destruct (rl_response code r) as (_ & _ & _ & _ & ? & _). Qed.

Lemma response_empty code r a : p_Lookup a (p_Response code r) = None.
Proof. by destruct (rl_response code r) as (_ & _ & _ & _ & _ & ?). Qed.

Lemma only_answers l r p p' : only l p p' -> answers r p -> answers r p'.
Proof. intros ((_ & ? & ? & ?) & _) (? & ? & ?). unfold answers. split_and!; congruence. Qed.

Lemma only_code l p p' : only l p p' -> p_Code p' = p_Code p.
Proof. by intros ((? & _) & _). Qed.

Lemma only_vendor l p p' : only l p p' -> p_Vendor p' = p_Vendor p.
Proof. by intros (_ & ? & _). Qed.

Lemma only_get l p p' a : only l p p' -> a ∉ l -> p_Lookup a p' = p_Lookup a p.
Proof. intros (_ & _ & L). apply L. Qed.

Lemma response_reject r : is_reject r (p_Response CodeAccessReject r).
Proof.
  split; [apply response_code|]. split; [apply response_answers|]. split; [apply response_vendor|].
  intros; apply response_empty.
Qed.

Lemma reject_spec r reason : is_reject r (reject r reason).
Proof.
  pose proof (set_only Reply_Message (VBytes (bytes_of_string reason)) (p_Response CodeAccessReject r)) as O.
  unfold reject, set_string. split_and!.
  - rewrite (only_code _ _ _ O). apply response_code.
  - apply (only_answers _ _ _ _ O), response_answers.
  - rewrite (only_vendor _ _ _ O). apply response_vendor.
  - intros a Ha. rewrite (only_get _ _ _ a O) by set_solver. apply response_empty.
Qed.

(** A list of attributes that a step sets. *)
Lemma if_only (b : bool) l p p' : only l p p' -> only l p (if b then p' else p).
Proof. destruct b; [done|]. intros _. apply (only_mono []); [apply only_refl|set_solver]. Qed.

Lemma challenge_spec r resp p : challenge_packet r resp = Ok p -> is_challenge r resp p.
Proof.
  unfold challenge_packet. set (p0 := p_Response CodeAccessChallenge r).
  set (p1 := if non_nil (pr_EAPPayload resp) then _ else p0).
  set (p2 := if nonempty (pr_SessionID resp) then _ else p1).
  assert (O1 : only [EAP_Message] p0 p1) by apply if_only, set_only.
  assert (O2 : only [State_] p1 p2) by apply if_only, set_only.
  intros E.
  assert (O3 : only [Message_Authenticator] p2 p /\ (pr_EAPPayload resp <> [] -> authenticated p)).
  { destruct (pr_EAPPayload resp) as [|x l] eqn:E0; cbn [non_nil] in E.
    - injection E as <-. split; [|done]. apply (only_mono []); [apply only_refl|set_solver].
    - apply setMessageAuthenticator_ok in E as [? ?]. done. }
  destruct O3 as [O3 A].
  split_and!.
  - rewrite (only_code _ _ _ O3), (only_code _ _ _ O2), (only_code _ _ _ O1). apply response_code.
  - eapply only_answers, only_answers, only_answers, response_answers; eassumption.
  - rewrite (only_vendor _ _ _ O3), (only_vendor _ _ _ O2), (only_vendor _ _ _ O1). apply response_vendor.
  - intros Hp. split; [|by apply A]. rewrite (only_get _ _ _ _ O3), (only_get _ _ _ _ O2) by set_solver.
    unfold p1. rewrite (proj2 (non_nil_spec _) Hp). by apply set_eap.
  - intros Hs Ls. rewrite (only_get _ _ _ _ O3) by set_solver. unfold p2.
    rewrite (proj2 (nonempty_spec _) Hs). by apply set_string_get.
Qed.

(** * Accepts *)
Lemma rbind_Ok {A B} (r : result A string) (k : A -> result B string) b :
  rbind r k = Ok b -> exists a, r = Ok a /\ k a = Ok b.
Proof. destruct r; [eauto|done]. Qed.

Lemma wrap_err_Ok {A} msg (r : result A string) a : wrap_err msg r = Ok a -> r = Ok a.
Proof. by destruct r. Qed.

(** A step that sets one attribute, or none. *)
Lemma set_if_only (b : bool) msg a v p p' :
  (if b then wrap_err msg (p_Set a v p) else Ok p) = Ok p' ->
  only [a] p p' /\ p_Lookup a p' = (if b then Some (stored v) else p_Lookup a p).
Proof.
  destruct b; intros E.
  - apply wrap_err_Ok, Set_only in E. done.
  - injection E as <-. split; [|done]. apply (only_mono []); [apply only_refl|set_solver].
Qed.

Definition lifetime_attrs : list attr := [Session_Timeout; Termination_Action; Idle_Timeout].
Definition vlan_attrs : list attr := [Tunnel_Type; Tunnel_Medium_Type; Tunnel_Private_Group_ID].

Lemma lifetime_spec s p p' :
  p_Lookup Session_Timeout p = None -> p_Lookup Idle_Timeout p = None -> addAccessAcceptLifetime s p = Ok p' ->
  let c := rd_AccessAccept (rs_cfg s) in
  only lifetime_attrs p p' /\
  p_Lookup Session_Timeout p' = (if 0 <? raa_SessionTimeoutSeconds c
                                 then Some (VInt (wrap 32 (raa_SessionTimeoutSeconds c))) else None) /\
  p_Lookup Idle_Timeout p' = (if 0 <? raa_IdleTimeoutSeconds c
                              then Some (VInt (wrap 32 (raa_IdleTimeoutSeconds c))) else None).
Proof.
  unfold addAccessAcceptLifetime. intros N1 N2 (p1 & E1 & (p2 & E2 & E3)%rbind_Ok)%rbind_Ok.
  apply set_if_only in E1 as [O1 L1]. apply set_if_only in E3 as [O3 L3].
  assert (O2 : only [Termination_Action] p1 p2).
  { destruct (_ || _)%bool in E2; [by apply wrap_err_Ok, Set_only in E2 as [? _]|].
    destruct (String.eqb _ _) in E2; [by apply wrap_err_Ok, Set_only in E2 as [? _]|done]. }
  split_and!.
  - eapply (only_mono ([Session_Timeout] ++ [Termination_Action] ++ [Idle_Timeout])); [|set_solver].
    eapply only_trans; [exact O1|]. by eapply only_trans.
  - rewrite (only_get _ _ _ _ O3), (only_get _ _ _ _ O2), L1, N1 by set_solver. done.
  - rewrite L3, (only_get _ _ _ _ O2), (only_get _ _ _ _ O1), N2 by set_solver. done.
Qed.

Lemma vlan_spec p vlan p' :
  addVLAN p vlan = Ok p' ->
  only vlan_attrs p p' /\
  p_Lookup Tunnel_Type p' = Some (VTag 0 (VInt TunnelType_VLAN)) /\
  p_Lookup Tunnel_Medium_Type p' = Some (VTag 0 (VInt TunnelMediumType_IEEE802)) /\
  p_Lookup Tunnel_Private_Group_ID p' = Some (VTag 0 (VBytes (bytes_of_string (pretty vlan)))).
Proof.
  unfold addVLAN. intros (p1 & E1 & (p2 & E2 & E3)%rbind_Ok)%rbind_Ok.
  apply wrap_err_Ok, Set_only in E1 as [O1 L1]. apply wrap_err_Ok, Set_only in E2 as [O2 L2].
  apply wrap_err_Ok, Set_only in E3 as [O3 L3]. split_and!.
  - eapply (only_mono ([Tunnel_Type] ++ [Tunnel_Medium_Type] ++ [Tunnel_Private_Group_ID])); [|set_solver].
    eapply only_trans; [exact O1|]. by eapply only_trans.
  - by rewrite (only_get _ _ _ _ O3), (only_get _ _ _ _ O2), L1 by set_solver.
  - by rewrite (only_get _ _ _ _ O3), L2 by set_solver.
  - exact L3.
Qed.

(** The configured part of an accept. *)
Lemma config_spec s p p' :
  (forall a, a ∈ (lifetime_attrs ++ vlan_attrs)%list -> p_Lookup a p = None) ->
  rbind (addAccessAcceptLifetime s p) (fun p => addVLAN p (rd_VLANID (rs_cfg s))) = Ok p' ->
  only (lifetime_attrs ++ vlan_attrs)%list p p' /\ assigns (rs_cfg s) p'.
Proof.
  intros N (p1 & E1 & E2)%rbind_Ok.
  apply lifetime_spec in E1 as (O1 & S1 & I1); [|apply N; set_solver..].
  apply vlan_spec in E2 as (O2 & T1 & T2 & T3). split; [by eapply only_trans|].
  unfold assigns. rewrite T1, T2, T3. split_and!; [done..| |].
  - rewrite (only_get _ _ _ _ O2) by set_solver. exact S1.
  - rewrite (only_get _ _ _ _ O2) by set_solver. exact I1.
Qed.

(** The packet with the names only. *)
Definition named_packet (r : P) (resp : EAPResponse) : P :=
  let p := p_Response CodeAccessAccept r in
  let p := if nonempty (pr_SubscriberIP resp)
           then set_ Framed_IP_Address (VIP (ParseIP (pr_SubscriberIP resp))) p else p in
  if nonempty (pr_SessionID resp) then set_string Class_ (pr_SessionID resp) p else p.

Definition name_attrs : list attr := [Framed_IP_Address; Class_].

Lemma named_spec r resp :
  only name_attrs (p_Response CodeAccessAccept r) (named_packet r resp) /\ names_session resp (named_packet r resp).
Proof.
  unfold named_packet. set (p0 := p_Response CodeAccessAccept r).
  set (p1 := if nonempty (pr_SubscriberIP resp) then _ else p0).
  set (p2 := if nonempty (pr_SessionID resp) then _ else p1).
  assert (O1 : only [Framed_IP_Address] p0 p1) by apply if_only, set_only.
  assert (O2 : only [Class_] p1 p2) by apply if_only, set_only.
  split; [exact (only_trans _ _ _ _ _ O1 O2)|]. split.
  - intros Hip Hs. rewrite (only_get _ _ _ _ O2) by set_solver. unfold p1.
    rewrite (proj2 (nonempty_spec _) Hs). by apply set_ip_get.
  - intros Hs Ls. unfold p2. rewrite (proj2 (nonempty_spec _) Hs). by apply set_string_get.
Qed.

Lemma names_only l resp p p' :
  only l p p' -> Framed_IP_Address ∉ l -> Class_ ∉ l -> names_session resp p -> names_session resp p'.
Proof. intros O N1 N2 [F C]. unfold names_session. rewrite (only_get _ _ _ _ O N1), (only_get _ _ _ _ O N2). done. Qed.

Lemma assigns_only l c p p' :
  only l p p' -> (forall a, a ∈ (lifetime_attrs ++ vlan_attrs)%list -> a ∉ l) -> assigns c p -> assigns c p'.
Proof.
  intros O N A. unfold assigns. rewrite !(only_get _ _ _ _ O) by (apply N; set_solver). exact A.
Qed.

(** What the EAP part leaves as it is. *)
Definition eap_attrs : list attr := [EAP_Message; Message_Authenticator].

Lemma accept_eap_spec p resp draws p' :
  draws_ok draws -> p_Vendor p = [] -> pr_EAPPayload resp <> [] -> accept_eap p resp draws = Some (Ok p') ->
  same_header p p' /\ (forall a, a ∉ eap_attrs -> p_Lookup a p' = p_Lookup a p) /\
  p_Lookup EAP_Message p' = Some (VBytes (pr_EAPPayload resp)) /\ authenticated p' /\
  (if (length (pr_MSK resp) =? 64)%nat then delivers p' (pr_MSK resp) else p_Vendor p' = []).
Proof.
  intros D V Hp. unfold accept_eap. set (p1 := set_ EAP_Message _ p).
  assert (O1 : only [EAP_Message] p p1) by apply set_only.
  assert (L1 : p_Lookup EAP_Message p1 = Some (VBytes (pr_EAPPayload resp))) by by apply set_eap.
  assert (V1 : p_Vendor p1 = []) by by rewrite (only_vendor _ _ _ O1).
  assert (K : forall k, (if (length (pr_MSK resp) =? 64)%nat then addMPPEKeys p1 (pr_MSK resp) draws
                         else Some (Ok p1)) = Some (Ok k) ->
    same_header p1 k /\ (forall a, p_Lookup a k = p_Lookup a p1) /\
    (if (length (pr_MSK resp) =? 64)%nat then delivers k (pr_MSK resp) else p_Vendor k = [])).
  { intros k E. destruct (length (pr_MSK resp) =? 64)%nat.
    - by apply addMPPEKeys_ok in E as (? & ? & ?).
    - by injection E as <-. }
  destruct (if (length (pr_MSK resp) =? 64)%nat then _ else _) as [[k|]|] eqn:E; cbn [mbind option_bind rbind]; try done.
  destruct (K k eq_refl) as (Hk & Lk & Dk). intros E'. injection E' as E'.
  apply setMessageAuthenticator_ok in E' as [O2 A].
  pose proof O1 as ((? & ? & ? & ?) & _). destruct Hk as (? & ? & ? & ?).
  pose proof O2 as ((? & ? & Hau & Hse) & Hve & _). split_and!.
  - unfold same_header. split_and!; congruence.
  - intros a Ha. unfold eap_attrs in Ha. rewrite (only_get _ _ _ _ O2), Lk, (only_get _ _ _ _ O1) by set_solver. done.
  - rewrite (only_get _ _ _ _ O2), Lk by set_solver. exact L1.
  - exact A.
  - unfold delivers in *. rewrite Hve, Hau, Hse. exact Dk.
Qed.

Lemma accept_spec s r resp draws p :
  draws_ok draws -> accept_packet s r resp draws = Some (Ok p) -> is_accept (rs_cfg s) r resp p.
Proof.
  intros D. unfold accept_packet. destruct resp as [resp|].
  - fold (named_packet r resp). destruct (named_spec r resp) as [O0 N0]. revert O0 N0.
    generalize (named_packet r resp). intros p1 O1 N1.
    destruct (rbind _ _) as [p2|] eqn:E1; [|done].
    apply config_spec in E1 as [O2 A2].
    2: { intros a Ha. rewrite (only_get _ _ _ _ O1); [apply response_empty|]. intros Hn.
         unfold lifetime_attrs, vlan_attrs, name_attrs in *. set_solver. }
    assert (N2 : names_session resp p2) by (eapply names_only; [exact O2|set_solver..|exact N1]).
    assert (V2 : p_Vendor p2 = []).
    { rewrite (only_vendor _ _ _ O2), (only_vendor _ _ _ O1). apply response_vendor. }
    assert (C2 : p_Code p2 = CodeAccessAccept).
    { rewrite (only_code _ _ _ O2), (only_code _ _ _ O1). apply response_code. }
    assert (W2 : answers r p2) by (eapply only_answers, only_answers, response_answers; eassumption).
    destruct (non_nil (pr_EAPPayload resp)) eqn:Hp; intros E.
    + apply accept_eap_spec in E as (H3 & L3 & M3 & U3 & K3); [|done..|by apply non_nil_spec].
      split_and!.
      * destruct H3 as (? & _). congruence.
      * destruct H3 as (? & ? & ? & ?), W2 as (? & ? & ?). unfold answers. split_and!; congruence.
      * unfold assigns. rewrite !L3 by (unfold eap_attrs; set_solver). exact A2.
      * unfold names_session. rewrite !L3 by (unfold eap_attrs; set_solver). exact N2.
      * rewrite Hp. done.
    + injection E as <-. split_and!; try done. by rewrite Hp.
  - destruct (rbind _ _) as [p2|] eqn:E1; [|done]. apply config_spec in E1 as [O2 A2]; [|intros; apply response_empty].
    intros E. injection E as <-. split_and!; [|eapply only_answers, response_answers; eassumption|done|].
    + rewrite (only_code _ _ _ O2). apply response_code.
    + rewrite (only_vendor _ _ _ O2). apply response_vendor.
Qed.

(** Building an accept returns a packet or an error. *)
Lemma accept_total s r resp draws :
  draws_ok draws -> draws_suffice draws = true -> exists k, accept_packet s r resp draws = Some k.
Proof.
  intros D S. unfold accept_packet. destruct (rbind _ _) as [p|]; [|eauto]. destruct resp as [resp|]; [|eauto].
  destruct (non_nil _); [|eauto]. unfold accept_eap.
  destruct (length (pr_MSK resp) =? 64)%nat; [|cbn; eauto].
  destruct (addMPPEKeys_total (set_ EAP_Message (VBytes (pr_EAPPayload resp)) p) (pr_MSK resp) draws D S) as [k ->].
  cbn. eauto.
Qed.
End Replies.
