(* ===== verification/RadiusHandler.v ===== *)
(** The authentication port of the RADIUS server: which packets bring the
    handler down, what it replies, and a table of attributes that satisfies
    the laws of the packet library. *)
From S2P Require Import Prelude.
From S2P Require Import GoNet.
From S2P Require Import Config.
From S2P Require Import Session.
From S2P Require Import Crypto.
From S2P Require Import Lifecycle.
From S2P Require Import Radius.
From S2P Require Import RadiusFacts.
From S2P Require Import RadiusReply.
Open Scope string_scope.
Open Scope Z_scope.

(** * A packet library

    Attributes in the order they were first set. *)
Record table_packet := mkTablePacket {
  tp_code : Z; tp_id : Z; tp_auth : list Z; tp_secret : list Z; tp_attrs : list (attr * value); tp_vendor : list (Z * list Z)
}.

Fixpoint assoc_get (a : attr) (l : list (attr * value)) : option value :=
  match l with
  | [] => None
  | (b, v) :: l => if decide (b = a) then Some v else assoc_get a l
  end.

Fixpoint assoc_set (a : attr) (v : value) (l : list (attr * value)) : list (attr * value) :=
  match l with
  | [] => [(a, v)]
  | (b, w) :: l => if decide (b = a) then (b, v) :: l else (b, w) :: assoc_set a v l
  end.

(** An EAP message is split over attributes, a string is not. *)
Definition settable (a : attr) (v : value) : bool :=
  match v with
  | VBytes b => (bool_decide (a = EAP_Message) || (length b <=? 253)%nat)%bool
  | VIP ip => non_nil (To4 ip)
  | _ => true
  end.

#[export] Instance table_radius : RadiusLib table_packet := {
  p_Code := tp_code; p_Identifier := tp_id; p_Authenticator := tp_auth; p_Secret := tp_secret;
  p_Lookup a p := assoc_get a (tp_attrs p);
  p_Vendor := tp_vendor;
  p_Set a v p := if settable a v
                 then Ok (mkTablePacket (tp_code p) (tp_id p) (tp_auth p) (tp_secret p)
                            (assoc_set a (stored v) (tp_attrs p)) (tp_vendor p))
                 else Err "value too long";
  p_Add vendor b p := if (length b <=? 249)%nat
                      then Ok (mkTablePacket (tp_code p) (tp_id p) (tp_auth p) (tp_secret p) (tp_attrs p)
                                 (tp_vendor p ++ [(vendor, b)])%list)
                      else Err "value too long";
  p_Response code p := mkTablePacket code (tp_id p) (tp_auth p) (tp_secret p) [] [];
  p_New code secret := mkTablePacket code 0 (zeros 16) secret [] [];
  p_Marshal p := Ok (tp_code p :: tp_id p :: tp_auth p);
  p_enum _ v := pretty v;
  p_code_name c := pretty c
}.

Lemma assoc_get_set a v l : assoc_get a (assoc_set a v l) = Some v.
Proof. induction l as [|[b w] l IH]; cbn; [by rewrite decide_True|]. destruct (decide (b = a)) eqn:E; cbn; by rewrite E. Qed.

Lemma assoc_get_set_ne a b v l : b <> a -> assoc_get b (assoc_set a v l) = assoc_get b l.
Proof.
  intros N. induction l as [|[c w] l IH]; cbn; [by rewrite decide_False by congruence|].
  destruct (decide (c = a)) as [->|]; cbn.
  - by rewrite !decide_False by congruence.
  - by rewrite IH.
Qed.

Lemma assoc_set_set a v w l : assoc_set a v (assoc_set a w l) = assoc_set a v l.
Proof.
  induction l as [|[c x] l IH]; cbn; [by rewrite decide_True|].
  destruct (decide (c = a)) eqn:E; cbn; rewrite E; [done|]. by rewrite IH.
Qed.

#[export] Instance table_radius_laws : RadiusLaws table_packet.
Proof.
  split; cbn.
  - intros. split_and!; done.
  - intros. split_and!; done.
  - intros a v p p'. destruct (settable a v); [|done]. intros E. injection E as <-. cbn. split_and!; [done..| |].
    + apply assoc_get_set.
    + intros. by apply assoc_get_set_ne.
  - intros a v w p p1 p2. destruct (settable a v); [|done]. intros E1. injection E1 as <-.
    destruct (settable a w); [|done]. intros E2. injection E2 as <-. cbn. by rewrite !assoc_set_set.
  - intros. by rewrite bool_decide_true.
  - intros a b p L. apply Nat.leb_le in L. by rewrite L, orb_true_r.
  - intros a ip p ->. done.
  - intros vendor b p L. apply Nat.leb_le in L. by rewrite L.
  - intros vendor b p p'. destruct (_ <=? _)%nat; [|done]. intros E. injection E as <-. split_and!; done.
Qed.

(** * The handler *)
Section Handler.
Context {P : Type} `{RadiusLaws P} {W : Type} `{EAPService W}.

Lemma eapRequest_payload s r addr req : eapRequest s r addr = Some req -> p_EAPPayload req = GetBytes EAP_Message r.
Proof. unfold eapRequest. destruct (eapIdentity _); [|done]. intros E. by injection E as <-. Qed.

Lemma eapRequest_None s r addr : eapRequest s r addr = None <-> short_identity (GetBytes EAP_Message r) = true.
Proof. rewrite <- eapIdentity_None. unfold eapRequest. by destruct (eapIdentity _). Qed.

(** The reply to an answer of the service. *)
Definition reply_to (s : RadiusServer) (r : P) (resp : option EAPResponse) (p : P) : Prop :=
  match resp with
  | Some resp' => if String.eqb (pr_State resp') "challenge" then is_challenge r resp' p
                  else is_accept (rs_cfg s) r resp p
  | None => is_accept (rs_cfg s) r None p
  end.

Lemma answer_spec s r resp err draws p :
  draws_ok draws -> answer s r resp err draws = Some p ->
  is_reject r p \/ (err = None /\ reply_to s r resp p).
Proof.
  intros D. unfold answer, reply_to. destruct err as [e|].
  { intros E. injection E as <-. left. apply reject_spec. }
  assert (K : forall resp q, (k ← accept_packet s r resp draws;
              Some match k with Ok p => p | Err e => reject r e end) = Some q ->
            is_reject r q \/ is_accept (rs_cfg s) r resp q).
  { intros resp' q. destruct (accept_packet s r resp' draws) as [[k|msg]|] eqn:E; cbn; [| |done]; intros E'; injection E' as <-.
    - right. by eapply accept_spec.
    - left. apply reject_spec. }
  destruct resp as [resp|]; [|intros [?|?]%K; auto].
  destruct (String.eqb (pr_State resp) "challenge"); [|intros [?|?]%K; auto].
  destruct (describeEAP _); cbn; [|done]. destruct (challenge_packet r resp) as [q|msg] eqn:E; intros E'; injection E' as <-.
  - right. split; [done|]. by apply challenge_spec.
  - left. apply reject_spec.
Qed.

Lemma answer_total s r resp err draws :
  draws_ok draws -> draws_suffice draws = true ->
  (answer s r resp err draws = None <->
   err = None /\ exists resp', resp = Some resp' /\ pr_State resp' = "challenge" /\ undescribable (pr_EAPPayload resp') = true).
Proof.
  intros D S. unfold answer. destruct err as [e|]; [split; [done|by intros [? _]]|].
  assert (K : forall resp, (k ← accept_packet s r resp draws;
              Some match k with Ok p => p | Err e => reject r e end) <> None).
  { intros resp'. destruct (accept_total s r resp' draws D S) as [k ->]. done. }
  destruct resp as [resp|].
  - destruct (String.eqb (pr_State resp) "challenge") eqn:E; bools.
    + destruct (describeEAP (pr_EAPPayload resp)) eqn:E'; cbn.
      * split; [done|]. intros (_ & ? & E1 & _ & U). injection E1 as <-. apply describeEAP_None in U. congruence.
      * split; [|done]. intros _. apply describeEAP_None in E'. eauto.
    + split; [by intros ?%K|]. intros (_ & ? & E1 & ? & _). injection E1 as <-. done.
  - split; [by intros ?%K|]. by intros (_ & ? & ? & _).
Qed.

Lemma answers_reject r p : is_reject r p -> answers r p.
Proof. by intros (_ & ? & _). Qed.

Lemma answers_reply s r resp p : reply_to s r resp p -> answers r p.
Proof.
  unfold reply_to. destruct resp as [resp|]; [|by intros (_ & ? & _)].
  destruct (String.eqb _ _); by intros (_ & ? & _).
Qed.

(** The outcome of the handler. *)
Lemma handle_spec s r addr draws now w s' w' reply :
  draws_ok draws -> radius_handle s r addr draws now w = Some (s', w', reply) ->
  if negb (sourceAllowed s addr) then reply = None /\ s' = s /\ w' = w
  else exists p, reply = Some p /\ answers r p /\
    (is_reject r p \/
     exists req resp, eapRequest s r addr = Some req /\ p_EAPPayload req = GetBytes EAP_Message r /\
       p_EAPPayload req <> [] /\ svc_ExchangeEAP req w = Some (w', (resp, None)) /\ reply_to s r resp p).
Proof.
  intros D. unfold radius_handle. destruct (sourceAllowed s addr); cbn [negb].
  2: { intros E. by injection E as <- <- <-. }
  destruct (p_Code r =? CodeAccessRequest); cbn [negb].
  2: { destruct (log_addr addr); cbn [mbind option_bind]; [|done]. intros E. injection E as <- <- <-.
       pose proof (response_reject r) as R. exists (p_Response CodeAccessReject r).
       split_and!; [done|by apply answers_reject|by left]. }
  destruct (eapRequest s r addr) as [req|] eqn:E1; cbn [mbind option_bind]; [|done].
  pose proof (eapRequest_payload _ _ _ _ E1) as Hp.
  destruct (describeEAP _); cbn [mbind option_bind]; [|done].
  destruct (log_addr addr); cbn [mbind option_bind]; [|done].
  destruct (non_nil (p_EAPPayload req)) eqn:N; cbn [negb].
  2: { intros E. injection E as <- <- <-. eexists. split; [done|]. pose proof (reject_spec r "missing EAP-Message").
       eauto using answers_reject. }
  destruct (svc_ExchangeEAP req w) as [[w1 [resp err]]|] eqn:E2; cbn [mbind option_bind]; [|done].
  destruct (answer _ r resp err draws) as [p|] eqn:E3; cbn [mbind option_bind]; [|done].
  intros E. injection E as <- <- <-. exists p. split; [done|].
  apply answer_spec in E3 as [R|[-> R]]; [eauto using answers_reject| |done].
  split; [exact (answers_reply _ _ _ _ R)|]. right. exists req, resp. split_and!; try done. by apply non_nil_spec.
Qed.

(** C9: what the RADIUS server sends.  A packet from a source outside the
    allowed subnets gets no reply and changes nothing.  Any other gets one
    reply, which repeats its identifier and is authenticated for it, and is
    either an Access-Reject that carries nothing but a text, or, only when
    the service was asked with the packet's EAP message and answered without
    an error, the answer: a challenge with the service's EAP packet and
    session as State, or an Access-Accept with the configured VLAN and
    timeouts, the subscriber's address, the session as Class, the EAP packet
    and the two halves of the MSK, which the client recovers under the shared
    secret; replies with an EAP packet have a valid Message-Authenticator. *)
Theorem radius_reply_sound s r addr draws now w s' w' reply :
  draws_ok draws -> radius_handle s r addr draws now w = Some (s', w', reply) ->
  if negb (sourceAllowed s addr) then reply = None /\ s' = s /\ w' = w
  else exists p, reply = Some p /\ answers r p /\
    (is_reject r p \/
     exists req resp, eapRequest s r addr = Some req /\ p_EAPPayload req = GetBytes EAP_Message r /\
       p_EAPPayload req <> [] /\ svc_ExchangeEAP req w = Some (w', (resp, None)) /\ reply_to s r resp p).
Proof. apply handle_spec. Qed.

(** The service answers, and its challenges are EAP packets with a type. *)
Definition service_answers (w : W) : Prop :=
  forall req, exists w' resp err, svc_ExchangeEAP req w = Some (w', (resp, err)) /\
    forall resp', resp = Some resp' -> err = None -> pr_State resp' = "challenge" ->
    undescribable (pr_EAPPayload resp') = false.

(** C12: the packets that crash the server.  For an Access-Request of an
    allowed source, when the service behind it answers every request and the
    random source yields two salts, the handler panics exactly when the EAP
    message is a request or response of four bytes, or an identity response
    whose length field is less than five. *)
Theorem radius_crash_iff s r addr draws now w :
  draws_ok draws -> draws_suffice draws = true -> service_answers w -> addr <> AddrNil ->
  sourceAllowed s addr = true -> p_Code r = CodeAccessRequest ->
  radius_handle s r addr draws now w = None <->
  undescribable (GetBytes EAP_Message r) = true \/ short_identity (GetBytes EAP_Message r) = true.
Proof.
  intros D S A N Al C. unfold radius_handle. rewrite Al, C. cbn [negb].
  change (CodeAccessRequest =? CodeAccessRequest) with true. cbn [negb].
  destruct (eapRequest s r addr) as [req|] eqn:E1; cbn [mbind option_bind].
  2: { apply eapRequest_None in E1. split; auto. }
  assert (Hs : short_identity (GetBytes EAP_Message r) <> true) by (rewrite <- eapRequest_None, E1; done).
  rewrite (eapRequest_payload _ _ _ _ E1). rewrite <- describeEAP_None.
  destruct (describeEAP _) as [d|] eqn:E2; cbn [mbind option_bind]; [|split; auto].
  assert (log_addr addr = Some tt) as -> by (by destruct addr). cbn [mbind option_bind].
  destruct (non_nil _); cbn [negb]; [|split; [done|by intros [?|?]]].
  destruct (A req) as (w' & resp & err & -> & Hch). cbn [mbind option_bind].
  destruct (answer _ r resp err draws) eqn:E3; cbn [mbind option_bind]; [split; [done|by intros [?|?]]|].
  apply answer_total in E3 as (-> & resp' & -> & Hc & U); [|done..]. rewrite (Hch resp') in U by done. done.
Qed.
End Handler.

(** * A server at work *)
Definition demo_radius : RadiusServer := NewRadiusServer (cfg_Radius Default) (mkSubscriberConfig "internet" "realm.example") true true.

(** A service that always gives the same answer. *)
#[local] Instance fixed_service : EAPService (option EAPResponse) :=
  {| svc_ExchangeEAP _ w := Some (w, (w, None)); svc_HandleAccounting _ w := Some (w, None) |}.

Definition demo_request (eap : list Z) : table_packet :=
  mkTablePacket CodeAccessRequest 7 (zeros 16) (bytes_of_string "secret") [(EAP_Message, VBytes eap)] [].

Definition demo_accept : EAPResponse :=
  mkEAPResponse "ses-1" "success" "" "10.45.0.2" "" "ok" [3; 7; 0; 4] (repeat 5 64).

Definition demo_salts : list (list Z) := [[1; 2]; [1; 2]; [3; 4]].

#[local] Abbreviation demo_run :=
  (radius_handle demo_radius (demo_request [2; 7; 0; 5; 23]) (AddrUDP [192; 0; 2; 9] 40000) demo_salts 0 (Some demo_accept)).

Lemma demo_runs : match demo_run with Some _ => true | None => false end = true.
Proof. vm_compute. reflexivity. Qed.

Lemma demo_open : sourceAllowed demo_radius (AddrUDP [192; 0; 2; 9] 40000) = true.
Proof. vm_compute. reflexivity. Qed.

Theorem radius_reply_sound_witness :
  match demo_run with
  | Some (s', w', reply) => exists p, reply = Some p /\ answers (demo_request [2; 7; 0; 5; 23]) p /\
      (is_reject (demo_request [2; 7; 0; 5; 23]) p \/ exists req resp, p_EAPPayload req = [2; 7; 0; 5; 23] /\
       svc_ExchangeEAP req (Some demo_accept) = Some (w', (resp, None)) /\
       reply_to demo_radius (demo_request [2; 7; 0; 5; 23]) resp p)
  | None => False
  end.
Proof.
  pose proof demo_runs as G. destruct demo_run as [[[s' w'] reply]|] eqn:E; [|discriminate G]. clear G.
  pose proof (radius_reply_sound demo_radius (demo_request [2; 7; 0; 5; 23]) (AddrUDP [192; 0; 2; 9] 40000) demo_salts
                  0 (Some demo_accept) s' w' reply ltac:(by repeat constructor) E) as H.
  rewrite demo_open in H. cbn [negb] in H. destruct H as (p & -> & M & [R|(req & resp & _ & Hp & _ & X & R)]); exists p.
  - split; [reflexivity|]. split; [exact M|]. left. exact R.
  - split; [reflexivity|]. split; [exact M|]. right. exists req, resp.
    split; [exact Hp|]. split; [exact X|exact R].
Defined.

(** The accept is sent, with both keys. *)
Example demo_reply :
  match demo_run with
  | Some (_, _, Some p) => (p_Code p, p_Identifier p, map (fun v => length (snd v)) (p_Vendor p)) = (CodeAccessAccept, 7, [52%nat; 52%nat])
  | _ => False
  end.
Proof. vm_compute. reflexivity. Qed.

Theorem radius_crash_iff_witness :
  radius_handle demo_radius (demo_request [2; 7; 0; 4]) (AddrUDP [192; 0; 2; 9] 40000) demo_salts 0 (Some demo_accept) = None <->
  undescribable (GetBytes EAP_Message (demo_request [2; 7; 0; 4])) = true \/
  short_identity (GetBytes EAP_Message (demo_request [2; 7; 0; 4])) = true.
Proof.
  apply (radius_crash_iff demo_radius (demo_request [2; 7; 0; 4]) (AddrUDP [192; 0; 2; 9] 40000) demo_salts 0
           (Some demo_accept)); [by repeat constructor|reflexivity| |discriminate|exact demo_open|reflexivity].
  intros req. eexists _, _, _. split; [reflexivity|]. intros resp' E _. injection E as <-. discriminate.
Defined.
