(* ===== verification/RadiusChain.v ===== *)
(** The program from the access point to the PGW: the RADIUS server on top of
    the lifecycle service, the AAA provider and the Diameter peer. *)
From S2P Require Import Prelude.
From S2P Require Import GoNet.
From S2P Require Import IpText.
From S2P Require Import Config.
From S2P Require Import Session.
From S2P Require Import Diameter.
From S2P Require Import StaClient.
From S2P Require Import StaFacts.
From S2P Require Import Lifecycle.
From S2P Require Import LifecycleFacts.
From S2P Require Import LifecycleProps.
From S2P Require Import StaProvider.
From S2P Require Import EapChain.
From S2P Require Import Radius.
From S2P Require Import RadiusFacts.
From S2P Require Import RadiusReply.
From S2P Require Import RadiusHandler.
Open Scope string_scope.
Open Scope Z_scope.

(** The lifecycle service behind the server. *)
#[export] Instance lifecycle_service (E : Env) : EAPService Service := {|
  svc_ExchangeEAP := ExchangeEAP E; svc_HandleAccounting := HandleAccounting E
|}.

Section Chain.
Context {P : Type} `{RadiusLaws P} (E : Env) (peer : nat -> list message -> result message sta_err)
  (c : nat -> STaDiameterClient) (open : nat -> option sta_err).
Hypothesis peer_ok : forall n h m, peer n h = Ok m -> avps_ok m.
Let E' : Env := with_aaa E peer c open.
#[local] Instance svc : EAPService Service := lifecycle_service E'.

(** An accept without a challenge is a success of the service. *)
Lemma accepted_success n w req w' resp :
  rest_ok E -> reached E' n w -> n + 1 < 2 ^ 64 ->
  ExchangeEAP E' req w = Some (w', (resp, None)) ->
  exists r, resp = Some r /\ (pr_State r = "challenge" \/ pr_State r = "success").
Proof using peer_ok.
  intros HR Hw Hn Hx. pose proof (with_aaa_ok E peer c open peer_ok HR) as HE.
  pose proof (wp_ExchangeEAP E' HE [] n req w (reached_Inv _ HE n w Hw) Hn) as Hp.
  unfold wp in Hp. rewrite Hx in Hp. destruct Hp as [_ Hp]. destruct resp as [r|]; [|by destruct Hp].
  exists r. split; [done|]. destruct Hp as [?|(? & _)]; auto.
Qed.

(** What the Diameter peer granted for the EAP packet of [r]. *)
Definition granted (w : Service) (r : P) (answer : message) : Prop :=
  exists m, peer (sv_questions w) [m] = Ok answer /\
    findAVP (d_AVPs m) avpEAPPayload 0 = Some (mkAVP avpEAPPayload 0 flagMandatory (GetBytes EAP_Message r)) /\
    (exists code, answer_code answer = Some code /\ diameter_success code = true) /\ eap_success_or_none answer.

(** The EAP packet and keys of the accept are those of the peer. *)
Definition hands_on (answer : message) (p : P) : Prop :=
  (forall a, findAVP (d_AVPs answer) avpEAPPayload 0 = Some a -> v_Data a <> [] ->
   p_Lookup EAP_Message p = Some (VBytes (v_Data a)) /\ authenticated p) /\
  (p_Vendor p = [] \/ exists a, findAVP (d_AVPs answer) avpEAPMasterSessionKey 0 = Some a /\
     length (v_Data a) = 64%nat /\ delivers p (v_Data a)).

(** The session the accept names. *)
Definition serves (w : Service) (p : P) : Prop :=
  exists id s, get w id = Some s /\ s_State s = State.Active /\ holds (sv_trace w) RPGW id = true /\
    (id <> "" -> (String.length id <= 253)%nat -> p_Lookup Class_ p = Some (VBytes (bytes_of_string id))) /\
    (length (s_SubscriberIP s) = 4%nat -> bytes_ok (s_SubscriberIP s) ->
     p_Lookup Framed_IP_Address p = Some (VIP (s_SubscriberIP s))).

Lemma names_serves w resp p :
  names_session resp p ->
  (exists s, get w (pr_SessionID resp) = Some s /\ s_State s = State.Active /\
     pr_SubscriberIP resp = ipString (s_SubscriberIP s) /\ s_SubscriberIP s <> [] /\
     holds (sv_trace w) RPGW (pr_SessionID resp) = true) -> serves w p.
Proof using.
  intros [F C] (s & Hg & Hst & Hip & Hne & Hh). exists (pr_SessionID resp), s. split_and!; try done.
  intros L B. assert (T : ipString (s_SubscriberIP s) = IPString (s_SubscriberIP s)) by by destruct (s_SubscriberIP s).
  rewrite Hip, T, ParseIP_IPString in F by done. apply F; [by destruct (s_SubscriberIP s)|].
  intros E0. pose proof (ParseIP_IPString _ L B) as R. rewrite E0 in R. cbn in R. congruence.
Qed.

(** C1: from the access point to the PGW.  When the RADIUS server sends an
    Access-Accept, the Diameter peer was sent the EAP packet of that very
    request and granted it; the EAP packet and the keys in the accept are the
    peer's own, the keys readable under the client's shared secret; the
    accept carries the configured VLAN; and it names a session that is
    registered and active, holds its PGW session, and has the announced
    address. *)
Theorem radius_accept_end_to_end n s r addr draws now w s' w' p :
  rest_ok E -> reached E' n w -> n + 1 < 2 ^ 64 -> draws_ok draws ->
  radius_handle s r addr draws now w = Some (s', w', Some p) -> p_Code p = CodeAccessAccept ->
  exists answer, granted w r answer /\ hands_on answer p /\ assigns (rs_cfg s) p /\ answers r p /\ serves w' p.
Proof using peer_ok H0.
  intros HR Hw Hn D Hx Hcode. pose proof (handle_spec _ _ _ _ _ _ _ _ _ D Hx) as R.
  destruct (sourceAllowed s addr); cbn [negb] in R; [|by destruct R].
  destruct R as (p' & E0 & A & R). injection E0 as <-.
  destruct R as [(Hc & _)|(req & resp & _ & Hp & _ & Hsvc & R)]; [by rewrite Hcode in Hc|].
  destruct (accepted_success n w req w' resp HR Hw Hn Hsvc) as (resp' & -> & Hs).
  cbn [reply_to] in R. destruct (String.eqb (pr_State resp') "challenge") eqn:Ec.
  { destruct R as (Hc & _). by rewrite Hcode in Hc. }
  apply String.eqb_neq in Ec. destruct Hs as [Hs|Hs]; [done|].
  destruct (access_accept_end_to_end E peer c open peer_ok n w req w' resp' HR Hw Hn Hsvc Hs)
    as [(m & answer & Hm & Hav & Hok & Hsn & Hpay & Hmsk) Hses].
  destruct R as (_ & _ & As & Hn' & He). exists answer. split_and!.
  - exists m. by rewrite <- Hp.
  - split.
    + intros a Ha Hne. rewrite Ha in Hpay. rewrite <- Hpay in *. rewrite (proj2 (non_nil_spec _) Hne) in He.
      by destruct He as (? & ? & _).
    + destruct (non_nil (pr_EAPPayload resp')); [|by left]. destruct He as (_ & _ & He).
      destruct (length (pr_MSK resp') =? 64)%nat eqn:L; [|by left]. nbools. right.
      destruct Hmsk as (_ & a & Ha & Hd); [by destruct (pr_MSK resp')|]. exists a. by rewrite Hd.
  - exact As.
  - exact A.
  - by eapply names_serves.
Qed.
End Chain.

(** A request of the demo subscriber, to a peer that accepts at once. *)
Definition chain_request : table_packet :=
  mkTablePacket CodeAccessRequest 7 (zeros 16) (bytes_of_string "secret")
    [(User_Name, VBytes (bytes_of_string "0001010000000001@realm.example"));
     (Calling_Station_Id, VBytes (bytes_of_string "02-00-00-00-00-01")); (EAP_Message, VBytes [2; 1; 0; 5; 1])] [].

#[local] Abbreviation chain_run :=
  (radius_handle (H0 := svc demo_env (fun _ => demo_accepting) (fun _ => NewSTaClient demo_sta_cfg 5) (fun _ => None))
     demo_radius chain_request (AddrUDP [192; 0; 2; 9] 40000) demo_salts 0 (NewService None)).

Lemma chain_accepts :
  match chain_run with Some (_, _, Some p) => p_Code p = CodeAccessAccept | _ => False end.
Proof. vm_compute. reflexivity. Qed.

Lemma radius_accept_end_to_end_witness :
  exists s' w' p, chain_run = Some (s', w', Some p) /\ p_Code p = CodeAccessAccept /\
    exists answer, granted (fun _ => demo_accepting) (NewService None) chain_request answer /\
      hands_on answer p /\ assigns (rs_cfg demo_radius) p /\ answers chain_request p /\ serves w' p.
Proof.
  pose proof chain_accepts as G. destruct chain_run as [[[s' w'] [p|]]|] eqn:Hx; [|destruct G..].
  exists s', w', p. split; [reflexivity|]. split; [exact G|].
  exact (radius_accept_end_to_end demo_env (fun _ => demo_accepting) (fun _ => NewSTaClient demo_sta_cfg 5)
    (fun _ => None) (fun _ => demo_accepting_ok) 0 demo_radius chain_request (AddrUDP [192; 0; 2; 9] 40000) demo_salts 0
    (NewService None) s' w' p chain_rest_ok (reached_new _ None) eq_refl ltac:(by repeat constructor) Hx G).
Defined.
