(* ===== verification/DynAuth.v ===== *)
(** Dynamic authorization: what a Disconnect-Request or CoA-Request names, how
    many are sent, and when the NAS is taken to have agreed. *)
From S2P Require Import Prelude.
From S2P Require Import GoNet.
From S2P Require Import Config.
From S2P Require Import Session.
From S2P Require Import Lifecycle.
From S2P Require Import Radius.
From S2P Require Import RadiusFacts.
From S2P Require Import RadiusReply.
From S2P Require Import RadiusHandler.
Open Scope string_scope.
Open Scope Z_scope.

Section DynAuth.
Context {P : Type} `{RadiusLaws P}.
Context (cfg : RadiusDisconnectConfig) (t : RecoveryTombstone) (exchange : nat -> P -> string -> result P gerr).

Definition is_coa : bool := String.eqb (rdc_RequestType cfg) "coa".
Definition request_code : Z := if is_coa then CodeCoARequest else CodeDisconnectRequest.
Definition ack_code : Z := if is_coa then CodeCoAACK else CodeDisconnectACK.
Definition nak_code : Z := if is_coa then CodeCoANAK else CodeDisconnectNAK.

(** The request of every attempt. *)
Definition da_packet : P :=
  addDynamicAuthorizationAttributes t (t_NASIP t) (p_New request_code (bytes_of_string (rdc_Secret cfg))).

Definition da_addr : string := t_NASIP t +:+ ":" +:+ pretty (rdc_NASPort cfg).

(** The answer to the [k]-th attempt. *)
Definition da_answer (k : nat) : result P gerr := exchange (S k) da_packet da_addr.

Definition acked (k : nat) : Prop := exists resp, da_answer k = Ok resp /\ p_Code resp = ack_code.
Definition undecided (k : nat) : Prop :=
  forall resp, da_answer k = Ok resp -> p_Code resp <> ack_code /\ p_Code resp <> nak_code.

(** [m] requests from the [k]-th attempt on, of at most [n], and the error. *)
Definition attempts_spec (k n m : nat) (err : option gerr) : Prop :=
  (m <= n)%nat /\ (forall j, (j + 1 < m)%nat -> undecided (k + j)) /\
  match err with
  | None => (0 < m)%nat /\ acked (k + (m - 1))
  | Some _ => (forall j, (j < m)%nat -> ~ acked (k + j)) /\ ((m < n)%nat -> (0 < m)%nat /\ ~ undecided (k + (m - 1)))
  end.

Lemma undecided_not_acked k : undecided k -> ~ acked k.
Proof. intros U (resp & E & A). by destruct (U resp E). Qed.

(** An attempt that decides nothing. *)
Lemma attempts_next k n m err : undecided k -> attempts_spec (S k) n m err -> attempts_spec k (S n) (S m) err.
Proof.
  intros U (L & Un & R). unfold attempts_spec. split_and!; [lia| |].
  - intros [|j] Hj; [by rewrite Nat.add_0_r|]. replace (k + S j)%nat with (S k + j)%nat by lia. apply Un. lia.
  - destruct err as [e|].
    + destruct R as [R1 R2]. split.
      * intros [|j] Hj; [rewrite Nat.add_0_r; by apply undecided_not_acked|].
        replace (k + S j)%nat with (S k + j)%nat by lia. apply R1. lia.
      * intros Hm. destruct R2 as [R2 R3]; [lia|]. split; [lia|].
        by replace (k + (S m - 1))%nat with (S k + (m - 1))%nat by lia.
    + destruct R as [R1 R2]. split; [lia|]. by replace (k + (S m - 1))%nat with (S k + (m - 1))%nat by lia.
Qed.

Lemma da_attempts_spec n k kind last sent :
  let run := da_attempts n (S k) cfg request_code ack_code nak_code kind t (t_NASIP t) da_addr exchange sent last in
  exists m, fst run = (sent ++ repeat da_packet m)%list /\ attempts_spec k n m (snd run).
Proof.
  revert k last sent. induction n as [|n IH]; intros k last sent; cbn [da_attempts].
  { exists 0%nat. cbn [fst repeat]. rewrite app_nil_r. split; [done|].
    destruct last; (split_and!; [lia|intros; lia|]); split; intros; lia. }
  fold da_packet. fold (da_answer k).
  assert (N : forall l, undecided k -> exists m,
    fst (da_attempts n (S (S k)) cfg request_code ack_code nak_code kind t (t_NASIP t) da_addr exchange
           (sent ++ [da_packet])%list l) = (sent ++ repeat da_packet m)%list /\
    attempts_spec k (S n) m (snd (da_attempts n (S (S k)) cfg request_code ack_code nak_code kind t (t_NASIP t) da_addr
           exchange (sent ++ [da_packet])%list l))).
  { intros l U. destruct (IH (S k) l (sent ++ [da_packet])%list) as (m & F & R). exists (S m).
    split; [by rewrite F, <- app_assoc|]. by apply attempts_next. }
  destruct (da_answer k) as [resp|e] eqn:E.
  2: { apply N. intros resp E'. congruence. }
  destruct (p_Code resp =? ack_code) eqn:Ea; bools.
  { exists 1%nat. split; [done|]. split_and!; [lia|intros; lia|]. cbn [snd]. split; [lia|].
    exists resp. rewrite Nat.add_0_r. done. }
  destruct (p_Code resp =? nak_code) eqn:En; bools.
  { exists 1%nat. split; [done|]. split_and!; [lia|intros; lia|]. cbn [snd]. split.
    - intros [|j] Hj; [|lia]. rewrite Nat.add_0_r. intros (resp' & E' & A). congruence.
    - intros _. split; [lia|]. rewrite Nat.add_0_r. intros U. by destruct (U resp E). }
  apply N. intros resp' E'. rewrite E in E'. by injection E' as <-.
Qed.

(** [a ∉ l] for attributes that are given. *)
Ltac other_attr := apply (bool_decide_unpack _); vm_compute; exact I.

(** What the request tells the NAS about the subscriber. *)
Definition names_subscriber (p : P) : Prop :=
  let is_string a s := s <> "" -> (String.length s <= 253)%nat -> p_Lookup a p = Some (VBytes (bytes_of_string s)) in
  is_string User_Name (coalesce [t_OriginalUsername t; t_IMSI t]) /\
  is_string Calling_Station_Id (coalesce [t_CallingStationID t; if non_nil (t_MAC t) then HWString (t_MAC t) else ""]) /\
  is_string Acct_Session_Id (coalesce [t_AcctSessionID t; t_OldSessionID t]) /\
  is_string NAS_Identifier (t_NASIdentifier t) /\ is_string Called_Station_Id (t_CalledStationID t) /\
  (non_nil (To4 (ParseIP (t_NASIP t))) = true -> p_Lookup NAS_IP_Address p = Some (VIP (To4 (ParseIP (t_NASIP t))))) /\
  (non_nil (To4 (t_OldSubscriberIP t)) = true -> p_Lookup Framed_IP_Address p = Some (VIP (To4 (t_OldSubscriberIP t)))).

(** A step that sets at most the string [s] as attribute [a]. *)
Definition string_step (a : attr) (s : string) (p p' : P) : Prop :=
  only [a] p p' /\
  (s <> "" -> (String.length s <= 253)%nat -> p_Lookup a p' = Some (VBytes (bytes_of_string s))).

Lemma add_string_step a s p : string_step a s p (add_if (nonempty s) (set_string a s) p).
Proof.
  unfold add_if. destruct (nonempty s) eqn:E; bools.
  - split; [apply set_only|]. intros _. apply set_string_get.
  - split; [|done]. apply (only_mono []); [apply only_refl|set_solver].
Qed.

Lemma or_string_step a s1 s2 p :
  string_step a (coalesce [s1; s2]) p
    (if nonempty s1 then set_string a s1 p else add_if (nonempty s2) (set_string a s2) p).
Proof.
  cbn [coalesce]. destruct (nonempty s1) eqn:E; bools.
  - split; [apply set_only|]. intros _. apply set_string_get.
  - replace (if nonempty s2 then s2 else "") with s2; [apply add_string_step|].
    destruct (nonempty s2) eqn:E2; bools; congruence.
Qed.

Lemma add_ip_only b a ip p : only [a] p (add_if b (set_ a (VIP ip)) p).
Proof. unfold add_if. apply if_only, set_only. Qed.

Lemma To4_nil ip : non_nil (To4 ip) = true -> non_nil ip = true.
Proof. by destruct ip. Qed.

Lemma packet_names : names_subscriber da_packet.
Proof.
  unfold da_packet, addDynamicAuthorizationAttributes. generalize (p_New request_code (bytes_of_string (rdc_Secret cfg))).
  intros p0. cbv zeta. set (p1 := if nonempty (t_OriginalUsername t) then _ else _).
  set (calling := if (_ && non_nil (t_MAC t))%bool then _ else _). set (p2 := add_if (nonempty calling) _ p1).
  set (p3 := add_if (nonempty (t_CalledStationID t)) _ p2). set (p4 := add_if (non_nil (ParseIP (t_NASIP t))) _ p3).
  set (p5 := add_if (nonempty (t_NASIdentifier t)) _ p4). set (p6 := if nonempty (t_AcctSessionID t) then _ else _).
  set (p7 := if non_nil (t_Class t) then _ else _).
  set (p8 := add_if _ _ p7).
  assert (C : coalesce [t_CallingStationID t; if non_nil (t_MAC t) then HWString (t_MAC t) else ""] = calling).
  { unfold calling. cbn [coalesce]. destruct (nonempty (t_CallingStationID t)) eqn:E; cbn [negb andb]; [done|]. bools.
    destruct (non_nil (t_MAC t)); [|done]. case_match; [done|]. by bools. }
  assert (S1 : string_step User_Name (coalesce [t_OriginalUsername t; t_IMSI t]) p0 p1) by apply or_string_step.
  assert (S2 : string_step Calling_Station_Id calling p1 p2) by apply add_string_step.
  assert (S3 : string_step Called_Station_Id (t_CalledStationID t) p2 p3) by apply add_string_step.
  assert (O4 : only [NAS_IP_Address] p3 p4) by apply add_ip_only.
  assert (L4 : non_nil (To4 (ParseIP (t_NASIP t))) = true -> p_Lookup NAS_IP_Address p4 = Some (VIP (To4 (ParseIP (t_NASIP t))))).
  { intros V. unfold p4, add_if. rewrite To4_nil by done. by apply set_ip_get. }
  assert (S5 : string_step NAS_Identifier (t_NASIdentifier t) p4 p5) by apply add_string_step.
  assert (S6 : string_step Acct_Session_Id (coalesce [t_AcctSessionID t; t_OldSessionID t]) p5 p6) by apply or_string_step.
  assert (O7 : only [Class_] p6 p7).
  { unfold p7. destruct (non_nil (t_Class t)); [apply set_only|]. apply add_string_step. }
  assert (O8 : only [Framed_IP_Address] p7 p8) by apply add_ip_only.
  assert (L8 : non_nil (To4 (t_OldSubscriberIP t)) = true -> p_Lookup Framed_IP_Address p8 = Some (VIP (To4 (t_OldSubscriberIP t)))).
  { intros V. unfold p8, add_if. rewrite To4_nil by done. by apply set_ip_get. }
  unfold names_subscriber. rewrite C.
  clearbody p1 p2 p3 p4 p5 p6 p7 p8 calling.
  destruct S1 as [O1 G1], S2 as [O2 G2], S3 as [O3 G3], S5 as [O5 G5], S6 as [O6 G6].
  cbv zeta. split_and!; intros;
    rewrite ?(only_get _ _ _ _ O8), ?(only_get _ _ _ _ O7), ?(only_get _ _ _ _ O6), ?(only_get _ _ _ _ O5),
      ?(only_get _ _ _ _ O4), ?(only_get _ _ _ _ O3), ?(only_get _ _ _ _ O2) by other_attr; auto.
Qed.
(** C33: asking the NAS to drop or re-authenticate a subscriber.  When dynamic
    authorization is disabled or the NAS address does not parse, nothing is
    sent and an error returned.  Otherwise the same request is sent at most
    [retries + 1] times, a Disconnect-Request or a CoA-Request, which names
    the subscriber by user name, station, accounting session and addresses of
    the tombstone; every answer but the last was no decision; the error is
    nil exactly when the last answer was the ACK of that kind, and fewer
    requests than allowed are sent only because of an ACK or a NAK. *)
Theorem disconnect_or_coa_spec :
  let '(sent, err) := DisconnectOrCoA cfg (Some t) exchange in
  if (rdc_Enabled cfg && non_nil (ParseIP (t_NASIP t)))%bool
  then exists m, sent = repeat da_packet m /\ attempts_spec 0 (Z.to_nat (rdc_Retries cfg + 1)) m err /\
         names_subscriber da_packet
  else sent = [] /\ err <> None.
Proof.
  unfold DisconnectOrCoA. destruct (rdc_Enabled cfg); cbn [negb andb]; [|done].
  destruct (non_nil (ParseIP (t_NASIP t))); cbn [negb]; [|done]. fold is_coa da_addr.
  assert (K : forall kind, let '(sent, err) := da_attempts (Z.to_nat (rdc_Retries cfg + 1)) 1 cfg request_code ack_code nak_code
                kind t (t_NASIP t) da_addr exchange [] None in
            exists m, sent = repeat da_packet m /\ attempts_spec 0 (Z.to_nat (rdc_Retries cfg + 1)) m err /\
              names_subscriber da_packet).
  { intros kind. destruct (da_attempts_spec (Z.to_nat (rdc_Retries cfg + 1)) 0 kind None []) as (m & F & R).
    destruct (da_attempts _ _ _ _ _ _ _ _ _ _ _ _ _) as [sent err]. exists m. split; [exact F|]. split; [exact R|].
    apply packet_names. }
  unfold request_code, ack_code, nak_code in K. destruct is_coa eqn:E; apply K.
Qed.
End DynAuth.

(** A NAS that is silent once, then agrees. *)
Definition demo_nas (n : nat) (p : table_packet) (addr : string) : result table_packet gerr :=
  if (n =? 1)%nat then Err (errorf "timeout") else Ok (p_Response CodeDisconnectACK p).

Definition demo_disconnect : RadiusDisconnectConfig := mkRadiusDisconnectConfig true 3799 "secret" 3 2 "disconnect" false 0 false.

Definition demo_tombstone : RecoveryTombstone := zeroTombstone <| t_IMSI := "001010000000001" |> <| t_NASIP := "192.0.2.9" |>.

Lemma disconnect_or_coa_spec_witness :
  let '(sent, err) := DisconnectOrCoA demo_disconnect (Some demo_tombstone) demo_nas in
  length sent = 2%nat /\ err = None /\
  exists m, sent = repeat (da_packet demo_disconnect demo_tombstone) m /\
    attempts_spec demo_disconnect demo_tombstone demo_nas 0 3 m err.
Proof.
  pose proof (disconnect_or_coa_spec demo_disconnect demo_tombstone demo_nas) as S.
  assert (R : match DisconnectOrCoA demo_disconnect (Some demo_tombstone) demo_nas with
              | (sent, err) => length sent = 2%nat /\ err = None end) by (vm_compute; split; reflexivity).
  destruct (DisconnectOrCoA demo_disconnect (Some demo_tombstone) demo_nas) as [sent err]. destruct R as [R1 R2].
  split; [exact R1|]. split; [exact R2|]. destruct S as (m & S1 & S2 & _). exists m. split; [exact S1|exact S2].
Defined.
