(* ===== verification/Identity.v ===== *)
(** The identities of a request: the server reads the same station from every
    spelling of its MAC address, and the IMSI from the permanent identities of
    EAP-AKA and EAP-AKA'. *)
From S2P Require Import Prelude.
From S2P Require Import GoNet.
From S2P Require Import StaClient.
From S2P Require Import Radius.
Open Scope Z_scope.

(** * MAC addresses *)
Inductive spelling := Colons | Hyphens | Bare | Dots.

Fixpoint grouped (n : nat) (sep : list ascii) (k : nat) (l : list ascii) : list ascii :=
  match l with
  | [] => []
  | c :: r => match k with
              | O => sep ++ c :: grouped n sep (n - 1) r
              | S k => c :: grouped n sep k r
              end
  end.

(** Twelve digits as an access point may write them. *)
Definition spell (sp : spelling) (digits : list ascii) : list ascii :=
  match sp with
  | Colons => grouped 2 [":"%char] 2 digits
  | Hyphens => grouped 2 ["-"%char] 2 digits
  | Bare => digits
  | Dots => grouped 4 ["."%char] 4 digits
  end.

Definition is_hex (c : ascii) : bool := match hexval c with Some _ => true | None => false end.

(** The address the digits name. *)
Fixpoint hex_bytes (l : list ascii) : list Z :=
  match l with
  | a :: b :: r => (16 * default 0 (hexval a) + default 0 (hexval b)) :: hex_bytes r
  | _ => []
  end.

(** A digit in lower case is no separator and no space. *)
Definition hex_facts (c : ascii) : bool :=
  if is_hex c then
    (negb (is_space (lower c)) && negb (Ascii.eqb (lower c) "-") && negb (Ascii.eqb (lower c) ".") &&
     negb (Ascii.eqb ":" (lower c)) && Ascii.eqb (lower c) (hexdigit (default 0 (hexval c))) &&
     (0 <=? default 0 (hexval c)) && (default 0 (hexval c) <? 16))%bool
  else true.

Lemma hex_facts_ok c : hex_facts c = true.
Proof. revert c. apply (ascii_forall hex_facts). vm_compute. reflexivity. Qed.

Record hex_digit (c : ascii) : Prop := {
  hd_space : is_space (lower c) = false; hd_hyphen : Ascii.eqb (lower c) "-" = false;
  hd_dot : Ascii.eqb (lower c) "." = false; hd_colon : Ascii.eqb ":" (lower c) = false;
  hd_digit : lower c = hexdigit (default 0 (hexval c)); hd_range : 0 <= default 0 (hexval c) < 16
}.

Lemma is_hex_digit c : is_hex c = true -> hex_digit c.
Proof.
  intros Hc. pose proof (hex_facts_ok c) as F. unfold hex_facts in F. rewrite Hc in F. bools.
  split; first [done | by apply Ascii.eqb_eq | lia].
Qed.

(** Lower case and trimming of a text that begins and ends with a digit. *)
Lemma trim_ends a m z :
  is_space a = false -> is_space z = false ->
  TrimSpace (String.string_of_list_ascii (a :: m ++ [z])) = String.string_of_list_ascii (a :: m ++ [z]).
Proof.
  intros Ha Hz. unfold TrimSpace. rewrite string_ascii_eq. cbn [drop_space]. rewrite Ha.
  rewrite app_comm_cons, rev_app_distr. cbn [rev app drop_space]. rewrite Hz. cbn [rev].
  by rewrite rev_app_distr, rev_involutive.
Qed.

Lemma trim_list l :
  l <> [] -> is_space (List.hd zero l) = false -> is_space (List.last l zero) = false ->
  TrimSpace (String.string_of_list_ascii l) = String.string_of_list_ascii l.
Proof.
  intros N Ha Hz. destruct (exists_last N) as (m & z & ->). rewrite List.last_last in Hz.
  destruct m as [|a m]; [|by apply trim_ends].
  cbn [app List.hd] in *. unfold TrimSpace. cbn [String.list_ascii_of_string String.string_of_list_ascii drop_space].
  rewrite Hz. cbn [rev app drop_space]. by rewrite Hz.
Qed.

(** The replacer and the count of colons, character by character. *)
Lemma replace_digit c l : hex_digit c -> replace_separators (lower c :: l) = lower c :: replace_separators l.
Proof. intros H. cbn [replace_separators flat_map]. by rewrite (hd_hyphen _ H), (hd_dot _ H). Qed.

Lemma colons_digit c l : hex_digit c -> List.filter (Ascii.eqb ":") (lower c :: l) = List.filter (Ascii.eqb ":") l.
Proof. intros H. cbn [List.filter]. by rewrite (hd_colon _ H). Qed.

Lemma replace_hyphen l : replace_separators ("-"%char :: l) = ":"%char :: replace_separators l.
Proof. done. Qed.

Lemma replace_dot l : replace_separators ("."%char :: l) = replace_separators l.
Proof. done. Qed.

Lemma replace_colon l : replace_separators (":"%char :: l) = ":"%char :: replace_separators l.
Proof. done. Qed.

Lemma colons_sep l : List.filter (Ascii.eqb ":") (":"%char :: l) = ":"%char :: List.filter (Ascii.eqb ":") l.
Proof. done. Qed.

Lemma lower_pair a b : hex_digit a -> hex_digit b ->
  hexbyte (16 * default 0 (hexval a) + default 0 (hexval b)) = [lower a; lower b].
Proof.
  intros Ha Hb. pose proof (hd_range _ Ha). pose proof (hd_range _ Hb). unfold hexbyte.
  rewrite (hd_digit _ Ha), (hd_digit _ Hb).
  replace ((16 * default 0 (hexval a) + default 0 (hexval b)) / 16) with (default 0 (hexval a)) by (apply Z.div_unique with (default 0 (hexval b)); lia).
  replace ((16 * default 0 (hexval a) + default 0 (hexval b)) mod 16) with (default 0 (hexval b)) by (apply Z.mod_unique with (default 0 (hexval a)); lia).
  done.
Qed.

Lemma lower_separators : lower ":" = ":"%char /\ lower "-" = "-"%char /\ lower "." = "."%char.
Proof. vm_compute. done. Qed.

Lemma replace_nil : replace_separators [] = [].
Proof. done. Qed.

(** What the server makes of a text in lower case. *)
Definition canonical (l : list ascii) : string :=
  let l := replace_separators l in
  String.string_of_list_ascii
    (if (length (List.filter (Ascii.eqb ":") l) =? 5)%nat then l
     else if negb (length l =? 12)%nat then l else colon_pairs l).

Lemma normalize_canonical l :
  l <> [] -> is_space (List.hd zero (map lower l)) = false -> is_space (List.last (map lower l) zero) = false ->
  radius_normalizeMAC (String.string_of_list_ascii l) = canonical (map lower l).
Proof.
  intros N Ha Hz. unfold radius_normalizeMAC, ToLower, string_map. rewrite string_ascii_eq, trim_list by (by destruct l).
  destruct l as [|c l]; [done|]. cbn [map] in *. rewrite string_ascii_eq.
  change (nonempty (String.string_of_list_ascii (lower c :: map lower l))) with true. done.
Qed.

(** The key of a station: the server turns the twelve hexadecimal digits of
    a MAC address, in either case and written with colons, hyphens, the dots
    of a switch or nothing between them, into the one notation that
    [net.HardwareAddr.String] prints, under which the lifecycle service finds
    the session. *)
Theorem normalize_spellings sp digits :
  length digits = 12%nat -> forallb is_hex digits = true ->
  radius_normalizeMAC (String.string_of_list_ascii (spell sp digits)) = HWString (hex_bytes digits).
Proof.
  intros L F. assert (D : Forall hex_digit digits).
  { apply List.Forall_forall. intros c Hc. apply is_hex_digit. rewrite forallb_forall in F. by apply F. }
  do 12 (destruct digits as [|?c digits]; [done|]). destruct digits; [|done]. clear L F.
  repeat match goal with H : Forall hex_digit (_ :: _) |- _ => apply Forall_cons in H as [? H] end.
  destruct lower_separators as (Lc & Lh & Ld).
  rewrite normalize_canonical by (destruct sp; first [done | by apply hd_space]).
  unfold HWString. cbn [hex_bytes hw_ascii]. rewrite !lower_pair by done. unfold canonical.
  destruct sp; cbn [spell grouped app Nat.sub map]; rewrite ?Lc, ?Lh, ?Ld;
    repeat first [rewrite replace_digit by done | rewrite replace_hyphen | rewrite replace_dot | rewrite replace_colon];
    rewrite ?replace_nil; cbv zeta; repeat first [rewrite colons_digit by done | rewrite colons_sep]; reflexivity.
Qed.

Lemma normalize_spellings_witness :
  radius_normalizeMAC "02AB.cdEF.0123" = "02:ab:cd:ef:01:23" /\
  radius_normalizeMAC "02AB.cdEF.0123" = HWString (hex_bytes (String.list_ascii_of_string "02ABcdEF0123")).
Proof.
  split; [vm_compute; reflexivity|].
  exact (normalize_spellings Dots (String.list_ascii_of_string "02ABcdEF0123") eq_refl eq_refl).
Defined.

(** * IMSIs *)
Definition is_digit (c : ascii) : bool := match digit c with Some _ => true | None => false end.

(** An IMSI of five to fifteen digits, the bounds of [looksLikeIMSI]. *)
Definition imsi_digits (l : list ascii) : bool := ((5 <=? length l)%nat && (length l <=? 15)%nat && forallb is_digit l)%bool.

(** The rest of a network access identifier: nothing, or a realm. *)
Definition realm_part (l : list ascii) : bool := match l with [] => true | c :: _ => Ascii.eqb c "@" end.

Definition digit_facts (c : ascii) : bool :=
  if is_digit c then (negb (is_space c) && negb (Ascii.eqb c "@"))%bool else true.

Lemma digit_facts_ok c : is_digit c = true -> is_space c = false /\ Ascii.eqb c "@" = false.
Proof.
  intros Hc. assert (F : digit_facts c = true).
  { revert c Hc. intros c _. revert c. apply (ascii_forall digit_facts). vm_compute. reflexivity. }
  unfold digit_facts in F. rewrite Hc in F. by bools.
Qed.

Lemma index_at l r : forallb is_digit l = true -> realm_part r = true ->
  match index_ascii "@" (l ++ r) with Some i => take i (l ++ r) | None => (l ++ r)%list end = l.
Proof.
  intros D R. induction l as [|c l IH]; cbn [app forallb index_ascii] in *.
  - destruct r as [|c r]; [done|]. cbn in *. by rewrite R.
  - bools. destruct (digit_facts_ok c) as [_ ->]; [done|]. specialize (IH ltac:(done)).
    destruct (index_ascii "@" (l ++ r)); cbn; by rewrite IH.
Qed.

Lemma trim_digits l : l <> [] -> forallb is_digit l = true -> TrimSpace (String.string_of_list_ascii l) = String.string_of_list_ascii l.
Proof.
  intros N D. rewrite forallb_forall in D. apply trim_list; [done|..]; apply digit_facts_ok, D.
  - destruct l; [done|]. by left.
  - destruct (exists_last N) as (m & z & ->). rewrite List.last_last. apply in_or_app. right. by left.
Qed.

Lemma looks_imsi l : forallb is_digit l = true ->
  looksLikeIMSI (String.string_of_list_ascii l) = ((5 <=? length l)%nat && (length l <=? 15)%nat)%bool.
Proof.
  intros D. unfold looksLikeIMSI. rewrite string_ascii_eq. fold is_digit. change (fun c => _) with is_digit.
  rewrite D, andb_true_r. f_equal; [destruct (Nat.ltb_spec (length l) 5), (Nat.leb_spec 5 (length l)); cbn; lia|].
  destruct (Nat.ltb_spec 15 (length l)), (Nat.leb_spec (length l) 15); cbn; lia.
Qed.

(** What the server reads from digits and a realm. *)
Lemma read_digits c d l realm :
  forallb is_digit (c :: d :: l) = true -> realm_part realm = true ->
  imsiFromNAI (String.string_of_list_ascii ((c :: d :: l) ++ realm)) =
  if ((Ascii.eqb c "0" || Ascii.eqb c "6") && ((5 <=? length (d :: l)) && (length (d :: l) <=? 15))%nat)%bool
  then String.string_of_list_ascii (d :: l)
  else if ((5 <=? length (c :: d :: l)) && (length (c :: d :: l) <=? 15))%nat%bool
       then String.string_of_list_ascii (c :: d :: l) else EmptyString.
Proof.
  intros D R. unfold imsiFromNAI. rewrite string_ascii_eq, index_at, trim_digits by done.
  pose proof D as D'. cbn [forallb] in D'. apply andb_true_iff in D' as [_ D'].
  pose proof (looks_imsi (d :: l) D') as E1. pose proof (looks_imsi (c :: d :: l) D) as E2.
  cbn [String.string_of_list_ascii] in *. by rewrite E1, E2.
Qed.

(** C34: the IMSI of an identity.  For an IMSI of five to fifteen digits, the
    permanent identities 0<IMSI> of EAP-AKA and 6<IMSI> of EAP-AKA', with or
    without a realm, give back the IMSI, to the RADIUS server and to the
    Diameter client alike; the bare IMSI gives itself back except that one of
    more than five digits that begins with 0 or 6 loses that digit. *)
Theorem imsi_of_identity imsi realm :
  imsi_digits imsi = true -> realm_part realm = true ->
  let read l := imsiFromNAI (String.string_of_list_ascii (l ++ realm)) in
  read ("0"%char :: imsi) = String.string_of_list_ascii imsi /\
  read ("6"%char :: imsi) = String.string_of_list_ascii imsi /\
  read imsi = String.string_of_list_ascii
    (match imsi with
     | c :: rest => if ((Ascii.eqb c "0" || Ascii.eqb c "6") && (6 <=? length imsi)%nat)%bool then rest else imsi
     | [] => []
     end) /\
  forall name, imsiFromNAI name = imsiFromDiameterUserName name.
Proof.
  unfold imsi_digits. intros Hi Hr. nbools. destruct imsi as [|c [|d l]]; [cbn in *; lia|cbn in *; lia|].
  cbv zeta.
  assert (D : forall a, is_digit a = true -> forallb is_digit (a :: c :: d :: l) = true)
    by (intros a Ha; change (is_digit a && forallb is_digit (c :: d :: l) = true)%bool; by rewrite Ha).
  assert (B : ((5 <=? length (c :: d :: l)) && (length (c :: d :: l) <=? 15))%nat%bool = true)
    by (apply andb_true_intro; split; apply Nat.leb_le; lia).
  split_and!.
  - rewrite read_digits by (done || by apply D). by rewrite B.
  - rewrite read_digits by (done || by apply D). by rewrite B.
  - rewrite read_digits, B by done. cbn [length] in *.
    destruct (Nat.leb_spec 5 (S (length l))), (Nat.leb_spec 6 (S (S (length l)))); try lia;
      rewrite ?(proj2 (Nat.leb_le (S (length l)) 15)) by lia; cbn [andb]; by destruct (_ || _)%bool.
  - done.
Qed.

Lemma imsi_of_identity_witness :
  let imsi := String.list_ascii_of_string "310260000000001" in
  let read l := imsiFromNAI (String.string_of_list_ascii (l ++ String.list_ascii_of_string "@realm.example")) in
  read ("0"%char :: imsi) = String.string_of_list_ascii imsi /\
  read ("6"%char :: imsi) = String.string_of_list_ascii imsi.
Proof.
  cbv zeta. destruct (imsi_of_identity (String.list_ascii_of_string "310260000000001")
    (String.list_ascii_of_string "@realm.example") eq_refl eq_refl) as (H1 & H2 & _).
  split; [exact H1|exact H2].
Defined.
