(* ===== verification/PlaneRefines.v ===== *)
(** The user plane refines a table of sessions: after any sequence of
    [AddSession] and [RemoveSession] the kernel holds the contexts and the
    rules or routes of exactly the sessions that were added and not removed. *)
From S2P Require Import Prelude.
From S2P Require Import GoNet.
From S2P Require Import Config.
From S2P Require Import Session.
From S2P Require Import Netlink.
From S2P Require Import Routing.
From S2P Require Import UserPlane.
From S2P Require Import DataPath.
Open Scope string_scope.
Open Scope Z_scope.

(** A call of the lifecycle service. *)
Inductive plane_call := CallAdd (sess : Session) | CallRemove (sess : Session).

(** The abstract state: the sessions by their local TEID. *)
Abbreviation session_table := (gmap Z Session) (only parsing).

Definition table_step (S : session_table) (c : plane_call) (err : option kerr) : session_table :=
  match err, c with
  | Some _, _ => S
  | None, CallAdd sess => <[s_LocalGTPUTEID sess := sess]> S
  | None, CallRemove sess => delete (s_LocalGTPUTEID sess) S
  end.

Section Refinement.
Context {K : Type} (nl : kernel K) `{!KernelTables nl} `{!KernelReliable nl}.
Context (link : Link) (k0 : KernelGTP) (t0 : tables).

(** The netdev is up and its name keeps leading to it. *)
Record plane_up : Prop := {
  pu_link : forall s, tb_links (seen s) !! kg_iface k0 = Some link -> k_LinkByName nl (kg_iface k0) s = Ok link;
  pu_type : lk_Type link = "gtp";
  pu_handle : kg_handle k0 = true;
  pu_started : kg_link k0 = Some link;
  pu_links : tb_links t0 !! kg_iface k0 = Some link;
  pu_contexts : forall key x, tb_contexts t0 !! key = Some x -> fst key <> wrap 32 (lk_Index link)
}.

Definition run_call (c : plane_call) (s : K) : KernelGTP * K * option kerr :=
  match c with
  | CallAdd sess => up_AddSession nl k0 None (Some sess) s
  | CallRemove sess => up_RemoveSession nl k0 None (Some sess) s
  end.

(** The discipline of the caller: a new session has a TEID and an address of
    its own and no foreign entry in the tables; what is removed is there. *)
Definition disciplined (S : session_table) (c : plane_call) : Prop :=
  match c with
  | CallAdd sess => complete_session k0 sess /\ unrouted k0 link sess t0 /\
    S !! s_LocalGTPUTEID sess = None /\
    forall t other, S !! t = Some other -> To4 (s_SubscriberIP other) <> To4 (s_SubscriberIP sess)
  | CallRemove sess => S !! s_LocalGTPUTEID sess = Some sess
  end.

(** What the kernel holds for a table of sessions. *)
Definition context_table (S : session_table) : gmap (Z * Z) Context :=
  kmap (pair (wrap 32 (lk_Index link))) (ctx_of k0 <$> S) ∪ tb_contexts t0.

Definition route_of (sess : Session) : Route := kernelRoute link (s_SubscriberIP sess).

Record holds_table (S : session_table) (t : tables) : Prop := {
  ht_links : tb_links t = tb_links t0;
  ht_contexts : tb_contexts t = context_table S;
  ht_rules : forall r, r ∈ tb_rules t <->
    r ∈ tb_rules t0 \/ (policy k0 = true /\ exists n sess, S !! n = Some sess /\ r = policy_rule k0 sess);
  ht_routes : policy k0 = false -> forall key,
    tb_routes t !! key = tb_routes t0 !! key /\ (forall n sess, S !! n = Some sess -> key <> route_key (route_of sess)) \/
    exists n sess, S !! n = Some sess /\ key = route_key (route_of sess) /\ tb_routes t !! key = Some (route_of sess)
}.

(** The sessions of the table: complete, apart, without foreign entries. *)
Record table_ok (S : session_table) : Prop := {
  to_key : forall n sess, S !! n = Some sess -> n = s_LocalGTPUTEID sess;
  to_complete : forall n sess, S !! n = Some sess -> complete_session k0 sess;
  to_unrouted : forall n sess, S !! n = Some sess -> unrouted k0 link sess t0;
  to_apart : forall n1 n2 s1 s2, S !! n1 = Some s1 -> S !! n2 = Some s2 -> n1 <> n2 ->
    To4 (s_SubscriberIP s1) <> To4 (s_SubscriberIP s2)
}.

Lemma same_route s1 s2 : route_key (route_of s1) = route_key (route_of s2) <->
  To4 (s_SubscriberIP s1) = To4 (s_SubscriberIP s2).
Proof. unfold route_key, route_of, kernelRoute, hostNet. cbn. split; [by intros [= ->]|by intros ->]. Qed.

Lemma same_rule s1 s2 : policy_rule k0 s1 = policy_rule k0 s2 <-> To4 (s_SubscriberIP s1) = To4 (s_SubscriberIP s2).
Proof. unfold policy_rule, kernelPolicyRule, hostNet. split; [by intros [= ->]|by intros ->]. Qed.

Lemma table_ok_empty : table_ok ∅.
Proof. split; intros; by rewrite lookup_empty in *. Qed.

Lemma table_ok_insert S sess : table_ok S -> disciplined S (CallAdd sess) -> table_ok (<[s_LocalGTPUTEID sess := sess]> S).
Proof.
  intros [T1 T2 T3 T4] (C & U & N & A). split.
  - intros n s. rewrite lookup_insert_Some. intros [[<- <-]|[_ H]]; [done|by apply T1].
  - intros n s. rewrite lookup_insert_Some. intros [[<- <-]|[_ H]]; [done|by eapply T2].
  - intros n s. rewrite lookup_insert_Some. intros [[<- <-]|[_ H]]; [done|by eapply T3].
  - intros n1 n2 s1 s2. rewrite !lookup_insert_Some. intros [[<- <-]|[_ H1]] [[<- <-]|[_ H2]] Hn; [done| |by eapply A|by eapply T4].
    intros E. by eapply A.
Qed.

Lemma table_ok_delete S n : table_ok S -> table_ok (delete n S).
Proof.
  intros [T1 T2 T3 T4]. split; intros *; rewrite !lookup_delete_Some; naive_solver.
Qed.

(** ** Contexts *)
Lemma context_lookup S key x : table_ok S -> plane_up ->
  context_table S !! key = Some x -> fst key = wrap 32 (lk_Index link) ->
  exists sess, S !! snd key = Some sess /\ x = ctx_of k0 sess.
Proof.
  intros T U. unfold context_table. rewrite lookup_union_Some_raw. intros [H|[_ H]] Hk.
  - apply lookup_kmap_Some in H as (n & -> & H); [|apply _]. apply lookup_fmap_Some in H as (sess & <- & H).
    by exists sess.
  - by destruct (pu_contexts U _ _ H).
Qed.

Lemma context_insert S sess :
  context_table (<[s_LocalGTPUTEID sess := sess]> S) = <[ctx_key link sess := ctx_of k0 sess]> (context_table S).
Proof.
  unfold context_table. rewrite fmap_insert, (kmap_insert (pair (wrap 32 (lk_Index link)))), insert_union_l. done.
Qed.

Lemma table_fresh S sess t : table_ok S -> plane_up -> holds_table S t -> disciplined S (CallAdd sess) ->
  fresh k0 link sess t.
Proof.
  intros T U H (C & _ & N & A) key x Hx [Hl Hc]. rewrite (ht_contexts _ _ H) in Hx.
  unfold add_request, pdp_request_of in Hl, Hc. cbn in Hl, Hc. injection Hl as Hl.
  destruct (context_lookup S key x T U Hx (eq_sym Hl)) as (other & Ho & ->).
  rewrite (cs_ip _ _ C) in Hc. destruct Hc as [Hc|Hc].
  - injection Hc as Hc. by apply (A _ _ Ho).
  - injection Hc as Hc. rewrite <- Hc in Ho. congruence.
Qed.
(** ** Steps *)
Lemma up_ready S s : plane_up -> holds_table S (seen s) -> ready nl k0 s link.
Proof.
  intros U H. split; [by rewrite (pu_started U)|apply U| |apply U].
  apply (pu_link U). rewrite (ht_links _ _ H). apply U.
Qed.

Lemma add_sim S s sess k' s' e :
  table_ok S -> plane_up -> holds_table S (seen s) -> disciplined S (CallAdd sess) ->
  run_call (CallAdd sess) s = (k', s', e) -> holds_table (table_step S (CallAdd sess) e) (seen s').
Proof.
  intros T U H D E. pose proof (table_fresh S sess (seen s) T U H D) as F. pose proof D as (C & _ & N & A).
  destruct (up_add_spec nl k0 sess s link k' s' e (up_ready _ _ U H) C F E) as [_ Hs].
  destruct H as [H1 H2 H3 H4]. destruct e as [e|]; cbn [table_step].
  { destruct Hs as [->|[P ->]]; [by split|]. split; [exact H1|exact H2|exact H3|congruence]. }
  rewrite Hs. unfold add_routing. destruct (policy k0) eqn:P; split; cbn.
  - exact H1.
  - by rewrite H2, context_insert.
  - intros r. rewrite elem_of_union, elem_of_singleton, H3. split.
    + intros [->|[?|(_ & n & s0 & Hn & ->)]]; [|by left|].
      * right. split; [done|]. exists (s_LocalGTPUTEID sess), sess. by rewrite lookup_insert_eq.
      * right. split; [done|]. exists n, s0. split; [|done]. rewrite lookup_insert_ne; [done|]. intros <-. congruence.
    + intros [?|(_ & n & s0 & Hn & ->)]; [by auto|]. apply lookup_insert_Some in Hn as [[_ <-]|[_ Hn]]; [by left|]. right.
      right. split; [done|]. eauto.
  - intros ?. congruence.
  - exact H1.
  - by rewrite H2, context_insert.
  - intros r. rewrite H3. split; (intros [?|[? _]]; [by left|congruence]).
  - intros _ key. destruct (decide (key = route_key (route_of sess))) as [->|Hk].
    + right. exists (s_LocalGTPUTEID sess), sess. by rewrite !lookup_insert_eq.
    + rewrite lookup_insert_ne by (intros E'; by apply Hk). destruct (H4 eq_refl key) as [[Hr Hn]|(n & s0 & Hn & Hr & Ht)].
      * left. split; [done|]. intros n s0 Hs0. apply lookup_insert_Some in Hs0 as [[_ <-]|[_ Hs0]]; [done|by eapply Hn].
      * right. exists n, s0. split; [|done]. rewrite lookup_insert_ne; [done|]. intros <-. congruence.
Qed.

(** The contexts without a session of the table. *)
Lemma context_without S sess : table_ok S -> S !! s_LocalGTPUTEID sess = Some sess ->
  context_table S = <[ctx_key link sess := ctx_of k0 sess]> (context_table (delete (s_LocalGTPUTEID sess) S)).
Proof. intros T H. rewrite <- context_insert, insert_delete_eq, insert_id by done. done. Qed.

Lemma without_fresh S sess t : table_ok S -> plane_up -> S !! s_LocalGTPUTEID sess = Some sess ->
  tb_contexts t = context_table (delete (s_LocalGTPUTEID sess) S) -> fresh k0 link sess t.
Proof.
  intros T U H E key x Hx [Hl Hc]. rewrite E in Hx. unfold add_request, pdp_request_of in Hl, Hc. cbn in Hl, Hc.
  injection Hl as Hl. destruct (context_lookup _ key x (table_ok_delete _ _ T) U Hx (eq_sym Hl)) as (other & Ho & ->).
  apply lookup_delete_Some in Ho as [Hn Ho]. rewrite (cs_ip _ _ (to_complete _ T _ _ H)) in Hc. destruct Hc as [Hc|Hc].
  - injection Hc as Hc. by apply (to_apart _ T _ _ _ _ Ho H (not_eq_sym Hn)).
  - injection Hc as Hc. done.
Qed.

Lemma own_route S t sess : holds_table S t -> S !! s_LocalGTPUTEID sess = Some sess -> policy k0 = false ->
  tb_routes t !! route_key (route_of sess) = Some (route_of sess).
Proof.
  intros H Hs P. destruct (ht_routes _ _ H P (route_key (route_of sess))) as [[_ Hn]|(n & s0 & _ & Hk & ->)].
  - by destruct (Hn _ _ Hs).
  - f_equal. apply same_route in Hk. unfold route_of, kernelRoute, hostNet. by rewrite Hk.
Qed.

(** The tables after a removal. *)
Lemma del_holds S t sess :
  table_ok S -> holds_table S t -> S !! s_LocalGTPUTEID sess = Some sess ->
  holds_table (delete (s_LocalGTPUTEID sess) S)
    (del_routing k0 link sess t <| tb_contexts := context_table (delete (s_LocalGTPUTEID sess) S) |>).
Proof.
  intros T H D.
  pose proof H as [H1 H2 H3 H4]. unfold del_routing. destruct (policy k0) eqn:P; split; cbn.
  - exact H1.
  - done.
  - intros r. rewrite elem_of_difference, elem_of_singleton, H3. split.
    + intros [[?|(_ & n & s0 & Hn & ->)] Hr]; [by left|]. right. split; [done|]. exists n, s0. split; [|done].
      rewrite lookup_delete_ne; [done|]. intros <-. apply Hr. rewrite D in Hn. by injection Hn as <-.
    + intros [Hr|(_ & n & s0 & Hn & ->)].
      * split; [by left|]. intros ->. pose proof (to_unrouted _ T _ _ D) as Hu. unfold unrouted in Hu. by rewrite P in Hu.
      * apply lookup_delete_Some in Hn as [Hk Hn]. split; [by right; eauto|]. intros Hr. apply same_rule in Hr.
         by apply (to_apart _ T _ _ _ _ Hn D (not_eq_sym Hk)).
  - intros ?. congruence.
  - by case_bool_decide.
  - done.
  - intros r. case_bool_decide; cbn; rewrite H3; (split; (intros [?|[? _]]; [by left|congruence])).
  - intros _ key. pose proof (own_route S _ sess H D P) as Ho. unfold route_of in Ho.
    rewrite bool_decide_eq_true_2 by exact Ho. cbn. fold (route_of sess) in *.
    destruct (decide (key = route_key (route_of sess))) as [->|Hk].
    + left. rewrite lookup_delete_eq. split.
      * pose proof (to_unrouted _ T _ _ D) as Hu. unfold unrouted in Hu. by rewrite P in Hu.
      * intros n s0 Hn Hr. apply lookup_delete_Some in Hn as [Hk Hn]. apply same_route in Hr.
         by apply (to_apart _ T _ _ _ _ Hn D (not_eq_sym Hk)).
    + rewrite lookup_delete_ne by (intros E'; by apply Hk). destruct (H4 eq_refl key) as [[Hr Hn]|(n & s0 & Hn & Hr & Ht)].
      * left. split; [done|]. intros n s0 Hs0. apply lookup_delete_Some in Hs0 as [_ Hs0]. by eapply Hn.
      * right. exists n, s0. split; [|done]. rewrite lookup_delete_ne; [done|]. intros <-. apply Hk.
         rewrite D in Hn. injection Hn as <-. exact Hr.
Qed.

(** A removal that fails leaves the tables as they are. *)
Lemma remove_fails S s sess k' s' e :
  table_ok S -> plane_up -> holds_table S (seen s) -> S !! s_LocalGTPUTEID sess = Some sess ->
  run_call (CallRemove sess) s = (k', s', Some e) -> seen s' = seen s.
Proof.
  intros T U H D E. pose proof (to_complete _ T _ _ D) as C. cbn [run_call] in E. unfold up_RemoveSession in E.
  rewrite (currentLink_ready nl _ _ _ (up_ready _ _ U H)) in E.
  destruct (remove_routing nl _ link sess s) as [s1 [e1|]] eqn:E1.
  { injection E as _ <- _. by rewrite (remove_routing_fail nl _ _ _ _ _ _ E1). }
  exfalso. destruct (remove_pdp nl _ link sess s1) as [s2 e2] eqn:E2. injection E as _ _ ->.
  apply (remove_pdp_reliable nl) in E2; [done|]. intros Hf.
  pose proof (remove_routing_spec nl (k0 <| kg_link := Some link |>) link sess s s1 (cs_ip _ _ C)) as Hr.
  rewrite Hr in Hf; [|intros P r Hl _; pose proof (own_route S _ sess H D P) as Ho; unfold route_of in Ho; congruence|exact E1].
  destruct (named_context k0 link sess (cs_ip _ _ C)) as [Hn _]. apply (Hf (ctx_key link sess) (ctx_of k0 sess)); [|exact Hn].
  assert (Hd : tb_contexts (del_routing (k0 <| kg_link := Some link |>) link sess (seen s)) = tb_contexts (seen s))
    by (unfold del_routing; destruct (policy _); [done|by case_bool_decide]).
  rewrite Hd, (ht_contexts _ _ H), (context_without S sess T D). apply lookup_insert_eq.
Qed.

Lemma remove_sim S s sess k' s' e :
  table_ok S -> plane_up -> holds_table S (seen s) -> disciplined S (CallRemove sess) ->
  run_call (CallRemove sess) s = (k', s', e) -> holds_table (table_step S (CallRemove sess) e) (seen s').
Proof.
  intros T U H D E. cbn in D. destruct e as [e|]; cbn [table_step]; [by rewrite (remove_fails _ _ _ _ _ _ T U H D E)|].
  set (t := seen s <| tb_contexts := context_table (delete (s_LocalGTPUTEID sess) S) |>).
  rewrite (up_remove_spec nl k0 sess s link k' s' t (up_ready _ _ U H) (to_complete _ T _ _ D)); [by apply del_holds| | | |exact E].
  - by apply (without_fresh S).
  - rewrite (ht_contexts _ _ H). by apply context_without.
  - intros P r Hl _. pose proof (own_route S _ sess H D P) as Ho. unfold route_of in Ho. congruence.
Qed.

(** ** Sequences of calls *)
Fixpoint run_calls (S : session_table) (s : K) (cs : list plane_call) : session_table * K :=
  match cs with
  | [] => (S, s)
  | c :: cs => let '(_, s', e) := run_call c s in run_calls (table_step S c e) s' cs
  end.

(** Every call keeps the discipline in the table at its time. *)
Fixpoint careful (S : session_table) (s : K) (cs : list plane_call) : Prop :=
  match cs with
  | [] => True
  | c :: cs => disciplined S c /\ let '(_, s', e) := run_call c s in careful (table_step S c e) s' cs
  end.

Lemma calls_sim cs S s :
  plane_up -> table_ok S -> holds_table S (seen s) -> careful S s cs ->
  let '(S', s') := run_calls S s cs in table_ok S' /\ holds_table S' (seen s').
Proof.
  intros U. revert S s. induction cs as [|c cs IH]; intros S s T H; cbn [run_calls careful]; [done|].
  destruct (run_call c s) as [[k' s'] e] eqn:E. intros [D Hc]. apply IH; [| |exact Hc].
  - destruct e as [e|]; [done|]. destruct c as [sess|sess]; [by apply table_ok_insert|by apply table_ok_delete].
  - destruct c as [sess|sess]; [by eapply add_sim|by eapply remove_sim].
Qed.

Lemma holds_empty s : seen s = t0 -> holds_table ∅ (seen s).
Proof.
  intros ->. split; [done| | |].
  - unfold context_table. by rewrite fmap_empty, kmap_empty, (left_id_L ∅ (∪)).
  - intros r. split; [by left|]. intros [?|(_ & n & s0 & Hn & _)]; [done|by rewrite lookup_empty in Hn].
  - intros _ key. left. split; [done|]. intros n s0 Hn. by rewrite lookup_empty in Hn.
Qed.

Lemma careful_cons S s c cs :
  disciplined S c -> careful (table_step S c (snd (run_call c s))) (snd (fst (run_call c s))) cs -> careful S s (c :: cs).
Proof. intros D C. cbn [careful]. split; [exact D|]. by destruct (run_call c s) as [[k' s'] e]. Qed.

(** C4: the user plane implements a table of sessions.  Whatever calls of
    [AddSession] and [RemoveSession] a disciplined caller makes, and whichever
    of them the kernel refuses, the kernel holds at the end exactly the
    contexts (local TEID to address, peer and remote TEID) of the sessions
    whose addition succeeded and that were not removed since, next to what it
    held before, and exactly their policy rules, or without policy routing
    exactly their routes. *)
Theorem user_plane_refines_table cs s :
  plane_up -> seen s = t0 -> careful ∅ s cs ->
  let '(tbl, s') := run_calls ∅ s cs in table_ok tbl /\ holds_table tbl (seen s').
Proof.
  intros U E C. apply calls_sim; [done|apply table_ok_empty|by apply holds_empty|done].
Qed.
End Refinement.

(** Two subscribers come, one leaves. *)
Definition second_session : Session :=
  demo_session <| s_ID := "s2" |> <| s_SubscriberIP := [10; 45; 0; 3] |> <| s_LocalGTPUTEID := 0x44 |>.

Definition demo_calls : list plane_call := [CallAdd demo_session; CallAdd second_session; CallRemove demo_session].

Lemma demo_up p : plane_up table_kernel (mkLink 7 "gtp") (demo_plane p) demo_tables.
Proof. split; try done. intros s H. cbn in *. by rewrite H. Qed.

Lemma demo_complete : complete_session (demo_plane true) second_session.
Proof. by split. Qed.

Lemma demo_first : snd (run_call table_kernel (demo_plane true) (CallAdd demo_session) demo_tables) = None.
Proof. vm_compute. reflexivity. Qed.

Lemma demo_second :
  snd (run_call table_kernel (demo_plane true) (CallAdd second_session)
         (snd (fst (run_call table_kernel (demo_plane true) (CallAdd demo_session) demo_tables)))) = None.
Proof. vm_compute. reflexivity. Qed.

Lemma user_plane_refines_table_witness :
  let '(tbl, s') := run_calls table_kernel (demo_plane true) ∅ demo_tables demo_calls in
  tbl = {[0x44 := second_session]} /\ holds_table (mkLink 7 "gtp") (demo_plane true) demo_tables tbl s'.
Proof.
  pose proof (user_plane_refines_table table_kernel (mkLink 7 "gtp") (demo_plane true) demo_tables demo_calls demo_tables
    (demo_up true) eq_refl) as H.
  assert (C : careful table_kernel (mkLink 7 "gtp") (demo_plane true) demo_tables ∅ demo_tables demo_calls).
  { apply careful_cons.
    { split; [by apply (demo_plane_ready true demo_tables)|]. split; [apply not_elem_of_empty|]. split; [done|].
      intros n other H'. by rewrite lookup_empty in H'. }
    rewrite demo_first. apply careful_cons.
    { cbn [disciplined table_step]. split; [apply demo_complete|]. split; [apply not_elem_of_empty|]. split; [done|].
      intros n other. rewrite lookup_insert_Some. by intros [[_ <-]|[_ H']]; [|rewrite lookup_empty in H']. }
    rewrite demo_second. apply careful_cons; [done|exact I]. }
  specialize (H C).
  assert (E : fst (run_calls table_kernel (demo_plane true) ∅ demo_tables demo_calls) = {[0x44 := second_session]})
    by (vm_compute; reflexivity).
  destruct (run_calls table_kernel (demo_plane true) ∅ demo_tables demo_calls) as [tbl s'].
  split; [exact E|exact (proj2 H)].
Defined.
