(* ===== verification/ServicePlane.v ===== *)
(** The lifecycle service on top of the kernel user plane.

    The service calls [AddSession] and [RemoveSession] of the user plane; the
    calls and their outcomes are in its trace.  When the kernel answers these
    calls, and the PGW and the TEID allocator hand out tunnels that are not in
    use, the service is the disciplined caller that [PlaneRefines.v] asks for,
    and the kernel tables are those of the live sessions of the registry. *)
From S2P Require Import Prelude.
From S2P Require Import GoNet.
From S2P Require Import Config.
From S2P Require Import Session.
From S2P Require Import GtpClient.
From S2P Require Import SessionMap.
From S2P Require Import Lifecycle.
From S2P Require Import LifecycleFacts.
From S2P Require Import LifecycleProps.
From S2P Require Import Netlink.
From S2P Require Import Routing.
From S2P Require Import UserPlane.
From S2P Require Import DataPath.
From S2P Require Import PlaneRefines.
Open Scope string_scope.
Open Scope Z_scope.

(** The call of the user plane that an event records, and whether it succeeded. *)
Definition plane_event (e : event) : option (plane_call * bool) :=
  match e with
  | EvAdd RUser sess ok => Some (CallAdd sess, ok)
  | EvRemove RUser sess ok => Some (CallRemove sess, ok)
  | _ => None
  end.

Definition succeeded (err : option kerr) : bool := match err with None => true | Some _ => false end.

(** The sessions whose tunnel the kernel still has, by their local TEID: a
    removal that fails leaves it there, although the session is gone. *)
Definition kernel_step (e : event) (T : session_table) : session_table :=
  match plane_event e with
  | Some (c, ok) => table_step T c (if ok then None else Some (kmsg ""))
  | None => T
  end.

Fixpoint in_kernel (tr : list event) : session_table :=
  match tr with [] => ∅ | e :: tr => kernel_step e (in_kernel tr) end.

Section Service.
Context {K : Type} (nl : kernel K) `{!KernelTables nl} `{!KernelReliable nl}.
Context (link : Link) (k0 : KernelGTP) (t0 : tables).

(** What the rest of the system may do to the kernel between the calls: the
    routes change, unless they are the user plane's own. *)
Record keeps_plane (t t' : tables) : Prop := {
  kp_links : tb_links t' = tb_links t;
  kp_contexts : tb_contexts t' = tb_contexts t;
  kp_rules : tb_rules t' = tb_rules t;
  kp_routes : policy k0 = false -> tb_routes t' = tb_routes t
}.

(** [plays tr s]: the kernel is in state [s] after it has answered the calls
    of the trace with the outcomes the trace records. *)
Inductive plays : list event -> K -> Prop :=
| plays_start s : seen s = t0 -> plays [] s
| plays_call e c ok tr s k' s' err :
    plays tr s -> plane_event e = Some (c, ok) -> run_call nl k0 c s = (k', s', err) -> ok = succeeded err ->
    plays (e :: tr) s'
| plays_other e tr s : plane_event e = None -> plays tr s -> plays (e :: tr) s
| plays_others tr s s' : plays tr s -> keeps_plane (seen s) (seen s') -> plays tr s'.

(** The tunnel of a session that is added is not in use: neither its TEID nor
    its address belongs to a session the kernel has, and nobody else has a
    rule or route for the address. *)
Definition unused (T : session_table) (sess : Session) : Prop :=
  unrouted k0 link sess t0 /\ T !! s_LocalGTPUTEID sess = None /\
  forall t other, T !! t = Some other -> To4 (s_SubscriberIP other) <> To4 (s_SubscriberIP sess).

Fixpoint fresh_tunnels (tr : list event) : Prop :=
  match tr with
  | [] => True
  | e :: tr => fresh_tunnels tr /\
    match e with EvAdd RUser sess _ => unused (in_kernel tr) sess | _ => True end
  end.

(** ** Calls *)
Lemma remove_same_tunnel a b s : tunnel a = tunnel b -> run_call nl k0 (CallRemove a) s = run_call nl k0 (CallRemove b) s.
Proof.
  unfold tunnel. intros [= E1 E2 E3 E4]. cbn [run_call].
  unfold up_RemoveSession, remove_routing, removePolicyRouting, remove_pdp, session_peer. by rewrite E1, E3, E4.
Qed.

Lemma remove_blank T sess s : plane_up nl link k0 t0 -> holds_table link k0 t0 T (seen s) -> blank sess ->
  exists k', run_call nl k0 (CallRemove sess) s = (k', s, None).
Proof.
  unfold blank, tunnel. intros U H [= E1 E2 E3 E4]. cbn [run_call]. unfold up_RemoveSession.
  rewrite (currentLink_ready nl _ _ _ (up_ready nl link k0 t0 _ _ U H)).
  unfold remove_routing, remove_pdp. rewrite E4, E1. cbn [non_nil negb Z.eqb]. by eexists.
Qed.

(** A session without a complete tunnel is refused before the kernel is asked. *)
Lemma add_complete T sess s k' s' err : plane_up nl link k0 t0 -> holds_table link k0 t0 T (seen s) ->
  run_call nl k0 (CallAdd sess) s = (k', s', err) -> complete_session k0 sess \/ s' = s /\ err <> None.
Proof.
  intros U H. cbn [run_call]. unfold up_AddSession.
  destruct (validateKernelSession (Some sess)) as [x|e] eqn:V; [|intros [= _ <- <-]; by right].
  assert (x = sess) as -> by (cbn in V; repeat case_match; congruence).
  rewrite (pu_started _ _ _ _ U), (currentLink_ready nl _ _ _ (up_ready nl link k0 t0 _ _ U H)).
  change (session_peer (k0 <| kg_link := Some link |>) sess) with (session_peer k0 sess).
  destruct (non_nil (session_peer k0 sess)) eqn:P; cbn [negb]; [by left|]. intros [= _ <- <-]. by right.
Qed.

(** ** The trace of the service and the kernel *)

(** [in_kernel] has the tunnels of the ledger. *)
Record agree (tr : list event) : Prop := {
  ag_table : table_ok link k0 t0 (in_kernel tr);
  ag_ledger : forall id s0, tunnels tr !! id = Some s0 -> s_ID s0 = id /\ in_kernel tr !! s_LocalGTPUTEID s0 = Some s0
}.

Lemma holds_kept T t t' : keeps_plane t t' -> holds_table link k0 t0 T t -> holds_table link k0 t0 T t'.
Proof.
  intros [P1 P2 P3 P4] [H1 H2 H3 H4]. split; [congruence|congruence|intros r; rewrite P3; apply H3|].
  intros P key. rewrite P4 by done. by apply H4.
Qed.

Lemma table_step_ok T c err : table_ok link k0 t0 T -> (err = None -> disciplined link k0 t0 T c) ->
  table_ok link k0 t0 (table_step T c err).
Proof.
  intros O D. destruct err as [e|]; [done|]. specialize (D eq_refl).
  destruct c as [sess|sess]; [by apply table_ok_insert|by apply table_ok_delete].
Qed.

Lemma play_add tr T sess ok s k' s' err :
  plane_up nl link k0 t0 -> T = in_kernel tr -> agree tr -> holds_table link k0 t0 T (seen s) ->
  tunnels tr !! s_ID sess = None -> unused T sess ->
  run_call nl k0 (CallAdd sess) s = (k', s', err) -> ok = succeeded err ->
  agree (EvAdd RUser sess ok :: tr) /\ holds_table link k0 t0 (in_kernel (EvAdd RUser sess ok :: tr)) (seen s').
Proof.
  intros U -> [O L] H N (R & F1 & F2) E ->.
  assert (D : complete_session k0 sess -> disciplined link k0 t0 (in_kernel tr) (CallAdd sess))
    by (intros C; split; [exact C|by split]).
  destruct (add_complete _ _ _ _ _ _ U H E) as [C|[-> Hn]].
  - specialize (D C). pose proof (add_sim nl link k0 t0 _ _ _ _ _ _ O U H D E) as Hs.
    assert (Ek : in_kernel (EvAdd RUser sess (succeeded err) :: tr) = table_step (in_kernel tr) (CallAdd sess) err) by (by destruct err).
    rewrite Ek. split; [|exact Hs]. split; rewrite Ek; [by apply table_step_ok|].
    destruct err as [e|]; [exact L|]. cbn [succeeded tunnels set_tunnel table_step].
    intros id s0 [[<- <-]|[Hi H0%L]]%lookup_insert_Some; [by rewrite lookup_insert_eq|].
    destruct H0 as [H0 H1]. split; [done|]. rewrite lookup_insert_ne; [done|]. intros Et. congruence.
  - destruct err as [e|]; [|done]. by split.
Qed.

Lemma play_remove tr T sess ok s k' s' err :
  plane_up nl link k0 t0 -> T = in_kernel tr -> agree tr -> holds_table link k0 t0 T (seen s) ->
  tidy_event (tunnels tr) (EvRemove RUser sess ok) ->
  run_call nl k0 (CallRemove sess) s = (k', s', err) -> ok = succeeded err ->
  agree (EvRemove RUser sess ok :: tr) /\ holds_table link k0 t0 (in_kernel (EvRemove RUser sess ok :: tr)) (seen s').
Proof.
  intros U -> A H Y E ->. pose proof A as [O L]. cbn [tidy_event] in Y.
  assert (Ek : in_kernel (EvRemove RUser sess (succeeded err) :: tr) = table_step (in_kernel tr) (CallRemove sess) err) by (by destruct err).
  destruct (tunnels tr !! s_ID sess) as [s0|] eqn:E0.
  - destruct (L _ _ E0) as [I0 K0]. pose proof Y as [= T1 _ _ _].
    rewrite (remove_same_tunnel _ _ _ Y) in E.
    pose proof (remove_sim nl link k0 t0 _ _ _ _ _ _ O U H K0 E) as Hs.
    assert (Es : table_step (in_kernel tr) (CallRemove s0) err = table_step (in_kernel tr) (CallRemove sess) err)
      by (destruct err; [done|]; cbn; by rewrite T1).
    rewrite Es in Hs. rewrite Ek. split; [|exact Hs]. split; rewrite Ek.
    + rewrite <- Es. by apply table_step_ok.
    + cbn [tunnels set_tunnel]. intros id x [Hi Hx%L]%lookup_delete_Some. destruct Hx as [Hx Kx]. split; [done|].
      destruct err as [e|]; [done|]. cbn [table_step]. rewrite lookup_delete_ne; [done|]. intros Et.
      rewrite T1 in Et. rewrite <- Et in Kx. congruence.
  - destruct (remove_blank _ sess s U H Y) as [k1 E1]. rewrite E1 in E. injection E as <- <- <-.
    assert (Es : in_kernel (EvRemove RUser sess true :: tr) = in_kernel tr).
    { cbn. apply delete_id. destruct (in_kernel tr !! s_LocalGTPUTEID sess) as [x|] eqn:Ex; [|done].
      pose proof (cs_tei _ _ (to_complete _ _ _ _ O _ _ Ex)) as Hx. rewrite <- (to_key _ _ _ _ O _ _ Ex) in Hx.
      unfold blank, tunnel in Y. injection Y as Y1 _ _ _. by rewrite Y1 in Hx. }
    cbn [succeeded]. rewrite Es. split; [|exact H]. split; rewrite Es; [done|].
    cbn [tunnels set_tunnel]. intros id x [_ Hx]%lookup_delete_Some. by apply L.
Qed.

Lemma plays_agree tr s :
  plane_up nl link k0 t0 -> plays tr s -> tidy tr -> fresh_tunnels tr ->
  agree tr /\ holds_table link k0 t0 (in_kernel tr) (seen s).
Proof.
  intros U. induction 1 as [s E|e c ok tr s k' s' err P IH Ep E Eo|e tr s Ep P IH|tr s s' P IH Kp]; intros Y F.
  - split; [|by apply holds_empty]. split; [apply table_ok_empty|]. intros id s0 H. cbn in H. by rewrite lookup_empty in H.
  - destruct Y as [Ye Y], F as [F Fe]. destruct (IH Y F) as [A H].
    destruct e as [r sess b|r sess b| | | |]; try done; destruct r; try done; injection Ep as <- <-.
    + by eapply play_add.
    + by eapply play_remove.
  - destruct Y as [_ Y], F as [F _]. destruct (IH Y F) as [[O L] H].
    assert (Ek : in_kernel (e :: tr) = in_kernel tr) by (cbn; unfold kernel_step; by rewrite Ep).
    rewrite Ek. split; [|exact H]. split; rewrite Ek; [done|].
    replace (tunnels (e :: tr)) with (tunnels tr); [done|]. by destruct e as [[]|[]| | | |].
  - destruct (IH Y F) as [A H]. split; [exact A|]. by eapply holds_kept.
Qed.

(** ** The live sessions *)
Lemma in_kernel_key tr t s0 : in_kernel tr !! t = Some s0 -> t = s_LocalGTPUTEID s0.
Proof.
  induction tr as [|e tr IH]; cbn [in_kernel]; [by rewrite lookup_empty|]. unfold kernel_step.
  destruct (plane_event e) as [[[sess|sess] [|]]|]; cbn [table_step]; try exact IH.
  - by intros [[<- <-]|[_ H]]%lookup_insert_Some; [|apply IH].
  - intros [_ H]%lookup_delete_Some. by apply IH.
Qed.

(** When no removal fails, the kernel has no tunnel but those of the ledger. *)
Lemma in_kernel_ledger tr : tidy tr -> (forall sess ok, EvRemove RUser sess ok ∈ tr -> ok = true) ->
  forall t s0, in_kernel tr !! t = Some s0 -> tunnels tr !! s_ID s0 = Some s0.
Proof.
  induction tr as [|e tr IH]; cbn [in_kernel]; intros Y R t s0 H; [by rewrite lookup_empty in H|].
  destruct Y as [Ye Y]. assert (IH' : forall t s0, in_kernel tr !! t = Some s0 -> tunnels tr !! s_ID s0 = Some s0)
    by (apply IH; [done|]; intros sess ok He; apply (R sess ok); by right).
  cbn [tunnels]. unfold kernel_step in H.
  destruct e as [r sess ok|r sess ok| | | |]; try (by apply (IH' t)); destruct r; try (by apply (IH' t)); cbn [plane_event] in H.
  - destruct ok; [|by apply (IH' t)]. cbn in H. cbn [tidy_event] in Ye. cbn [set_tunnel].
    apply lookup_insert_Some in H as [[_ <-]|[_ H%IH']]; [by rewrite lookup_insert_eq|].
    rewrite lookup_insert_ne; [done|]. intros Ei. congruence.
  - rewrite (R sess ok) in H by left. cbn in H. cbn [tidy_event] in Ye. cbn [set_tunnel].
    apply lookup_delete_Some in H as [Ht H]. pose proof (in_kernel_key _ _ _ H) as Hk. apply IH' in H.
    rewrite lookup_delete_ne; [done|]. intros Ei. rewrite Ei, H in Ye. injection Ye as Ye _ _ _. congruence.
Qed.

Lemma same_tunnel a b : tunnel a = tunnel b ->
  ctx_key link a = ctx_key link b /\ ctx_of k0 a = ctx_of k0 b /\ policy_rule k0 a = policy_rule k0 b /\
  route_of link a = route_of link b.
Proof.
  unfold tunnel, ctx_key, ctx_of, session_peer, policy_rule, route_of. intros [= -> -> E3 ->]. by rewrite E3.
Qed.

(** What the kernel has for a session of the table. *)
Lemma table_entry T t sess : plane_up nl link k0 t0 -> holds_table link k0 t0 T t -> table_ok link k0 t0 T ->
  T !! s_LocalGTPUTEID sess = Some sess ->
  tb_contexts t !! ctx_key link sess = Some (ctx_of k0 sess) /\
  (if policy k0 then policy_rule k0 sess ∈ tb_rules t
   else tb_routes t !! route_key (route_of link sess) = Some (route_of link sess)).
Proof.
  intros U H O D. split.
  - rewrite (ht_contexts _ _ _ _ _ H), (context_without link k0 t0 T sess O D). apply lookup_insert_eq.
  - destruct (policy k0) eqn:P; [|by eapply own_route].
    apply (ht_rules _ _ _ _ _ H). right. split; [exact P|]. by exists (s_LocalGTPUTEID sess), sess.
Qed.

End Service.

(** ** Replaying a trace *)
#[export] Instance unused_dec k0 link t0 T sess : Decision (unused link k0 t0 T sess).
Proof.
  unfold unused, unrouted. apply and_dec; [destruct (policy k0); apply _|]. apply and_dec; [apply _|].
  change (Decision (map_Forall (fun _ other => To4 (s_SubscriberIP other) <> To4 (s_SubscriberIP sess)) T)). apply _.
Defined.

#[export] Instance fresh_tunnels_dec k0 link t0 tr : Decision (fresh_tunnels link k0 t0 tr).
Proof.
  induction tr as [|e tr IH]; [left; exact I|]. cbn [fresh_tunnels]. apply and_dec; [exact IH|].
  destruct e as [[]| | | | |]; try (left; exact I). apply unused_dec.
Defined.

(** The kernel after the calls of a trace, if it answers as recorded. *)
Fixpoint replay {K} (nl : kernel K) (k0 : KernelGTP) (tr : list event) (s0 : K) : option K :=
  match tr with
  | [] => Some s0
  | e :: tr =>
    s ← replay nl k0 tr s0;
    match plane_event e with
    | None => Some s
    | Some (c, ok) => let '(_, s', err) := run_call nl k0 c s in if Bool.eqb ok (succeeded err) then Some s' else None
    end
  end.

Lemma replay_plays {K} (nl : kernel K) `{!KernelTables nl} k0 t0 tr s0 s :
  seen s0 = t0 -> replay nl k0 tr s0 = Some s -> plays nl k0 t0 tr s.
Proof.
  intros E0. revert s. induction tr as [|e tr IH]; cbn [replay]; intros s; [intros [= <-]; by apply plays_start|].
  destruct (replay nl k0 tr s0) as [s1|]; cbn [mbind option_bind]; [|done].
  destruct (plane_event e) as [[c ok]|] eqn:Ep; [|intros [= <-]; by apply plays_other, IH].
  destruct (run_call nl k0 c s1) as [[k' s'] err] eqn:Er. destruct (Bool.eqb ok (succeeded err)) eqn:Eo; [|done].
  intros [= <-]. eapply plays_call; [by apply IH|exact Ep|exact Er|by apply Bool.eqb_prop].
Qed.

(** A PGW with two addresses: two subscribers attach, the first one leaves. *)
Definition two_addresses (sess : Session) : CreateSessionResult :=
  if String.eqb (s_IMSI sess) "001010000000001" then demo_result
  else mkResult [10; 45; 0; 3] [] [192; 0; 2; 1] [192; 0; 2; 1] 0x12 0x44 0x34.

Definition plane_env : Env :=
  let E := demo_env in
  mkEnv (v_cfg E) (v_user E) (v_access E) (v_dynamic E) (v_pgwIsGTP E) (v_now E) (v_ids E) (v_rmac E) (v_rimsi E)
    (v_lock E) (v_ctxErr E) (v_authenticate E) (v_exchangeEAP E) (fun _ sess => Ok (Some (two_addresses sess)))
    (v_add E) (v_remove E) (v_disconnect E).

Definition plane_calls : list call :=
  [CAttach demo_req;
   CAttach (zeroAttachRequest <| q_IMSI := "001010000000002" |> <| q_MACAddress := "02:00:00:00:00:02" |>);
   CDetach (mkDetachRequest "" "001010000000001" "")].

Definition handle_all (E : Env) (cs : list call) : option Service :=
  fold_left (fun w c => w ≫= fun w => fst <$> handle E c w) cs (Some (NewService None)).

Lemma handle_all_reached E cs w : handle_all E cs = Some w -> Z.of_nat (length cs) < 2 ^ 64 ->
  reached E (Z.of_nat (length cs)) w.
Proof.
  unfold handle_all. revert w. induction cs as [|c cs IH] using rev_ind; intros w; [intros [= <-] _; apply reached_new|].
  rewrite fold_left_app, length_app. cbn [fold_left length]. intros H Hn.
  destruct (fold_left _ cs _) as [w1|] eqn:E1; [|done]. cbn in H.
  destruct (handle E c w1) as [[w2 []]|] eqn:E2; [|done]. injection H as <-.
  rewrite Nat2Z.inj_add. eapply reached_call; [apply IH; [done|lia]|lia|exact E2].
Qed.

Definition plane_w : Service := default (NewService None) (handle_all plane_env plane_calls).

Lemma plane_w_handled : handle_all plane_env plane_calls = Some plane_w.
Proof.
  unfold plane_w. assert (H : bool_decide (is_Some (handle_all plane_env plane_calls)) = true) by (vm_compute; reflexivity).
  apply bool_decide_eq_true in H as [w ->]. done.
Qed.

Definition played : option tables := replay table_kernel (demo_plane true) (sv_trace plane_w) demo_tables.

(** The identifier of the session that is left. *)
Definition second_id : string := match map_to_list (byID (sv_mgr plane_w)) with (k, _) :: _ => k | [] => "" end.

Lemma second_live :
  (fun s => (s_IMSI s, s_State s, s_LocalGTPUTEID s)) <$> get plane_w second_id = Some ("001010000000002", State.Active, 0x44).
Proof. vm_compute. reflexivity. Qed.

Lemma played_keys : (fun t => map fst (map_to_list (tb_contexts t))) <$> played = Some [(7, 0x44)].
Proof. vm_compute. reflexivity. Qed.

Lemma plane_fresh : fresh_tunnels (mkLink 7 "gtp") (demo_plane true) demo_tables (sv_trace plane_w).
Proof. apply (bool_decide_unpack _). vm_compute. exact I. Qed.

Lemma plane_env_ok : env_ok plane_env.
Proof. by split. Qed.

