(* ===== verification/AccessRun.v ===== *)
(** Start and stop of the access side: the packet sockets of
    [internal/accessside/raw.go], [Start] and [Stop] of the DHCP server
    ([dhcp.go]), of the ARP proxy ([arp.go]) and of their manager
    ([manager.go]).  The state is the list of open descriptors; a channel
    that is closed twice is a run-time panic ([None]). *)
From S2P Require Import Prelude.
From S2P Require Import GoNet.
From S2P Require Import Config.
From S2P Require Import AccessSide.
Open Scope string_scope.
Open Scope Z_scope.

(** * Packet sockets *)

(** The operating system: the index and address of an interface, the error of
    [Socket] and of [Bind], the error of [Close] and of [NewHandle].  The
    descriptor of a new socket is one that is not open. *)
Record packet_os := mkPacketOS {
  po_iface : string -> result (Z * HardwareAddr) string;
  po_fd : list Z -> Z;
  po_socket : string -> option string;
  po_bind : string -> option string;
  po_close : Z -> option string;
  po_handle : option string
}.

Record packetSocket := mkPacketSocket { ps_fd : Z; ps_ifindex : Z }.

Definition htons (v : Z) : Z := wrap 16 (Z.lor (Z.shiftl v 8) (Z.shiftr v 8)).

Definition etherTypeAll : Z := 0x0003.

(** [reader]: what [Start] of a server leaves: its socket, its channel (closed
    or not) and the address of its interface. *)
Record reader := mkReader { rd_conn : option packetSocket; rd_done : option bool; rd_mac : HardwareAddr }.

Definition noReader : reader := mkReader None None [].

Section Run.
Context (o : packet_os).

Definition openPacketSocket (iface : string) (fds : list Z) : list Z * result (packetSocket * HardwareAddr) string :=
  match po_iface o iface with
  | Err e => (fds, Err ("lookup interface " +:+ quote iface +:+ ": " +:+ e))
  | Ok (index, mac) =>
    match po_socket o iface with
    | Some e => (fds, Err ("open packet socket on " +:+ iface +:+ ": " +:+ e))
    | None =>
      let fd := po_fd o fds in
      match po_bind o iface with
      | Some e => (fds, Err ("bind packet socket on " +:+ iface +:+ ": " +:+ e))
      | None => (fd :: fds, Ok (mkPacketSocket fd index, mac))
      end
    end
  end.

(** [Close]: only the first one reaches the system. *)
Definition ps_Close (s : packetSocket) (fds : list Z) : packetSocket * list Z * option string :=
  if ps_fd s <? 0 then (s, fds, None)
  else (mkPacketSocket (-1) (ps_ifindex s), List.remove Z.eq_dec (ps_fd s) fds, po_close o (ps_fd s)).

(** [DHCPServer.Start] and [ARPProxy.Start] *)
Definition reader_Start (enabled : bool) (iface : string) (r : reader) (fds : list Z)
  : reader * list Z * option string :=
  if negb enabled then (r, fds, None)
  else match openPacketSocket iface fds with
       | (fds, Err e) => (r, fds, Some e)
       | (fds, Ok (conn, mac)) => (mkReader (Some conn) (Some false) mac, fds, None)
       end.

(** [DHCPServer.Stop] and [ARPProxy.Stop] *)
Definition reader_Stop (r : reader) (fds : list Z) : go (reader * list Z * option string) :=
  match rd_done r with
  | Some true => None
  | d =>
    let d := match d with Some _ => Some true | None => None end in
    Some match rd_conn r with
         | Some c => let '(c, fds, e) := ps_Close c fds in (mkReader (Some c) d (rd_mac r), fds, e)
         | None => (mkReader None d (rd_mac r), fds, None)
         end
  end.

(** * The manager *)
Record access_run := mkAccessRun { ar_dhcp : reader; ar_arp : reader; ar_nl : bool }.

Definition notRunning : access_run := mkAccessRun noReader noReader false.

(** The error of a [Stop] inside [Start] is dropped. *)
Definition access_Start (cfg : AccessConfig) (m : access_run) (fds : list Z) : go (access_run * list Z * option string) :=
  let '(d, fds, e) := reader_Start (dh_Enabled (ac_DHCP cfg)) (dh_Interface (ac_DHCP cfg)) (ar_dhcp m) fds in
  match e with
  | Some e => Some (mkAccessRun d (ar_arp m) (ar_nl m), fds, Some e)
  | None =>
    let '(a, fds, e) := reader_Start (ap_Enabled (ac_ARPProxy cfg)) (ap_Interface (ac_ARPProxy cfg)) (ar_arp m) fds in
    match e with
    | Some e => '(d, fds, _) ← reader_Stop d fds; Some (mkAccessRun d a (ar_nl m), fds, Some e)
    | None =>
      if fw_Enabled (ac_Forwarding cfg) then
        match po_handle o with
        | Some e =>
          '(d, fds, _) ← reader_Stop d fds;
          '(a, fds, _) ← reader_Stop a fds;
          Some (mkAccessRun d a (ar_nl m), fds, Some ("open access forwarding netlink handle: " +:+ e))
        | None => Some (mkAccessRun d a true, fds, None)
        end
      else Some (mkAccessRun d a (ar_nl m), fds, None)
    end
  end.

(** The errors that [Stop] joins. *)
Definition access_Stop (m : access_run) (fds : list Z) : go (access_run * list Z * list string) :=
  '(d, fds, e1) ← reader_Stop (ar_dhcp m) fds;
  '(a, fds, e2) ← reader_Stop (ar_arp m) fds;
  Some (mkAccessRun d a (ar_nl m), fds, ((option_list e1) ++ (option_list e2))%list).

(** * Start and Stop *)
Definition os_ok : Prop := forall fds, (po_fd o fds ∉ fds) /\ 0 <= po_fd o fds.

(** The reader runs on an open socket of its own, or does not run. *)
Definition runs (enabled : bool) (r : reader) : Prop :=
  if enabled then rd_done r = Some false /\ exists c, rd_conn r = Some c /\ 0 <= ps_fd c
  else r = noReader.

Definition stopped (enabled : bool) (r : reader) : Prop :=
  if enabled then rd_done r = Some true else r = noReader.

Lemma remove_fresh fd fds : fd ∉ fds -> List.remove Z.eq_dec fd (fd :: fds) = fds.
Proof.
  intros H. cbn. destruct (Z.eq_dec fd fd); [|done]. apply notin_remove. by rewrite <- list_elem_of_In.
Qed.

Lemma reader_Start_spec enabled iface fds r fds' e :
  os_ok -> reader_Start enabled iface noReader fds = (r, fds', e) ->
  match e with
  | Some _ => fds' = fds /\ r = noReader /\ enabled = true
  | None => runs enabled r /\
      fds' = if enabled then match rd_conn r with Some c => ps_fd c :: fds | None => fds end else fds
  end.
Proof.
  intros O. unfold reader_Start. destruct enabled; cbn [negb]; [|by intros [= <- <- <-]].
  unfold openPacketSocket. destruct (po_iface o iface) as [[index mac]|]; [|by intros [= <- <- <-]].
  destruct (po_socket o iface); [by intros [= <- <- <-]|]. destruct (po_bind o iface); [by intros [= <- <- <-]|].
  intros [= <- <- <-]. split; [|done]. split; [done|]. eexists. split; [done|]. cbn. apply O.
Qed.

(** Stopping a running reader closes its channel and its socket. *)
Lemma reader_Stop_spec enabled r fds :
  runs enabled r -> exists r' e, reader_Stop r fds =
    Some (r', match rd_conn r with Some c => List.remove Z.eq_dec (ps_fd c) fds | None => fds end, e) /\ stopped enabled r'.
Proof.
  unfold runs, stopped. destruct enabled; [intros (Hd & c & Hc & Hf)|intros ->; cbn; eauto].
  unfold reader_Stop. rewrite Hd, Hc. unfold ps_Close. rewrite (proj2 (Z.ltb_ge _ _)) by lia. eauto.
Qed.
(** The sockets of the running readers, the last opened first. *)
Definition own_fds (r : reader) : list Z := match rd_conn r with Some c => [ps_fd c] | None => [] end.

Lemma reader_Start_fds enabled iface fds r fds' :
  os_ok -> reader_Start enabled iface noReader fds = (r, fds', None) ->
  runs enabled r /\ fds' = (own_fds r ++ fds)%list /\ forall fd, fd ∈ own_fds r -> fd ∉ fds.
Proof.
  intros O E. pose proof (reader_Start_spec _ _ _ _ _ _ O E) as [R F]. split; [exact R|].
  revert E R F. unfold own_fds, reader_Start. destruct enabled; cbn [negb].
  - unfold openPacketSocket. destruct (po_iface o iface) as [[index mac]|]; [|done].
    destruct (po_socket o iface); [done|]. destruct (po_bind o iface); [done|]. intros [= <- <-] _ _. cbn. split; [done|].
    intros fd ->%list_elem_of_singleton. apply O.
  - intros [= <- <-] _ _. split; [done|]. cbn. intros fd H. by apply not_elem_of_nil in H.
Qed.

(** Stopping both readers gives back the descriptors. *)
Lemma stop_both b1 b2 d a fds :
  runs b1 d -> runs b2 a -> (forall fd, fd ∈ own_fds d -> fd ∉ fds) -> (forall fd, fd ∈ own_fds a -> fd ∉ (own_fds d ++ fds)%list) ->
  exists d' a' e1 e2, reader_Stop d (own_fds a ++ own_fds d ++ fds)%list = Some (d', (own_fds a ++ fds)%list, e1) /\
    reader_Stop a (own_fds a ++ fds)%list = Some (a', fds, e2) /\ stopped b1 d' /\ stopped b2 a'.
Proof.
  intros Rd Ra Fd Fa.
  destruct (reader_Stop_spec b1 d (own_fds a ++ own_fds d ++ fds)%list Rd) as (d' & e1 & E1 & S1).
  destruct (reader_Stop_spec b2 a (own_fds a ++ fds)%list Ra) as (a' & e2 & E2 & S2).
  exists d', a', e1, e2. rewrite E1, E2. unfold own_fds in *. split_and!; [| |done..].
  - do 2 f_equal. f_equal. destruct (rd_conn d) as [cd|]; [|done]. destruct (rd_conn a) as [ca|]; cbn [app].
    + cbn [List.remove]. destruct (Z.eq_dec (ps_fd cd) (ps_fd ca)) as [E|_].
      * exfalso. apply (Fa (ps_fd ca)); [by left|]. rewrite <- E. by left.
      * f_equal. apply remove_fresh, Fd. by left.
    + apply remove_fresh, Fd. by left.
  - do 2 f_equal. f_equal. destruct (rd_conn a) as [ca|]; [|done]. cbn [app]. apply remove_fresh. intros H.
    apply (Fa (ps_fd ca)); [by left|]. apply elem_of_app. by right.
Qed.

Definition dhcp_on (cfg : AccessConfig) : bool := dh_Enabled (ac_DHCP cfg).
Definition arp_on (cfg : AccessConfig) : bool := ap_Enabled (ac_ARPProxy cfg).

(** Starting the access side.  [Start] of a fresh manager returns; when it
    fails, every packet socket it opened is closed again; when it succeeds,
    the enabled servers read from sockets of their own, and a [Stop] ends the
    readers and closes exactly these sockets.  A second [Stop] closes a closed
    channel and panics when a server was enabled. *)
Theorem access_start_stop cfg fds :
  os_ok ->
  exists m fds' e, access_Start cfg notRunning fds = Some (m, fds', e) /\
    match e with
    | Some _ => fds' = fds
    | None => runs (dhcp_on cfg) (ar_dhcp m) /\ runs (arp_on cfg) (ar_arp m) /\ ar_nl m = fw_Enabled (ac_Forwarding cfg) /\
        exists m' es, access_Stop m fds' = Some (m', fds, es) /\
          stopped (dhcp_on cfg) (ar_dhcp m') /\ stopped (arp_on cfg) (ar_arp m') /\
          (access_Stop m' fds = None <-> (dhcp_on cfg || arp_on cfg)%bool = true)
    end.
Proof.
  intros O. unfold access_Start, notRunning. cbn [ar_dhcp ar_arp ar_nl]. fold (dhcp_on cfg) (arp_on cfg).
  destruct (reader_Start (dhcp_on cfg) _ noReader fds) as [[d fds1] [e1|]] eqn:E1.
  { apply reader_Start_spec in E1 as (-> & _); [|done]. do 3 eexists. by split. }
  apply reader_Start_fds in E1 as (Rd & -> & Fd); [|done].
  destruct (reader_Start (arp_on cfg) _ noReader (own_fds d ++ fds)%list) as [[a fds2] [e2|]] eqn:E2.
  { apply reader_Start_spec in E2 as (-> & -> & _); [|done].
    destruct (stop_both (dhcp_on cfg) false d noReader fds Rd eq_refl Fd) as (d' & a' & x1 & x2 & S1 & _).
    { intros fd H. by apply not_elem_of_nil in H. }
    cbn [own_fds rd_conn noReader app] in S1. rewrite S1. cbn [mbind option_bind]. do 3 eexists. by split. }
  apply reader_Start_fds in E2 as (Ra & -> & Fa); [|done].
  destruct (stop_both _ _ d a fds Rd Ra Fd Fa) as (d' & a' & x1 & x2 & S1 & S2 & Sd & Sa).
  assert (G : forall n, exists m' es, access_Stop (mkAccessRun d a n) (own_fds a ++ own_fds d ++ fds)%list = Some (m', fds, es) /\
     stopped (dhcp_on cfg) (ar_dhcp m') /\ stopped (arp_on cfg) (ar_arp m') /\
     (access_Stop m' fds = None <-> (dhcp_on cfg || arp_on cfg)%bool = true)).
  { intros n. unfold access_Stop. cbn [ar_dhcp ar_arp]. rewrite S1. cbn [mbind option_bind]. rewrite S2. cbn [mbind option_bind].
    do 2 eexists. split; [done|]. cbn [ar_dhcp ar_arp ar_nl]. split; [exact Sd|]. split; [exact Sa|].
    unfold stopped in Sd, Sa. destruct (dhcp_on cfg), (arp_on cfg); cbn [orb]; subst;
      unfold reader_Stop; rewrite ?Sd, ?Sa; cbn [noReader rd_done rd_conn mbind option_bind]; (split; [done|]); try done;
      intros _; rewrite ?Sa; done. }
  destruct (fw_Enabled (ac_Forwarding cfg)).
  - destruct (po_handle o) as [e|].
    + rewrite S1. cbn [mbind option_bind]. rewrite S2. cbn [mbind option_bind]. do 3 eexists. by split.
    + do 3 eexists. split; [done|]. cbn [ar_dhcp ar_arp ar_nl]. split_and!; [done..|]. apply G.
  - do 3 eexists. split; [done|]. cbn [ar_dhcp ar_arp ar_nl]. split_and!; [done..|]. apply G.
Qed.
End Run.

(** A system with one interface. *)
Definition demo_os : packet_os :=
  mkPacketOS (fun _ => Ok (2, [2; 0; 0; 0; 0; 9])) (fun fds => foldr Z.max 0 fds + 1) (fun _ => None) (fun _ => None)
    (fun _ => None) None.

Lemma demo_os_ok : os_ok demo_os.
Proof.
  intros fds. cbn. assert (H : Forall (fun fd => fd <= foldr Z.max 0 fds) fds /\ 0 <= foldr Z.max 0 fds).
  { induction fds as [|x l [IH1 IH2]]; cbn; [split; [constructor|lia]|]. split; [|lia]. constructor; [lia|].
    eapply Forall_impl; [exact IH1|]. cbn. intros; lia. }
  destruct H as [H1 H2]. split; [|lia]. intros H. rewrite Forall_forall in H1. specialize (H1 _ H). lia.
Qed.

Lemma access_start_stop_witness :
  exists m fds' e, access_Start demo_os (cfg_Access Default) notRunning [] = Some (m, fds', e).
Proof.
  destruct (access_start_stop demo_os (cfg_Access Default) [] demo_os_ok) as (m & fds' & e & E & _). eauto.
Defined.
