(* ===== verification/Logging.v ===== *)
(** The logger of the program: [internal/logging/logging.go].  Handlers of
    [log/slog] are their sink, level and bound attributes; what the operating
    system answers to the file operations is an argument. *)
From S2P Require Import Prelude.
From S2P Require Import GoNet.
From S2P Require Import Config.
From S2P Require Import Session.
Open Scope string_scope.
Open Scope Z_scope.

(** * [log/slog] *)
Definition LevelDebug : Z := -4.
Definition LevelInfo : Z := 0.
Definition LevelWarn : Z := 4.
Definition LevelError : Z := 8.

Inductive sink := SinkFile (path : string) | SinkStderr.

#[export] Instance sink_eq_dec : EqDecision sink.
Proof. solve_decision. Defined.

(** An attribute under the groups that were open when it was bound. *)
Record slog_attr := mkAttr { at_groups : list string; at_key : string; at_value : string }.

Record slog_handler := mkHandler { hd_sink : sink; hd_level : Z; hd_attrs : list slog_attr; hd_groups : list string }.

Record slog_record := mkRecord { rc_level : Z; rc_message : string; rc_attrs : list (string * string) }.

Definition jsonHandler (w : sink) (level : Z) : slog_handler := mkHandler w level [] [].

Definition handler_Enabled (h : slog_handler) (level : Z) : bool := hd_level h <=? level.

Definition bound (h : slog_handler) (attrs : list (string * string)) : list slog_attr :=
  map (fun '(k, v) => mkAttr (hd_groups h) k v) attrs.

Definition handler_WithAttrs (h : slog_handler) (attrs : list (string * string)) : slog_handler :=
  mkHandler (hd_sink h) (hd_level h) (hd_attrs h ++ bound h attrs) (hd_groups h).

(** An empty name opens no group. *)
Definition handler_WithGroup (h : slog_handler) (name : string) : slog_handler :=
  if negb (nonempty name) then h else mkHandler (hd_sink h) (hd_level h) (hd_attrs h) (hd_groups h ++ [name]).

(** A line: the sink, the message and every attribute. *)
Record line := mkLine { ln_sink : sink; ln_level : Z; ln_message : string; ln_attrs : list slog_attr }.

Definition handler_line (h : slog_handler) (r : slog_record) : line :=
  mkLine (hd_sink h) (rc_level r) (rc_message r) (hd_attrs h ++ bound h (rc_attrs r)).

(** * [multiHandler] *)
Definition multi_Enabled (hs : list slog_handler) (level : Z) : bool := existsb (fun h => handler_Enabled h level) hs.

(** The lines that are written and the errors that are joined; [write] is the
    error of a sink. *)
Fixpoint multi_Handle (write : sink -> option string) (hs : list slog_handler) (r : slog_record) : list line * list string :=
  match hs with
  | [] => ([], [])
  | h :: hs =>
    let '(lines, errs) := multi_Handle write hs r in
    if negb (handler_Enabled h (rc_level r)) then (lines, errs)
    else match write (hd_sink h) with
         | Some e => (lines, e :: errs)
         | None => (handler_line h r :: lines, errs)
         end
  end.

Definition multi_WithAttrs (hs : list slog_handler) (attrs : list (string * string)) : list slog_handler :=
  map (fun h => handler_WithAttrs h attrs) hs.

Definition multi_WithGroup (hs : list slog_handler) (name : string) : list slog_handler :=
  map (fun h => handler_WithGroup h name) hs.

(** * The logger *)
Definition parseLevel (level : string) : Z :=
  let l := ToLower (TrimSpace level) in
  if String.eqb l "debug" then LevelDebug
  else if (String.eqb l "warn" || String.eqb l "warning")%bool then LevelWarn
  else if String.eqb l "error" then LevelError
  else LevelInfo.

Record Logger := mkLogger { lr_handlers : list slog_handler; lr_files : list string }.

(** [mkdir] and [open]: the errors of [os.MkdirAll] and [os.OpenFile].  The
    first component are the lines printed on the standard error. *)
Definition NewLogger (cfg : LoggingConfig) (debugConsole : bool) (mkdir open : option string)
  : list string * result Logger string :=
  let level := parseLevel (lg_Level cfg) in
  let path := lg_File cfg in
  let cannot e := "VectorCore TWAG: cannot open log file " +:+ quote path +:+ ": " +:+ e in
  let file : list string * result (list slog_handler * list string) string :=
    if negb (nonempty path) then ([], Ok ([], []))
    else match mkdir with
    | Some e => if debugConsole then ([cannot e], Ok ([], []))
                else ([], Err ("create log directory for " +:+ quote path +:+ ": " +:+ e))
    | None =>
      match open with
      | Some e => if debugConsole then ([cannot e], Ok ([], []))
                  else ([], Err ("open log file " +:+ quote path +:+ ": " +:+ e))
      | None => ([], Ok ([jsonHandler (SinkFile path) level], [path]))
      end
    end in
  match file with
  | (out, Err e) => (out, Err e)
  | (out, Ok (handlers, files)) =>
    let handlers := (handlers ++ if debugConsole then [jsonHandler SinkStderr LevelDebug] else [])%list in
    if negb (non_nil handlers) then (out, Err "no logging sink configured")
    else (out, Ok (mkLogger handlers files))
  end.

(** [Close] of a possibly nil logger: every file is closed, the errors joined. *)
Definition Logger_Close (l : option Logger) (close : string -> option string) : list string * list string :=
  match l with
  | None => ([], [])
  | Some l => (lr_files l, omap close (lr_files l))
  end.

(** * Where a record goes *)
Inductive with_op := WithAttrs_ (attrs : list (string * string)) | WithGroup_ (name : string).

Definition with_all (ops : list with_op) (hs : list slog_handler) : list slog_handler :=
  fold_left (fun hs op => match op with WithAttrs_ a => multi_WithAttrs hs a | WithGroup_ g => multi_WithGroup hs g end) ops hs.

(** The sinks the configuration names, with their thresholds. *)
Definition routes (cfg : LoggingConfig) (debugConsole : bool) (mkdir open : option string) : list (sink * Z) :=
  ((match nonempty (lg_File cfg), mkdir, open with
    | true, None, None => [(SinkFile (lg_File cfg), parseLevel (lg_Level cfg))]
    | _, _, _ => []
    end) ++ if debugConsole then [(SinkStderr, LevelDebug)] else [])%list.

(** The attributes that a chain of [With] and [WithGroup] calls binds. *)
Definition context_of (ops : list with_op) : list slog_attr * list string :=
  fold_left (fun '(attrs, groups) op =>
    match op with
    | WithAttrs_ a => ((attrs ++ map (fun '(k, v) => mkAttr groups k v) a)%list, groups)
    | WithGroup_ g => (attrs, if negb (nonempty g) then groups else (groups ++ [g])%list)
    end) ops ([], []).

Definition handler_of (c : list slog_attr * list string) (r : sink * Z) : slog_handler :=
  mkHandler (fst r) (snd r) (fst c) (snd c).

Lemma with_all_handlers ops c rs :
  with_all ops (map (handler_of c) rs) =
  map (handler_of (fold_left (fun '(attrs, groups) op =>
    match op with
    | WithAttrs_ a => ((attrs ++ map (fun '(k, v) => mkAttr groups k v) a)%list, groups)
    | WithGroup_ g => (attrs, if negb (nonempty g) then groups else (groups ++ [g])%list)
    end) ops c)) rs.
Proof.
  revert c. induction ops as [|op ops IH]; intros [attrs groups]; [done|]. cbn [with_all fold_left].
  fold (with_all ops). rewrite <- IH. f_equal. destruct op as [a|g]; unfold multi_WithAttrs, multi_WithGroup; rewrite map_map;
    apply map_ext; intros [s l]; [done|]. unfold handler_WithGroup. by destruct (negb _).
Qed.

Lemma new_handlers cfg debugConsole mkdir open out l :
  NewLogger cfg debugConsole mkdir open = (out, Ok l) ->
  lr_handlers l = map (handler_of ([], [])) (routes cfg debugConsole mkdir open).
Proof.
  unfold NewLogger, routes. destruct (nonempty (lg_File cfg)) eqn:F; cbn [negb].
  - destruct mkdir as [e|]; [destruct debugConsole; [by intros [= <- <-]|done]|].
    destruct open as [e|]; [destruct debugConsole; [by intros [= <- <-]|done]|].
    destruct debugConsole; by intros [= <- <-].
  - destruct debugConsole; [by intros [= <- <-]|done].
Qed.

Lemma handle_routes write c rs r :
  multi_Handle write (map (handler_of c) rs) r =
  (map (fun x => mkLine (fst x) (rc_level r) (rc_message r)
          (fst c ++ map (fun '(k, v) => mkAttr (snd c) k v) (rc_attrs r)))
     (List.filter (fun x => (snd x <=? rc_level r) && match write (fst x) with None => true | Some _ => false end)%bool rs),
   omap (fun x => if snd x <=? rc_level r then write (fst x) else None) rs).
Proof.
  induction rs as [|[s l] rs IH]; [done|]. cbn [map multi_Handle]. rewrite IH. unfold handler_Enabled.
  simpl. destruct (l <=? rc_level r); simpl; [|done]. by destruct (write s).
Qed.

Lemma new_fails cfg debugConsole mkdir open :
  (exists out e, NewLogger cfg debugConsole mkdir open = (out, Err e)) <-> routes cfg debugConsole mkdir open = [].
Proof.
  unfold NewLogger, routes. destruct (nonempty (lg_File cfg)); cbn [negb]; destruct debugConsole, mkdir, open; cbn;
    (split; [intros (? & ? & H); first [done|discriminate H]|try done; intros _; by do 2 eexists]).
Qed.

(** C39: where a log record goes.  [New] fails exactly when the log file cannot
    be opened and there is no console, or when there is no sink at all.
    Otherwise, whatever attributes and groups are bound, a record is written
    to each configured sink whose threshold it reaches and to no other, with
    the attributes in the groups they were bound under; a sink that fails
    contributes its error and does not keep the record from the others. *)
Theorem log_delivery cfg debugConsole mkdir open ops write r :
  ((exists out e, NewLogger cfg debugConsole mkdir open = (out, Err e)) <-> routes cfg debugConsole mkdir open = []) /\
  forall out l, NewLogger cfg debugConsole mkdir open = (out, Ok l) ->
    let hs := with_all ops (lr_handlers l) in
    let '(attrs, groups) := context_of ops in
    multi_Handle write hs r =
      (map (fun x => mkLine (fst x) (rc_level r) (rc_message r) (attrs ++ map (fun '(k, v) => mkAttr groups k v) (rc_attrs r)))
         (List.filter (fun x => (snd x <=? rc_level r) && match write (fst x) with None => true | Some _ => false end)%bool
            (routes cfg debugConsole mkdir open)),
       omap (fun x => if snd x <=? rc_level r then write (fst x) else None) (routes cfg debugConsole mkdir open)) /\
    (multi_Enabled hs (rc_level r) = true <-> exists x, x ∈ routes cfg debugConsole mkdir open /\ snd x <= rc_level r).
Proof.
  split; [apply new_fails|].
  intros out l N. rewrite (new_handlers _ _ _ _ _ _ N), with_all_handlers. unfold context_of.
    destruct (fold_left _ ops ([], [])) as [attrs groups]. split; [apply handle_routes|].
    unfold multi_Enabled. rewrite existsb_exists. split.
    + intros (hd & Hh & He). apply in_map_iff in Hh as (x & <- & Hx). exists x. split; [by apply list_elem_of_In|].
      by apply Z.leb_le in He.
    + intros (x & Hx & He). exists (handler_of (attrs, groups) x). split; [by apply in_map, list_elem_of_In|].
      by apply Z.leb_le.
Qed.

(** The log file is full; the console still gets the record. *)
Lemma log_delivery_witness :
  let l := mkLogger [jsonHandler (SinkFile "/var/log/t.log") LevelInfo; jsonHandler SinkStderr LevelDebug] ["/var/log/t.log"] in
  NewLogger (mkLoggingConfig "info" "/var/log/t.log") true None None = ([], Ok l) /\
  multi_Handle (fun s => match s with SinkFile _ => Some "no space left on device" | SinkStderr => None end)
    (with_all [WithGroup_ "gtp"; WithAttrs_ [("peer", "192.0.2.9")]] (lr_handlers l)) (mkRecord LevelWarn "lost" []) =
  ([mkLine SinkStderr LevelWarn "lost" [mkAttr ["gtp"] "peer" "192.0.2.9"]], ["no space left on device"]).
Proof.
  split; [reflexivity|].
  destruct (log_delivery (mkLoggingConfig "info" "/var/log/t.log") true None None
    [WithGroup_ "gtp"; WithAttrs_ [("peer", "192.0.2.9")]]
    (fun s => match s with SinkFile _ => Some "no space left on device" | SinkStderr => None end)
    (mkRecord LevelWarn "lost" [])) as [_ H].
  exact (proj1 (H [] _ eq_refl)).
Defined.
