(* ===== verification/Program.v ===== *)
(** The program: [run] and [stopRuntime] of [cmd/twag/main.go], which build
    the components, start them in order, wait for a signal and stop them in
    order, and the access drivers of [internal/access].

    The state is the record of the components' states.  A [start_env] says
    what the operating system, the peers and the clock answer while the
    program starts; a [stop_env] which of the stops end in time. *)
From S2P Require Import Prelude.
From S2P Require Import GoNet.
From S2P Require Import Config.
From S2P Require Import Session.
From S2P Require Import Gtpv2.
From S2P Require Import GtpClient.
From S2P Require Import GtpRun.
From S2P Require Import Lifecycle.
From S2P Require Import LifecycleFacts.
From S2P Require Import Pgw.
From S2P Require Import Netlink.
From S2P Require Import Routing.
From S2P Require Import UserPlane.
From S2P Require Import UserPlaneFacts.
From S2P Require Import StaClient.
From S2P Require Import Radius.
From S2P Require Import AccessSide.
From S2P Require Import AccessRun.
Open Scope string_scope.
Open Scope Z_scope.

(** * Access drivers *)
Definition ModeEthernet : string := "ethernet".
Definition ModeGRE : string := "gre".
Definition ModeL2TPv3 : string := "l2tpv3".

Definition ErrNotImplemented : gerr := errorf "access driver not implemented".

Inductive Driver := EthernetDriver (iface : string) | GREDriver | L2TPv3Driver.

Definition NewDriver (cfg : AccessConfig) : result Driver gerr :=
  if negb (nonempty (ac_Interface cfg)) then Err (errorf "access.interface is required")
  else Ok (EthernetDriver (ac_Interface cfg)).

Definition driver_Start (d : Driver) (ctx : option string) : option gerr :=
  match d with
  | EthernetDriver iface =>
    match ctx with
    | Some e => Some (errorf e)
    | None => if negb (nonempty iface) then Some (errorf "ethernet access interface is required") else None
    end
  | GREDriver => Some (errorf (ge_msg ErrNotImplemented +:+ ": gre"))
  | L2TPv3Driver => Some (errorf (ge_msg ErrNotImplemented +:+ ": l2tpv3"))
  end.

Definition driver_Stop (d : Driver) : option gerr := None.

Definition driver_Type (d : Driver) : string :=
  match d with EthernetDriver _ => ModeEthernet | GREDriver => ModeGRE | L2TPv3Driver => ModeL2TPv3 end.

(** * The running program *)
Section Program.
Context {K : Type} (nl : kernel K) (h : host) (o : packet_os) (E : Env).

(** [w_servers]: which of the two RADIUS servers (authentication, accounting)
    are set; [w_listening]: which of them have their socket open. *)
Record World := mkWorld {
  w_sta : STaDiameterClient; w_driver : Driver; w_pgw : PGWClient; w_plane : KernelGTP; w_routing : RoutingManager;
  w_service : Service; w_access : access_run; w_radius : RadiusServer; w_servers : bool * bool; w_listening : bool * bool;
  w_kernel : K; w_ports : list Z; w_fds : list Z
}.

#[global] Instance World_eta : Eta World := fun x =>
  mkWorld (w_sta x) (w_driver x) (w_pgw x) (w_plane x) (w_routing x) (w_service x) (w_access x) (w_radius x) (w_servers x)
    (w_listening x) (w_kernel x) (w_ports x) (w_fds x).

(** [se_ctx] is [ctx.Err()] when a [Start] looks at it, [se_waitOpen] what
    waiting for the Diameter peer gives; the probes are exchanges. *)
Record start_env := mkStartEnv {
  se_now : Time; se_rnd : option (list Z); se_bind : option string;
  se_ctx : option string; se_waitOpen : option gerr;
  se_probe : exchange; se_latency : Z; se_sock : string;
  se_echoWrite : option nl_error; se_echoPackets : list (list Z * UDPAddr); se_echoCanceled : bool;
  se_listen : listen_event; se_acctListen : listen_event; se_shutdown : option string; se_acctShutdown : option string
}.

(** [net.UDPAddr.String] *)
Definition udp_string (ip : IP) (port : Z) : string :=
  (if non_nil (To4 ip) then IPString ip else "[" +:+ IPString ip +:+ "]") +:+ ":" +:+ pretty port.

(** The error of [pgw.NewClient]; [bind] is that of [net.ListenUDP]. *)
Definition NewClient_error (cfg : GTPConfig) (bind : option string) : option gerr :=
  let cc := gt_ChargingCharacteristics cfg in
  if negb (non_nil (ParseIP (gt_LocalGTPCIP cfg))) then Some (errorf "pgw.local_gtpc_ip is invalid")
  else if negb (non_nil (ParseIP (gt_RemotePGWGTPCIP cfg))) then Some (errorf "pgw.remote_pgw_gtpc_ip is invalid")
  else match chargingCharacteristicsValue cc with
       | None => Some (errorf ("pgw.charging_characteristics is invalid: charging characteristics must be exactly 4 hex characters"
           +:+ if (String.length cc =? 4)%nat then ": strconv.ParseUint: parsing " +:+ quote cc +:+ ": invalid syntax" else ""))
       | Some _ => match bind with
                   | Some e => Some (errorf ("bind local GTP-C socket " +:+ udp_string (ParseIP (gt_LocalGTPCIP cfg)) gtpControlPort
                                             +:+ ": " +:+ e))
                   | None => None
                   end
       end.

(** The constructors, in the order of [run]. *)
Definition build (cfg : Config) (se : start_env) (k : K) (ports fds : list Z) : result World gerr :=
  let sta := NewSTaClient (aaa_STa (cfg_AAA cfg)) (se_now se) in
  match NewDriver (cfg_Access cfg) with
  | Err e => Err e
  | Ok driver =>
    match NewClient_error (cfg_GTP cfg) (se_bind se), NewClient (cfg_GTP cfg) (se_now se) (se_rnd se) with
    | Some e, _ => Err e
    | None, None => Err (errorf "pgw client")
    | None, Some pgw =>
      Ok (mkWorld sta driver pgw (NewUserPlane cfg) (NewRouting (cfg_Routing cfg)) (NewService None) notRunning
            (NewRadiusServer (cfg_Radius cfg) (cfg_Subscriber cfg) true true) (false, false) (false, false) k ports fds)
    end
  end.

(** ** Starting *)
Inductive phase :=
| PhPGWProbe | PhProvider | PhDriver | PhRouting | PhUserPlane | PhUserProbe | PhAccessSide | PhRadius.

#[global] Instance phase_eq_dec : EqDecision phase.
Proof. solve_decision. Defined.

Definition of_kerr (e : kerr) : gerr := errorf (ke_msg e).

(** The startup probe and the watchdog of the GTP-C client, and the handlers
    that are registered before anything is started. *)
Definition start_pgw (cfg : Config) (se : start_env) (w : World) : go (World * option gerr) :=
  '(pgw, e) ← (if ec_StartupProbe (gt_ControlEcho (cfg_GTP cfg))
               then '(pgw, _, e) ← pgw_Probe (w_pgw w) (se_probe se) (se_latency se) (se_now se) (se_sock se) DeadlineExceeded;
                    Some (pgw, option_map (Lifecycle.wrap_err "pgw probe failed: ") e)
               else Some (w_pgw w, None));
  match e with
  | Some e => Some (w <| w_pgw := pgw |>, Some e)
  | None =>
    let pgw := pgw_SetNetworkDeleteHandler (fst (pgw_StartEchoWatchdog pgw)) in
    Some (w <| w_pgw := pgw |> <| w_sta ::= fun c => SetDisconnectHandler c true |>
            <| w_plane ::= fun k => SetErrorIndicationHandler k true |>, None)
  end.

Definition start_provider (se : start_env) (w : World) : go (World * option gerr) :=
  Some (w <| w_sta ::= sta_Start |>, se_waitOpen se).

Definition start_driver (se : start_env) (w : World) : go (World * option gerr) :=
  Some (w, driver_Start (w_driver w) (se_ctx se)).

Definition start_routing (se : start_env) (w : World) : go (World * option gerr) :=
  let '(m, k, e) := routing_Start nl (w_routing w) (se_ctx se) (w_kernel w) in
  Some (w <| w_routing := m |> <| w_kernel := k |>, option_map of_kerr e).

Definition start_plane (se : start_env) (w : World) : go (World * option gerr) :=
  let '(p, k, ps, e) := up_Start nl h (w_plane w) (se_ctx se) (w_kernel w) (w_ports w) in
  Some (w <| w_plane := p |> <| w_kernel := k |> <| w_ports := ps |>, option_map of_kerr e).

(** The datagrams that arrive while the startup probe waits. *)
Fixpoint control_steps (p : KernelGTP) (packets : list (list Z * UDPAddr)) (now : Time) : go KernelGTP :=
  match packets with
  | [] => Some p
  | (b, peer) :: packets => '(p, _) ← control_step p b peer now; control_steps p packets now
  end.

(** The startup probe of the user echo, and its watchdog. *)
Definition start_user_echo (cfg : Config) (se : start_env) (w : World) : go (World * option gerr) :=
  let ue := gt_UserEcho (cfg_GTP cfg) in
  let failed e := errorf ("GTP-U echo startup probe failed: " +:+ ke_msg e) in
  '(p, k, e) ← (if (ue_Enabled ue && ue_StartupProbe ue)%bool then
      match ProbeUserEcho nl (w_plane w) (w_kernel w) (se_echoWrite se) (se_now se) with
      | (p, k, inr e, _) => Some (p, k, option_map failed e)
      | (p, k, inl (ch, _), _) =>
        p ← control_steps p (se_echoPackets se) (se_now se);
        '(p, e) ← match probe_end p ch (se_now se) None (se_now se) with
                  | Some x => Some x
                  | None => probe_end p ch (se_now se) (Some "context deadline exceeded") (se_now se)
                  end;
        Some (p, k, option_map failed e)
      end
    else Some (w_plane w, w_kernel w, None));
  match e with
  | Some e => Some (w <| w_plane := p |> <| w_kernel := k |>, Some e)
  | None => Some (w <| w_plane := fst (StartUserEchoWatchdog p) |> <| w_kernel := k |>, None)
  end.

Definition start_access (cfg : Config) (w : World) : go (World * option gerr) :=
  '(m, fds, e) ← access_Start o (cfg_Access cfg) (w_access w) (w_fds w);
  Some (w <| w_access := m |> <| w_fds := fds |>, option_map errorf e).

Definition stays_open (ev : listen_event) : bool := match ev with ListenEnded _ => false | _ => true end.

(** The library's [Shutdown] closes the socket before it waits for the
    handlers: a server that is asked to stop no longer listens, whether or not
    it ends in time. *)
Definition still_listening (open asked : bool * bool) : bool * bool :=
  ((fst open && negb (fst asked))%bool, (snd open && negb (snd asked))%bool).

Definition start_radius (se : start_env) (w : World) : go (World * option gerr) :=
  let '(set, stopped, e) := radius_Start (w_radius w) (se_ctx se) (se_listen se) (se_acctListen se) (se_shutdown se) (se_acctShutdown se) in
  let opened := ((fst set && stays_open (se_listen se))%bool, (snd set && stays_open (se_acctListen se))%bool) in
  Some (w <| w_servers := set |> <| w_listening := still_listening opened stopped |>, e).

Definition startup (cfg : Config) (se : start_env) : list (phase * (World -> go (World * option gerr))) :=
  [(PhPGWProbe, start_pgw cfg se); (PhProvider, start_provider se); (PhDriver, start_driver se);
   (PhRouting, start_routing se); (PhUserPlane, start_plane se); (PhUserProbe, start_user_echo cfg se);
   (PhAccessSide, start_access cfg); (PhRadius, start_radius se)].

(** The first error ends the startup; nothing is stopped then. *)
Fixpoint start_all (steps : list (phase * (World -> go (World * option gerr)))) (w : World)
  : go (World * option (phase * gerr)) :=
  match steps with
  | [] => Some (w, None)
  | (p, m) :: steps =>
    '(w, e) ← m w;
    match e with
    | Some e => Some (w, Some (p, e))
    | None => start_all steps w
    end
  end.

(** ** Stopping *)
Inductive component := CSessions | CRadius | CAccessSide | CUserPlane | CPGW | CAAA | CAccessDriver.

#[global] Instance component_eq_dec : EqDecision component.
Proof. solve_decision. Defined.

Definition component_name (c : component) : string :=
  match c with
  | CSessions => "sessions" | CRadius => "radius" | CAccessSide => "accessside" | CUserPlane => "userplane"
  | CPGW => "pgw" | CAAA => "aaa" | CAccessDriver => "access_driver"
  end.

Definition stop_order : list component := [CSessions; CRadius; CAccessSide; CUserPlane; CPGW; CAAA; CAccessDriver].

(** [errors.Join] of string errors. *)
Definition join_errors (errs : list string) : option gerr := Join (map errorf errs).

(** [st_pending]: the order in which the STa client fails its waiting
    requests, an order of the map of these; [shutdown] and [acct_shutdown]: the errors of the RADIUS library. *)
Record stop_env := mkStopEnv {
  st_pending : gmap Z nat -> list (Z * nat); st_shutdown : option string; st_acctShutdown : option string;
  st_fate : component -> option bool;      (* [None]: the context ends before; [Some false]: during; [Some true]: after *)
  st_late : component -> World -> World    (* what a stop that is not awaited does meanwhile *)
}.

Definition stop_component (st : stop_env) (c : component) (w : World) : go (World * option gerr) :=
  match c with
  | CSessions => '(s, e) ← Shutdown E (w_service w); Some (w <| w_service := s |>, e)
  | CRadius =>
    let '(asked, e) := radius_Stop (fst (w_servers w)) (snd (w_servers w)) (st_shutdown st) (st_acctShutdown st) in
    Some (w <| w_listening ::= fun open => still_listening open asked |>, option_map errorf e)
  | CAccessSide =>
    '(m, fds, errs) ← access_Stop o (w_access w) (w_fds w);
    Some (w <| w_access := m |> <| w_fds := fds |>, join_errors errs)
  | CUserPlane =>
    let '(k, ps, e) := up_Stop nl (w_plane w) (w_kernel w) (w_ports w) in
    Some (w <| w_kernel := k |> <| w_ports := ps |>, option_map of_kerr e)
  | CPGW => Some (w <| w_pgw ::= pgw_Close |>, None)
  | CAAA => Some (w <| w_sta ::= fun c => fst (StaClient.Stop c (st_pending st (stc_pending c))) |>, None)
  | CAccessDriver => Some (w, driver_Stop (w_driver w))
  end.

Definition deadline_error (c : component) (what : string) : gerr :=
  mkErr (component_name c +:+ what +:+ ctx_text DeadlineExceeded) false true.

(** [stop] for each component; [expired] is whether the shutdown context has
    ended.  The result lists the components that were asked to stop. *)
Fixpoint stop_all (st : stop_env) (cs : list component) (expired : bool) (w : World)
  : go (World * list component * list gerr) :=
  match cs with
  | [] => Some (w, [], [])
  | c :: cs =>
    let expired := (expired || match st_fate st c with None => true | Some _ => false end)%bool in
    if expired then
      '(w, asked, errs) ← stop_all st cs true w;
      Some (w, asked, deadline_error c " stop skipped: " :: errs)
    else match st_fate st c with
    | Some true =>
      '(w, e) ← stop_component st c w;
      '(w, asked, errs) ← stop_all st cs false w;
      Some (w, c :: asked, (option_list (option_map (Lifecycle.wrap_err (component_name c +:+ ": ")) e) ++ errs)%list)
    | _ =>
      '(w, asked, errs) ← stop_all st cs true (st_late st c w);
      Some (w, c :: asked, deadline_error c " stop timeout: " :: errs)
    end
  end.

Definition stopRuntime (st : stop_env) (w : World) : go (World * list component * option gerr) :=
  '(w, asked, errs) ← stop_all st stop_order false w;
  Some (w, asked, Join errs).

(** ** [run] *)
Inductive run_result :=
| NotBuilt (e : gerr)
| StartFailed (w : World) (p : phase) (e : gerr)
| ShutDown (w : World) (asked : list component) (e : option gerr).

(** [serve]: what happens until the signal arrives. *)
Definition run (cfg : Config) (se : start_env) (serve : World -> World) (st : stop_env) (k : K) (ports fds : list Z)
  : go run_result :=
  match build cfg se k ports fds with
  | Err e => Some (NotBuilt e)
  | Ok w =>
    '(w, failed) ← start_all (startup cfg se) w;
    match failed with
    | Some (p, e) => Some (StartFailed w p e)
    | None => '(w, asked, e) ← stopRuntime st (serve w); Some (ShutDown w asked e)
    end
  end.
End Program.
