(* ===== verification/ProgramFacts.v ===== *)
(** What starting and stopping the program guarantees ([cmd/twag/main.go]):
    which resources a failed start leaves behind, and that a shutdown in time
    gives all of them back. *)
From S2P Require Import Prelude.
From S2P Require Import StaFacts.
From S2P Require Import GoNet.
From S2P Require Import Config.
From S2P Require Import Session.
From S2P Require Import Gtpv2.
From S2P Require Import GtpClient.
From S2P Require Import GtpRun.
From S2P Require Import Gtpu.
From S2P Require Import Lifecycle.
From S2P Require Import LifecycleFacts.
From S2P Require Import LifecycleProps.
From S2P Require Import LifecycleOrder.
From S2P Require Import Pgw.
From S2P Require Import Netlink.
From S2P Require Import Routing.
From S2P Require Import UserPlane.
From S2P Require Import UserPlaneFacts.
From S2P Require Import StaClient.
From S2P Require Import Radius.
From S2P Require Import AccessSide.
From S2P Require Import AccessRun.
From S2P Require Import Program.
Open Scope string_scope.
Open Scope Z_scope.

(** * The echo leaves the netdev alone *)
Definition same_device (k k' : KernelGTP) : Prop :=
  kg_created k' = kg_created k /\ kg_gtp k' = kg_gtp k /\ kg_iface k' = kg_iface k /\
  (kg_link k <> None -> kg_link k' <> None).

#[export] Instance same_device_refl : Reflexive same_device.
Proof. by intros k. Qed.
#[export] Instance same_device_trans : Transitive same_device.
Proof. intros a b c (A1 & A2 & A3 & A4) (B1 & B2 & B3 & B4). split_and!; try congruence. auto. Qed.

Section Device.
Context {K : Type} (nl : kernel K) `{!KernelTables nl}.

Lemma link_device k s k' l : currentLink nl k s = (k', l) -> same_device k k'.
Proof. unfold currentLink. repeat case_match; by intros [= <- <-]. Qed.

Lemma failure_device k now : same_device k (fst (fst (recordUserEchoFailure k now))).
Proof. unfold recordUserEchoFailure. by destruct (_ && _)%bool. Qed.

Lemma clear_device k ch : same_device k (clearUserEchoPending k ch).
Proof. unfold clearUserEchoPending. by destruct (bool_decide _). Qed.

Lemma trigger_netlink_device k s k' s' e :
  triggerUserEchoRequestNetlink nl k s = (k', s', e) -> same_device k k' /\ tb_links (seen s') = tb_links (seen s).
Proof.
  unfold triggerUserEchoRequestNetlink. destruct (negb _); [by intros [= <- <- _]|].
  destruct (currentLink nl k s) as [k1 l] eqn:El. apply link_device in El.
  destruct l as [link|]; [|by intros [= <- <- _]]. destruct (k_GenlFamilyGet nl s); [by intros [= <- <- _]|].
  destruct (negb _); [by intros [= <- <- _]|]. destruct (negb _); [by intros [= <- <- _]|].
  destruct (k_Execute nl _ s) as [s1 e1] eqn:Ee. apply kt_echo in Ee; [|done]. intros [= <- <- _]. by rewrite Ee.
Qed.

Lemma trigger_device k s we k' s' r out :
  triggerUserEchoRequest nl k s we = (k', s', r, out) -> same_device k k' /\ tb_links (seen s') = tb_links (seen s).
Proof.
  unfold triggerUserEchoRequest. destruct (triggerUserEchoRequestNetlink nl k s) as [[k1 s1] e1] eqn:E1.
  apply trigger_netlink_device in E1 as [D L]. destruct e1 as [e1|]; [|by intros [= <- <- _ _]].
  destruct (negb _); [by intros [= <- <- _ _]|].
  destruct (triggerUserEchoRequestSocket k1 we) as [[k2 r2] out2] eqn:E2. intros [= <- <- _ _]. split; [|done].
  etrans; [exact D|]. revert E2. unfold triggerUserEchoRequestSocket, nextUserEchoSequence.
  destruct (kg_gtp k1); [|by intros [= <- _ _]]. destruct (negb _); [by intros [= <- _ _]|]. by intros [= <- _ _].
Qed.

Lemma probe_begin_device k s we now k' s' r out :
  probe_begin nl k s we now = (k', s', r, out) -> same_device k k' /\ tb_links (seen s') = tb_links (seen s).
Proof.
  unfold probe_begin. cbn [ensureUserEchoPending]. set (k0 := k <| kg_chans ::= _ |> <| kg_pending := _ |>).
  destruct (triggerUserEchoRequest nl k0 s we) as [[[k1 s1] r1] o1] eqn:E. apply trigger_device in E as [D L].
  assert (D0 : same_device k k1) by (etrans; [|exact D]; done). clearbody k0.
  destruct r1 as [n|e]; [by intros [= <- <- _ _]|]. unfold disableUserEchoOnKernelReject. destruct (_ || _)%bool.
  - pose proof (failure_device k1 now) as F. destruct (recordUserEchoFailure k1 now) as [[k2 f] u]. cbn [fst] in F.
    intros [= <- <- _ _]. split; [|done]. etrans; [exact D0|]. etrans; [exact F|apply clear_device].
  - intros [= <- <- _ _]. split; [|done]. etrans; [exact D0|]. etrans; [|apply clear_device]. done.
Qed.

Lemma probe_end_device k ch start canceled now k' e :
  probe_end k ch start canceled now = Some (k', e) -> same_device k k'.
Proof.
  unfold probe_end. destruct canceled.
  - pose proof (failure_device k now) as F. destruct (recordUserEchoFailure k now) as [[k2 f] u]. cbn [fst] in F.
    intros [= <- _]. etrans; [exact F|apply clear_device].
  - destruct (kg_chans k !! ch) as [[obs|]|]; [|done..]. intros [= <- _]. etrans; [|apply clear_device]. done.
Qed.

Lemma control_device k b peer now k' outs : control_step k b peer now = Some (k', outs) -> same_device k k'.
Proof.
  unfold control_step. destruct (DecodeControlPacket b) as [[msg|]|]; cbn [mbind option_bind]; [|by intros [= <- _]|done].
  destruct (_ =? _); [by intros [= <- _]|]. destruct (_ =? _).
  { unfold observeUserEchoResponse. intros [= <- _]. destruct (_ && _)%bool; [done|]. destruct (kg_pending k); [|done].
    destruct (kg_chans k !! _) as [[|]|]; done. }
  destruct (_ =? _); by intros [= <- _].
Qed.

Lemma control_steps_device packets k now k' : control_steps k packets now = Some k' -> same_device k k'.
Proof.
  revert k. induction packets as [|[b peer] packets IH]; intros k; cbn [control_steps]; [by intros [= ->]|].
  destruct (control_step k b peer now) as [[k1 o1]|] eqn:E; cbn [mbind option_bind]; [|done].
  intros H%IH. etrans; [by eapply control_device|exact H].
Qed.

Lemma control_steps_total packets k now :
  Forall (fun p => bytes_ok (fst p)) packets -> exists k', control_steps k packets now = Some k'.
Proof.
  intros B. revert k. induction B as [|[b peer] packets Hb _ IH]; intros k; cbn [control_steps]; [eauto|].
  unfold control_step. destruct (DecodeControlPacket_total b Hb) as [r ->]. cbn [mbind option_bind].
  destruct r as [msg|e]; [|apply IH]. destruct (_ =? _); [apply IH|]. destruct (_ =? _); [apply IH|].
  destruct (_ =? _); apply IH.
Qed.

Lemma watchdog_device k : same_device k (fst (StartUserEchoWatchdog k)).
Proof. unfold StartUserEchoWatchdog. destruct (_ || _)%bool; [done|]. by destruct (kg_started k). Qed.
End Device.

(** * Starting *)
Lemma incoming_fair c h ops :
  Forall (fun op => exists packet peer sent, op = OpIncoming packet peer sent) ops -> all_fair c h ops.
Proof.
  intros H. revert c. induction H as [|op ops (p & peer & sent & ->) _ IH]; intros c; cbn [all_fair]; [exact I|].
  split; [exact I|]. intros c' outs _. apply IH.
Qed.

Lemma NewGTP_open c e now rnd c0 : NewGTP c e now rnd = Some c0 -> cl_closed c0 = false.
Proof. unfold NewGTP. repeat case_match; try done. all: by intros [= <-]. Qed.

(** A transaction does not close the client. *)
Lemma incoming_closed ops c c' outs :
  Forall (fun op => exists packet peer sent, op = OpIncoming packet peer sent) ops ->
  performs c ops = Some (c', outs) -> cl_closed c' = cl_closed c.
Proof.
  intros H. revert c c' outs. induction H as [|op ops (p & peer & sent & ->) _ IH]; intros c c' outs; cbn [performs]; [by intros [= <- _]|].
  destruct (perform c _) as [[c1 o1]|] eqn:E; cbn [mbind option_bind]; [|done].
  destruct (performs c1 ops) as [[c2 o2]|] eqn:P; cbn [mbind option_bind]; [|done]. intros [= <- _].
  rewrite (IH _ _ _ P). by apply perform_closed in E as [-> _].
Qed.

Lemma transaction_closed c req t d x c' outs r :
  Forall (fun op => exists packet peer sent, op = OpIncoming packet peer sent) (ex_during x) ->
  doTransaction c req t d x = Some (c', outs, r) -> cl_closed c' = cl_closed c.
Proof.
  intros H. unfold doTransaction. destruct (ex_ctx x); [by intros [= <- _ _]|].
  assert (B : cl_closed (fst (beginTransaction c req t d (ex_sent x))) = cl_closed c).
  { destruct (perform_closed c (OpBegin req t d (ex_sent x)) (fst (beginTransaction c req t d (ex_sent x)))
      (snd (default (c, []) (perform c (OpBegin req t d (ex_sent x)))))) as [-> _]; [|done].
    cbn [perform]. by destruct (beginTransaction c req t d (ex_sent x)) as [c1 [[h b]|e]]. }
  destruct (beginTransaction c req t d (ex_sent x)) as [c1 [[h b]|e]]; cbn [fst] in B; [|by intros [= <- _ _]].
  destruct (performs c1 (ex_during x)) as [[c2 o2]|] eqn:P; cbn [mbind option_bind]; [|done].
  destruct (wake c2 h (ex_wakeup x)) as [[c3 r3]|] eqn:K; cbn [mbind option_bind]; [|done]. intros [= <- _ _].
  destruct (perform_closed c2 (OpFinish h (ex_wakeup x)) c3 []) as [-> _]; [cbn [perform]; by rewrite K|].
  by rewrite (incoming_closed _ _ _ _ H P).
Qed.

Section Start.
Context {K : Type} (nl : kernel K) `{!KernelTables nl} `{!KernelReliable nl} (h : host) (o : packet_os) (E : Env).
Context (cfg : Config) (se : start_env) (k0 : K) (ports0 fds0 : list Z).

Definition gtp_iface : string := gt_KernelInterface (cfg_GTP cfg).

(** While the program starts, only the reader of the GTP-C client runs. *)
Record environment_ok : Prop := {
  eo_ports : ports_free ports0;
  eo_os : os_ok o;
  eo_probe : Forall (fun op => exists packet peer sent, op = OpIncoming packet peer sent) (ex_during (se_probe se));
  eo_packets : Forall (fun p => bytes_ok (fst p)) (se_echoPackets se)
}.
Context (EO : environment_ok).

Abbreviation world := (@World K).

(** No netdev and no sockets of the user plane. *)
Record plane_off (w : world) : Prop := {
  po_created : kg_created (w_plane w) = false;
  po_gtp : kg_gtp (w_plane w) = None;
  po_name : kg_iface (w_plane w) = gtp_iface;
  po_ports : w_ports w = ports0;
  po_links : tb_links (seen (w_kernel w)) = tb_links (seen k0)
}.

(** The netdev exists and its two sockets are open. *)
Record plane_on (w : world) : Prop := {
  pn_created : kg_created (w_plane w) = true;
  pn_gtp : kg_gtp (w_plane w) <> None;
  pn_link : kg_link (w_plane w) <> None;
  pn_name : kg_iface (w_plane w) = gtp_iface;
  pn_ports : w_ports w = gtpUPort :: 3386 :: ports0;
  pn_links : exists i, tb_links (seen k0) !! gtp_iface = None /\
    tb_links (seen (w_kernel w)) = <[gtp_iface := mkLink i "gtp"]> (tb_links (seen k0))
}.

(** The other components before the access side starts: the GTP-C socket is
    open from [pgw.NewClient] on, and [dialed] is whether the Diameter client
    was started. *)
Record idle (dialed : bool) (w : world) : Prop := {
  id_access : w_access w = notRunning;
  id_fds : w_fds w = fds0;
  id_service : w_service w = NewService None;
  id_pgw : client_wf (inner (w_pgw w));
  id_open : cl_closed (inner (w_pgw w)) = false;
  id_sta : stc_started (w_sta w) = dialed;
  id_listening : w_listening w = (false, false);
  id_radius : w_radius w = NewRadiusServer (cfg_Radius cfg) (cfg_Subscriber cfg) true true
}.

(** The readers of the access side can be stopped. *)
Definition access_up (w : world) : Prop :=
  exists m es, access_Stop o (w_access w) (w_fds w) = Some (m, fds0, es).

Lemma built w : build cfg se k0 ports0 fds0 = Ok w -> plane_off w /\ idle false w.
Proof.
  unfold build. destruct (NewDriver _) as [d|]; [|done]. destruct (NewClient_error _ _); [done|].
  destruct (NewClient _ _ _) as [pgw|] eqn:N; [|done]. intros [= <-]. split; [by split|].
  revert N. unfold NewClient, pgw_NewGTP. destruct (NewGTP _ _ _ _) as [c|] eqn:G; [|done]. intros [= <-]. split; try done.
  - by eapply wf_new.
  - by eapply NewGTP_open.
Qed.

Lemma start_pgw_spec w : plane_off w -> idle false w ->
  exists w' e, start_pgw cfg se w = Some (w', e) /\ plane_off w' /\ idle false w'.
Proof.
  intros [P1 P2 P3 P4 P5] [I1 I2 I3 I4 I5 I6 I7 I8]. unfold start_pgw.
  assert (X : exists pgw e, (if ec_StartupProbe (gt_ControlEcho (cfg_GTP cfg))
     then '(pgw, _, e) ← pgw_Probe (w_pgw w) (se_probe se) (se_latency se) (se_now se) (se_sock se) DeadlineExceeded;
          Some (pgw, option_map (Lifecycle.wrap_err "pgw probe failed: ") e)
     else Some (w_pgw w, None)) = Some (pgw, e) /\ client_wf (inner pgw) /\ cl_closed (inner pgw) = false).
  { destruct (ec_StartupProbe _); [|by do 2 eexists]. unfold pgw_Probe, GtpRun.Probe, echo.
    destruct (transaction_ok (inner (w_pgw w)) echoRequest gtpv2EchoResponse "Echo" (se_probe se) (wf_ok _ I4)) as (c3 & outs & r & T & _).
    { intros c1 hd b _. apply incoming_fair, EO. }
    rewrite T. cbn [mbind option_bind]. do 2 eexists. split; [done|].
    split; [eapply wf_echo, transaction_wf; [exact I4|exact T]|].
    cbn [inner]. destruct (perform_closed c3 (OpEcho r (se_latency se) (se_now se)) _ [] eq_refl) as [-> _].
    rewrite (transaction_closed _ _ _ _ _ _ _ _ (eo_probe EO) T). exact I5. }
  destruct X as (pgw & e & -> & O & Oc). cbn [mbind option_bind]. destruct e as [e|]; (do 2 eexists; split; [done|]).
  - split; split; done.
  - split; split; try done; cbn.
    + destruct pgw as [c]. cbn [inner] in O.
      assert (W : client_wf (fst (StartEchoWatchdog c))) by (by apply (perform_wf c OpWatchdog _ [])).
      unfold pgw_StartEchoWatchdog. cbn [inner]. destruct (StartEchoWatchdog c) as [c1 b]. cbn [fst inner] in *.
      by apply (perform_wf c1 OpDeleteHandler _ []).
    + destruct pgw as [c]. cbn [inner] in Oc. destruct (perform_closed c OpWatchdog _ [] eq_refl) as [Ec _].
      unfold pgw_StartEchoWatchdog. cbn [inner]. destruct (StartEchoWatchdog c) as [c1 b]. cbn in *. congruence.
Qed.

Lemma write_links m path text k k' e : writeSysctl nl m path text k = (k', e) -> tb_links (seen k') = tb_links (seen k).
Proof. intros H. apply kt_write in H. destruct e; by rewrite H. Qed.

Lemma routing_links m ctx k m' k' e : routing_Start nl m ctx k = (m', k', e) -> tb_links (seen k') = tb_links (seen k).
Proof.
  unfold routing_Start. destruct ctx; [by intros [= <- <- <-]|].
  assert (A : forall paths k1 k2 e1, write_all nl m paths "0
" k1 = (k2, e1) -> tb_links (seen k2) = tb_links (seen k1)).
  { induction paths as [|path paths IH]; intros k1 k2 e1; cbn [write_all]; [by intros [= <- _]|].
    destruct (writeSysctl _ _ _ _ k1) as [k3 e3] eqn:Ew. apply write_links in Ew. destruct e3; [by intros [= <- _]|].
    intros H%IH. by rewrite H. }
  assert (F : forall k1 e1, (if ro_EnableIPForwarding (rm_cfg m) then
      let '(k, e) := writeSysctl nl m ip_forward "1
" k in (k, kwrap "enable linux ip forwarding" <$> e) else (k, None)) = (k1, e1) -> tb_links (seen k1) = tb_links (seen k)).
  { intros k1 e1. destruct (ro_EnableIPForwarding _); [|by intros [= <- _]].
    destruct (writeSysctl _ _ _ _ k) as [k2 e2] eqn:Ew. apply write_links in Ew. by intros [= <- _]. }
  destruct (if ro_EnableIPForwarding (rm_cfg m) then _ else _) as [k1 [e1|]] eqn:E1.
  { intros [= _ <- _]. by eapply F. }
  specialize (F _ _ eq_refl). destruct (ro_DisableRPFilter _).
  - destruct (write_all _ _ _ _ k1) as [k2 [e2|]] eqn:E2; apply A in E2.
    + intros [= _ <- _]. congruence.
    + destruct (ro_InstallRoutes _); [destruct (open_handle _ _ _)|]; intros [= _ <- _]; congruence.
  - destruct (ro_InstallRoutes _); [destruct (open_handle _ _ _)|]; intros [= _ <- _]; congruence.
Qed.

Lemma start_routing_spec w : plane_off w -> idle true w ->
  exists w' e, start_routing nl se w = Some (w', e) /\ plane_off w' /\ idle true w'.
Proof.
  intros [P1 P2 P3 P4 P5] [I1 I2 I3 I4 I5 I6 I7 I8]. unfold start_routing.
  destruct (routing_Start nl (w_routing w) (se_ctx se) (w_kernel w)) as [[m k] e] eqn:R. apply routing_links in R.
  do 2 eexists. split; [done|]. split; split; try done. cbn. by rewrite R.
Qed.

Lemma start_plane_spec w : plane_off w -> idle true w ->
  exists w' e, start_plane nl h se w = Some (w', e) /\ idle true w' /\
    match e with None => plane_on w' | Some _ => plane_off w' \/ plane_on w' end.
Proof.
  intros [P1 P2 P3 P4 P5] [I1 I2 I3 I4 I5 I6 I7 I8]. unfold start_plane.
  destruct (up_Start nl h (w_plane w) (se_ctx se) (w_kernel w) (w_ports w)) as [[[p k] ps] e] eqn:U.
  rewrite P4 in U. apply (up_Start_cases nl h) in U as [Hi H]; [|apply EO|done|done].
  do 2 eexists. split; [done|]. split; [by split|].
  assert (H' : e <> None /\ plane_off (w <| w_plane := p |> <| w_kernel := k |> <| w_ports := ps |>) \/
               plane_on (w <| w_plane := p |> <| w_kernel := k |> <| w_ports := ps |>)).
  { destruct H as [(N & -> & Hs & C & G)|(-> & C & G & (i & Hl & Hn & Hs) & _)].
    - left. split; [done|]. split; try done; cbn; [congruence|]. by rewrite Hs.
    - right. split; try done; cbn; [by rewrite Hl|congruence|]. exists i. rewrite P5, P3 in Hn. split; [done|].
      by rewrite Hs, P3; cbn; rewrite P5. }
  destruct e as [e|]; cbn [option_map]; [destruct H' as [[_ ?]|?]; [by left|by right]|by destruct H' as [[? _]|?]].
Qed.

Lemma on_device w p k : plane_on w -> same_device (w_plane w) p -> tb_links (seen k) = tb_links (seen (w_kernel w)) ->
  plane_on (w <| w_plane := p |> <| w_kernel := k |>).
Proof.
  intros [P1 P2 P3 P4 P5 P6] (D1 & D2 & D3 & D4) L. split; cbn; rewrite ?D1, ?D2, ?D3, ?L; auto.
Qed.

Lemma start_user_echo_spec w : plane_on w -> idle true w ->
  exists w' e, start_user_echo nl cfg se w = Some (w', e) /\ plane_on w' /\ idle true w'.
Proof.
  intros P [I1 I2 I3 I4 I5 I6 I7 I8]. unfold start_user_echo. set (failed := fun e : kerr => _).
  match goal with |- context [mbind _ ?m] => assert (X : exists p k e, m = Some (p, k, e) /\
    same_device (w_plane w) p /\ tb_links (seen k) = tb_links (seen (w_kernel w))) end.
  { destruct (_ && _)%bool; [|by do 3 eexists].
    assert (B : forall p k r out, ProbeUserEcho nl (w_plane w) (w_kernel w) (se_echoWrite se) (se_now se) = (p, k, r, out) ->
      same_device (w_plane w) p /\ tb_links (seen k) = tb_links (seen (w_kernel w))).
    { intros p k r out. unfold ProbeUserEcho. destruct (_ || _)%bool; [by intros [= <- <- _ _]|].
      destruct (negb _); [by intros [= <- <- _ _]|]. by apply probe_begin_device. }
    destruct (ProbeUserEcho nl _ _ _ _) as [[[p k] r] out]. destruct (B p k r out eq_refl) as [D L].
    destruct r as [[ch n]|e]; [|by do 3 eexists].
    destruct (control_steps_total (se_echoPackets se) p (se_now se)) as [p1 C]; [apply EO|]. rewrite C. cbn [mbind option_bind].
    assert (Q : exists p2 e, match probe_end p1 ch (se_now se) None (se_now se) with Some x => Some x
       | None => probe_end p1 ch (se_now se) (Some "context deadline exceeded") (se_now se) end = Some (p2, e) /\ same_device p1 p2).
    { destruct (probe_end p1 ch (se_now se) None (se_now se)) as [[p2 e]|] eqn:Pe.
      - do 2 eexists. split; [done|]. by eapply probe_end_device.
      - unfold probe_end. pose proof (failure_device p1 (se_now se)) as F.
        destruct (recordUserEchoFailure p1 (se_now se)) as [[p2 f] u]. do 2 eexists. split; [done|].
        etrans; [exact F|apply clear_device]. }
    destruct Q as (p2 & e & -> & D2). cbn [mbind option_bind]. do 3 eexists. split; [done|]. split; [|done].
    etrans; [exact D|]. etrans; [by eapply control_steps_device|exact D2]. }
  destruct X as (p & k & e & -> & D & L). cbn [mbind option_bind]. destruct e as [e|]; (do 2 eexists; split; [done|]).
  - split; [by apply on_device|by split].
  - split; [|by split]. apply on_device; [done| |done]. etrans; [exact D|apply watchdog_device].
Qed.

(** What is up besides the user plane when the access side has been asked to
    start. *)
Record serving (w : world) : Prop := {
  sv_service : w_service w = NewService None;
  sv_pgw : client_wf (inner (w_pgw w));
  sv_open : cl_closed (inner (w_pgw w)) = false;
  sv_sta : stc_started (w_sta w) = true;
  sv_listening : w_listening w = (false, false);
  sv_radius : w_radius w = NewRadiusServer (cfg_Radius cfg) (cfg_Subscriber cfg) true true
}.

Lemma start_access_spec w : plane_on w -> idle true w ->
  exists w' e, start_access o cfg w = Some (w', e) /\ plane_on w' /\ serving w' /\
    match e with Some _ => w_fds w' = fds0 | None => access_up w' end.
Proof.
  intros [P1 P2 P3 P4 P5 P6] [I1 I2 I3 I4 I5 I6 I7 I8]. unfold start_access. rewrite I1, I2.
  destruct (access_start_stop o (cfg_Access cfg) fds0 (eo_os EO)) as (m & fds' & e & -> & H). cbn [mbind option_bind].
  do 2 eexists. split; [done|]. split; [by split|]. split; [by split|].
  destruct e; cbn [option_map]; [done|]. destruct H as (_ & _ & _ & m' & es & S' & _). by exists m', es.
Qed.

(** The RADIUS servers that a failed start of them leaves listening: the first,
    when the second could not listen; the second, when the context ended and
    the library could not shut the first down in time. *)
Definition radius_left : bool * bool :=
  let rc := cfg_Radius cfg in
  if (match se_ctx se with Some _ => true | None => false end || negb (rd_Enabled rc) || negb (nonempty (rd_Secret rc)))%bool
  then (false, false)
  else match se_listen se, se_acctListen se with
  | CtxDone _, _ | ListenEnded (Some _), _ => (false, false)
  | first, ListenEnded (Some _) => (stays_open first && rat_Enabled (rd_Accounting rc), false)%bool
  | _, CtxDone _ => (false, rat_Enabled (rd_Accounting rc) && match se_shutdown se with Some _ => true | None => false end)%bool
  | _, _ => (false, false)
  end.

Lemma server_cfg rc sub eap acct : let s := NewRadiusServer rc sub eap acct in
  rd_Enabled (rs_cfg s) = rd_Enabled rc /\ rd_Secret (rs_cfg s) = rd_Secret rc /\
  rd_Accounting (rs_cfg s) = rd_Accounting rc /\ rs_eap s = eap /\ rs_accounting s = acct.
Proof. unfold NewRadiusServer. by destruct (_ =? 0). Qed.

Lemma start_radius_spec w : plane_on w -> serving w -> access_up w ->
  exists w' e, start_radius se w = Some (w', e) /\ plane_on w' /\ access_up w' /\ w_service w' = NewService None /\
    client_wf (inner (w_pgw w')) /\ cl_closed (inner (w_pgw w')) = false /\ stc_started (w_sta w') = true /\
    (fst (w_listening w') = true -> fst (w_servers w') = true) /\
    (snd (w_listening w') = true -> snd (w_servers w') = true) /\
    (e <> None -> w_listening w' = radius_left).
Proof.
  intros [P1 P2 P3 P4 P5 P6] [S1 S2 S3 S4 S5 S6] A. unfold start_radius. rewrite S6.
  destruct (radius_Start _ _ _ _ _ _) as [[set stopped] e7] eqn:R. do 2 eexists. split; [done|].
  split; [by split|]. split; [exact A|]. do 4 (split; [done|]). unfold still_listening. cbn [w_listening w_servers upd fst snd].
  split; [destruct (fst set); [done|by cbn]|]. split; [destruct (snd set); [done|by cbn]|]. intros Ne. revert R.
  unfold radius_left, radius_Start. destruct (server_cfg (cfg_Radius cfg) (cfg_Subscriber cfg) true true) as (-> & -> & -> & -> & ->).
  cbn [negb]. destruct (se_ctx se); [by intros [= <- <- _]|]. destruct (rd_Enabled (cfg_Radius cfg)); cbn [negb orb]; [|by intros [= _ _ <-]].
  destruct (nonempty (rd_Secret (cfg_Radius cfg))); cbn [negb]; [|by intros [= <- <- _]].
  unfold radius_Stop. destruct (se_listen se) as [|[l|]|l], (se_shutdown se), (rat_Enabled (rd_Accounting (cfg_Radius cfg))),
    (se_acctListen se) as [|[l'|]|l']; cbn [stays_open negb]; by intros [= <- <- ?].
Qed.

(** What a failed start leaves: the GTP-C socket, from the second phase on the
    Diameter client, from the user plane on the netdev with its sockets, at
    the end the sockets of the access side and [radius_left]. *)
Record left_behind (w : world) (p : phase) : Prop := {
  lb_gtpc : cl_closed (inner (w_pgw w)) = false;
  lb_sta : stc_started (w_sta w) = negb (bool_decide (p = PhPGWProbe));
  lb_radius : w_listening w = if bool_decide (p = PhRadius) then radius_left else (false, false);
  lb_rest : match p with
    | PhPGWProbe | PhProvider | PhDriver | PhRouting => plane_off w /\ w_fds w = fds0
    | PhUserPlane => (plane_off w \/ plane_on w) /\ w_fds w = fds0
    | PhUserProbe | PhAccessSide => plane_on w /\ w_fds w = fds0
    | PhRadius => plane_on w /\ access_up w
    end
}.

(** What a running program holds. *)
Record running (w : world) : Prop := {
  rn_plane : plane_on w;
  rn_access : access_up w;
  rn_pgw : client_wf (inner (w_pgw w));
  rn_service : exists n, reached E n (w_service w);
  rn_auth : fst (w_listening w) = true -> fst (w_servers w) = true;
  rn_acct : snd (w_listening w) = true -> snd (w_servers w) = true
}.

Lemma idle_left d w p : idle d w -> d = negb (bool_decide (p = PhPGWProbe)) -> p <> PhRadius ->
  match p with
  | PhPGWProbe | PhProvider | PhDriver | PhRouting => plane_off w
  | PhUserPlane => plane_off w \/ plane_on w
  | _ => plane_on w
  end -> left_behind w p.
Proof.
  intros [I1 I2 I3 I4 I5 I6 I7 I8] -> Hp H. split; [done|done|by rewrite bool_decide_eq_false_2|]. by destruct p.
Qed.

Lemma start_all_spec w : build cfg se k0 ports0 fds0 = Ok w ->
  exists w' failed, start_all (startup nl h o cfg se) w = Some (w', failed) /\
    match failed with Some (p, _) => left_behind w' p | None => running w' end.
Proof.
  intros [P I]%built. unfold startup. cbn [start_all].
  destruct (start_pgw_spec w P I) as (w1 & e1 & -> & P1 & I1). cbn [mbind option_bind].
  destruct e1; [do 2 eexists; split; [done|by eapply idle_left]|]. unfold start_provider. cbn [mbind option_bind].
  set (w2 := w1 <| w_sta ::= sta_Start |>). assert (P2 : plane_off w2) by (by destruct P1; split).
  assert (I2 : idle true w2) by (destruct I1; split; try done; cbn; unfold sta_Start; by destruct (stc_started (w_sta w1)) eqn:Es).
  clearbody w2. destruct (se_waitOpen se); [do 2 eexists; split; [done|by eapply idle_left]|].
  unfold start_driver. cbn [mbind option_bind].
  destruct (driver_Start _ _); [do 2 eexists; split; [done|by eapply idle_left]|].
  destruct (start_routing_spec w2 P2 I2) as (w3 & e3 & -> & P3 & I3). cbn [mbind option_bind].
  destruct e3; [do 2 eexists; split; [done|by eapply idle_left]|].
  destruct (start_plane_spec w3 P3 I3) as (w4 & e4 & -> & I4 & P4). cbn [mbind option_bind].
  destruct e4; [do 2 eexists; split; [done|by eapply idle_left]|].
  destruct (start_user_echo_spec w4 P4 I4) as (w5 & e5 & -> & P5 & I5). cbn [mbind option_bind].
  destruct e5; [do 2 eexists; split; [done|by eapply idle_left]|].
  destruct (start_access_spec w5 P5 I5) as (w6 & e6 & -> & P6 & S6 & A6). cbn [mbind option_bind].
  destruct e6; [do 2 eexists; split; [done|]; by split; [apply S6..|]|].
  destruct (start_radius_spec w6 P6 S6 A6) as (w7 & e7 & -> & P7 & A7 & V7 & C7 & O7 & D7 & L1 & L2 & L3).
  cbn [mbind option_bind]. destruct e7; (do 2 eexists; split; [done|]).
  - split; [done|done|by apply L3|by split].
  - split; try done. exists 0. rewrite V7. apply reached_new.
Qed.

(** * Stopping *)

(** What the stops of the components [cs] need. *)
Definition stoppable (cs : list component) (w : world) : Prop :=
  (CSessions ∈ cs -> exists n, reached E n (w_service w)) /\ (CAccessSide ∈ cs -> access_up w).

Lemma shutdown_total n s : env_ok E -> reached E n s -> exists s' e, Shutdown E s = Some (s', e).
Proof.
  intros HE R. destruct (wp_result _ _ _ (wp_Shutdown E [] n s (reached_Inv E HE n s R))) as (s' & e & H & _). eauto.
Qed.

Lemma stop_component_total st c cs w :
  env_ok E -> c ∉ cs -> stoppable (c :: cs) w ->
  exists w' e, stop_component nl o E st c w = Some (w', e) /\ stoppable cs w'.
Proof.
  intros HE N [S1 S2]. assert (S1' : CSessions ∈ cs -> exists n, reached E n (w_service w)) by (intros H; apply S1; by right).
  assert (S2' : CAccessSide ∈ cs -> access_up w) by (intros H; apply S2; by right).
  destruct c; cbn [stop_component].
  - destruct S1 as [n R]; [left|]. destruct (shutdown_total n _ HE R) as (s' & e & ->). cbn [mbind option_bind].
    do 2 eexists. split; [done|]. by split.
  - destruct (radius_Stop _ _ _ _) as [[a b] e]. do 2 eexists. split; [done|]. by split.
  - destruct S2 as (m & es & A); [left|]. rewrite A. cbn [mbind option_bind]. do 2 eexists. split; [done|]. by split.
  - destruct (up_Stop nl _ _ _) as [[k ps] e]. do 2 eexists. split; [done|]. by split.
  - do 2 eexists. split; [done|]. by split.
  - do 2 eexists. split; [done|]. by split.
  - do 2 eexists. split; [done|]. by split.
Qed.

Lemma stop_all_expired st cs w : exists errs, stop_all nl o E st cs true w = Some (w, [], errs) /\
  Forall (fun e => ge_deadline e = true) errs /\ length errs = length cs.
Proof.
  induction cs as [|c cs IH]; cbn [stop_all orb]; [by exists []|]. destruct IH as (errs & -> & F & L). cbn [mbind option_bind].
  eexists. split; [done|]. split; [by constructor|]. cbn. by rewrite L.
Qed.

(** The components are asked in order, up to the end of the context, which
    shows in the error. *)
Lemma stop_all_spec st cs w : env_ok E -> NoDup cs -> stoppable cs w ->
  exists w' asked errs, stop_all nl o E st cs false w = Some (w', asked, errs) /\ asked `prefix_of` cs /\
    (Exists (fun c => st_fate st c <> Some true) cs -> existsb ge_deadline errs = true).
Proof.
  intros HE. revert w. induction cs as [|c cs IH]; intros w N S0.
  { exists w, [], []. split; [done|]. split; [done|]. intros H. by apply Exists_nil in H. }
  apply NoDup_cons in N as [Nc N]. cbn [stop_all orb].
  destruct (st_fate st c) as [[|]|] eqn:F.
  - destruct (stop_component_total st c cs w HE Nc S0) as (w1 & e1 & -> & S1). cbn [mbind option_bind].
    destruct (IH w1 N S1) as (w2 & asked & errs & -> & P & X). cbn [mbind option_bind].
    do 3 eexists. split; [done|]. split; [by apply prefix_cons|].
    intros [H|H]%Exists_cons; [congruence|]. rewrite existsb_app, (X H). apply orb_true_r.
  - destruct (stop_all_expired st cs (st_late st c w)) as (errs & -> & D & L). cbn [mbind option_bind].
    do 3 eexists. split; [done|]. split; [apply prefix_cons, prefix_nil|done].
  - destruct (stop_all_expired st cs w) as (errs & -> & D & L). cbn [mbind option_bind].
    do 3 eexists. split; [done|]. split; [apply prefix_nil|done].
Qed.

(** Everything that the start took is given back, [err] being the error of
    the shutdown. *)
Record given_back (st : @stop_env K) (err : option gerr) (w : world) : Prop := {
  gb_fds : w_fds w = fds0;
  gb_ports : w_ports w = ports0;
  gb_links : tb_links (seen (w_kernel w)) = tb_links (seen k0);
  gb_closed : cl_closed (inner (w_pgw w)) = true;
  gb_pending : cl_pending (inner (w_pgw w)) = ∅;
  gb_sta : sst_State (stc_status (w_sta w)) = "stopped" /\ stc_pending (w_sta w) = ∅;
  gb_auth : fst (w_listening w) = false;
  gb_acct : st_shutdown st = None -> snd (w_listening w) = false;
  gb_sessions : locks_granted E \/ err = None ->
    forall id s, get (w_service w) id = Some s -> shutdownShouldDetach (s_State s) = false
}.

(** The order in which the waiting requests are failed is one of the map. *)
Definition map_order (f : gmap Z nat -> list (Z * nat)) : Prop := forall p, f p ≡ₚ map_to_list p.

Lemma sta_stopped c f : map_order f -> let c' := fst (StaClient.Stop c (f (stc_pending c))) in
  sst_State (stc_status c') = "stopped" /\ stc_pending c' = ∅.
Proof.
  intros Hf. unfold StaClient.Stop, failPendingLocked. cbn. split; [done|]. by apply pending_delete_all.
Qed.

(** What the stop of the RADIUS servers closes. *)
Lemma radius_stopped servers open sh ash asked e :
  radius_Stop (fst servers) (snd servers) sh ash = (asked, e) ->
  (fst open = true -> fst servers = true) -> (snd open = true -> snd servers = true) ->
  fst (still_listening open asked) = false /\ (sh = None -> snd (still_listening open asked) = false).
Proof.
  destruct servers as [a b], open as [x y]. unfold radius_Stop, still_listening. cbn [fst snd]. intros R H1 H2.
  assert (Ha : fst asked = a) by (revert R; destruct a, sh; by intros [= <- ?]).
  split; [rewrite Ha; destruct x; [by rewrite H1|done]|]. intros ->.
  assert (Hb : snd asked = b) by (revert R; destruct a; by intros [= <- ?]).
  rewrite Hb. destruct y; [by rewrite H2|done].
Qed.

Lemma stop_in_time st w :
  env_ok E -> map_order (st_pending st) -> running w -> (forall c, st_fate st c = Some true) ->
  exists w' errs, stop_all nl o E st stop_order false w = Some (w', stop_order, errs) /\ given_back st (Join errs) w'.
Proof.
  intros HE HO [P (m & es & A) C (n & R) L1 L2] F. unfold stop_order. cbn [stop_all orb]. rewrite !F.
  cbn [stop_component]. destruct (wp_result _ _ _ (wp_shutdown_detaches E HE n _ (reached_Inv E HE n _ R))) as (s' & e1 & -> & _ & G).
  cbn [mbind option_bind w_servers upd].
  destruct (radius_Stop _ _ _ _) as [asked e2] eqn:Er. cbn [mbind option_bind w_access w_fds upd].
  destruct (radius_stopped _ _ _ _ _ _ Er L1 L2) as [X1 X2].
  rewrite A. cbn [mbind option_bind w_plane w_kernel w_ports upd].
  destruct P as [P1 P2 P3 P4 P5 (i & P6 & P7)]. rewrite P5.
  destruct (up_Stop_on nl (w_plane w) (w_kernel w) ports0 (eo_ports EO) P1 P2 P3) as (k' & -> & Hk).
  { rewrite P7, P4. by rewrite lookup_insert_eq. }
  cbn [mbind option_bind]. do 2 eexists. split; [done|].
  assert (Cl : cl_closed (Close (inner (w_pgw w))) = true)
    by (unfold Close; destruct (cl_closed (inner (w_pgw w))) eqn:Ec; [exact Ec|done]).
  split; [done|done| |exact Cl| |by apply sta_stopped|exact X1|exact X2|].
  - cbn. rewrite Hk. cbn. rewrite P7, P4, delete_insert_eq. by apply delete_id.
  - apply (wf_closed (Close (inner (w_pgw w)))); [by apply (perform_wf (inner (w_pgw w)) OpClose _ [])|exact Cl].
  - intros H. apply G. destruct H as [H|H%Join_none]; [by left|right]. by destruct e1.
Qed.
End Start.


(** ** Three runs *)
Definition demo_program : Config := Default
  <| cfg_Access ::= fun a => a <| ac_Interface := "wlan0" |> <| ac_DHCP ::= fun d => d <| dh_Enabled := true |> |> |>
  <| cfg_Radius ::= fun r => r <| rd_Secret := "s" |> |>
  <| cfg_GTP := (cfg_GTP Default) <| gt_LocalGTPCIP := "192.0.2.1" |> <| gt_RemotePGWGTPCIP := "192.0.2.9" |> |>.

(** The PGW answers the startup probe; the clients of the program listen. *)
Definition demo_start : start_env :=
  mkStartEnv 1000 (Some [0; 0; 0; 7]) None None None
    (mkExchange false true [OpIncoming (answer_packet 8) demo_peer true] WResponse) 5 "" None [] false
    StillRunning StillRunning None None.

Definition all_in_time : @stop_env tables := mkStopEnv map_to_list None None (fun _ => Some true) (fun _ w => w).

(** The access interface is missing. *)
Definition no_interface : packet_os :=
  mkPacketOS (fun _ => Err "no such network interface") (po_fd demo_os) (po_socket demo_os) (po_bind demo_os)
    (po_close demo_os) (po_handle demo_os).

Lemma no_interface_ok : os_ok no_interface.
Proof. exact demo_os_ok. Qed.

Lemma demo_start_ok o : os_ok o -> environment_ok o demo_start [].
Proof.
  intros H. split; [|exact H| |constructor].
  - split; apply not_elem_of_nil.
  - constructor; [|constructor]. by do 3 eexists.
Qed.

Definition start_tables : tables := mkTables ∅ ∅ ∅ ∅ ∅.

Abbreviation demo_run o k := (run table_kernel demo_host o demo_env demo_program demo_start (fun w => w) all_in_time k [] []).

(** The port of the accounting server is taken: the first server is left
    listening by the failed start. *)
Example failed_accounting_leaves_radius :
  match run table_kernel demo_host demo_os demo_env
      (demo_program <| cfg_Radius ::= fun r => r <| rd_Accounting ::= fun a => a <| rat_Enabled := true |> |> |>)
      (mkStartEnv 1000 (Some [0; 0; 0; 7]) None None None
        (mkExchange false true [OpIncoming (answer_packet 8) demo_peer true] WResponse) 5 "" None [] false
        StillRunning (ListenEnded (Some "address already in use")) None None)
      (fun w => w) all_in_time start_tables [] [] with
  | Some (StartFailed w PhRadius _) => w_listening w = (true, false) /\ cl_closed (inner (w_pgw w)) = false
  | _ => False
  end.
Proof. vm_compute. split; reflexivity. Qed.

(** The first run ends in a shutdown.  The second cannot start the access
    side; the next one finds the netdev it left and cannot start either. *)
Definition run_end (r : go (@run_result tables)) : option (option phase * option (list component) * list string) :=
  match r with
  | Some (NotBuilt _) => Some (None, None, [])
  | Some (StartFailed w p _) => Some (Some p, None, map fst (map_to_list (tb_links (w_kernel w))))
  | Some (ShutDown w asked _) => Some (None, Some asked, map fst (map_to_list (tb_links (w_kernel w))))
  | None => None
  end.

Definition kernel_after (r : go (@run_result tables)) : tables :=
  match r with
  | Some (StartFailed w _ _) | Some (ShutDown w _ _) => w_kernel w
  | _ => start_tables
  end.

Example first_run : run_end (demo_run demo_os start_tables) = Some (None, Some stop_order, []).
Proof. vm_compute. reflexivity. Qed.

Definition run_error (r : go (@run_result tables)) : option (option gerr) :=
  match r with Some (ShutDown _ _ e) => Some e | _ => None end.

Example first_run_error : run_error (demo_run demo_os start_tables) = Some None.
Proof. vm_compute. reflexivity. Qed.

Example failed_start_blocks_the_next :
  run_end (demo_run no_interface start_tables) = Some (Some PhAccessSide, None, ["gtp0"]) /\
  run_end (demo_run demo_os (kernel_after (demo_run no_interface start_tables))) = Some (Some PhUserPlane, None, ["gtp0"]).
Proof. split; vm_compute; reflexivity. Qed.

