(* ===== verification/Main.v ===== *)
(** The entry of the program: [Load] and [UnmarshalYAML] of
    [internal/config/config.go] and [main] of [cmd/twag/main.go].  The YAML
    library is an argument: [decode b c] is what [Decode] makes of the octets
    [b] on top of the configuration [c]. *)
From S2P Require Import Prelude.
From S2P Require Import GoNet.
From S2P Require Import Config.
From S2P Require Import Lifecycle.
From S2P Require Import Logging.
Open Scope string_scope.
Open Scope Z_scope.

(** * The configuration file *)

(** The loop of [GTPConfig.UnmarshalYAML] over the keys of the node. *)
Definition mark_key (g : GTPConfig) (key : string) : GTPConfig :=
  if String.eqb key "echo" then g <| gt_legacyEchoSet := true |>
  else if String.eqb key "control_echo" then g <| gt_controlEchoSet := true |>
  else if String.eqb key "user_echo" then g <| gt_userEchoSet := true |>
  else g.

Definition UnmarshalYAML (g : GTPConfig) (decode : GTPConfig -> result GTPConfig string) (keys : list string)
  : result GTPConfig string :=
  match decode g with
  | Err e => Err e
  | Ok g => Ok (fold_left mark_key keys g)
  end.

(** [warn] also prints each warning on the standard error. *)
Definition warning_line (message : string) : string := "VectorCore TWAG: warning: " +:+ message.

Definition Load (read : result (list Z) string) (decode : list Z -> Config -> result Config string)
  : list string * result Config string :=
  match read with
  | Err e => ([], Err ("read config: " +:+ e))
  | Ok b =>
    match decode b Default with
    | Err e => ([], Err ("parse config: " +:+ e))
    | Ok cfg =>
      let cfg := ApplyDefaults cfg in
      (map warning_line (cfg_Warnings cfg),
       match Validate cfg with
       | [] => Ok cfg
       | errs => Err ("config validation failed: " +:+ String.concat "; " errs)
       end)
    end
  end.

(** * [main] *)
Record flags := mkFlags { fl_path : string; fl_validate : bool; fl_version : bool; fl_debug : bool }.

(** What is printed, the exit status, and the configuration [run] was called
    with. *)
Record outcome := mkOutcome { oc_out : list string; oc_err : list string; oc_status : Z; oc_ran : option Config }.

Definition buildInfo (version commit buildDate go_version : string) : string :=
  let nl := String (Ascii.ascii_of_N 10) EmptyString in
  "VectorCore TWAG " +:+ version +:+ nl +:+ "commit: " +:+ commit +:+ nl +:+ "build_date: " +:+ buildDate +:+ nl
  +:+ "go: " +:+ go_version +:+ nl.

Definition fatal (out err : list string) (e : string) : outcome :=
  mkOutcome out (err ++ ["VectorCore TWAG: " +:+ e]) 1 None.

(** The log line of a failed [run] goes to the logger. *)
Definition main (f : flags) (info : string) (read : result (list Z) string) (decode : list Z -> Config -> result Config string)
    (mkdir open : option string) (run : Config -> option gerr) : outcome :=
  if fl_version f then mkOutcome [info] [] 0 None
  else match Load read decode with
  | (warnings, Err e) => fatal [] warnings e
  | (warnings, Ok cfg) =>
    if fl_validate f then mkOutcome ["config valid: " +:+ fl_path f] warnings 0 None
    else match NewLogger (cfg_Logging cfg) (fl_debug f) mkdir open with
    | (out, Err e) => fatal [] (warnings ++ out)%list e
    | (out, Ok _) =>
      mkOutcome [] (warnings ++ out)%list (match run cfg with None => 0 | Some _ => 1 end) (Some cfg)
    end
  end.

(** * What [main] guarantees *)
Lemma Load_Ok read decode out cfg : Load read decode = (out, Ok cfg) ->
  Validate cfg = [] /\ exists b c, read = Ok b /\ decode b Default = Ok c /\ cfg = ApplyDefaults c.
Proof.
  unfold Load. destruct read as [b|e]; [|done]. destruct (decode b Default) as [c|e] eqn:D; [|done].
  destruct (Validate (ApplyDefaults c)) eqn:V; [|done]. intros [= _ <-]. split; [exact V|]. by exists b, c.
Qed.

(** A configuration that was loaded is valid and has its defaults: applying
    them again changes no setting and it can be validated again. *)
Lemma loaded_defaults read decode out cfg : Load read decode = (out, Ok cfg) ->
  ApplyDefaults cfg <| cfg_Warnings := [] |> = cfg <| cfg_Warnings := [] |> /\ Validate (ApplyDefaults cfg) = [].
Proof.
  intros (V & b & c & _ & _ & ->)%Load_Ok. pose proof (apply_defaults_idempotent c) as I. split; [exact I|].
  assert (W : forall x y, x <| cfg_Warnings := [] |> = y <| cfg_Warnings := [] |> -> Validate x = Validate y).
  { intros [] [] H. unfold upd in H. cbn in H. by injection H as <- <- <- <- <- <- <- <- <- <- <-. }
  by rewrite (W _ _ I).
Qed.

(** C40: the program runs with a valid configuration only.  [main] calls [run]
    exactly when no flag asks for something else, the file can be read and
    decoded, the configuration is valid after its defaults were applied, and
    the logger has a sink; the configuration it runs with keeps its settings
    when the defaults are applied again.  The exit status is 0 exactly for a
    printed version, a valid configuration that was only to be validated, and
    a run that ended without an error; every other end prints a line. *)
Theorem main_runs_valid f info read decode mkdir open run :
  let o := main f info read decode mkdir open run in
  (forall cfg, oc_ran o = Some cfg <->
     fl_version f = false /\ fl_validate f = false /\ snd (Load read decode) = Ok cfg /\
     routes (cfg_Logging cfg) (fl_debug f) mkdir open <> []) /\
  (forall cfg, oc_ran o = Some cfg -> Validate cfg = [] /\ ApplyDefaults cfg <| cfg_Warnings := [] |> = cfg <| cfg_Warnings := [] |>) /\
  (oc_status o = 0 <-> fl_version f = true \/ exists cfg, snd (Load read decode) = Ok cfg /\
     (fl_validate f = true \/ oc_ran o = Some cfg /\ run cfg = None)) /\
  (oc_status o = 0 \/ oc_err o <> [] \/ oc_ran o <> None).
Proof.
  intros o. subst o. unfold main. destruct (fl_version f) eqn:Fv.
  { cbn. split_and!; [intros c; split; [done|by intros (? & _)]|done|by split; [left|]|by left]. }
  destruct (Load read decode) as [warnings r] eqn:L. cbn [snd]. destruct r as [cfg|e].
  2: { cbn. split_and!; [intros c; split; [done|by intros (_ & _ & ? & _)]|done| |].
       - split; [done|]. by intros [?|(c & ? & _)].
       - right. left. intros H. by apply app_eq_nil in H as [_ ?]. }
  assert (Hv : Validate cfg = [] /\ ApplyDefaults cfg <| cfg_Warnings := [] |> = cfg <| cfg_Warnings := [] |>)
    by (split; [by apply Load_Ok in L as [? _]|by apply loaded_defaults in L as [? _]]).
  destruct (fl_validate f) eqn:Fl.
  { cbn. split_and!; [intros c; split; [done|by intros (_ & ? & _)]|done| |by left].
    split; [intros _; right; exists cfg; split; [done|by left]|done]. }
  pose proof (new_fails (cfg_Logging cfg) (fl_debug f) mkdir open) as N.
  destruct (NewLogger (cfg_Logging cfg) (fl_debug f) mkdir open) as [out [l|e]]; cbn.
  - assert (R : routes (cfg_Logging cfg) (fl_debug f) mkdir open <> [])
      by (intros R; apply N in R as (? & ? & ?); done).
    split_and!; [|by intros c [= <-]| |by right; right].
    + intros c. split; [by intros [= <-]|by intros (_ & _ & [= <-] & _)].
    + destruct (run cfg) eqn:Er.
      * split; [done|]. intros [?|(c & [= <-] & [?|[_ ?]])]; congruence.
      * split; [intros _; right; exists cfg; split; [done|by right]|done].
  - assert (R : routes (cfg_Logging cfg) (fl_debug f) mkdir open = []) by (apply N; by do 2 eexists).
    split_and!; [|done| |].
    + intros c. split; [done|]. by intros (_ & _ & [= <-] & ?).
    + split; [done|]. by intros [?|(c & _ & [?|[? _]])].
    + right. left. intros H. by apply app_eq_nil in H as [_ ?].
Qed.
